(* ===== verification/_CoqProject ===== *)
-Q . S2P
Prelude.v
Prog.v
Watch.v
GoStrings.v
Json.v
TrimFacts.v
JsonFacts.v
GoFormat.v
Addr.v
Sha256.v
Duration.v
Types.v
Wire.v
WireFacts.v
AgentRPC.v
Bench.v
BenchRestore.v
BenchFacts.v
Lifecycle.v
World.v
Netns.v
Host.v
Agent.v
AgentFacts.v
AgentClient.v
Firecracker.v
Snapshot.v
Sandbox.v
Config.v
UserSnapshot.v
PathFacts.v
Handlers.v
Calls.v
Quiet.v
Untouched.v
Plumbing.v
Places.v
NetnsNames.v
ClientServer.v
Timed.v
Threads.v
Conform.v
Interleave.v
Sample.v
Web.v
NetnsFacts.v
Fallback.v
Concurrency.v
Linear.v
Confine.v
Lifetimes.v
Teardown.v
SnapshotFacts.v
PauseResume.v
GoldenFacts.v
SnapshotRestore.v
SnapshotStore.v
Refusals.v
SshFacts.v
AgentExec.v
HostGuest.v
ReplySize.v
Preflight.v
Start.v
