(* ===== verification/Prelude.v ===== *)
(** * Manta: a verification development

    Manta runs commands in Firecracker microVMs.  A server on the host
    (src/cmd/server) creates, restores, snapshots and destroys sandboxes over
    an HTTP API; an agent inside each VM (src/cmd/agent) executes commands and
    configures the guest's network; they talk over vsock in the framed JSON of
    src/internal/agentrpc.  Two benchmark clients (src/cmd/bench,
    src/cmd/bench_restore) drive the HTTP API.

    ** The model

    A function that computes is a function.  A function that acts is a [prog]
    (Prog.v): the tree of the operations it performs, in the order of the
    source, with [defer], early returns, panics and goroutines joined by
    channels.  The operations are
      - [envE] (World.v): what the server asks of the operating system,
        Firecracker, netlink and the guest; any answer is possible;
      - [memE] (World.v): what it does to the memory that goroutines share (the
        map of sandboxes, the counters, the pool, the mutexes, the lifecycle
        of a sandbox), with [mem_step] as its meaning;
      - [agentE] (Agent.v): what the agent asks of the guest kernel, of the
        commands and of its connection;
      - [benchE] (Bench.v): the HTTP requests and the clock of the clients.
    Package net, vsock, netlink, os/exec, net/http and x/crypto/ssh are not in
    the repository, and appear only as such operations.  What the program uses
    of the Go library to compute is defined on bytes: strings, strconv, fmt and
    filepath (GoStrings.v, GoFormat.v), encoding/json (Json.v, Wire.v), IP
    addresses (Addr.v), time.ParseDuration with its float64 (Duration.v),
    SHA-256 (Sha256.v).

    ** The parts

      - agentrpc.go: Types.v, Wire.v (struct tags), AgentRPC.v (frames);
      - types.go, sandbox_lifecycle.go: Types.v, Lifecycle.v;
      - netns.go, netns_util.go, netns_pool.go, netns_alloc.go, iptables.go,
        cmdutil.go: Netns.v;
      - cgroup.go, procutil.go, the polling loops: Host.v;
      - agent.go (the host's side of a connection): AgentClient.v;
      - firecracker_api.go: Firecracker.v; vm_config.go, snapshot.go:
        Snapshot.v; sandbox.go, restore.go: Sandbox.v; user_snapshot.go:
        UserSnapshot.v;
      - handlers.go, http_util.go, sshutil.go, the routes of main.go:
        Handlers.v, with the shutdown in Sandbox.v;
      - config.go, preflight.go, diagnostics.go, the start in main.go: Config.v;
      - cmd/agent: Agent.v; cmd/bench: Bench.v; cmd/bench_restore:
        BenchRestore.v.
    A definition has the name of the Go function.  A part of a long function
    that is a definition of its own says which part it is.

    ** The theorems

    Concurrent requests.  Interleave.v takes one goroutine per request, any
    scheduler and any answers of the environment.  Threads.v states the
    protocol that a goroutine follows (what it holds and what it may do),
    Conform.v proves that each handler follows it, with the facts of Calls.v
    and Quiet.v about the functions that touch no shared memory, and
    Interleave.v that the invariants of the server follow.  Concurrency.v
    concludes: a pool entry has one owner, published sandboxes are running,
    every request is answered once, no mutex or exec count is left behind, and
    some goroutine can always go on.  Linear.v has the abstract specification
    of the API, a registry of sandboxes: in any interleaving the requests
    behave as if each acted on the registry in one step.

    One request.  Refusals.v: which requests are refused and how, and that a
    refused request does nothing else (a restore is refused by its metadata
    too).  Lifetimes.v: what a create or a restore leaves.  One that fails has
    sent SIGKILL to what it started, asked for its directory to be removed
    (unless failed sandboxes are kept) and given its slot back; except that
    createSandbox loses the slot, and that both may leave a cgroup.
    Teardown.v: what a destroy does, in which order.  PauseResume.v: a
    snapshot resumes the VM it paused, on every path.  GoldenFacts.v: the
    golden snapshot is reused, rebuilt or given up, with its VM gone on every
    path.  SnapshotRestore.v: a snapshot and the restore of its id, end to end
    through the metadata file.  SnapshotStore.v has the abstract specification
    of the snapshot directory, a store from ids to metadata that outlives the
    server, and what each request and its answer mean for it.
    SnapshotFacts.v: the confinement of a delete, the metadata of the golden
    snapshot.  Confine.v: whatever a request says, what its handler and the
    shutdown remove, rename, create and write is below the directories of the
    server (Places.v) or is ip_forward, and the named namespaces they make and
    delete are the server's (NetnsNames.v); the start of the server, with its
    sysctls, firewall rules and probes, is outside of this.
    Timed.v, Lifetimes.v: no polling loop runs for ever.  NetnsFacts.v: the
    pool, the addresses, the release of handles.  Fallback.v: in a kernel that
    refuses a second link of the same name, the first acquisition after the
    pool is drained fails, since its subnet is that of a pool entry.  Start.v: an accepted
    configuration is well formed, the start ends in the initial state of
    Concurrency.v, and only after everything that preflight.go demands was
    granted (Preflight.v).

    The agent and the protocol.  AgentRPC.v: frames round trip, and what
    reader and writer make of any bytes.  AgentFacts.v: every request is answered within its
    limits, a connection refines an abstract server that handles requests one
    by one, a configured interface has the requested IPv4 address and no other
    one.  HostGuest.v
    joins the handler of an exec to the agent: the command runs once and its
    result is the answer; or twice, when the agent reports an error; and the
    time limit of the command is the client's, up to the range of int64.
    ReplySize.v: which replies fit in a frame.  AgentExec.v and SshFacts.v:
    what an exec does on each transport, on every path; in particular which
    reply the host takes for an answer, and which connection it keeps.

    The clients.  BenchFacts.v: they destroy what they create, their
    percentiles are exact.  They are verified against an interface, [service];
    an account of the requests implements it, and so does the server itself:
    Web.v joins the programs of the clients to the handlers by the text of
    their requests and answers, and shows that a whole benchmark leaves no
    sandbox behind, but those whose create was answered after the client's
    timeout or whose destroy was not delivered.  Untouched.v has the part that the handlers share: what a
    request does to the map of sandboxes.  ClientServer.v: clients and server
    read each other's JSON as it is meant.

    Shared by them: PathFacts.v has paths, identifiers and the names made of
    them; Watch.v runs a program with an observer of its operations, with the
    rules for what the observer saw when the program returns; Untouched.v and
    Plumbing.v have the functions that spare what an observer looks at.

    Sample.v and the end of each file hold the concrete environments of the
    witnesses.

    ** Loops and fuel

    A polling loop of the server is given [polls timeout step] rounds, its
    timeout over its sleep, and one more to return; Timed.v proves that they
    are enough for any clock that advances by what is slept.  A program that
    exceeds its rounds ends in [OutOfFuel], which no theorem about results
    confuses with a return.  The JSON parser has as much fuel as the text has
    bytes, which is proved enough for what the program writes; copying from a
    pipe has as many rounds as bytes may be kept.  serveConn and the accept
    loop of the agent, which never end, take the number of rounds, and the
    theorems hold for every number.

    ** Not modelled

    Listening, signals and goroutine start-up of net/http (a request is a new
    goroutine); loggingMiddleware, stage timings of restore.go and other text
    that is only logged; the texts of errors of encoding/json;
    agentConn.mu, since a connection has one user at a time; the flags of the
    clients, which are arguments, and their progress output.  Memory is
    sequentially consistent: data races are not detected. *)

From stdpp Require Export prelude strings list gmap.
From Stdlib Require Export ZArith Lia Ascii.
From Stdlib Require String.

Open Scope Z_scope.
Open Scope list_scope.

(** ** Go errors

    A Go [error] is used by the program in three ways: it is compared with
    [nil], its text is printed, and its chain is inspected with [errors.Is] /
    [errors.As].  An error is its text, kept as a sequence of pieces, and the
    sentinels of its chain. *)

Inductive piece :=
| Lit (s : string)          (* literal text, %s of a string, %d *)
| Quoted (s : string)       (* %q *)
| DurText (d : Z)           (* %s of a time.Duration *).

(** Sentinels and concrete error types the program asks about. *)
Inductive errno :=
| ENOENT | ECONNREFUSED | ESRCH | EBUSY | ENOTEMPTY | EEXIST
| ErrEOF | ErrUnexpectedEOF
| ExitError (code : Z)      (* os/exec.ExitError and ssh.ExitError *).

Record error := MkError { err_text : list piece; err_chain : list errno }.

#[export] Instance piece_eq_dec : EqDecision piece.
Proof. solve_decision. Defined.

#[export] Instance errno_eq_dec : EqDecision errno.
Proof. solve_decision. Defined.

#[export] Instance error_eq_dec : EqDecision error.
Proof. solve_decision. Defined.

(** [fmt.Errorf] without [%w] and [errors.New]: the chain is empty. *)
Definition errorf (t : list piece) : error := MkError t [].

(** [fmt.Errorf("...: %w", err)]: the text is prefixed, the chain kept. *)
Definition wrapf (t : list piece) (e : error) : error :=
  MkError (t ++ [Lit ": "] ++ err_text e) (err_chain e).

(** [errors.Is(err, x)]. *)
Definition errorsIs (e : error) (x : errno) : bool := bool_decide (x ∈ err_chain e).

(** [errors.As(err, *ExitError)]. *)
Definition asExitError (e : error) : option Z :=
  foldr (fun x acc => match x with ExitError c => Some c | _ => acc end) None (err_chain e).

(** A Go [(T, error)] pair whose value is only used when the error is nil. *)
Inductive result (A : Type) :=
| Ok (a : A)
| Err (e : error).
Arguments Ok {A} a.
Arguments Err {A} e.

#[export] Instance result_eq_dec {A} `{EqDecision A} : EqDecision (result A).
Proof. solve_decision. Defined.

Definition is_ok {A} (r : result A) : bool :=
  match r with Ok _ => true | Err _ => false end.

Declare Scope go_scope.
Delimit Scope go_scope with go.
Notation "'let?' x := c 'in' k" :=
  (match c with Ok x => k | Err e => Err e end)
  (at level 10, x pattern, c at level 100, k at level 200) : go_scope.

(** ** Machine integers *)

Definition uint32 (x : Z) : Z := x mod 2 ^ 32.
Definition uint64 (x : Z) : Z := x mod 2 ^ 64.

(** Two's complement reading of the low 64 bits: Go's [int64] (and [int] on
    the 64-bit platforms Firecracker supports, and [time.Duration]). *)
Definition int64 (x : Z) : Z := (x + 2 ^ 63) mod 2 ^ 64 - 2 ^ 63.

Definition nanosecond : Z := 1.
Definition millisecond : Z := 1000000.
Definition second : Z := 1000000000.

(** [Duration.Milliseconds]: truncated division. *)
Definition Milliseconds (d : Z) : Z := Z.quot d millisecond.

(** ** Lemma library *)

Create HintDb manta.
Create Rewrite HintDb manta.

Lemma int64_id x : - 2 ^ 63 <= x < 2 ^ 63 -> int64 x = x.
Proof. intros H. unfold int64. rewrite Z.mod_small; lia. Qed.

Lemma int64_range x : - 2 ^ 63 <= int64 x < 2 ^ 63.
Proof. unfold int64. pose proof (Z.mod_pos_bound (x + 2 ^ 63) (2 ^ 64)). lia. Qed.

Lemma uint32_id x : 0 <= x < 2 ^ 32 -> uint32 x = x.
Proof. apply Z.mod_small. Qed.

Lemma uint64_id x : 0 <= x < 2 ^ 64 -> uint64 x = x.
Proof. apply Z.mod_small. Qed.

#[export] Hint Resolve int64_range : manta.
#[export] Hint Rewrite int64_id uint32_id uint64_id using lia : manta.

(** ** Automation *)

(** Case analysis on the innermost [match] of the goal, then simplification. *)
Ltac go_case :=
  match goal with
  | |- context [match ?x with _ => _ end] => destruct x eqn:?; simplify_eq/=
  end.

(** The same on a hypothesis. *)
Ltac go_case_in H :=
  match type of H with
  | context [match ?x with _ => _ end] => destruct x eqn:?; simplify_eq/=
  end.

(** [lia] with the defining equations of [/] and [mod] by constants. *)
Ltac div_lia := Z.to_euclidean_division_equations; lia.
