(* ===== verification/Prog.v ===== *)
(** * Effectful Go code as event trees

    A Go function that talks to the operating system, to other goroutines or
    to the server's shared memory is a [prog]: a finite tree whose nodes are
    the operations it performs, in order, and whose branches are the answers.
    The file gives the combinators the translation uses (sequencing, [defer],
    goroutines joined by channels, loops), an executable interpreter [run],
    and a predicate transformer [wp] with its rules and its soundness. *)

From S2P Require Export Prelude.

(** [NoFuel] is reached when a loop was given too few iterations. *)
Inductive prog (E : Type -> Type) (A : Type) : Type :=
| Ret (a : A)
| Panic
| NoFuel
| Vis {X : Type} (e : E X) (k : X -> prog E A).
Arguments Ret {E A} a.
Arguments Panic {E A}.
Arguments NoFuel {E A}.
Arguments Vis {E A X} e k.

Inductive outcome (A : Type) :=
| Done (a : A)
| Panicked
| OutOfFuel
| Blocked.
Arguments Done {A} a.
Arguments Panicked {A}.
Arguments OutOfFuel {A}.
Arguments Blocked {A}.

Fixpoint bind {E : Type -> Type} {A B : Type} (p : prog E A) (f : A -> prog E B) : prog E B :=
  match p with
  | Ret a => f a
  | Panic => Panic
  | NoFuel => NoFuel
  | Vis e k => Vis e (fun x => bind (k x) f)
  end.

Definition trigger {E : Type -> Type} {X : Type} (e : E X) : prog E X := Vis e Ret.

Declare Scope prog_scope.
Delimit Scope prog_scope with prog.
Notation "'let!' x := p 'in' q" := (bind p (fun x => q))
  (at level 10, x pattern, p at level 100, q at level 200) : prog_scope.
Notation "p ;;; q" := (bind p (fun _ => q))
  (at level 100, right associativity) : prog_scope.
(** [if x, err := p; err != nil { h }], for [(T, error)] and for [error]. *)
Notation "'try!' x := p 'catch' e => h 'in' q" :=
  (bind p (fun r => match r with Ok x => q | Err e => h end))
  (at level 10, x pattern, p at level 100, e name, h at level 200, q at level 200) : prog_scope.
Notation "'do!' p 'catch' e => h 'in' q" :=
  (bind p (fun r => match r with Some e => h | None => q end))
  (at level 10, p at level 100, e name, h at level 200, q at level 200) : prog_scope.
Open Scope prog_scope.

(** [defer d; body]: [d] runs when [body] returns and when it panics; it is
    given the value of the local variables it captures, [l], at that point.
    [body] returns its result with these variables; [l0] is their value while
    the body has not set them (a panic is the only way to see it). *)
Fixpoint deferWith {E : Type -> Type} {A L : Type} (l0 : L) (body : prog E (A * L)) (d : L -> prog E unit) : prog E A :=
  match body with
  | Ret (a, l) => d l ;;; Ret a
  | Panic => d l0 ;;; Panic
  | NoFuel => NoFuel
  | Vis e k => Vis e (fun x => deferWith l0 (k x) d)
  end.

(** [defer d; body] where [d] captures no variable that [body] changes. *)
Fixpoint defer {E : Type -> Type} {A : Type} (body : prog E A) (d : prog E unit) : prog E A :=
  match body with
  | Ret a => d ;;; Ret a
  | Panic => d ;;; Panic
  | NoFuel => NoFuel
  | Vis e k => Vis e (fun x => defer (k x) d)
  end.

(** [for { body }] with the loop variables [s]; the body answers [inl s'] to
    go round again and [inr r] to leave the loop. *)
Fixpoint loop {E : Type -> Type} {S R : Type} (fuel : nat) (body : S -> prog E (S + R)) (s : S) : prog E R :=
  match fuel with
  | O => NoFuel
  | Datatypes.S n =>
      let! r := body s in
      match r with inl s' => loop n body s' | inr r => Ret r end
  end.

(** [for _, x := range l { body }] where the body may leave the function. *)
Fixpoint forRange {E : Type -> Type} {A R : Type} (l : list A) (body : A -> prog E (option R)) (rest : prog E R) : prog E R :=
  match l with
  | [] => rest
  | x :: xs =>
      let! r := body x in
      match r with Some v => Ret v | None => forRange xs body rest end
  end.

Definition when {E : Type -> Type} (b : bool) (p : prog E unit) : prog E unit := if b then p else Ret tt.

(** Two goroutines whose results are both awaited.  [pick] asks the scheduler
    which of the two performs its next operation. *)
Fixpoint par {E : Type -> Type} {A B : Type} (pick : E bool) (p : prog E A) : prog E B -> prog E (A * B) :=
  fix par_r (q : prog E B) : prog E (A * B) :=
  match p, q with
  | Panic, _ => Panic
  | _, Panic => Panic
  | NoFuel, _ => NoFuel
  | _, NoFuel => NoFuel
  | Ret a, _ => bind q (fun b => Ret (a, b))
  | _, Ret b => bind p (fun a => Ret (a, b))
  | Vis e k, Vis e' k' =>
      Vis pick (fun c : bool =>
        if c then Vis e (fun x => par pick (k x) q)
        else Vis e' (fun y => par_r (k' y)))
  end.

(** ** Running a program against a handler of its operations

    [h] answers an operation in a world and moves the world on; [None] says
    that the operation blocks forever. *)

Section run.
Context {E : Type -> Type} {W : Type}.
Context (h : forall X, E X -> W -> option (X * W)).

Fixpoint run {A} (p : prog E A) (w : W) : outcome A * W :=
  match p with
  | Ret a => (Done a, w)
  | Panic => (Panicked, w)
  | NoFuel => (OutOfFuel, w)
  | Vis e k =>
      match h _ e w with
      | Some (x, w') => run (k x) w'
      | None => (Blocked, w)
      end
  end.

Lemma run_bind {A B} (p : prog E A) (f : A -> prog E B) w :
  run (bind p f) w =
  match run p w with
  | (Done a, w') => run (f a) w'
  | (Panicked, w') => (Panicked, w')
  | (OutOfFuel, w') => (OutOfFuel, w')
  | (Blocked, w') => (Blocked, w')
  end.
Proof.
  revert w. induction p as [a| | |X e k IH]; intros w; simpl; try done.
  destruct (h X e w) as [[x w']|]; [apply IH|done].
Qed.
End run.

(** ** Weakest preconditions

    The logic is given by an abstract state, what must hold before an
    operation ([pre]) and which answers and next states it may have
    ([post]). *)

Section wp.
Context {E : Type -> Type} {S : Type}.
Context (pre : forall X, E X -> S -> Prop).
Context (post : forall X, E X -> S -> X -> S -> Prop).

Fixpoint wp {A} (p : prog E A) (Q : outcome A -> S -> Prop) (s : S) : Prop :=
  match p with
  | Ret a => Q (Done a) s
  | Panic => Q Panicked s
  | NoFuel => Q OutOfFuel s
  | Vis e k => pre _ e s /\ forall x s', post _ e s x s' -> wp (k x) Q s'
  end.

Lemma wp_mono {A} (p : prog E A) (Q Q' : outcome A -> S -> Prop) s :
  (forall o s', Q o s' -> Q' o s') -> wp p Q s -> wp p Q' s.
Proof.
  intros HQ. revert s. induction p as [a| | |X e k IH]; intros s; simpl; auto.
  intros [Hpre Hk]. split; [done|]. intros x s' Hp. apply IH, Hk, Hp.
Qed.

(** What a continuation must establish from an outcome of the first part. *)
Definition bindQ {A B} (f : A -> prog E B) (Q : outcome B -> S -> Prop)
    (o : outcome A) (s : S) : Prop :=
  match o with
  | Done a => wp (f a) Q s
  | Panicked => Q Panicked s
  | OutOfFuel => Q OutOfFuel s
  | Blocked => Q Blocked s
  end.

Lemma wp_bind {A B} (p : prog E A) (f : A -> prog E B) Q s :
  wp p (bindQ f Q) s -> wp (bind p f) Q s.
Proof.
  revert s. induction p as [a| | |X e k IH]; intros s; simpl; auto.
  intros [Hpre Hk]. split; [done|]. intros x s' Hp. apply IH, Hk, Hp.
Qed.

(** The rule of [defer]: the deferred call runs after the body, whatever its
    outcome. *)
Definition deferQ {A} (d : prog E unit) (Q : outcome A -> S -> Prop)
    (o : outcome A) (s : S) : Prop :=
  match o with
  | Done a => wp d (bindQ (fun _ => Ret a) Q) s
  | Panicked => wp d (bindQ (fun _ => Panic) Q) s
  | OutOfFuel => Q OutOfFuel s
  | Blocked => Q Blocked s
  end.

Lemma wp_defer {A} (p : prog E A) d Q s :
  wp p (deferQ d Q) s -> wp (defer p d) Q s.
Proof.
  revert s. induction p as [a| | |X e k IH]; intros s; simpl; auto using @wp_bind.
  intros [Hpre Hk]. split; [done|]. intros x s' Hp. apply IH, Hk, Hp.
Qed.

Definition deferWithQ {A L} (l0 : L) (d : L -> prog E unit) (Q : outcome A -> S -> Prop)
    (o : outcome (A * L)) (s : S) : Prop :=
  match o with
  | Done (a, l) => wp (d l) (bindQ (fun _ => Ret a) Q) s
  | Panicked => wp (d l0) (bindQ (fun _ => Panic) Q) s
  | OutOfFuel => Q OutOfFuel s
  | Blocked => Q Blocked s
  end.

Lemma wp_deferWith {A L} (l0 : L) (p : prog E (A * L)) d Q s :
  wp p (deferWithQ l0 d Q) s -> wp (deferWith l0 p d) Q s.
Proof.
  revert s. induction p as [[a l]| | |X e k IH]; intros s; simpl; auto using @wp_bind.
  intros [Hpre Hk]. split; [done|]. intros x s' Hp. apply IH, Hk, Hp.
Qed.

(** A loop whose invariant [I] is kept by every round. *)
Lemma wp_loop {T R} (I : T -> S -> Prop) (body : T -> prog E (T + R)) Q n t s :
  (forall t s, I t s ->
     wp (body t) (fun o s' =>
       match o with
       | Done (inl t') => I t' s'
       | Done (inr r) => Q (Done r) s'
       | Panicked => Q Panicked s'
       | OutOfFuel => Q OutOfFuel s'
       | Blocked => Q Blocked s'
       end) s) ->
  (forall t s, I t s -> Q OutOfFuel s) ->
  I t s -> wp (loop n body t) Q s.
Proof.
  intros Hbody Hfuel. revert t s. induction n as [|n IH]; intros t s HI; simpl; eauto.
  apply wp_bind. eapply wp_mono; [|by apply Hbody].
  intros [[t'|r]| | |] s' H; simpl; auto.
Qed.

(** ** Goroutines

    When every operation of [q] (and the scheduler's choice) leaves the
    abstract state alone, running [p] and [q] together is as good as running
    [p] and then taking any result of [q]. *)

Definition silent {X} (e : E X) : Prop :=
  (forall s, pre _ e s) /\ forall s x s', post _ e s x s' -> s' = s.

Fixpoint silent_prog {A} (q : prog E A) : Prop :=
  match q with
  | Ret _ | Panic | NoFuel => True
  | Vis e k => silent e /\ forall x, silent_prog (k x)
  end.

(** The outcomes of [q] under any answers. *)
Fixpoint leaf {A} (q : prog E A) (o : outcome A) : Prop :=
  match q with
  | Ret a => o = Done a
  | Panic => o = Panicked
  | NoFuel => o = OutOfFuel
  | Vis e k => exists x, leaf (k x) o
  end.

Definition parQ {A B} (q : prog E B) (Q : outcome (A * B) -> S -> Prop)
    (o : outcome A) (s : S) : Prop :=
  match o with
  | Done a => (forall b, leaf q (Done b) -> Q (Done (a, b)) s)
              /\ (leaf q Panicked -> Q Panicked s)
              /\ (leaf q OutOfFuel -> Q OutOfFuel s)
  | Panicked => Q Panicked s
  | OutOfFuel => Q OutOfFuel s
  | Blocked => Q Blocked s
  end.

Lemma wp_silent_after {A B} (q : prog E B) (a : A) (Q : outcome (A * B) -> S -> Prop) s :
  silent_prog q -> parQ q Q (Done a) s -> wp (bind q (fun b => Ret (a, b))) Q s.
Proof.
  induction q as [b| | |X e k IH]; simpl; intros Hs (H1 & H2 & H3); auto.
  destruct Hs as [[Hpre Hpost] Hs]. split; [done|].
  intros x s' Hp. apply Hpost in Hp as ->. apply IH; [done|].
  repeat split; intros; [apply H1|apply H2|apply H3]; eauto.
Qed.

Lemma wp_par {A B} (pick : E bool) (p : prog E A) (q : prog E B) Q s :
  silent pick -> silent_prog q ->
  (forall s', leaf q Panicked -> Q Panicked s') ->
  (forall s', leaf q OutOfFuel -> Q OutOfFuel s') ->
  wp p (parQ q Q) s -> wp (par pick p q) Q s.
Proof.
  intros [Hcpre Hcpost]. revert q s.
  induction p as [a| | |X e k IHp].
  - intros q s Hq HP HF Hwp. destruct q; simpl in *.
    + by apply Hwp.
    + by apply HP.
    + by apply HF.
    + by apply (wp_silent_after (Vis _ _)).
  - intros q s _ _ _ Hwp. by destruct q.
  - intros q s _ HP _ Hwp. destruct q; simpl in *; auto.
  - induction q as [b| | |Y e' k' IHq]; intros s Hq HP HF Hwp.
    + destruct Hwp as [Hpre Hk]. simpl. split; [done|]. intros x s' Hp.
      apply wp_bind. eapply wp_mono; [|by apply Hk].
      intros [a| | |] s'' H; simpl in *; auto. by apply H.
    + by apply HP.
    + by apply HF.
    + simpl. split; [by apply Hcpre|]. intros c s' Hc. apply Hcpost in Hc as ->.
      destruct c.
      * destruct Hwp as [Hpre Hk]. split; [done|]. intros x s' Hp. apply IHp; auto.
      * destruct Hq as [[Hpre Hpost] Hq]. split; [done|].
        intros y s' Hp. apply Hpost in Hp as ->.
        apply IHq; auto.
        -- intros s'' HL. apply HP. by exists y.
        -- intros s'' HL. apply HF. by exists y.
        -- eapply (wp_mono (Vis e k)); [|exact Hwp].
           intros [a| | |] s'' H; simpl in *; auto.
           destruct H as (H1 & H2 & H3).
           repeat split; intros; [apply H1|apply H2|apply H3]; eauto.
Qed.
End wp.

(** ** Soundness: a run whose world refines the abstract state *)

Section soundness.
Context {E : Type -> Type} {S W : Type}.
Context (pre : forall X, E X -> S -> Prop).
Context (post : forall X, E X -> S -> X -> S -> Prop).
Context (h : forall X, E X -> W -> option (X * W)).
Context (R : W -> S -> Prop).
Context (h_ok : forall X (e : E X) w s x w',
  R w s -> pre X e s -> h X e w = Some (x, w') -> exists s', post X e s x s' /\ R w' s').

Lemma wp_sound {A} (p : prog E A) Q w s :
  wp pre post p Q s -> R w s ->
  fst (run h p w) = Blocked \/ exists s', R (snd (run h p w)) s' /\ Q (fst (run h p w)) s'.
Proof.
  revert w s. induction p as [a| | |X e k IH]; intros w s Hwp HR; simpl in *.
  1-3: right; by exists s.
  destruct Hwp as [Hpre Hk]. destruct (h X e w) as [[x w']|] eqn:Hh; [|by left].
  destruct (h_ok _ _ _ _ _ _ HR Hpre Hh) as (s' & Hp & HR'). eauto.
Qed.

(** When no permitted operation blocks, the run ends. *)
Lemma wp_sound_total {A} (p : prog E A) Q w s :
  (forall X (e : E X) w s, R w s -> pre X e s -> is_Some (h X e w)) ->
  wp pre post p Q s -> R w s ->
  exists s', R (snd (run h p w)) s' /\ Q (fst (run h p w)) s'.
Proof.
  intros Hsome. revert w s. induction p as [a| | |X e k IH]; intros w s Hwp HR; simpl in *.
  1-3: by exists s.
  destruct Hwp as [Hpre Hk]. destruct (Hsome _ _ _ _ HR Hpre) as [[x w'] Hh]. rewrite Hh.
  destruct (h_ok _ _ _ _ _ _ HR Hpre Hh) as (s' & Hp & HR'). eauto.
Qed.
End soundness.
