(* ===== verification/Watch.v ===== *)
(** * Programs run against an environment, and watched

    An environment answers every operation of a program from a state of its
    own; an observer keeps an account of the operations and their answers.
    [awp] proves facts of the account that hold in every environment. *)

From S2P Require Export Prog.

(** ** Environments *)

(** What answers the operations; it never blocks. *)
Definition env_of (E : Type -> Type) (W : Type) : Type := forall X, E X -> W -> X * W.

Definition env_run {E W A} (g : env_of E W) (p : prog E A) (w : W) : outcome A * W :=
  run (fun X e w => Some (g X e w)) p w.

(** The same run under an observer. *)
Definition env_watched {E W T A} (obs : forall X, E X -> X -> T -> T) (g : env_of E W) (p : prog E A)
    (w : W) (t : T) : outcome A * (W * T) :=
  run (fun X e wt => Some (let '(x, w') := g X e (fst wt) in (x, (w', obs X e x (snd wt))))) p (w, t).

(** One operation. *)
Definition ask {E : Type -> Type} {X : Type} (e : E X) : prog E X := trigger e.

Lemma env_run_bind {E W A B} (g : env_of E W) (p : prog E A) (f : A -> prog E B) w :
  env_run g (bind p f) w =
  match env_run g p w with
  | (Done a, w') => env_run g (f a) w'
  | (Panicked, w') => (Panicked, w')
  | (OutOfFuel, w') => (OutOfFuel, w')
  | (Blocked, w') => (Blocked, w')
  end.
Proof. apply run_bind. Qed.

Section awp.
Context {E : Type -> Type} {T : Type}.
Context (obs : forall X, E X -> X -> T -> T).

Definition gpost (X : Type) (e : E X) (t : T) (x : X) (t' : T) : Prop := t' = obs X e x t.

Definition awp {A} (p : prog E A) (Q : outcome A -> T -> Prop) (t : T) : Prop := wp (fun _ _ _ => True) gpost p Q t.

Lemma awp_ret {A} (a : A) Q t : Q (Done a) t -> awp (Ret a) Q t.
Proof. done. Qed.

Lemma awp_ask {X A} (e : E X) (k : X -> prog E A) Q t :
  (forall x, awp (k x) Q (obs _ e x t)) -> awp (bind (ask e) k) Q t.
Proof. intros H. split; [done|]. intros x t' ->. apply H. Qed.

Definition abindQ {A B} (f : A -> prog E B) (Q : outcome B -> T -> Prop) (o : outcome A) (t : T) : Prop :=
  match o with
  | Done a => awp (f a) Q t
  | Panicked => Q Panicked t
  | OutOfFuel => Q OutOfFuel t
  | Blocked => Q Blocked t
  end.

Lemma awp_bind {A B} (p : prog E A) (f : A -> prog E B) Q t : awp p (abindQ f Q) t -> awp (bind p f) Q t.
Proof. intros H. apply wp_bind. eapply wp_mono; [|exact H]. by intros []. Qed.

Lemma awp_mono {A} (p : prog E A) (Q Q' : outcome A -> T -> Prop) t :
  awp p Q t -> (forall o t, Q o t -> Q' o t) -> awp p Q' t.
Proof. intros H HQ. eapply wp_mono; [|exact H]. exact HQ. Qed.

Lemma awp_forRange {A R} (I : T -> Prop) (l : list A) (body : A -> prog E (option R)) rest Q t :
  (forall x t, I t -> awp (body x) (fun o t =>
     match o with
     | Done None => I t
     | Done (Some v) => Q (Done v) t
     | Panicked => Q Panicked t
     | OutOfFuel => Q OutOfFuel t
     | Blocked => Q Blocked t
     end) t) ->
  (forall t, I t -> awp rest Q t) -> I t -> awp (forRange l body rest) Q t.
Proof.
  intros Hbody Hrest. revert t. induction l as [|x l IH]; intros t HI; cbn [forRange]; [by apply Hrest|].
  apply awp_bind. eapply awp_mono; [by apply Hbody|].
  intros [[v|]| | |] t' H; cbn [abindQ]; [exact H|by apply IH|exact H|exact H|exact H].
Qed.

(** What [awp] proves holds of every environment. *)
Lemma awp_watched {W A} (g : env_of E W) (p : prog E A) Q w t :
  awp p Q t -> let '(o, (_, t')) := env_watched obs g p w t in Q o t'.
Proof.
  intros H.
  destruct (wp_sound_total (fun _ _ _ => True) gpost
    (fun X e wt => Some (let '(x, w') := g X e (fst wt) in (x, (w', obs X e x (snd wt)))))
    (fun wt t => snd wt = t)) with (p := p) (Q := Q) (w := (w, t)) (s := t) as (t' & Ht & HQ); try done.
  - intros X e [w1 t1] s x [w2 t2] <- _ Hg. cbn in Hg. destruct (g X e w1) as [y w3]. simplify_eq. by exists (obs X e x t1).
  - unfold env_watched. destruct (run _ p (w, t)) as [o [w' t'']]. cbn in *. by subst.
Qed.
End awp.

Lemma env_watched_run {E W T A} (obs : forall X, E X -> X -> T -> T) (g : env_of E W) (p : prog E A) w t :
  env_run g p w = (fst (env_watched obs g p w t), fst (snd (env_watched obs g p w t))).
Proof.
  unfold env_run, env_watched. revert w t. induction p as [a| | |X e k IH]; intros w t; try done.
  cbn. destruct (g X e w) as [x w']. cbn. apply IH.
Qed.

(** Without an observer. *)
Lemma awp_run {E W A} (g : env_of E W) (p : prog E A) (P : outcome A -> Prop) w :
  awp (fun _ _ _ t => t) p (fun o _ => P o) tt -> P (fst (env_run g p w)).
Proof.
  intros H. rewrite (env_watched_run (fun _ _ _ t => t) g p w tt).
  pose proof (awp_watched (fun _ _ _ t => t) g p _ w tt H) as HP.
  by destruct (env_watched _ _ _ _ _) as [o [w' t']].
Qed.

(** One step of a proof: the rule for the head of the program. *)
Ltac awp_step :=
  cbv beta iota zeta;
  lazymatch goal with
  | |- awp _ (Ret _) _ _ => apply awp_ret
  | |- awp _ (bind (Ret ?a) ?k) _ _ => change (bind (Ret a) k) with (k a)
  | |- awp _ (bind (ask _) _) _ _ => apply awp_ask; intros ?
  | |- awp _ (bind (match ?x with _ => _ end) _) _ _ => destruct x eqn:?
  | |- awp _ (bind _ _) _ _ => apply awp_bind
  | |- awp _ (match ?x with _ => _ end) _ _ => destruct x eqn:?
  | |- abindQ _ _ _ _ _ => cbn [abindQ]
  end; cbv beta iota zeta.

(** The same for a program whose environment is known. *)
Lemma wp_env_run {E W A} (g : env_of E W) (p : prog E A) (Q : outcome A -> W -> Prop) w :
  wp (fun _ _ _ => True) (fun X e w x w' => g X e w = (x, w')) p Q w ->
  let '(o, w') := env_run g p w in Q o w'.
Proof.
  unfold env_run. revert w. induction p as [a| | |X e k IH]; intros w H; try exact H.
  destruct H as [_ H]. cbn. destruct (g X e w) as [x w'] eqn:E1. apply IH, (H x w' eq_refl).
Qed.

(** ** What holds if a program returns

    [ewp p P s]: from the abstract state [s], which the operations change as
    [post] says, [p] returns only with [P]; nothing is claimed of a panic or of
    a program that is out of fuel. *)
Section ewp.
Context {E : Type -> Type} {S : Type}.
Context (post : forall X, E X -> S -> X -> S -> Prop).

Definition returned {A} (P : A -> S -> Prop) (o : outcome A) (s : S) : Prop :=
  match o with Done a => P a s | _ => True end.

Definition ewp {A} (p : prog E A) (P : A -> S -> Prop) (s : S) : Prop := wp (fun _ _ _ => True) post p (returned P) s.

Definition leaves_be {A} (p : prog E A) : Prop := silent_prog (fun _ _ _ => True) post p.

Lemma ewp_ret {A} (a : A) (P : A -> S -> Prop) s : P a s -> ewp (Ret a) P s.
Proof. done. Qed.

Lemma ewp_panic {A} (P : A -> S -> Prop) s : ewp Panic P s.
Proof. exact I. Qed.

Lemma ewp_mono {A} (p : prog E A) (P P' : A -> S -> Prop) s :
  ewp p P s -> (forall a s, P a s -> P' a s) -> ewp p P' s.
Proof. intros H HP. eapply wp_mono; [|exact H]. intros [a| | |] s' Ha; try done. by apply HP. Qed.

Lemma ewp_bind {A B} (p : prog E A) (f : A -> prog E B) P s : ewp p (fun a s => ewp (f a) P s) s -> ewp (bind p f) P s.
Proof. intros H. apply wp_bind. eapply wp_mono; [|exact H]. by intros [a| | |] s'. Qed.

Lemma ewp_ask {X A} (e : E X) (k : X -> prog E A) P s :
  (forall x s', post _ e s x s' -> ewp (k x) P s') -> ewp (bind (trigger e) k) P s.
Proof. by split. Qed.

Lemma ewp_last {X} (e : E X) (P : X -> S -> Prop) s : (forall x s', post _ e s x s' -> P x s') -> ewp (trigger e) P s.
Proof. by split. Qed.

Lemma ewp_any {A} (p : prog E A) s : wp (fun _ _ _ => True) post p (fun _ _ => True) s.
Proof. revert s. induction p as [a| | |X e k IH]; intros s; [done..|]. split; [done|]. intros x s' _. apply IH. Qed.

Lemma ewp_true {A} (p : prog E A) s : ewp p (fun _ _ => True) s.
Proof. eapply wp_mono; [|apply ewp_any]. by intros []. Qed.

Lemma ewp_defer {A} (p : prog E A) d P s : ewp p (fun a s => ewp d (fun _ => P a) s) s -> ewp (defer p d) P s.
Proof.
  intros H. apply wp_defer. eapply wp_mono; [|exact H]. intros [a| | |] s' Ha; [| |done|done]; cbn [deferQ].
  - eapply wp_mono; [|exact Ha]. by intros [] s''.
  - eapply wp_mono; [|apply ewp_any]. by intros [] s''.
Qed.

Lemma ewp_deferWith {A L} (l0 : L) (p : prog E (A * L)) d P s :
  ewp p (fun al s => ewp (d (snd al)) (fun _ => P (fst al)) s) s -> ewp (deferWith l0 p d) P s.
Proof.
  intros H. apply wp_deferWith. eapply wp_mono; [|exact H]. intros [[a l]| | |] s' Ha; [| |done|done]; cbn [deferWithQ].
  - eapply wp_mono; [|exact Ha]. by intros [] s''.
  - eapply wp_mono; [|apply ewp_any]. by intros [] s''.
Qed.

Lemma ewp_loop {X R} (I : X -> S -> Prop) (body : X -> prog E (X + R)) P n x s :
  (forall x s, I x s -> ewp (body x) (fun r s => match r with inl x => I x s | inr r => P r s end) s) ->
  I x s -> ewp (loop n body x) P s.
Proof.
  intros Hbody HI. apply (wp_loop _ _ I); [|done|exact HI]. intros x' s' H.
  eapply wp_mono; [|exact (Hbody x' s' H)]. by intros [[]| | |] s''.
Qed.

Lemma ewp_forRange {A R} (I : S -> Prop) (l : list A) (body : A -> prog E (option R)) rest P s :
  (forall x s, I s -> ewp (body x) (fun r s => match r with None => I s | Some v => P v s end) s) ->
  (forall s, I s -> ewp rest P s) -> I s -> ewp (forRange l body rest) P s.
Proof.
  intros Hbody Hrest. revert s. induction l as [|x l IH]; intros s HI; cbn [forRange]; [by apply Hrest|].
  apply ewp_bind. eapply ewp_mono; [by apply Hbody|]. intros [v|] s' H; [exact H|by apply IH].
Qed.

Lemma ewp_leaves {A} (p : prog E A) (P : A -> S -> Prop) s : leaves_be p -> (forall a, P a s) -> ewp p P s.
Proof.
  unfold leaves_be, ewp. intros Hp HP. induction p as [a| | |X e k IH]; try done; [by apply HP|].
  destruct Hp as [[_ He] Hk]. split; [done|]. intros x s' ->%He. by apply IH.
Qed.

(** A goroutine that leaves the state alone, next to [q]. *)
Lemma ewp_par {A B} (pick : E bool) (p : prog E A) (q : prog E B) P s :
  silent (fun _ _ _ => True) post pick -> leaves_be p -> ewp q (fun b s => forall a, P (a, b) s) s -> ewp (par pick p q) P s.
Proof.
  intros [_ Hpick]. revert q s. induction p as [a| | |X e k IHp]; intros q s Hp Hq.
  - destruct q as [b| | |Y e' k']; try done; [by apply Hq|]. apply ewp_bind. eapply ewp_mono; [exact Hq|]. intros b s' H. apply H.
  - by destruct q.
  - by destruct q.
  - induction q as [b| | |Y e' k' IHq] in s, Hq |- *; try done.
    + apply (ewp_bind (Vis e k)). apply ewp_leaves; [done|]. intros a. apply Hq.
    + split; [done|]. intros c s' ->%Hpick. destruct c.
      * destruct Hp as [[_ He] Hk]. split; [done|]. intros x s1 ->%He. apply IHp; [apply Hk|exact Hq].
      * split; [done|]. intros y s1 Hy. apply IHq. by apply Hq.
Qed.
End ewp.
