(* ===== verification/GoStrings.v ===== *)
(** * The Go string operations the program uses

    A Go string is a sequence of bytes, here a [string] of [ascii].  The
    functions of packages strings, strconv, fmt and path/filepath that the
    source calls are modelled on bytes. *)

From stdpp Require Export pretty.
From S2P Require Export Prelude.

Open Scope string_scope.
Open Scope list_scope.
Open Scope Z_scope.

Open Scope go_scope.

Definition byte_of (c : ascii) : Z := Z.of_N (N_of_ascii c).

(** ** unicode.IsSpace on the UTF-8 encodings of one, two and three bytes *)

Definition is_space1 (a : ascii) : bool :=
  let b := byte_of a in ((9 <=? b) && (b <=? 13)) || (b =? 32).

Definition is_space2 (a b : ascii) : bool :=
  (byte_of a =? 0xC2) && ((byte_of b =? 0x85) || (byte_of b =? 0xA0)).

Definition is_space3 (a b c : ascii) : bool :=
  let x := byte_of a in let y := byte_of b in let z := byte_of c in
  ((x =? 0xE1) && (y =? 0x9A) && (z =? 0x80))
  || ((x =? 0xE2) && (y =? 0x80) && (((0x80 <=? z) && (z <=? 0x8A))
       || (z =? 0xA8) || (z =? 0xA9) || (z =? 0xAF)))
  || ((x =? 0xE2) && (y =? 0x81) && (z =? 0x9F))
  || ((x =? 0xE3) && (y =? 0x80) && (z =? 0x80)).

(** Removes the white space runes at the front; [s1], [s2], [s3] recognise a
    rune by its bytes in the order they are met. *)
Fixpoint strip_front (s1 : ascii -> bool) (s2 : ascii -> ascii -> bool)
    (s3 : ascii -> ascii -> ascii -> bool) (s : string) : string :=
  match s with
  | EmptyString => EmptyString
  | String a r =>
      if s1 a then strip_front s1 s2 s3 r else
      match r with
      | EmptyString => s
      | String b r2 =>
          if s2 a b then strip_front s1 s2 s3 r2 else
          match r2 with
          | EmptyString => s
          | String c r3 => if s3 a b c then strip_front s1 s2 s3 r3 else s
          end
      end
  end.

Definition TrimLeftSpace : string -> string := strip_front is_space1 is_space2 is_space3.

Definition TrimRightSpace (s : string) : string :=
  String.rev (strip_front is_space1 (fun a b => is_space2 b a)
                (fun a b c => is_space3 c b a) (String.rev s)).

(** strings.TrimSpace *)
Definition TrimSpace (s : string) : string := TrimRightSpace (TrimLeftSpace s).

Definition is_empty (s : string) : bool :=
  match s with EmptyString => true | _ => false end.

(** strings.HasPrefix *)
Definition HasPrefix (s pre : string) : bool := String.prefix pre s.

(** strings.Contains *)
Fixpoint Contains (s sub : string) : bool :=
  HasPrefix s sub ||
  match s with EmptyString => false | String _ r => Contains r sub end.

(** strings.ToLower; exact on ASCII text, other bytes are left alone. *)
Definition lower_ascii (c : ascii) : ascii :=
  let b := byte_of c in
  if (65 <=? b) && (b <=? 90) then ascii_of_N (Z.to_N (b + 32)) else c.

Fixpoint ToLower (s : string) : string :=
  match s with
  | EmptyString => EmptyString
  | String c r => String (lower_ascii c) (ToLower r)
  end.

(** s[:n] *)
Definition take_bytes (n : nat) (s : string) : string := String.substring 0 n s.

(** fmt verbs on integers: %d, %03d and %02X (of a byte). *)
Definition itoa (z : Z) : string := pretty z.

Definition pad_left (c : ascii) (n : nat) (s : string) : string :=
  String.concat EmptyString (replicate (n - String.length s) (String c EmptyString)) +:+ s.

(** For a negative number the zeros follow the sign and the width counts it. *)
Definition fmt03d (z : Z) : string :=
  if z <? 0 then "-" +:+ pad_left "0" 2 (itoa (- z)) else pad_left "0" 3 (itoa z).

Definition hex_digit (d : Z) : ascii :=
  ascii_of_N (Z.to_N (if d <? 10 then 48 + d else 55 + d)).

Definition fmt02X (b : Z) : string :=
  String (hex_digit (b / 16 mod 16)) (String (hex_digit (b mod 16)) EmptyString).

Definition is_digit (c : ascii) : bool :=
  let b := byte_of c in (48 <=? b) && (b <=? 57).

Fixpoint str_forall (p : ascii -> bool) (s : string) : bool :=
  match s with EmptyString => true | String c r => p c && str_forall p r end.

(** The value of a digit string, [None] at the first other byte. *)
Fixpoint digits_value (acc : Z) (s : string) : option Z :=
  match s with
  | EmptyString => Some acc
  | String c r => if is_digit c then digits_value (10 * acc + (byte_of c - 48)) r else None
  end.

(** strconv.ParseInt(s, 10, 64) and strconv.Atoi: an optional sign, at least
    one digit, and a value in range. *)
Definition ParseInt (s : string) : option Z :=
  let unsigned r := if is_empty r then None else digits_value 0 r in
  let v :=
    match s with
    | String c r =>
        if Ascii.eqb c "-" then Z.opp <$> unsigned r
        else if Ascii.eqb c "+" then unsigned r
        else unsigned s
    | EmptyString => None
    end in
  match v with
  | Some z => if (- 2 ^ 63 <=? z) && (z <? 2 ^ 63) then Some z else None
  | None => None
  end.

(** ** path/filepath on Unix *)

(** The pieces between occurrences of a byte, the empty ones included. *)
Fixpoint split_on (sep : ascii) (s : string) : list string :=
  match s with
  | EmptyString => [EmptyString]
  | String c r =>
      if Ascii.eqb c sep then EmptyString :: split_on sep r
      else match split_on sep r with
           | [] => [String c EmptyString]
           | x :: xs => String c x :: xs
           end
  end.

Definition split_slash : string -> list string := split_on "/".

Definition rooted (s : string) : bool := HasPrefix s "/".

(** The lexical rules of filepath.Clean on components; [out] is reversed. *)
Fixpoint clean_go (root : bool) (out : list string) (comps : list string) : list string :=
  match comps with
  | [] => rev out
  | x :: xs =>
      if (x =? EmptyString)%string || (x =? ".")%string then clean_go root out xs
      else if (x =? "..")%string then
        match out with
        | y :: ys => if (y =? "..")%string then clean_go root (x :: out) xs
                     else clean_go root ys xs
        | [] => if root then clean_go root [] xs else clean_go root [x] xs
        end
      else clean_go root (x :: out) xs
  end.

Definition clean_comps (s : string) : list string := clean_go (rooted s) [] (split_slash s).

Definition Clean (s : string) : string :=
  if rooted s then "/" +:+ String.concat "/" (clean_comps s)
  else match clean_comps s with [] => "." | cs => String.concat "/" cs end.

(** filepath.Join: empty elements are ignored, the result is cleaned. *)
Definition Join (elem : list string) : string :=
  match filter (fun x => is_empty x = false) elem with
  | [] => EmptyString
  | xs => Clean (String.concat "/" xs)
  end.

(** ** Lemmas *)

(** stdpp keeps [String.append] folded under [simpl]. *)
Lemma string_app_cons x (a b : string) : String x a +:+ b = String x (a +:+ b).
Proof. done. Qed.

Lemma string_app_nil_l (a : string) : EmptyString +:+ a = a.
Proof. done. Qed.

#[export] Hint Rewrite string_app_cons string_app_nil_l : manta.

Lemma string_app_assoc (a b c : string) : (a +:+ b) +:+ c = a +:+ b +:+ c.
Proof. induction a as [|x a IH]; autorewrite with manta; [done|]. by rewrite IH. Qed.

Lemma string_app_nil_r (a : string) : a +:+ EmptyString = a.
Proof. induction a as [|x a IH]; autorewrite with manta; [done|]. by rewrite IH. Qed.

Lemma string_length_app (a b : string) :
  String.length (a +:+ b) = (String.length a + String.length b)%nat.
Proof. induction a as [|x a IH]; autorewrite with manta; simpl; [done|]. by rewrite IH. Qed.

#[export] Hint Rewrite string_app_assoc string_app_nil_r string_length_app : manta.

Lemma string_app_inj_l (a b c : string) : a +:+ b = a +:+ c -> b = c.
Proof.
  induction a as [|x a IH]; autorewrite with manta; [done|].
  intros H. simplify_eq. auto.
Qed.

Lemma string_app_inj_r (a b c : string) : a +:+ c = b +:+ c -> a = b.
Proof.
  revert b. induction a as [|x a IH]; intros [|y b] H; autorewrite with manta in H.
  - done.
  - apply (f_equal String.length) in H. simpl in H. rewrite string_length_app in H. lia.
  - apply (f_equal String.length) in H. simpl in H. rewrite string_length_app in H. lia.
  - simplify_eq. f_equal. auto.
Qed.

Lemma str_forall_app p a b : str_forall p (a +:+ b) = str_forall p a && str_forall p b.
Proof.
  induction a as [|x a IH]; autorewrite with manta; simpl; [done|].
  by rewrite IH, andb_assoc.
Qed.

Lemma is_empty_true s : is_empty s = true <-> s = EmptyString.
Proof. destruct s; simpl; split; congruence. Qed.

Lemma itoa_inj x y : itoa x = itoa y -> x = y.
Proof. apply (inj pretty). Qed.

Lemma HasPrefix_app a b : HasPrefix (a +:+ b) a = true.
Proof.
  unfold HasPrefix. induction a as [|x a IH]; autorewrite with manta; simpl; [by destruct b|].
  destruct (ascii_dec x x); [done|congruence].
Qed.

Lemma HasPrefix_spec s pre : HasPrefix s pre = true <-> exists r, s = pre +:+ r.
Proof.
  split; [|intros [r ->]; apply HasPrefix_app].
  unfold HasPrefix. revert s. induction pre as [|x pre IH]; intros s H; simpl in *.
  { by exists s. }
  destruct s as [|y s]; simpl in H; [done|]. destruct (ascii_dec x y); [|done].
  destruct (IH _ H) as [r ->]. exists r. by subst.
Qed.

(** ** Decimal text *)

Lemma pretty_N_char_digit m :
  (m < 10)%N -> byte_of (pretty_N_char m) = Z.of_N m + 48 /\ is_digit (pretty_N_char m) = true.
Proof.
  intros Hm. assert (m = 0 \/ m = 1 \/ m = 2 \/ m = 3 \/ m = 4 \/ m = 5 \/ m = 6 \/ m = 7
    \/ m = 8 \/ m = 9)%N as Hd by lia.
  by destruct Hd as [->|[->|[->|[->|[->|[->|[->|[->|[-> | ->]]]]]]]]].
Qed.

(** Decimal digits of a positive number in front of [s]: digits only, no
    leading zero, and the value is read back. *)
Lemma pretty_N_go_spec x s :
  exists d, pretty_N_go x s = d +:+ s /\ str_forall is_digit d = true
    /\ ((0 < x)%N -> exists c t, d = String c t /\ c <> "0"%char)
    /\ (forall u, digits_value 0 (d +:+ u) = digits_value (Z.of_N x) u).
Proof.
  revert s. induction (N.lt_wf_0 x) as [x _ IH]. intros s.
  destruct (N.eq_0_gt_0_cases x) as [->|Hx].
  { exists EmptyString. rewrite pretty_N_go_0. split_and!; [done|done|lia|done]. }
  rewrite pretty_N_go_step by done.
  set (c := pretty_N_char (x `mod` 10)).
  assert (byte_of c = Z.of_N (x `mod` 10) + 48 /\ is_digit c = true) as [Hv Hc].
  { apply pretty_N_char_digit. by apply N.mod_lt. }
  destruct (IH (x / 10)%N (N.div_lt x 10 Hx eq_refl) (String c s)) as (d & Hd1 & Hd2 & Hd3 & Hd4).
  exists (d +:+ String c EmptyString). split_and!.
  - by rewrite Hd1, string_app_assoc.
  - rewrite str_forall_app, Hd2. simpl. by rewrite Hc.
  - intros _. destruct (N.eq_0_gt_0_cases (x / 10)) as [H0|H0].
    + rewrite H0 in Hd1. rewrite pretty_N_go_0 in Hd1.
      assert (d = EmptyString) as ->.
      { by apply (string_app_inj_r d EmptyString (String c s)). }
      exists c, EmptyString. split; [done|]. intros Hc0.
      assert (x < 10)%N by (apply N.div_small_iff; [done|exact H0]).
      rewrite Hc0, N.mod_small in Hv by done. change (byte_of "0") with 48 in Hv. lia.
    + destruct (Hd3 H0) as (c' & t & -> & Hc'). by exists c', (t +:+ String c EmptyString).
  - intros u. rewrite string_app_assoc, Hd4. simpl. rewrite Hc, Hv. f_equal.
    rewrite (N.div_mod x 10) at 3 by done. lia.
Qed.

Lemma itoa_neg z : z < 0 -> itoa z = String "-" (itoa (- z)).
Proof. by destruct z. Qed.

Lemma itoa_nonneg z :
  0 <= z ->
  str_forall is_digit (itoa z) = true
  /\ ((z = 0 /\ itoa z = "0") \/ exists c t, itoa z = String c t /\ c <> "0"%char).
Proof.
  intros Hz. destruct z as [|p|p]; [by auto| |lia].
  destruct (pretty_N_go_spec (Npos p) EmptyString) as (d & Hd & H1 & H2 & _).
  assert (itoa (Zpos p) = d) as ->.
  { rewrite string_app_nil_r in Hd. exact Hd. }
  split; [done|]. right. apply H2. lia.
Qed.

Lemma digits_value_itoa z u : 0 <= z -> digits_value 0 (itoa z +:+ u) = digits_value z u.
Proof.
  intros Hz. destruct z as [|p|p]; [done| |lia].
  destruct (pretty_N_go_spec (Npos p) EmptyString) as (d & Hd & _ & _ & H3).
  assert (itoa (Zpos p) = d) as ->.
  { rewrite string_app_nil_r in Hd. exact Hd. }
  apply H3.
Qed.

(** Reading a printed integer gives it back. *)
Lemma ParseInt_itoa z : - 2 ^ 63 <= z < 2 ^ 63 -> ParseInt (itoa z) = Some z.
Proof.
  intros Hz.
  assert (forall y, 0 <= y -> is_empty (itoa y) = false /\ digits_value 0 (itoa y) = Some y) as Hpos.
  { intros y Hy. pose proof (digits_value_itoa y EmptyString Hy) as H.
    rewrite string_app_nil_r in H. split; [|done].
    by destruct (itoa_nonneg y Hy) as [_ [(_ & ->)|(c & t & -> & _)]]. }
  assert ((- 2 ^ 63 <=? z) && (z <? 2 ^ 63) = true) as Hr.
  { apply andb_true_iff; split; [apply Z.leb_le|apply Z.ltb_lt]; lia. }
  unfold ParseInt. destruct (Z.le_gt_cases 0 z) as [H|H].
  - destruct (Hpos z H) as [He Hd]. destruct (itoa_nonneg z H) as [Hdig _].
    destruct (itoa z) as [|c t]; [done|]. simpl in Hdig. apply andb_prop in Hdig as [Hc _].
    destruct (Ascii.eqb_spec c "-") as [->|]; [done|].
    destruct (Ascii.eqb_spec c "+") as [->|]; [done|].
    by rewrite He, Hd, Hr.
  - rewrite (itoa_neg z H). simpl. destruct (Hpos (- z)) as [He Hd]; [lia|].
    rewrite He, Hd. simpl. by rewrite Z.opp_involutive, Hr.
Qed.
