(* ===== verification/Json.v ===== *)
(** * encoding/json as the program uses it

    The wire protocol of the guest agent, the HTTP request bodies and the
    snapshot metadata files are JSON.  This file models the text side of Go's
    encoding/json: the strict scanner, string quoting with HTML escaping and
    replacement of invalid UTF-8, unquoting with surrogate pairs, compact and
    indented output.  Struct mapping is in Wire.v. *)

From S2P Require Export GoStrings.

#[local] Set Warnings "-register-all".

(** A number keeps its literal text, as encoding/json does until the target
    type is known.  Object members keep their order and their duplicates. *)
Inductive json :=
| JNull
| JBool (b : bool)
| JNum (lit : string)
| JStr (s : string)
| JArr (l : list json)
| JObj (l : list (string * json)).

(** ** unicode/utf8 *)

Definition between (lo hi : Z) (c : ascii) : bool :=
  let b := byte_of c in (lo <=? b) && (b <=? hi).

Definition cont (c : ascii) : bool := between 0x80 0xBF c.

(** utf8.DecodeRune on a string whose first byte is at least 0x80: the number
    of bytes of the rune, 0 where Go answers (RuneError, 1). *)
Definition rune_len (s : string) : nat :=
  match s with
  | String a (String b r) =>
      if between 0xC2 0xDF a then (if cont b then 2 else 0)%nat else
      match r with
      | String c r' =>
          if (between 0xE0 0xE0 a && between 0xA0 0xBF b && cont c)
             || ((between 0xE1 0xEC a || between 0xEE 0xEF a) && cont b && cont c)
             || (between 0xED 0xED a && between 0x80 0x9F b && cont c)
          then 3%nat else
          match r' with
          | String d _ =>
              if ((between 0xF0 0xF0 a && between 0x90 0xBF b)
                  || (between 0xF1 0xF3 a && cont b)
                  || (between 0xF4 0xF4 a && between 0x80 0x8F b)) && cont c && cont d
              then 4%nat else 0%nat
          | EmptyString => 0%nat
          end
      | EmptyString => 0%nat
      end
  | _ => 0%nat
  end.

Definition chr (z : Z) : ascii := ascii_of_N (Z.to_N z).

Definition str1 (c : ascii) : string := String c EmptyString.

(** utf8.AppendRune *)
Definition utf8_encode (r : Z) : string :=
  if r <? 0x80 then str1 (chr r)
  else if r <? 0x800 then
    String (chr (0xC0 + r / 64)) (str1 (chr (0x80 + r mod 64)))
  else if r <? 0x10000 then
    String (chr (0xE0 + r / 4096)) (String (chr (0x80 + r / 64 mod 64)) (str1 (chr (0x80 + r mod 64))))
  else
    String (chr (0xF0 + r / 262144)) (String (chr (0x80 + r / 4096 mod 64))
      (String (chr (0x80 + r / 64 mod 64)) (str1 (chr (0x80 + r mod 64))))).

Definition RuneError : Z := 0xFFFD.

(** ** Writing strings (appendString with escapeHTML) *)

Definition QUOTE : ascii := chr 34.
Definition BACKSLASH : ascii := chr 92.

Definition hexlow (d : Z) : ascii := chr (if d <? 10 then 48 + d else 87 + d).

Definition esc2 (c : ascii) : string := String BACKSLASH (str1 c).

Definition esc_u00 (b : Z) : string :=
  String BACKSLASH (String "u" (String "0" (String "0"
    (String (hexlow (b / 16)) (str1 (hexlow (b mod 16))))))).

Definition esc_fffd : string := String BACKSLASH "ufffd".
Definition esc_2028 : string := String BACKSLASH "u2028".
Definition esc_2029 : string := String BACKSLASH "u2029".

(** One ASCII byte. *)
Definition quote_ascii (c : ascii) : string :=
  let b := byte_of c in
  if (b =? 92) || (b =? 34) then esc2 c
  else if b =? 8 then esc2 "b"
  else if b =? 12 then esc2 "f"
  else if b =? 10 then esc2 "n"
  else if b =? 13 then esc2 "r"
  else if b =? 9 then esc2 "t"
  else if (b <? 32) || (b =? 60) || (b =? 62) || (b =? 38) then esc_u00 b
  else str1 c.

(** [n] counts the bytes of the current rune that are still to be copied. *)
Fixpoint quote_go (n : nat) (s : string) : string :=
  match s with
  | EmptyString => EmptyString
  | String c r =>
      match n with
      | S m => String c (quote_go m r)
      | O =>
          if byte_of c <? 128 then quote_ascii c +:+ quote_go 0 r
          else match rune_len s with
               | O => esc_fffd +:+ quote_go 0 r
               | S m =>
                   match r with
                   | String b (String d r') =>
                       if (byte_of c =? 0xE2) && (byte_of b =? 0x80) && (byte_of d =? 0xA8)
                       then esc_2028 +:+ quote_go 0 r'
                       else if (byte_of c =? 0xE2) && (byte_of b =? 0x80) && (byte_of d =? 0xA9)
                       then esc_2029 +:+ quote_go 0 r'
                       else String c (quote_go m r)
                   | _ => String c (quote_go m r)
                   end
               end
      end
  end.

Definition quote (s : string) : string := String QUOTE (quote_go 0 s +:+ str1 QUOTE).

(** What a string becomes on the wire: every byte that starts no valid rune
    is replaced by U+FFFD. *)
Fixpoint sanitize_go (n : nat) (s : string) : string :=
  match s with
  | EmptyString => EmptyString
  | String c r =>
      match n with
      | S m => String c (sanitize_go m r)
      | O => if byte_of c <? 128 then String c (sanitize_go 0 r)
             else match rune_len s with
                  | O => utf8_encode RuneError +:+ sanitize_go 0 r
                  | S m => String c (sanitize_go m r)
                  end
      end
  end.

Definition sanitize : string -> string := sanitize_go 0.

(** utf8.ValidString *)
Fixpoint valid_go (n : nat) (s : string) : bool :=
  match s with
  | EmptyString => true
  | String c r =>
      match n with
      | S m => valid_go m r
      | O => if byte_of c <? 128 then valid_go 0 r
             else match rune_len s with O => false | S m => valid_go m r end
      end
  end.

Definition ValidString : string -> bool := valid_go 0.

(** ** Reading strings *)

Definition hex_val (c : ascii) : option Z :=
  let b := byte_of c in
  if (48 <=? b) && (b <=? 57) then Some (b - 48)
  else if (97 <=? b) && (b <=? 102) then Some (b - 87)
  else if (65 <=? b) && (b <=? 70) then Some (b - 55)
  else None.

Definition hex4 (a b c d : ascii) : option Z :=
  match hex_val a, hex_val b, hex_val c, hex_val d with
  | Some x, Some y, Some z, Some w => Some (4096 * x + 256 * y + 16 * z + w)
  | _, _, _, _ => None
  end.

Definition is_surrogate (r : Z) : bool := (0xD800 <=? r) && (r <? 0xE000).

(** utf16.DecodeRune, [None] for the replacement character. *)
Definition surrogate_pair (r1 r2 : Z) : option Z :=
  if (0xD800 <=? r1) && (r1 <? 0xDC00) && (0xDC00 <=? r2) && (r2 <? 0xE000)
  then Some ((r1 - 0xD800) * 1024 + (r2 - 0xDC00) + 0x10000)
  else None.

Definition unesc (c : ascii) : option ascii :=
  let b := byte_of c in
  if (b =? 34) || (b =? 92) || (b =? 47) then Some c
  else if b =? 98 then Some (chr 8)
  else if b =? 102 then Some (chr 12)
  else if b =? 110 then Some (chr 10)
  else if b =? 114 then Some (chr 13)
  else if b =? 116 then Some (chr 9)
  else None.

(** Prefixes the decoded text of a successful parse. *)
Definition emit (t : string) (o : option (string * string)) : option (string * string) :=
  match o with Some (x, rest) => Some (t +:+ x, rest) | None => None end.

(** The body of a string literal after its opening quote: the decoded text
    and what follows the closing quote. *)
Fixpoint unquote_go (n : nat) (s : string) : option (string * string) :=
  match s with
  | EmptyString => None
  | String c r =>
      match n with
      | S m => emit (str1 c) (unquote_go m r)
      | O =>
          let b := byte_of c in
          if b =? 34 then Some (EmptyString, r)
          else if b =? 92 then
            match r with
            | String e r1 =>
                if byte_of e =? 117 then
                  match r1 with
                  | String h1 (String h2 (String h3 (String h4 r2))) =>
                      match hex4 h1 h2 h3 h4 with
                      | None => None
                      | Some rr =>
                          if is_surrogate rr then
                            match r2 with
                            | String x (String y (String g1 (String g2 (String g3 (String g4 r3))))) =>
                                if (byte_of x =? 92) && (byte_of y =? 117) then
                                  match hex4 g1 g2 g3 g4 with
                                  | Some rr1 =>
                                      match surrogate_pair rr rr1 with
                                      | Some dec => emit (utf8_encode dec) (unquote_go 0 r3)
                                      | None => emit (utf8_encode RuneError) (unquote_go 0 r2)
                                      end
                                  | None => emit (utf8_encode RuneError) (unquote_go 0 r2)
                                  end
                                else emit (utf8_encode RuneError) (unquote_go 0 r2)
                            | _ => emit (utf8_encode RuneError) (unquote_go 0 r2)
                            end
                          else emit (utf8_encode rr) (unquote_go 0 r2)
                      end
                  | _ => None
                  end
                else match unesc e with
                     | Some x => emit (str1 x) (unquote_go 0 r1)
                     | None => None
                     end
            | EmptyString => None
            end
          else if b <? 32 then None
          else if b <? 128 then emit (str1 c) (unquote_go 0 r)
          else match rune_len s with
               | O => emit (utf8_encode RuneError) (unquote_go 0 r)
               | S m => emit (str1 c) (unquote_go m r)
               end
      end
  end.

(** ** Numbers *)

Fixpoint span (p : ascii -> bool) (s : string) : string * string :=
  match s with
  | String c r => if p c then let '(a, b) := span p r in (String c a, b) else (EmptyString, s)
  | EmptyString => (EmptyString, EmptyString)
  end.

(** Digits, at least one. *)
Definition digits1 (s : string) : option (string * string) :=
  let '(d, r) := span is_digit s in if is_empty d then None else Some (d, r).

Definition scan_int (s : string) : option (string * string) :=
  match s with
  | String c r => if Ascii.eqb c "0" then Some (str1 c, r) else digits1 s
  | EmptyString => None
  end.

Definition scan_frac (s : string) : option (string * string) :=
  match s with
  | String c r => if Ascii.eqb c "." then emit (str1 c) (digits1 r) else Some (EmptyString, s)
  | EmptyString => Some (EmptyString, s)
  end.

Definition scan_exp (s : string) : option (string * string) :=
  match s with
  | String c r =>
      if Ascii.eqb c "e" || Ascii.eqb c "E" then
        match r with
        | String g r' => if Ascii.eqb g "+" || Ascii.eqb g "-" then emit (str1 c) (emit (str1 g) (digits1 r'))
                         else emit (str1 c) (digits1 r)
        | EmptyString => None
        end
      else Some (EmptyString, s)
  | EmptyString => Some (EmptyString, s)
  end.

Definition scan_unsigned (s : string) : option (string * string) :=
  match scan_int s with
  | None => None
  | Some (i, r1) =>
      match scan_frac r1 with
      | None => None
      | Some (f, r2) => emit i (emit f (scan_exp r2))
      end
  end.

Definition scan_number (s : string) : option (string * string) :=
  match s with
  | String c r => if Ascii.eqb c "-" then emit (str1 c) (scan_unsigned r) else scan_unsigned s
  | EmptyString => None
  end.

(** ** Values *)

Definition is_ws (c : ascii) : bool :=
  let b := byte_of c in (b =? 32) || (b =? 9) || (b =? 10) || (b =? 13).

Fixpoint skip_ws (s : string) : string :=
  match s with
  | String c r => if is_ws c then skip_ws r else s
  | EmptyString => EmptyString
  end.

(** Expects the byte [c] after white space. *)
Definition expect (c : ascii) (s : string) : option string :=
  match skip_ws s with
  | String d r => if Ascii.eqb d c then Some r else None
  | EmptyString => None
  end.

(** [Some (pre, rest)] when the text starts with [lit]. *)
Definition literal (lit : string) (v : json) (s : string) : option (json * string) :=
  if HasPrefix s lit
  then Some (v, String.substring (String.length lit) (String.length s - String.length lit) s)
  else None.

(** [fuel] bounds the number of values and separators; every one of them
    consumes a byte, so the length of the text is enough. *)
Fixpoint parse (fuel : nat) (s : string) : option (json * string) :=
  match fuel with
  | O => None
  | S n =>
      match skip_ws s with
      | EmptyString => None
      | String c r =>
          let b := byte_of c in
          if b =? 123 then
            match expect "}" r with
            | Some r' => Some (JObj [], r')
            | None => match parse_members n r with
                      | Some (l, r') => Some (JObj l, r')
                      | None => None
                      end
            end
          else if b =? 91 then
            match expect "]" r with
            | Some r' => Some (JArr [], r')
            | None => match parse_elems n r with
                      | Some (l, r') => Some (JArr l, r')
                      | None => None
                      end
            end
          else if b =? 34 then
            match unquote_go 0 r with Some (t, r') => Some (JStr t, r') | None => None end
          else if b =? 116 then literal "true" (JBool true) (String c r)
          else if b =? 102 then literal "false" (JBool false) (String c r)
          else if b =? 110 then literal "null" JNull (String c r)
          else match scan_number (String c r) with
               | Some (t, r') => Some (JNum t, r')
               | None => None
               end
      end
  end
with parse_elems (fuel : nat) (s : string) : option (list json * string) :=
  match fuel with
  | O => None
  | S n =>
      match parse n s with
      | None => None
      | Some (v, r) =>
          match expect "]" r with
          | Some r' => Some ([v], r')
          | None =>
              match expect "," r with
              | None => None
              | Some r' => match parse_elems n r' with
                           | Some (l, r'') => Some (v :: l, r'')
                           | None => None
                           end
              end
          end
      end
  end
with parse_members (fuel : nat) (s : string) : option (list (string * json) * string) :=
  match fuel with
  | O => None
  | S n =>
      match expect QUOTE s with
      | None => None
      | Some r0 =>
      match unquote_go 0 r0 with
      | None => None
      | Some (k, r1) =>
      match expect ":" r1 with
      | None => None
      | Some r2 =>
      match parse n r2 with
      | None => None
      | Some (v, r) =>
          match expect "}" r with
          | Some r' => Some ([(k, v)], r')
          | None =>
              match expect "," r with
              | None => None
              | Some r' => match parse_members n r' with
                           | Some (l, r'') => Some ((k, v) :: l, r'')
                           | None => None
                           end
              end
          end
      end end end end
  end.

Definition text_fuel (s : string) : nat := S (2 * String.length s).

(** json.NewDecoder(r).Decode: the first value; the rest is not looked at. *)
Definition decode_first (s : string) : option json := fst <$> parse (text_fuel s) s.

(** json.Unmarshal: one value, surrounded by white space only. *)
Definition unmarshal_text (s : string) : option json :=
  match parse (text_fuel s) s with
  | Some (v, r) => if is_empty (skip_ws r) then Some v else None
  | None => None
  end.

(** ** Writing values

    [nl d] is what starts a line at depth [d] and [sp] what follows a colon:
    both empty for json.Marshal, a newline with two blanks per level and a
    blank for json.MarshalIndent(v, "", "  "). *)

Section print.
Context (nl : nat -> string) (sp : string).

Fixpoint print (d : nat) (j : json) : string :=
  match j with
  | JNull => "null"
  | JBool true => "true"
  | JBool false => "false"
  | JNum t => t
  | JStr s => quote s
  | JArr [] => "[]"
  | JArr (v :: l) =>
      "[" +:+ nl (S d) +:+ print (S d) v +:+
      (fix elems (l : list json) : string :=
         match l with
         | [] => nl d +:+ "]"
         | v :: l => "," +:+ nl (S d) +:+ print (S d) v +:+ elems l
         end) l
  | JObj [] => "{}"
  | JObj ((k, v) :: l) =>
      "{" +:+ nl (S d) +:+ quote k +:+ ":" +:+ sp +:+ print (S d) v +:+
      (fix members (l : list (string * json)) : string :=
         match l with
         | [] => nl d +:+ "}"
         | (k, v) :: l => "," +:+ nl (S d) +:+ quote k +:+ ":" +:+ sp +:+ print (S d) v +:+ members l
         end) l
  end.
End print.

Definition marshal (j : json) : string := print (fun _ => EmptyString) EmptyString 0 j.

Fixpoint blanks (n : nat) : string :=
  match n with O => EmptyString | S m => "  " +:+ blanks m end.

Definition marshal_indent (j : json) : string :=
  print (fun d => String (chr 10) (blanks d)) " " 0 j.
