(* ===== verification/TrimFacts.v ===== *)
(** * strings.TrimSpace: it is idempotent, and keeps texts without blanks *)

From S2P Require Import Prelude GoStrings Json.

(** ** White space at the front *)

Section strip.
Context (s1 : ascii -> bool) (s2 : ascii -> ascii -> bool) (s3 : ascii -> ascii -> ascii -> bool).

(** No space rune at the front. *)
Definition stuck (s : string) : bool :=
  match s with
  | EmptyString => true
  | String a r =>
      negb (s1 a) &&
      match r with
      | EmptyString => true
      | String b r2 => negb (s2 a b) && match r2 with EmptyString => true | String c _ => negb (s3 a b c) end
      end
  end.

Lemma strip_stuck s : stuck s = true -> strip_front s1 s2 s3 s = s.
Proof.
  destruct s as [|a [|b [|c r]]]; cbn; rewrite ?andb_true_iff, ?negb_true_iff; [done| | |].
  - by intros [-> _].
  - by intros (-> & -> & _).
  - by intros (-> & -> & ->).
Qed.

Lemma strip_is_stuck s : stuck (strip_front s1 s2 s3 s) = true.
Proof.
  induction s as [s IH] using (induction_ltof1 _ String.length). unfold ltof in IH.
  destruct s as [|a [|b [|c r]]]; [done| | |]; cbn [strip_front]; destruct (s1 a) eqn:H1.
  - done.
  - cbn. by rewrite H1.
  - apply (IH (str1 b)). cbn. lia.
  - destruct (s2 a b) eqn:H2; [done|]. cbn. by rewrite H1, H2.
  - apply (IH (String b (String c r))). cbn. lia.
  - destruct (s2 a b) eqn:H2; [apply (IH (String c r)); cbn; lia|].
    destruct (s3 a b c) eqn:H3; [apply (IH r); cbn; lia|]. cbn. by rewrite H1, H2, H3.
Qed.

Lemma strip_suffix s : exists p, s = p +:+ strip_front s1 s2 s3 s.
Proof.
  induction s as [s IH] using (induction_ltof1 _ String.length). unfold ltof in IH.
  destruct s as [|a [|b [|c r]]]; [by exists EmptyString| | |]; cbn [strip_front]; destruct (s1 a).
  - destruct (IH EmptyString) as [p Hp]; [cbn; lia|]. exists (String a p). rewrite string_app_cons. f_equal. exact Hp.
  - by exists EmptyString.
  - destruct (IH (str1 b)) as [p Hp]; [cbn; lia|]. exists (String a p). rewrite string_app_cons. f_equal. exact Hp.
  - destruct (s2 a b); [|by exists EmptyString].
    destruct (IH EmptyString) as [p Hp]; [cbn; lia|]. exists (String a (String b p)). rewrite !string_app_cons. do 2 f_equal. exact Hp.
  - destruct (IH (String b (String c r))) as [p Hp]; [cbn; lia|]. exists (String a p). rewrite string_app_cons. f_equal. exact Hp.
  - destruct (s2 a b).
    + destruct (IH (String c r)) as [p Hp]; [cbn; lia|]. exists (String a (String b p)). rewrite !string_app_cons. do 2 f_equal. exact Hp.
    + destruct (s3 a b c); [|by exists EmptyString].
      destruct (IH r) as [p Hp]; [cbn; lia|]. exists (String a (String b (String c p))). rewrite !string_app_cons. do 3 f_equal. exact Hp.
Qed.

Lemma stuck_prefix s t : stuck (s +:+ t) = true -> stuck s = true.
Proof.
  destruct s as [|a [|b [|c r]]]; [done| | |]; rewrite ?string_app_cons, ?string_app_nil_l; cbn; rewrite ?andb_true_iff.
  - by intros [-> _].
  - by intros (-> & -> & _).
  - done.
Qed.
End strip.

Lemma rev_app_app s u t : String.rev_app s (u +:+ t) = String.rev_app s u +:+ t.
Proof. revert u. induction s as [|a s IH]; intros u; [done|]. cbn. by rewrite <- IH. Qed.

Lemma rev_app_rev s u : String.rev_app s u = String.rev s +:+ u.
Proof. unfold String.rev. by rewrite <- rev_app_app. Qed.

Lemma rev_cons a s : String.rev (String a s) = String.rev s +:+ str1 a.
Proof. unfold String.rev at 1. cbn. apply rev_app_rev. Qed.

Lemma rev_string_app s t : String.rev (s +:+ t) = String.rev t +:+ String.rev s.
Proof.
  induction s as [|a s IH]; [by rewrite string_app_nil_l, string_app_nil_r|].
  by rewrite string_app_cons, !rev_cons, IH, string_app_assoc.
Qed.

Lemma rev_involutive s : String.rev (String.rev s) = s.
Proof. induction s as [|a s IH]; [done|]. by rewrite rev_cons, rev_string_app, IH. Qed.

Lemma TrimSpace_idem s : TrimSpace (TrimSpace s) = TrimSpace s.
Proof.
  unfold TrimSpace at 1. set (t := TrimLeftSpace s).
  set (strip := strip_front is_space1 (fun a b => is_space2 b a) (fun a b c => is_space3 c b a)).
  assert (TrimSpace s = String.rev (strip (String.rev t))) as Hr by done.
  assert (exists u, t = TrimSpace s +:+ u) as [u Hu].
  { destruct (strip_suffix is_space1 (fun a b => is_space2 b a) (fun a b c => is_space3 c b a) (String.rev t)) as [p Hp].
    fold strip in Hp. exists (String.rev p). rewrite Hr, <- rev_string_app, <- Hp. by rewrite rev_involutive. }
  assert (TrimLeftSpace (TrimSpace s) = TrimSpace s) as ->.
  { apply strip_stuck. apply (stuck_prefix _ _ _ _ u). rewrite <- Hu. apply strip_is_stuck. }
  unfold TrimRightSpace. fold strip. rewrite Hr, rev_involutive. f_equal. apply strip_stuck, strip_is_stuck.
Qed.

(** ** Texts of visible ASCII *)

Definition is_visible (c : ascii) : bool := Json.between 33 126 c.

Lemma visible_not_space c : is_visible c = true ->
  is_space1 c = false /\ (forall b, is_space2 c b = false /\ is_space2 b c = false)
  /\ forall b d, is_space3 c b d = false /\ is_space3 b d c = false.
Proof.
  unfold is_visible, Json.between. intros [H1%Z.leb_le H2%Z.leb_le]%andb_prop.
  assert (forall n, 127 <= n -> (byte_of c =? n) = false) as Hn by (intros n Hn; apply Z.eqb_neq; lia).
  assert (forall n, 127 <= n -> (n <=? byte_of c) = false) as Hl by (intros n Hm; apply Z.leb_gt; lia).
  unfold is_space1, is_space2, is_space3. split_and!; [|intros b; split|intros b d; split].
  - apply orb_false_iff. split; [apply andb_false_iff; right; apply Z.leb_gt; lia|apply Z.eqb_neq; lia].
  - by rewrite Hn by lia.
  - rewrite !(Hn 0x85), !(Hn 0xA0) by lia. by rewrite andb_false_r.
  - by rewrite !Hn by lia.
  - rewrite !Hn, !Hl by lia. cbn [andb]. by rewrite !andb_false_r.
Qed.

Lemma visible_stuck_left s : str_forall is_visible s = true -> stuck is_space1 is_space2 is_space3 s = true.
Proof.
  destruct s as [|a r]; [done|]. cbn [str_forall]. intros [Ha _]%andb_prop.
  destruct (visible_not_space a Ha) as (H1 & H2 & H3). cbn. rewrite H1. destruct r as [|b [|c r]]; [done| |];
    rewrite (proj1 (H2 b)); [done|]. by rewrite (proj1 (H3 b c)).
Qed.

Lemma visible_stuck_right s :
  str_forall is_visible s = true -> stuck is_space1 (fun a b => is_space2 b a) (fun a b c => is_space3 c b a) s = true.
Proof.
  destruct s as [|a r]; [done|]. cbn [str_forall]. intros [Ha _]%andb_prop.
  destruct (visible_not_space a Ha) as (H1 & H2 & H3). cbn. rewrite H1. destruct r as [|b [|c r]]; [done| |];
    rewrite (proj2 (H2 b)); [done|]. by rewrite (proj2 (H3 c b)).
Qed.

Lemma str_forall_rev p s : str_forall p (String.rev s) = str_forall p s.
Proof.
  induction s as [|a s IH]; [done|]. rewrite rev_cons, str_forall_app, IH. cbn. rewrite andb_true_r. apply andb_comm.
Qed.

Lemma TrimSpace_visible s : str_forall is_visible s = true -> TrimSpace s = s.
Proof.
  intros Hs. unfold TrimSpace, TrimLeftSpace. rewrite strip_stuck by (by apply visible_stuck_left).
  unfold TrimRightSpace. rewrite strip_stuck, rev_involutive; [done|]. apply visible_stuck_right. by rewrite str_forall_rev.
Qed.
