(* ===== verification/JsonFacts.v ===== *)
(** * The JSON text codec: reading back what is written

    String quoting and value printing are inverted by the parser, for every
    byte string (up to the replacement of invalid UTF-8) and every layout that
    only adds white space. *)

From S2P Require Export Json.

(** Values that Marshal produces: numbers are decimal integers, strings are
    replaced by what they become on the wire. *)
Fixpoint json_map (f : string -> string) (j : json) : json :=
  match j with
  | JStr s => JStr (f s)
  | JArr l => JArr (map (json_map f) l)
  | JObj l => JObj (map (fun p => (f (fst p), json_map f (snd p))) l)
  | _ => j
  end.

Definition on_wire (j : json) : json := json_map sanitize j.

Fixpoint int_numbers (j : json) : Prop :=
  match j with
  | JNum t => exists z, t = itoa z
  | JArr l => Forall id (map int_numbers l)
  | JObj l => Forall id (map (fun p => int_numbers (snd p)) l)
  | _ => True
  end.

(** Fuel that parsing the value needs. *)
Fixpoint need (j : json) : nat :=
  match j with
  | JArr l => S (list_sum (map (fun v => S (need v)) l))
  | JObj l => S (list_sum (map (fun p => S (need (snd p))) l))
  | _ => 1
  end.

(** The text after a number does not continue it. *)
Definition ends_number (s : string) : Prop :=
  match s with
  | EmptyString => True
  | String c _ => is_digit c = false /\ c <> "."%char /\ c <> "e"%char /\ c <> "E"%char
  end.

Fixpoint all_ws (s : string) : Prop :=
  match s with EmptyString => True | String c r => is_ws c = true /\ all_ws r end.

(** ** Bytes *)

Lemma byte_of_range c : 0 <= byte_of c < 256.
Proof. unfold byte_of. pose proof (N_ascii_bounded c). lia. Qed.

Lemma byte_of_inj c d : byte_of c = byte_of d -> c = d.
Proof.
  unfold byte_of. intros H. apply N2Z.inj in H.
  by rewrite <- (ascii_N_embedding c), <- (ascii_N_embedding d), H.
Qed.

Lemma byte_of_chr z : 0 <= z < 256 -> byte_of (chr z) = z.
Proof. intros H. unfold byte_of, chr. rewrite N_ascii_embedding; lia. Qed.

Lemma chr_byte_of c : chr (byte_of c) = c.
Proof. apply byte_of_inj, byte_of_chr, byte_of_range. Qed.

Lemma emit_some t x r : emit t (Some (x, r)) = Some (t +:+ x, r).
Proof. done. Qed.

Lemma emit_emit t u o : emit t (emit u o) = emit (t +:+ u) o.
Proof. destruct o as [[x r]|]; simpl; [|done]. by rewrite string_app_assoc. Qed.

#[export] Hint Rewrite emit_emit : manta.

(** ** Strings *)

(** A multi-byte rune is recognised by its own bytes only. *)
Lemma rune_len_cases s :
  rune_len s = 0%nat
  \/ (exists a b r, s = String a (String b r) /\ forall r', rune_len (String a (String b r')) = 2%nat)
  \/ (exists a b c r, s = String a (String b (String c r)) /\
        forall r', rune_len (String a (String b (String c r'))) = 3%nat)
  \/ (exists a b c d r, s = String a (String b (String c (String d r))) /\
        forall r', rune_len (String a (String b (String c (String d r')))) = 4%nat).
Proof.
  destruct s as [|a [|b r]]; simpl; auto.
  destruct (between 0xC2 0xDF a) eqn:Ha.
  { destruct (cont b) eqn:Hb; [|by left]. right; left.
    exists a, b, r. split; [done|]. intros r'. by rewrite Ha, Hb. }
  destruct r as [|c r]; [by left|].
  match goal with |- context [if ?x then _ else _] => destruct x eqn:H3 end.
  { right; right; left. exists a, b, c, r. split; [done|]. intros r'. by rewrite Ha, H3. }
  destruct r as [|d r]; [by left|].
  match goal with |- context [if ?x then _ else _] => destruct x eqn:H4 end; [|by left].
  right; right; right. exists a, b, c, d, r. split; [done|]. intros r'. by rewrite Ha, H3, H4.
Qed.

(** One ASCII byte is read back. *)
Lemma unquote_quote_ascii c x :
  (byte_of c <? 128) = true ->
  unquote_go 0 (quote_ascii c +:+ x) = emit (str1 c) (unquote_go 0 x).
Proof.
  destruct c as [[] [] [] [] [] [] [] []]; intros H; try (by compute in H); reflexivity.
Qed.

Lemma unquote_fffd x :
  unquote_go 0 (esc_fffd +:+ x) = emit (utf8_encode RuneError) (unquote_go 0 x).
Proof. reflexivity. Qed.

(** A byte of a multi-byte rune is neither a quote nor an escape. *)
Lemma unquote_high c s :
  (byte_of c <? 128) = false ->
  unquote_go 0 (String c s) =
  match rune_len (String c s) with
  | O => emit (utf8_encode RuneError) (unquote_go 0 s)
  | S m => emit (str1 c) (unquote_go m s)
  end.
Proof.
  intros H. simpl. apply Z.ltb_ge in H.
  destruct (byte_of c =? 34) eqn:?; [lia|]. destruct (byte_of c =? 92) eqn:?; [lia|].
  destruct (byte_of c <? 32) eqn:?; [lia|]. destruct (byte_of c <? 128) eqn:?; [lia|]. done.
Qed.

(** U+2028 and U+2029 are the only multi-byte runes that are escaped; they
    have three bytes. *)
Definition separator (c : ascii) (s : string) : bool :=
  match s with
  | String b (String d _) =>
      (byte_of c =? 0xE2) && (byte_of b =? 0x80) && ((byte_of d =? 0xA8) || (byte_of d =? 0xA9))
  | _ => false
  end.

Lemma quote_go_rune c s m :
  (byte_of c <? 128) = false -> rune_len (String c s) = S m ->
  separator c s = false ->
  quote_go 0 (String c s) = String c (quote_go m s).
Proof.
  intros Hc Hl Hn. cbn [quote_go]. rewrite Hc, Hl.
  destruct s as [|b [|d s']]; try done. cbn [separator] in Hn.
  destruct (byte_of c =? 0xE2); [|done]. destruct (byte_of b =? 0x80); [|done].
  destruct (byte_of d =? 0xA8); [done|]. by destruct (byte_of d =? 0xA9).
Qed.

(** The case of a rune that is copied, given the text after it. *)
Lemma unquote_rune c s m r :
  (byte_of c <? 128) = false ->
  (forall s', (String.length s' <= String.length s)%nat ->
     unquote_go 0 (quote_go 0 s' +:+ String QUOTE r) = Some (sanitize_go 0 s', r)) ->
  rune_len (String c s) = S m ->
  unquote_go 0 (String c (quote_go m s) +:+ String QUOTE r) = Some (String c (sanitize_go m s), r).
Proof.
  intros Hc IH Hl. rewrite string_app_cons, unquote_high by done.
  destruct (rune_len_cases (String c s)) as [H|[H|[H|H]]]; [congruence|..].
  - destruct H as (a & b & s' & [= <- ->] & H). rewrite H in Hl. injection Hl as <-.
    cbn [quote_go]. rewrite !string_app_cons, H. cbn [unquote_go].
    rewrite IH by (simpl; lia). done.
  - destruct H as (a & b & d & s' & [= <- ->] & H). rewrite H in Hl. injection Hl as <-.
    cbn [quote_go]. rewrite !string_app_cons, H. cbn [unquote_go].
    rewrite IH by (simpl; lia). done.
  - destruct H as (a & b & d & e & s' & [= <- ->] & H). rewrite H in Hl. injection Hl as <-.
    cbn [quote_go]. rewrite !string_app_cons, H. cbn [unquote_go].
    rewrite IH by (simpl; lia). done.
Qed.

(** The case of the two escaped runes. *)
Lemma unquote_separator d s r :
  byte_of d = 0xA8 \/ byte_of d = 0xA9 ->
  unquote_go 0 (quote_go 0 s +:+ String QUOTE r) = Some (sanitize_go 0 s, r) ->
  let t := String (chr 0xE2) (String (chr 0x80) (String d s)) in
  unquote_go 0 (quote_go 0 t +:+ String QUOTE r) = Some (sanitize_go 0 t, r).
Proof.
  intros Hd IH. cbv zeta.
  assert (d = chr 0xA8 \/ d = chr 0xA9) as [-> | ->].
  { destruct Hd as [Hd|Hd]; [left|right]; by apply byte_of_inj; rewrite Hd. }
  - change (emit (utf8_encode 0x2028) (unquote_go 0 (quote_go 0 s +:+ String QUOTE r))
      = Some (String (chr 0xE2) (String (chr 0x80) (String (chr 0xA8) (sanitize_go 0 s))), r)).
    by rewrite IH.
  - change (emit (utf8_encode 0x2029) (unquote_go 0 (quote_go 0 s +:+ String QUOTE r))
      = Some (String (chr 0xE2) (String (chr 0x80) (String (chr 0xA9) (sanitize_go 0 s))), r)).
    by rewrite IH.
Qed.

(** Every string literal is read back, with invalid bytes replaced. *)
Lemma unquote_quote_go s r :
  unquote_go 0 (quote_go 0 s +:+ String QUOTE r) = Some (sanitize s, r).
Proof.
  unfold sanitize. induction s as [s IH] using (induction_ltof1 _ String.length). unfold ltof in IH.
  destruct s as [|c s]; [done|].
  destruct (byte_of c <? 128) eqn:Hc.
  { cbn [quote_go sanitize_go]. rewrite Hc, string_app_assoc, unquote_quote_ascii by done.
    rewrite IH by (simpl; lia). done. }
  destruct (rune_len (String c s)) as [|m] eqn:Hl.
  { cbn [quote_go sanitize_go]. rewrite Hc, Hl, string_app_assoc, unquote_fffd.
    rewrite IH by (simpl; lia). done. }
  destruct (separator c s) eqn:Hsep.
  - destruct s as [|b [|d s]]; [done..|]. cbn [separator] in Hsep.
    rewrite !andb_true_iff, orb_true_iff, !Z.eqb_eq in Hsep. destruct Hsep as [[Ec Eb] Ed].
    assert (c = chr 0xE2) as -> by (by apply byte_of_inj; rewrite Ec).
    assert (b = chr 0x80) as -> by (by apply byte_of_inj; rewrite Eb).
    apply unquote_separator; [done|]. apply IH. simpl. lia.
  - rewrite (quote_go_rune c s m) by done.
    cbn [sanitize_go]. rewrite Hc, Hl. apply unquote_rune; [done| |done].
    intros s' Hs. apply IH. simpl. lia.
Qed.

Lemma sanitize_valid s : ValidString s = true -> sanitize s = s.
Proof.
  unfold sanitize, ValidString. generalize 0%nat as n. induction s as [|c s IH]; intros n H; [done|].
  cbn [sanitize_go valid_go] in *. destruct n as [|n]; [|by rewrite IH].
  destruct (byte_of c <? 128); [by rewrite IH|].
  destruct (rune_len (String c s)); [done|]. by rewrite IH.
Qed.

Lemma quote_roundtrip s r :
  unquote_go 0 (quote_go 0 s +:+ String QUOTE r) = Some (sanitize s, r).
Proof. apply unquote_quote_go. Qed.

(** ** Numbers *)

Lemma span_digits t r :
  str_forall is_digit t = true -> (forall c x, r = String c x -> is_digit c = false) ->
  span is_digit (t +:+ r) = (t, r).
Proof.
  intros Ht Hr. induction t as [|c t IH]; autorewrite with manta.
  - destruct r as [|c r]; [done|]. simpl. by rewrite (Hr c r).
  - simpl in *. apply andb_prop in Ht as [Hc Ht]. by rewrite Hc, IH.
Qed.

Lemma ends_number_digit r : ends_number r -> forall c x, r = String c x -> is_digit c = false.
Proof. intros H c x ->. apply H. Qed.

Lemma scan_frac_exp_end r : ends_number r -> scan_frac r = Some (EmptyString, r) /\ scan_exp r = Some (EmptyString, r).
Proof.
  destruct r as [|c r]; simpl; [done|]. intros (_ & H1 & H2 & H3).
  destruct (Ascii.eqb_spec c "."); [done|].
  destruct (Ascii.eqb_spec c "e"); [done|]. by destruct (Ascii.eqb_spec c "E").
Qed.

Lemma scan_unsigned_itoa z r :
  0 <= z -> ends_number r -> scan_unsigned (itoa z +:+ r) = Some (itoa z, r).
Proof.
  intros Hz Hr. unfold scan_unsigned.
  assert (scan_int (itoa z +:+ r) = Some (itoa z, r)) as ->.
  { destruct (itoa_nonneg z Hz) as [Hd Hshape].
    destruct Hshape as [(-> & ->)|(c & t & Ht & Hc)]; [done|].
    rewrite Ht, string_app_cons. unfold scan_int.
    destruct (Ascii.eqb_spec c "0"); [done|].
    unfold digits1. rewrite <- string_app_cons, <- Ht.
    rewrite (span_digits _ _ Hd (ends_number_digit _ Hr)). by rewrite Ht. }
  destruct (scan_frac_exp_end r Hr) as [-> ->].
  simpl. by rewrite string_app_nil_r.
Qed.

Lemma is_digit_not_minus c : is_digit c = true -> c <> "-"%char.
Proof. intros H ->. by compute in H. Qed.

Lemma itoa_head_not_minus z : 0 <= z -> exists c t, itoa z = String c t /\ is_digit c = true.
Proof.
  intros Hz. destruct (itoa_nonneg z Hz) as [Hd [(-> & ->)|(c & t & Ht & Hc)]].
  - by exists "0"%char, EmptyString.
  - exists c, t. split; [done|]. rewrite Ht in Hd. simpl in Hd. by apply andb_prop in Hd as [? _].
Qed.

Lemma scan_number_itoa z r : ends_number r -> scan_number (itoa z +:+ r) = Some (itoa z, r).
Proof.
  intros Hr. destruct (Z.le_gt_cases 0 z) as [Hz|Hz].
  - destruct (itoa_head_not_minus z Hz) as (c & t & Ht & Hc).
    rewrite <- (scan_unsigned_itoa z r Hz Hr). rewrite Ht. rewrite string_app_cons. simpl.
    destruct (Ascii.eqb_spec c "-"); [by apply is_digit_not_minus in Hc|done].
  - rewrite (itoa_neg z Hz), string_app_cons. simpl.
    rewrite scan_unsigned_itoa by (done || lia). done.
Qed.

(** ** Values *)

(** Induction over nested lists. *)
Lemma json_nested_ind (P : json -> Prop) :
  P JNull -> (forall b, P (JBool b)) -> (forall t, P (JNum t)) -> (forall s, P (JStr s)) ->
  (forall l, Forall P l -> P (JArr l)) ->
  (forall l, Forall (fun p => P (snd p)) l -> P (JObj l)) ->
  forall j, P j.
Proof.
  intros Hnull Hbool Hnum Hstr Harr Hobj. fix IH 1. intros [ |b|t|s|l|l];
    [exact Hnull|apply Hbool|apply Hnum|apply Hstr| |].
  - apply Harr. induction l as [|v l IHl]; constructor; [apply IH|exact IHl].
  - apply Hobj. induction l as [|[k v] l IHl]; constructor; [apply IH|exact IHl].
Qed.

Lemma skip_ws_app w s : all_ws w -> skip_ws (w +:+ s) = skip_ws s.
Proof.
  induction w as [|c w IH]; autorewrite with manta; simpl; [done|].
  intros [Hc Hw]. by rewrite Hc, IH.
Qed.

Lemma expect_ws c w s : all_ws w -> expect c (w +:+ s) = expect c s.
Proof. intros Hw. unfold expect. by rewrite skip_ws_app. Qed.

Lemma parse_ws n w s : all_ws w -> parse n (w +:+ s) = parse n s.
Proof. intros Hw. destruct n as [|n]; [done|]. simpl. by rewrite skip_ws_app. Qed.

Lemma parse_elems_ws n w s : all_ws w -> parse_elems n (w +:+ s) = parse_elems n s.
Proof. intros Hw. destruct n as [|n]; [done|]. cbn [parse_elems]. by rewrite parse_ws. Qed.

Lemma parse_members_ws n w s : all_ws w -> parse_members n (w +:+ s) = parse_members n s.
Proof. intros Hw. destruct n as [|n]; [done|]. simpl. by rewrite expect_ws. Qed.

Lemma expect_hit c s : is_ws c = false -> expect c (String c s) = Some s.
Proof. intros H. unfold expect. simpl. rewrite H. by rewrite Ascii.eqb_refl. Qed.

Lemma expect_str1 c s : is_ws c = false -> expect c (String c EmptyString +:+ s) = Some s.
Proof. apply expect_hit. Qed.

Lemma expect_miss_str1 c d s :
  is_ws d = false -> d <> c -> expect c (String d EmptyString +:+ s) = None.
Proof. intros H Hne. unfold expect. simpl. rewrite H. by destruct (Ascii.eqb_spec d c). Qed.

Lemma quote_app k s : quote k +:+ s = String QUOTE (quote_go 0 k +:+ String QUOTE s).
Proof. unfold quote. by rewrite string_app_cons, string_app_assoc. Qed.

Lemma expect_miss c d s : is_ws d = false -> d <> c -> expect c (String d s) = None.
Proof.
  intros H Hne. unfold expect. simpl. rewrite H. by destruct (Ascii.eqb_spec d c).
Qed.

Lemma substring_all s : String.substring 0 (String.length s) s = s.
Proof. induction s as [|c s IH]; simpl; [done|]. by rewrite IH. Qed.

Lemma literal_app lit v r : literal lit v (lit +:+ r) = Some (v, r).
Proof.
  unfold literal. rewrite HasPrefix_app, string_length_app. f_equal. f_equal.
  replace (_ + _ - _)%nat with (String.length r) by lia.
  induction lit as [|c lit IH]; [apply substring_all|exact IH].
Qed.

(** A value starts with a byte that is no white space and closes nothing. *)
Definition starts_value (s : string) : Prop :=
  exists c r, s = String c r /\ is_ws c = false /\ c <> "]"%char /\ c <> "}"%char.

Section layout.
Context (nl : nat -> string) (sp : string).
Context (nl_ws : forall d, all_ws (nl d)) (sp_ws : all_ws sp).

(** The tails of the printed containers. *)
Fixpoint print_elems (d : nat) (l : list json) : string :=
  match l with
  | [] => nl d +:+ "]"
  | v :: l => "," +:+ nl (S d) +:+ print nl sp (S d) v +:+ print_elems d l
  end.

Fixpoint print_members (d : nat) (l : list (string * json)) : string :=
  match l with
  | [] => nl d +:+ "}"
  | (k, v) :: l =>
      "," +:+ nl (S d) +:+ quote k +:+ ":" +:+ sp +:+ print nl sp (S d) v +:+ print_members d l
  end.

Lemma print_arr d v l :
  print nl sp d (JArr (v :: l)) = "[" +:+ nl (S d) +:+ print nl sp (S d) v +:+ print_elems d l.
Proof. simpl. do 3 f_equal. induction l as [|w l IH]; [done|]. simpl. by rewrite IH. Qed.

Lemma print_obj d k v l :
  print nl sp d (JObj ((k, v) :: l)) =
  "{" +:+ nl (S d) +:+ quote k +:+ ":" +:+ sp +:+ print nl sp (S d) v +:+ print_members d l.
Proof. simpl. do 6 f_equal. induction l as [|[k' w] l IH]; [done|]. simpl. by rewrite IH. Qed.

Lemma print_starts d j : int_numbers j -> starts_value (print nl sp d j).
Proof.
  destruct j as [ |[]|t|s|[|v l]|[|[k v] l]]; intros Hn; try (by do 2 eexists).
  destruct Hn as [z ->]. destruct (Z.le_gt_cases 0 z) as [Hz|Hz].
  - destruct (itoa_head_not_minus z Hz) as (c & t & Ht & Hc). exists c, t. split; [exact Ht|].
    by destruct c as [[] [] [] [] [] [] [] []].
  - exists "-"%char, (itoa (- z)). split; [by apply itoa_neg|done].
Qed.

Lemma ends_number_ws w s : all_ws w -> ends_number s -> ends_number (w +:+ s).
Proof.
  destruct w as [|c w]; [done|]. intros [Hc _] _. simpl.
  by destruct c as [[] [] [] [] [] [] [] []].
Qed.

Lemma print_elems_end d l r : ends_number (print_elems d l +:+ r).
Proof.
  destruct l as [|v l]; cbn [print_elems]; rewrite string_app_assoc; [|done].
  by apply ends_number_ws.
Qed.

Lemma print_members_end d l r : ends_number (print_members d l +:+ r).
Proof.
  destruct l as [|[k v] l]; cbn [print_members]; rewrite string_app_assoc; [|done].
  by apply ends_number_ws.
Qed.

(** The bytes at which the parser decides. *)
Lemma parse_str n s r : parse (S n) (quote s +:+ r) = Some (JStr (sanitize s), r).
Proof.
  unfold quote. rewrite string_app_cons, string_app_assoc.
  change (str1 QUOTE +:+ r) with (String QUOTE r).
  cbn [parse skip_ws]. change (is_ws QUOTE) with false. cbv iota.
  change (byte_of QUOTE) with 34. cbn [Z.eqb Pos.eqb].
  by rewrite unquote_quote_go.
Qed.

Lemma parse_num n z r : ends_number r -> parse (S n) (itoa z +:+ r) = Some (JNum (itoa z), r).
Proof.
  intros Hr. pose proof (scan_number_itoa z r Hr) as Hs.
  assert (exists c t, itoa z +:+ r = String c t /\ (is_digit c = true \/ c = "-"%char)) as (c & t & Ht & Hc).
  { destruct (Z.le_gt_cases 0 z) as [Hz|Hz].
    - destruct (itoa_head_not_minus z Hz) as (c & t & -> & Hc). exists c, (t +:+ r). auto.
    - rewrite (itoa_neg z Hz). eexists _, _. rewrite string_app_cons. auto. }
  rewrite Ht in *. cbn [parse skip_ws].
  assert (is_ws c = false /\ (byte_of c =? 123) = false /\ (byte_of c =? 91) = false
    /\ (byte_of c =? 34) = false /\ (byte_of c =? 116) = false /\ (byte_of c =? 102) = false
    /\ (byte_of c =? 110) = false) as (H1 & H2 & H3 & H4 & H5 & H6 & H7).
  { destruct Hc as [Hc| ->]; [|done].
    by destruct c as [[] [] [] [] [] [] [] []]. }
  by rewrite H1, H2, H3, H4, H5, H6, H7, Hs.
Qed.

Lemma expect_close c v r d :
  int_numbers v -> c = "]"%char \/ c = "}"%char ->
  expect c (nl d +:+ print nl sp d v +:+ r) = None.
Proof.
  intros Hv Hc. rewrite expect_ws by done.
  destruct (print_starts d v Hv) as (x & t & -> & Hx & H1 & H2).
  rewrite string_app_cons. apply expect_miss; [done|]. by destruct Hc as [->| ->].
Qed.

(** What the parser of element lists does on the printed tail. *)
Lemma parse_elems_print d n v l r :
  Forall (fun v => forall d n r, int_numbers v -> ends_number r -> (need v <= n)%nat ->
            parse n (print nl sp d v +:+ r) = Some (on_wire v, r)) (v :: l) ->
  Forall int_numbers (v :: l) ->
  (list_sum (map (fun v => S (need v)) (v :: l)) <= n)%nat ->
  parse_elems n (print nl sp (S d) v +:+ print_elems d l +:+ r) = Some (map on_wire (v :: l), r).
Proof.
  revert n v. induction l as [|w l IH]; intros n v HP HV Hn; inversion HP as [|? ? Hv HP']; subst;
    inversion HV as [|? ? HVv HV']; subst; simpl in Hn; (destruct n as [|n]; [lia|]);
    cbn [parse_elems]; (rewrite Hv; [|done|apply print_elems_end|lia]); cbn [print_elems].
  - rewrite string_app_assoc, expect_ws, expect_str1 by done. done.
  - rewrite !string_app_assoc, expect_miss_str1, expect_str1 by done.
    destruct n as [|n]; [simpl in Hn; lia|].
    rewrite parse_elems_ws by done. rewrite IH; [done|done|done|]. simpl in *. lia.
Qed.

Lemma parse_members_print d n k v l r :
  Forall (fun p => forall d n r, int_numbers (snd p) -> ends_number r -> (need (snd p) <= n)%nat ->
            parse n (print nl sp d (snd p) +:+ r) = Some (on_wire (snd p), r)) ((k, v) :: l) ->
  Forall (fun p => int_numbers (snd p)) ((k, v) :: l) ->
  (list_sum (map (fun p => S (need (snd p))) ((k, v) :: l)) <= n)%nat ->
  parse_members n (quote k +:+ ":" +:+ sp +:+ print nl sp (S d) v +:+ print_members d l +:+ r)
  = Some (map (fun p => (sanitize (fst p), on_wire (snd p))) ((k, v) :: l), r).
Proof.
  revert n k v. induction l as [|[k' w] l IH]; intros n k v HP HV Hn;
    inversion HP as [|? ? Hv HP']; subst; inversion HV as [|? ? HVv HV']; subst;
    simpl in Hn, Hv; (destruct n as [|n]; [lia|]); cbn [parse_members];
    rewrite quote_app, expect_hit, unquote_quote_go, expect_str1, parse_ws by done;
    (rewrite Hv; [|done|apply print_members_end|lia]); cbn [print_members].
  - rewrite string_app_assoc, expect_ws, expect_str1 by done. done.
  - rewrite !string_app_assoc, expect_miss_str1, expect_str1, parse_members_ws by done.
    rewrite IH; [done|done|done|]. simpl in *. lia.
Qed.

Lemma parse_open_bracket n x :
  parse (S n) ("[" +:+ x) =
  match expect "]" x with
  | Some r' => Some (JArr [], r')
  | None => match parse_elems n x with Some (l, r') => Some (JArr l, r') | None => None end
  end.
Proof. done. Qed.

Lemma parse_open_brace n x :
  parse (S n) ("{" +:+ x) =
  match expect "}" x with
  | Some r' => Some (JObj [], r')
  | None => match parse_members n x with Some (l, r') => Some (JObj l, r') | None => None end
  end.
Proof. done. Qed.

(** Printing then parsing, in any layout and with any text after the value. *)
Theorem parse_print j d n r :
  int_numbers j -> ends_number r -> (need j <= n)%nat ->
  parse n (print nl sp d j +:+ r) = Some (on_wire j, r).
Proof.
  revert d n r. induction j as [ |b|t|s|l IH|l IH] using json_nested_ind; intros d n r Hj Hr Hn;
    (destruct n as [|n]; [simpl in Hn; lia|]).
  - apply (literal_app "null" JNull r).
  - destruct b; [apply (literal_app "true")|apply (literal_app "false")].
  - destruct Hj as [z ->]. by apply parse_num.
  - apply parse_str.
  - destruct l as [|v l]; [done|]. rewrite print_arr, !string_app_assoc.
    cbn [need] in Hn.
    assert (Forall int_numbers (v :: l)) as HV by exact (proj1 (List.Forall_map int_numbers id (v :: l)) Hj).
    rewrite parse_open_bracket, expect_close, parse_elems_ws, parse_elems_print; auto with lia.
    by inversion HV.
  - destruct l as [|[k v] l]; [done|]. rewrite print_obj, !string_app_assoc.
    cbn [need] in Hn.
    assert (Forall (fun p => int_numbers (snd p)) ((k, v) :: l)) as HV
      by exact (proj1 (List.Forall_map (fun p => int_numbers (snd p)) id ((k, v) :: l)) Hj).
    rewrite parse_open_brace, expect_ws, parse_members_ws by done.
    assert (expect "}" (quote k +:+ ":" +:+ sp +:+ print nl sp (S d) v +:+ print_members d l +:+ r) = None)
      as -> by (rewrite quote_app; by apply expect_miss).
    rewrite parse_members_print; auto with lia.
Qed.
End layout.

(** ** json.Marshal and json.MarshalIndent against the decoders *)

Lemma need_le_length nl sp j d : int_numbers j -> (need j <= String.length (print nl sp d j))%nat.
Proof.
  revert d. induction j as [ |b|t|s|l IH|l IH] using json_nested_ind; intros d Hj.
  - simpl. lia.
  - destruct b; simpl; lia.
  - destruct Hj as [z ->]. destruct (print_starts nl sp d (JNum (itoa z))) as (c & t & Ht & _); [by exists z|].
    rewrite Ht. simpl. lia.
  - unfold print, quote. simpl. lia.
  - destruct l as [|v l]; [simpl; lia|].
    assert (Forall int_numbers (v :: l)) as HV by exact (proj1 (List.Forall_map int_numbers id (v :: l)) Hj).
    rewrite print_arr, !string_length_app. cbn [need]. clear Hj.
    assert (forall l, Forall (fun v => forall d, int_numbers v -> (need v <= String.length (print nl sp d v))%nat) l ->
      Forall int_numbers l ->
      (list_sum (map (fun v => S (need v)) l) < String.length (print_elems nl sp d l))%nat) as Htail.
    { induction 1 as [|w l' Hw _ IHl]; intros HV'; cbn [print_elems map list_sum fold_right];
        rewrite !string_length_app; [simpl; lia|].
      inversion HV' as [|? ? Hwv HV'']; subst. specialize (Hw (S d) Hwv). specialize (IHl HV'').
      unfold list_sum in IHl. simpl String.length. lia. }
    inversion IH as [|? ? Hv HF]; subst. inversion HV as [|? ? Hvv HV']; subst.
    specialize (Hv (S d) Hvv). specialize (Htail l HF HV').
    unfold list_sum in *. simpl. lia.
  - destruct l as [|[k v] l]; [simpl; lia|].
    assert (Forall (fun p => int_numbers (snd p)) ((k, v) :: l)) as HV
      by exact (proj1 (List.Forall_map (fun p => int_numbers (snd p)) id ((k, v) :: l)) Hj).
    rewrite print_obj, !string_length_app. cbn [need]. clear Hj.
    assert (forall l, Forall (fun p : string * json => forall d, int_numbers (snd p) ->
        (need (snd p) <= String.length (print nl sp d (snd p)))%nat) l ->
      Forall (fun p => int_numbers (snd p)) l ->
      (list_sum (map (fun p => S (need (snd p))) l) < String.length (print_members nl sp d l))%nat) as Htail.
    { induction 1 as [|[k' w] l' Hw _ IHl]; intros HV'; cbn [print_members map list_sum fold_right];
        rewrite !string_length_app; [simpl; lia|].
      inversion HV' as [|? ? Hwv HV'']; subst. simpl in Hw, Hwv. specialize (Hw (S d) Hwv).
      specialize (IHl HV''). unfold list_sum in IHl. simpl. lia. }
    inversion IH as [|? ? Hv HF]; subst. inversion HV as [|? ? Hvv HV']; subst. simpl in Hv, Hvv.
    specialize (Hv (S d) Hvv). specialize (Htail l HF HV').
    unfold list_sum in *. simpl. lia.
Qed.

Lemma text_fuel_enough nl sp d j r :
  int_numbers j -> (need j <= text_fuel (print nl sp d j +:+ r))%nat.
Proof.
  intros Hj. pose proof (need_le_length nl sp j d Hj). unfold text_fuel.
  rewrite string_length_app. lia.
Qed.

(** Decoder.Decode after json.Marshal, whatever follows in the buffer. *)
Lemma decode_first_marshal j r :
  int_numbers j -> ends_number r -> decode_first (marshal j +:+ r) = Some (on_wire j).
Proof.
  intros Hj Hr. unfold decode_first, marshal.
  by rewrite parse_print by (done || by apply text_fuel_enough).
Qed.

Lemma blanks_ws d : all_ws (blanks d).
Proof. induction d; simpl; auto. Qed.

(** json.Unmarshal of a file written with MarshalIndent and a final newline. *)
Lemma unmarshal_marshal_indent j :
  int_numbers j ->
  unmarshal_text (marshal_indent j +:+ String (chr 10) EmptyString) = Some (on_wire j).
Proof.
  intros Hj. unfold unmarshal_text, marshal_indent.
  assert (forall d, all_ws (String (chr 10) (blanks d))) as Hnl.
  { intros d. split; [done|apply blanks_ws]. }
  by rewrite parse_print by (done || by apply text_fuel_enough).
Qed.

(** ** ASCII texts are valid UTF-8 *)

Definition is_ascii7 (c : ascii) : bool := byte_of c <? 128.

Lemma ascii7_valid s : str_forall is_ascii7 s = true -> ValidString s = true.
Proof.
  unfold ValidString. induction s as [|c s IH]; cbn; [done|]. rewrite andb_true_iff. intros [Hc Hs].
  unfold is_ascii7 in Hc. rewrite Hc. by apply IH.
Qed.
