(* ===== verification/GoFormat.v ===== *)
(** * Texts of durations, times and errors

    time.Duration.String, Time.Format(RFC3339Nano), strconv.Quote and
    error.Error, as the program prints them. *)

From S2P Require Export Json.

Definition NL : string := String (chr 10) EmptyString.

(** ** Digits *)

(** [n] in decimal on exactly [w] digits, high digits dropped. *)
Fixpoint digits_w (w : nat) (n : Z) : string :=
  match w with
  | O => EmptyString
  | S w => digits_w w (n / 10) +:+ str1 (chr (48 + n mod 10))
  end.

(** Drops the trailing zeros. *)
Fixpoint drop_zeros (s : string) : string :=
  match s with
  | EmptyString => EmptyString
  | String c s =>
      match drop_zeros s with
      | EmptyString => if Ascii.eqb c "0" then EmptyString else str1 c
      | t => String c t
      end
  end.

(** A fraction of [w] digits, with its point, empty when it is zero. *)
Definition fraction (w : nat) (n : Z) : string :=
  match drop_zeros (digits_w w n) with
  | EmptyString => EmptyString
  | t => String "." t
  end.

(** ** time.Duration.String *)

Definition DurationString (d : Z) : string :=
  let neg := if d <? 0 then "-" else EmptyString in
  let u := Z.abs d in
  neg +:+
  if u =? 0 then "0s"
  else if u <? 1000 then itoa u +:+ "ns"
  else if u <? 1000000 then itoa (u / 1000) +:+ fraction 3 (u mod 1000) +:+ utf8_encode 0xB5 +:+ "s"
  else if u <? second then itoa (u / 1000000) +:+ fraction 6 (u mod 1000000) +:+ "ms"
  else
    let secs := u / second in
    let s := itoa (secs mod 60) +:+ fraction 9 (u mod second) +:+ "s" in
    let mins := secs / 60 in
    if mins =? 0 then s
    else
      let m := itoa (mins mod 60) +:+ "m" +:+ s in
      if mins / 60 =? 0 then m else itoa (mins / 60) +:+ "h" +:+ m.

(** ** Time.UTC().Format(time.RFC3339Nano) *)

(** The civil date of a day counted from 1970-01-01. *)
Definition civil (days : Z) : Z * Z * Z :=
  let z := days + 719468 in
  let era := z / 146097 in
  let doe := z mod 146097 in
  let yoe := (doe - doe / 1460 + doe / 36524 - doe / 146096) / 365 in
  let doy := doe - (365 * yoe + yoe / 4 - yoe / 100) in
  let mp := (5 * doy + 2) / 153 in
  let d := doy - (153 * mp + 2) / 5 + 1 in
  let m := if mp <? 10 then mp + 3 else mp - 9 in
  (yoe + era * 400 + (if m <=? 2 then 1 else 0), m, d).

(** [t] is in nanoseconds since 1970-01-01 UTC; years have four digits. *)
Definition FormatRFC3339Nano (t : Z) : string :=
  let secs := t / second in
  let '(y, m, d) := civil (secs / 86400) in
  let sod := secs mod 86400 in
  digits_w 4 y +:+ "-" +:+ digits_w 2 m +:+ "-" +:+ digits_w 2 d +:+ "T"
    +:+ digits_w 2 (sod / 3600) +:+ ":" +:+ digits_w 2 (sod / 60 mod 60) +:+ ":" +:+ digits_w 2 (sod mod 60)
    +:+ fraction 9 (t mod second) +:+ "Z".

(** ** %q and Error() *)

Definition hex_lower (b : Z) : string := str1 (hexlow (b / 16)) +:+ str1 (hexlow (b mod 16)).

(** One byte inside strconv.Quote. *)
Definition quote_byte (c : ascii) : string :=
  let b := byte_of c in
  if (b =? 34) || (b =? 92) then String BACKSLASH (str1 c)
  else if b =? 7 then String BACKSLASH "a"
  else if b =? 8 then String BACKSLASH "b"
  else if b =? 12 then String BACKSLASH "f"
  else if b =? 10 then String BACKSLASH "n"
  else if b =? 13 then String BACKSLASH "r"
  else if b =? 9 then String BACKSLASH "t"
  else if b =? 11 then String BACKSLASH "v"
  else if (32 <=? b) && (b <? 127) then str1 c
  else String BACKSLASH (String "x" (hex_lower b)).

(** [skip] bytes of the current rune are still to be copied.  Runes above
    U+007F are taken to be printable. *)
Fixpoint go_quote_from (skip : nat) (s : string) : string :=
  match s with
  | EmptyString => EmptyString
  | String c s' =>
      match skip with
      | S k => String c (go_quote_from k s')
      | O =>
          match rune_len s with
          | S (S k) => String c (go_quote_from (S k) s')
          | _ => quote_byte c +:+ go_quote_from 0 s'
          end
      end
  end.

Definition GoQuote (s : string) : string := str1 QUOTE +:+ go_quote_from 0 s +:+ str1 QUOTE.

Definition render_piece (p : piece) : string :=
  match p with
  | Lit s => s
  | Quoted s => GoQuote s
  | DurText d => DurationString d
  end.

Definition render (t : list piece) : string := String.concat EmptyString (map render_piece t).

(** err.Error() *)
Definition Error (e : error) : string := render (err_text e).

Example duration_1 : DurationString 1500000000 = "1.5s". Proof. reflexivity. Qed.
Example duration_2 : DurationString 20000000 = "20ms". Proof. reflexivity. Qed.
Example duration_3 : DurationString 5400000000000 = "1h30m0s". Proof. reflexivity. Qed.
Example time_1 : FormatRFC3339Nano 1709210096120000000 = "2024-02-29T12:34:56.12Z". Proof. vm_compute. reflexivity. Qed.
