(* ===== verification/Addr.v ===== *)
(** * Addresses, as net.ParseIP and net.ParseCIDR read them

    The server parses IPv4 addresses that it has formatted itself; the guest
    agent also asks whether a text is any IP address. *)

From S2P Require Export GoStrings.

(** One field: 1 to 3 digits without a leading zero, at most 255. *)
Definition parse_octet (s : string) : option Z :=
  match s with
  | String "0" (String _ _) => None
  | EmptyString => None
  | _ => match digits_value 0 s with
         | Some v => if v <=? 255 then Some v else None
         | None => None
         end
  end.

(** net.ParseIP on a text without colons. *)
Definition ParseIP4 (s : string) : option (Z * Z * Z * Z) :=
  match map parse_octet (split_on "." s) with
  | [Some a; Some b; Some c; Some d] => Some (a, b, c, d)
  | _ => None
  end.

(** net.ParseCIDR: the address, and the prefix length of the network. *)
Definition ParseCIDR4 (s : string) : option ((Z * Z * Z * Z) * Z) :=
  match split_on "/" s with
  | [ip; mask] =>
      match ParseIP4 ip, (if is_empty mask then None else digits_value 0 mask) with
      | Some a, Some n => if n <=? 32 then Some (a, n) else None
      | _, _ => None
      end
  | _ => None
  end.

(** *** IPv6 (net/netip.parseIPv6), as a test of validity *)

Definition is_hex (c : ascii) : bool :=
  let b := byte_of c in is_digit c || ((97 <=? b) && (b <=? 102)) || ((65 <=? b) && (b <=? 70)).

(** The number of hexadecimal digits at the front, and the text after them. *)
Fixpoint hex_run (s : string) : nat * string :=
  match s with
  | String c r => if is_hex c then let '(n, t) := hex_run r in (S n, t) else (O, s)
  | EmptyString => (O, s)
  end.

(** After the loop: the whole text was used, and an ellipsis stands exactly
    for what is missing of the 16 bytes. *)
Definition ip6_end (i : Z) (ellipsis : bool) (s : string) : bool :=
  is_empty s && (if i <? 16 then ellipsis else negb ellipsis).

(** The loop over the groups; [i] bytes are known. *)
Fixpoint ip6_groups (fuel : nat) (i : Z) (ellipsis : bool) (s : string) : bool :=
  match fuel with
  | O => ip6_end i ellipsis s
  | S fuel =>
      let '(off, r) := hex_run s in
      if (off =? 0)%nat || (4 <? off)%nat then false else
      match r with
      | EmptyString => ip6_end (i + 2) ellipsis EmptyString
      | String c r' =>
          if Ascii.eqb c "." then
            if (negb ellipsis && negb (i =? 12)) || (i + 4 >? 16) then false
            else match ParseIP4 s with Some _ => ip6_end (i + 4) ellipsis EmptyString | None => false end
          else if negb (Ascii.eqb c ":") then false
          else match r' with
               | EmptyString => false
               | String c' r'' =>
                   if Ascii.eqb c' ":" then
                     if ellipsis then false
                     else if is_empty r'' then ip6_end (i + 2) true r''
                     else ip6_groups fuel (i + 2) true r''
                   else ip6_groups fuel (i + 2) ellipsis r'
               end
      end
  end.

(** Eight groups fill the 16 bytes.  A zone makes net.ParseIP fail. *)
Definition valid_ip6 (s : string) : bool :=
  if HasPrefix s "::" then
    let r := String.substring 2 (String.length s - 2) s in
    is_empty r || ip6_groups 8 0 true r
  else ip6_groups 8 0 false s.

(** Whether net.ParseIP answers an address: the first dot or colon tells which
    kind is tried. *)
Fixpoint ip_kind (s : string) : option bool :=
  match s with
  | EmptyString => None
  | String c r =>
      if Ascii.eqb c "." then Some false
      else if Ascii.eqb c ":" then Some true
      else if Ascii.eqb c "%" then None
      else ip_kind r
  end.

Definition ParseIP_valid (s : string) : bool :=
  match ip_kind s with
  | Some false => bool_decide (is_Some (ParseIP4 s))
  | Some true => valid_ip6 s
  | None => false
  end.

(** ** Lemmas *)

Lemma split_on_app sep a b :
  str_forall (fun c => negb (Ascii.eqb c sep)) a = true ->
  split_on sep (a +:+ String sep b) = a :: split_on sep b.
Proof.
  induction a as [|c a IH]; autorewrite with manta; simpl.
  - by rewrite Ascii.eqb_refl.
  - intros H. apply andb_prop in H as [Hc H]. rewrite (IH H).
    by destruct (Ascii.eqb c sep).
Qed.

Lemma split_on_last sep a :
  str_forall (fun c => negb (Ascii.eqb c sep)) a = true -> split_on sep a = [a].
Proof.
  induction a as [|c a IH]; simpl; [done|].
  intros H. apply andb_prop in H as [Hc H]. rewrite (IH H). by destruct (Ascii.eqb c sep).
Qed.

Lemma str_forall_impl (p q : ascii -> bool) s :
  (forall c, p c = true -> q c = true) -> str_forall p s = true -> str_forall q s = true.
Proof.
  intros Hpq. induction s as [|c s IH]; simpl; [done|].
  rewrite !andb_true_iff. intros [? ?]. auto.
Qed.

Lemma digit_is_not c d : is_digit c = true -> is_digit d = false -> negb (Ascii.eqb c d) = true.
Proof. intros Hc Hd. destruct (Ascii.eqb_spec c d) as [->|]; [congruence|done]. Qed.

Lemma itoa_no_sep z sep :
  0 <= z -> is_digit sep = false -> str_forall (fun c => negb (Ascii.eqb c sep)) (itoa z) = true.
Proof.
  intros Hz Hs. apply (str_forall_impl is_digit); [|by apply itoa_nonneg].
  intros c Hc. by apply digit_is_not.
Qed.

Lemma parse_octet_itoa z : 0 <= z -> parse_octet (itoa z) = if z <=? 255 then Some z else None.
Proof.
  intros Hz. pose proof (digits_value_itoa z EmptyString Hz) as Hd. rewrite string_app_nil_r in Hd.
  destruct (itoa_nonneg z Hz) as [_ [(-> & _)|(c & t & Ht & Hc)]]; [done|].
  unfold parse_octet. rewrite Ht in *.
  by destruct c as [[] [] [] [] [] [] [] []]; rewrite ?Hd.
Qed.

(** The address with [z] in its third field. *)
Definition dotted (a b z d : Z) : string :=
  itoa a +:+ String "." (itoa b +:+ String "." (itoa z +:+ String "." (itoa d))).

Lemma ParseIP4_dotted a b z d :
  0 <= a -> 0 <= b -> 0 <= z -> 0 <= d ->
  ParseIP4 (dotted a b z d) =
  match parse_octet (itoa a), parse_octet (itoa b), parse_octet (itoa z), parse_octet (itoa d) with
  | Some a, Some b, Some c, Some d => Some (a, b, c, d)
  | _, _, _, _ => None
  end.
Proof.
  intros Ha Hb Hz Hd. unfold ParseIP4, dotted.
  rewrite !split_on_app by (by apply itoa_no_sep). rewrite split_on_last by (by apply itoa_no_sep).
  simpl. by repeat case_match; simplify_eq.
Qed.
