(* ===== verification/Sha256.v ===== *)
(** * crypto/sha256 and encoding/hex, as computeFileSHA256 uses them

    SHA-256 on 32-bit words held as [Z].  The lineage of a base image is the
    hexadecimal text of its hash. *)

From S2P Require Export GoFormat.

(** The constants are the first 32 bits of the fractional parts of the cube
    roots, and of the square roots, of the first primes. *)
Definition is_prime (n : Z) : bool :=
  forallb (fun d => negb (n mod d =? 0)) (map Z.of_nat (seq 2 (Z.to_nat (Z.sqrt n) - 1))).

Definition primes : list Z := Eval vm_compute in List.filter is_prime (map Z.of_nat (seq 2 310)).

(** The cube root of [n] below [2 ^ k], rounded down, bit by bit. *)
Fixpoint cbrt_bits (k : nat) (n x : Z) : Z :=
  match k with
  | O => x
  | S k => let y := x + 2 ^ Z.of_nat k in cbrt_bits k n (if y ^ 3 <=? n then y else x)
  end.

Definition sha_K : list Z := Eval vm_compute in map (fun p => uint32 (cbrt_bits 35 (p * 2 ^ 96) 0)) primes.

Definition sha_init : list Z := Eval vm_compute in map (fun p => uint32 (Z.sqrt (p * 2 ^ 64))) (take 8 primes).

Definition rotr (n x : Z) : Z := Z.lor (Z.shiftr x n) (uint32 (Z.shiftl x (32 - n))).

Definition sigma0 (x : Z) : Z := Z.lxor (rotr 7 x) (Z.lxor (rotr 18 x) (Z.shiftr x 3)).
Definition sigma1 (x : Z) : Z := Z.lxor (rotr 17 x) (Z.lxor (rotr 19 x) (Z.shiftr x 10)).
Definition Sigma0 (x : Z) : Z := Z.lxor (rotr 2 x) (Z.lxor (rotr 13 x) (rotr 22 x)).
Definition Sigma1 (x : Z) : Z := Z.lxor (rotr 6 x) (Z.lxor (rotr 11 x) (rotr 25 x)).
Definition Ch (x y z : Z) : Z := Z.lxor (Z.land x y) (Z.land (Z.lxor x (2 ^ 32 - 1)) z).
Definition Maj (x y z : Z) : Z := Z.lxor (Z.land x y) (Z.lxor (Z.land x z) (Z.land y z)).

(** The schedule, latest word first: 48 more words after the 16 of a block. *)
Fixpoint schedule (n : nat) (ws : list Z) : list Z :=
  match n with
  | O => ws
  | S n =>
      schedule n (uint32 (sigma1 (nth 1 ws 0) + nth 6 ws 0 + sigma0 (nth 14 ws 0) + nth 15 ws 0) :: ws)
  end.

(** One round on the working variables a to h. *)
Definition sha_round (v : list Z) (kw : Z * Z) : list Z :=
  match v with
  | [a; b; c; d; e; f; g; h] =>
      let t1 := h + Sigma1 e + Ch e f g + fst kw + snd kw in
      let t2 := Sigma0 a + Maj a b c in
      [uint32 (t1 + t2); a; b; c; uint32 (d + t1); e; f; g]
  | _ => v
  end.

Definition sha_block (st block : list Z) : list Z :=
  let ws := rev (schedule 48 (rev block)) in
  zip_with (fun x y => uint32 (x + y)) st (fold_left sha_round (combine sha_K ws) st).

Fixpoint bytes_of (s : string) : list Z :=
  match s with EmptyString => [] | String c s => byte_of c :: bytes_of s end.

(** The bytes of [x] on [n] places, big endian. *)
Fixpoint be_bytes (n : nat) (x : Z) : list Z :=
  match n with O => [] | S n => be_bytes n (x / 256) ++ [x mod 256] end.

(** The message, 0x80, zeros up to 56 modulo 64, and the length in bits. *)
Definition sha_pad (bs : list Z) : list Z :=
  bs ++ [0x80] ++ repeat 0 (Z.to_nat ((55 - Z.of_nat (length bs)) mod 64)) ++ be_bytes 8 (uint64 (8 * Z.of_nat (length bs))).

Fixpoint words (bs : list Z) : list Z :=
  match bs with
  | a :: b :: c :: d :: bs => a * 2 ^ 24 + b * 2 ^ 16 + c * 2 ^ 8 + d :: words bs
  | _ => []
  end.

(** The blocks of 16 words; [fuel] is the number of words. *)
Fixpoint blocks (fuel : nat) (ws : list Z) : list (list Z) :=
  match fuel, ws with
  | _, [] => []
  | O, _ => []
  | S fuel, _ => take 16 ws :: blocks fuel (drop 16 ws)
  end.

Definition sha256 (s : string) : list Z :=
  let ws := words (sha_pad (bytes_of s)) in
  fold_left sha_block (blocks (length ws) ws) sha_init.

(** hex.EncodeToString(h.Sum(nil)) *)
Definition hexSHA256 (s : string) : string :=
  String.concat EmptyString (map hex_lower (sha256 s ≫= be_bytes 4)).

Example sha256_abc : hexSHA256 "abc" = "ba7816bf8f01cfea414140de5dae2223b00361a396177a9cb410ff61f20015ad".
Proof. vm_compute. reflexivity. Qed.

Example sha256_empty : hexSHA256 EmptyString = "e3b0c44298fc1c149afbf4c8996fb92427ae41e4649b934ca495991b7852b855".
Proof. vm_compute. reflexivity. Qed.

Example sha256_two_blocks :
  hexSHA256 "abcdbcdecdefdefgefghfghighijhijkijkljklmklmnlmnomnopnopq"
  = "248d6a61d20638b8e5c026930c3e6039a33ce45964ff2167f6ecedd419db06c1".
Proof. vm_compute. reflexivity. Qed.
