(* ===== verification/Duration.v ===== *)
(** * time.ParseDuration

    The fraction of a duration is computed in float64; SpecFloat gives its
    operations on binary64 numbers exactly. *)

From Stdlib Require Import SpecFloat.
From S2P Require Export GoFormat.

(** ** float64 *)

Definition float64 : Type := spec_float.
Definition of_int (n : Z) : float64 := binary_normalize 53 1024 n 0 false.
Definition fmul : float64 -> float64 -> float64 := SFmul 53 1024.
Definition fdiv : float64 -> float64 -> float64 := SFdiv 53 1024.

(** uint64(x) and int(x) of a finite number: rounding towards zero. *)
Definition trunc (x : float64) : Z :=
  match x with
  | S754_finite s m e =>
      let a := if 0 <=? e then Z.pos m * 2 ^ e else Z.pos m / 2 ^ (- e) in
      if s : bool then - a else a
  | _ => 0
  end.

(** ** Scanning *)

(** leadingInt: [None] on overflow. *)
Fixpoint leadingInt (x : Z) (s : string) : option (Z * string) :=
  match s with
  | String c r =>
      if is_digit c then
        if x >? 2 ^ 63 / 10 then None
        else
          let x := x * 10 + (byte_of c - 48) in
          if x >? 2 ^ 63 then None else leadingInt x r
      else Some (x, s)
  | EmptyString => Some (x, s)
  end.

(** leadingFraction: digits that overflow are dropped. *)
Fixpoint leadingFraction (x : Z) (scale : float64) (overflow : bool) (s : string) : Z * float64 * string :=
  match s with
  | String c r =>
      if is_digit c then
        if overflow then leadingFraction x scale true r
        else if x >? (2 ^ 63 - 1) / 10 then leadingFraction x scale true r
        else
          let y := x * 10 + (byte_of c - 48) in
          if y >? 2 ^ 63 then leadingFraction x scale true r
          else leadingFraction y (fmul scale (of_int 10)) false r
      else (x, scale, s)
  | EmptyString => (x, scale, s)
  end.

(** The text up to the next digit or point, and the rest. *)
Fixpoint scan_unit (s : string) : string * string :=
  match s with
  | String c r =>
      if is_digit c || Ascii.eqb c "." then (EmptyString, s)
      else let '(u, t) := scan_unit r in (String c u, t)
  | EmptyString => (EmptyString, EmptyString)
  end.

(** The micro sign U+00B5 and the Greek letter U+03BC. *)
Definition micro1 : string := String (chr 0xC2) (String (chr 0xB5) "s").
Definition micro2 : string := String (chr 0xCE) (String (chr 0xBC) "s").

Definition unitMap (u : string) : option Z :=
  if bool_decide (u = "ns"%string) then Some 1
  else if bool_decide (u ∈ ["us"%string; micro1; micro2]) then Some 1000
  else if bool_decide (u = "ms"%string) then Some millisecond
  else if bool_decide (u = "s"%string) then Some second
  else if bool_decide (u = "m"%string) then Some (60 * second)
  else if bool_decide (u = "h"%string) then Some (3600 * second)
  else None.

(** One round of the loop: a number with its unit, its value, and the rest. *)
Definition parseOne (s : string) : option (Z * string) :=
  match s with
  | String c _ =>
      if negb (Ascii.eqb c "." || is_digit c) then None else
      match leadingInt 0 s with
      | None => None
      | Some (v, r) =>
          let pre := negb (String.length r =? String.length s)%nat in
          let '(f, scale, r', post) :=
            match r with
            | String c' t =>
                if Ascii.eqb c' "." then
                  let '(f, scale, t') := leadingFraction 0 (of_int 1) false t in
                  (f, scale, t', negb (String.length t' =? String.length t)%nat)
                else (0, of_int 1, r, false)
            | EmptyString => (0, of_int 1, r, false)
            end in
          if negb pre && negb post then None else
          let '(u, rest) := scan_unit r' in
          if is_empty u then None else
          match unitMap u with
          | None => None
          | Some unit =>
              if v >? 2 ^ 63 / unit then None else
              let v := v * unit in
              if f >? 0 then
                let v := v + trunc (fmul (of_int f) (fdiv (of_int unit) scale)) in
                if v >? 2 ^ 63 then None else Some (v, rest)
              else Some (v, rest)
          end
      end
  | EmptyString => None
  end.

(** The loop; every round takes a byte or more. *)
Fixpoint parseAll (fuel : nat) (d : Z) (s : string) : option Z :=
  match s with
  | EmptyString => Some d
  | _ =>
      match fuel with
      | O => None
      | S fuel =>
          match parseOne s with
          | Some (v, r) => let d := uint64 (d + v) in if d >? 2 ^ 63 then None else parseAll fuel d r
          | None => None
          end
      end
  end.

Definition ParseDuration (s : string) : option Z :=
  let '(neg, s) :=
    match s with
    | String c r => if Ascii.eqb c "-" then (true, r) else if Ascii.eqb c "+" then (false, r) else (false, s)
    | EmptyString => (false, s)
    end in
  if bool_decide (s = "0"%string) then Some 0
  else if is_empty s then None
  else
    match parseAll (String.length s) 0 s with
    | None => None
    | Some d => if neg : bool then Some (int64 (- d)) else if d >? 2 ^ 63 - 1 then None else Some d
    end.

(** ** Properties *)

Lemma leadingInt_length x s v r : leadingInt x s = Some (v, r) -> (String.length r <= String.length s)%nat.
Proof.
  revert x. induction s as [|c s IH]; intros x; cbn; [by intros [= _ <-]|].
  repeat case_match; intros; simplify_eq; [apply IH in H2; lia|done].
Qed.

Lemma leadingFraction_length x scale o s : (String.length (snd (leadingFraction x scale o s)) <= String.length s)%nat.
Proof.
  revert x scale o. induction s as [|c s IH]; intros x scale o; cbn; [done|].
  repeat case_match; cbn; try lia; etrans; try apply IH; lia.
Qed.

Lemma scan_unit_length s u t : scan_unit s = (u, t) -> (String.length u + String.length t = String.length s)%nat.
Proof.
  revert u. induction s as [|c s IH]; intros u; cbn; [by intros [= <- <-]|].
  destruct (is_digit c || Ascii.eqb c "."); [by intros [= <- <-]|].
  destruct (scan_unit s) as [u' t'] eqn:E. intros [= <- <-]. cbn. by rewrite (IH u').
Qed.

Lemma parseOne_shorter s v r : parseOne s = Some (v, r) -> (String.length r < String.length s)%nat.
Proof.
  unfold parseOne. destruct s as [|c s]; [done|]. destruct (negb _); [done|].
  destruct (leadingInt 0 (String c s)) as [[v0 r0]|] eqn:E0; [|done]. apply leadingInt_length in E0.
  set (frac := match r0 with String _ _ => _ | EmptyString => _ end).
  assert (String.length (snd (fst frac)) <= String.length r0)%nat as Hf.
  { unfold frac. destruct r0 as [|c' t]; [done|]. destruct (Ascii.eqb c' "."); [|done].
    pose proof (leadingFraction_length 0 (of_int 1) false t). destruct (leadingFraction _ _ _ t) as [[f sc] t']. cbn in *. lia. }
  destruct frac as [[[f scale] r'] post]. cbn [fst snd] in Hf. destruct (_ && _); [done|].
  destruct (scan_unit r') as [u rest] eqn:Eu. apply scan_unit_length in Eu.
  destruct (is_empty u) eqn:Hu; [done|]. destruct u as [|cu u]; [done|]. cbn in Eu.
  destruct (unitMap _); [|done]. repeat case_match; intros; simplify_eq; lia.
Qed.

(** The fuel is enough: more does not change the result. *)
Lemma parseAll_fuel n m d s :
  (String.length s <= n)%nat -> (String.length s <= m)%nat -> parseAll n d s = parseAll m d s.
Proof.
  revert m d s. induction n as [|n IH]; intros [|m] d [|c s] Hn Hm; cbn in Hn, Hm; try done; try lia.
  cbn [parseAll]. destruct (parseOne (String c s)) as [[v r]|] eqn:E; [|done]. apply parseOne_shorter in E. cbn in E.
  cbv zeta. destruct (_ >? _); [done|]. apply IH; lia.
Qed.

Example parse_250ms : ParseDuration "250ms" = Some 250000000. Proof. vm_compute. reflexivity. Qed.
Example parse_1h : ParseDuration "1h30m0.5s" = Some 5400500000000. Proof. vm_compute. reflexivity. Qed.
Example parse_frac : ParseDuration "-1.5h" = Some (-5400000000000). Proof. vm_compute. reflexivity. Qed.
Example parse_bare : ParseDuration "20" = None. Proof. vm_compute. reflexivity. Qed.
Example parse_us : ParseDuration ("2.1" +:+ micro1) = Some 2100. Proof. vm_compute. reflexivity. Qed.
Example parse_dot : ParseDuration ".s" = None. Proof. vm_compute. reflexivity. Qed.
