(* ===== verification/Types.v ===== *)
(** * The structs of the program

    agentrpc.go (the messages of the guest agent), types.go (configuration,
    sandboxes, HTTP bodies), netns.go (netnsConfig), snapshot.go and
    user_snapshot.go (paths and metadata).  A Go [int], [int64] or
    [time.Duration] is a [Z]; a nil pointer to a struct is [None]; a slice is
    a list.  Field names carry a prefix because Rocq field names are global. *)

From S2P Require Export GoStrings.

(** ** internal/agentrpc/agentrpc.go *)

Definition DefaultPort : Z := 7777.
Definition MaxMessageBytes : Z := 8 * 2 ^ 20.

Record PingResponse := MkPingResponse { pr_AgentVersion : string; pr_NowUnixMs : Z }.

Record ExecRequest := MkExecRequest {
  xq_UseShell : bool;
  xq_Cmd : string;
  xq_Argv : list string;
  xq_Cwd : string;
  xq_Env : list string;
  xq_TimeoutMs : Z;
  xq_MaxOutputBytes : Z;
}.

Record ExecResponse := MkExecResponse {
  xs_ExitCode : Z;
  xs_Stdout : string;
  xs_Stderr : string;
  xs_TimedOut : bool;
}.

Record NetRequest := MkNetRequest {
  nq_Interface : string;
  nq_Address : string;
  nq_Gateway : string;
  nq_DNS : string;
}.

Record NetResponse := MkNetResponse { ns_Configured : bool }.

Record Request := MkRequest {
  rq_Type : string;
  rq_Exec : option ExecRequest;
  rq_Net : option NetRequest;
}.

Record Response := MkResponse {
  rs_OK : bool;
  rs_Error : string;
  rs_Ping : option PingResponse;
  rs_Exec : option ExecResponse;
  rs_Net : option NetResponse;
}.

(** ** cmd/server/types.go *)

Record config := MkConfig {
  cfg_ListenAddr : string;
  cfg_KernelPath : string;
  cfg_BaseRootfsPath : string;
  cfg_BaseRootfsLineageID : string;
  cfg_RootfsCloneMode : string;
  cfg_SSHPrivateKey : string;
  cfg_FirecrackerBin : string;
  cfg_HostNATIface : string;
  cfg_WorkDir : string;
  cfg_CgroupRoot : string;
  cfg_EnableCgroups : bool;
  cfg_NetnsPoolSize : Z;
  cfg_EnableSnapshots : bool;
  cfg_KeepFailedSandboxes : bool;
  cfg_EnableStageTimingLogs : bool;
  cfg_ExecTransport : string;
  cfg_AgentPort : Z;
  cfg_AgentWaitTimeout : Z;
  cfg_AgentDialTimeout : Z;
  cfg_AgentCallTimeout : Z;
  cfg_AgentMaxOutputB : Z;
  cfg_SSHWaitTimeout : Z;
  cfg_SSHDialTimeout : Z;
  cfg_SSHExecWait : Z;
  cfg_ExecTimeout : Z;
  cfg_BootArgs : string;
  cfg_DefaultMemMiB : Z;
  cfg_DefaultVCPU : Z;
}.

(** netns.go *)
Record netnsConfig := MkNetns {
  nc_NetnsName : string;
  nc_Subnet : Z;
  nc_Pooled : bool;
  nc_VethHost : string;
  nc_VethNS : string;
  nc_VethCIDR : string;
  nc_VethHostIP : string;
  nc_VethNSIP : string;
  nc_TapName : string;
  nc_SubnetCIDR : string;
  nc_HostIP : string;
  nc_GuestIP : string;
}.

(** sandbox_lifecycle.go *)
Inductive sandboxState := sandboxStateRunning | sandboxStateClosing | sandboxStateClosed.

(** A host connection to a guest agent, by the descriptor of its socket. *)
Definition agentConn : Type := Z.

(** [agentMu] is whether the mutex is held. *)
Record sandbox := MkSandbox {
  sb_ID : string;
  sb_Subnet : Z;
  sb_TapDevice : string;
  sb_HostIP : string;
  sb_GuestIP : string;
  sb_GuestCID : Z;
  sb_Netns : option netnsConfig;
  sb_Dir : string;
  sb_SocketPath : string;
  sb_VsockPath : string;
  sb_ConfigPath : string;
  sb_RootfsPath : string;
  sb_LogPath : string;
  sb_CgroupPath : string;
  sb_Process : option Z;
  sb_SSHClient : option Z;
  sb_Agent : option agentConn;
  sb_agentMu : bool;
  sb_state : sandboxState;
  sb_inFlightExec : Z;
}.

Record execRequest := MkExecReq {
  eq_SandboxID : string;
  eq_Cmd : string;
  eq_Argv : list string;
  eq_UseShell : option bool;
  eq_TimeoutMs : Z;
}.

Record execResponse := MkExecResp { es_Stdout : string; es_Stderr : string; es_ExitCode : Z }.

(** snapshot.go *)
Record snapshotPaths := MkSnapshotPaths {
  sp_Dir : string;
  sp_BaseDir : string;
  sp_BaseDisk : string;
  sp_StateFile : string;
  sp_MemFile : string;
  sp_MetaFile : string;
}.

Record snapshotMeta := MkSnapshotMeta {
  sm_Version : Z;
  sm_LineageID : string;
  sm_BaseRootfsPath : string;
  sm_CreatedAt : string;
}.

(** user_snapshot.go *)
Record userSnapshotMeta := MkUserSnapshotMeta {
  um_SnapshotID : string;
  um_Name : string;
  um_CreatedAt : string;
  um_StateFile : string;
  um_MemFile : string;
  um_DiskFile : string;
  um_LineageID : string;
  um_SourceSandboxID : string;
  um_SourceRootfsPath : string;
}.

Record snapshotCreateRequest := MkSnapCreateReq { scq_SandboxID : string; scq_Name : string }.

#[export] Instance sandboxState_eq_dec : EqDecision sandboxState.
Proof. solve_decision. Defined.

#[export] Instance netnsConfig_eq_dec : EqDecision netnsConfig.
Proof. solve_decision. Defined.

#[export] Instance sandbox_eq_dec : EqDecision sandbox.
Proof. solve_decision. Defined.
