(* ===== verification/Wire.v ===== *)
(** * Struct tags: the JSON shape of every message

    Encoding follows the declaration order and [omitempty]; decoding follows
    encoding/json: exact field names first, then case folding, later members
    overwrite earlier ones, [null] leaves scalars alone and clears pointers
    and slices, unknown members are an error when DisallowUnknownFields is
    set. *)

From S2P Require Export Types JsonFacts.

(** ** Encoding *)

Definition field (name : string) (v : json) : list (string * json) := [(name, v)].
Definition omitempty (empty : bool) (name : string) (v : json) : list (string * json) :=
  if empty then [] else [(name, v)].
Definition ptr {A} (enc : A -> json) (name : string) (o : option A) : list (string * json) :=
  match o with Some a => [(name, enc a)] | None => [] end.
Definition jint (z : Z) : json := JNum (itoa z).
Definition jstrs (l : list string) : json := JArr (map JStr l).

Definition enc_ExecRequest (r : ExecRequest) : json :=
  JObj (field "use_shell" (JBool (xq_UseShell r))
    ++ omitempty (is_empty (xq_Cmd r)) "cmd" (JStr (xq_Cmd r))
    ++ omitempty (bool_decide (xq_Argv r = [])) "argv" (jstrs (xq_Argv r))
    ++ omitempty (is_empty (xq_Cwd r)) "cwd" (JStr (xq_Cwd r))
    ++ omitempty (bool_decide (xq_Env r = [])) "env" (jstrs (xq_Env r))
    ++ omitempty (xq_TimeoutMs r =? 0) "timeout_ms" (jint (xq_TimeoutMs r))
    ++ omitempty (xq_MaxOutputBytes r =? 0) "max_output_bytes" (jint (xq_MaxOutputBytes r))).

Definition enc_NetRequest (r : NetRequest) : json :=
  JObj (omitempty (is_empty (nq_Interface r)) "interface" (JStr (nq_Interface r))
    ++ field "address" (JStr (nq_Address r))
    ++ field "gateway" (JStr (nq_Gateway r))
    ++ omitempty (is_empty (nq_DNS r)) "dns" (JStr (nq_DNS r))).

Definition enc_Request (r : Request) : json :=
  JObj (field "type" (JStr (rq_Type r))
    ++ ptr enc_ExecRequest "exec" (rq_Exec r)
    ++ ptr enc_NetRequest "net" (rq_Net r)).

Definition enc_PingResponse (r : PingResponse) : json :=
  JObj (field "agent_version" (JStr (pr_AgentVersion r))
    ++ field "now_unix_ms" (jint (pr_NowUnixMs r))).

Definition enc_ExecResponse (r : ExecResponse) : json :=
  JObj (field "exit_code" (jint (xs_ExitCode r))
    ++ field "stdout" (JStr (xs_Stdout r))
    ++ field "stderr" (JStr (xs_Stderr r))
    ++ field "timed_out" (JBool (xs_TimedOut r))).

Definition enc_NetResponse (r : NetResponse) : json :=
  JObj (field "configured" (JBool (ns_Configured r))).

Definition enc_Response (r : Response) : json :=
  JObj (field "ok" (JBool (rs_OK r))
    ++ omitempty (is_empty (rs_Error r)) "error" (JStr (rs_Error r))
    ++ ptr enc_PingResponse "ping" (rs_Ping r)
    ++ ptr enc_ExecResponse "exec" (rs_Exec r)
    ++ ptr enc_NetResponse "net" (rs_Net r)).

Definition enc_snapshotMeta (m : snapshotMeta) : json :=
  JObj (field "version" (jint (sm_Version m))
    ++ field "lineage_id" (JStr (sm_LineageID m))
    ++ field "base_rootfs_path" (JStr (sm_BaseRootfsPath m))
    ++ field "created_at" (JStr (sm_CreatedAt m))).

Definition enc_userSnapshotMeta (m : userSnapshotMeta) : json :=
  JObj (field "snapshot_id" (JStr (um_SnapshotID m))
    ++ omitempty (is_empty (um_Name m)) "name" (JStr (um_Name m))
    ++ field "created_at" (JStr (um_CreatedAt m))
    ++ field "state_file" (JStr (um_StateFile m))
    ++ field "mem_file" (JStr (um_MemFile m))
    ++ field "disk_file" (JStr (um_DiskFile m))
    ++ field "lineage_id" (JStr (um_LineageID m))
    ++ field "source_sandbox_id" (JStr (um_SourceSandboxID m))
    ++ field "source_rootfs_path" (JStr (um_SourceRootfsPath m))).

(** ** Decoding *)

(** A setter decodes a value into one field of a struct. *)
Definition setter (T : Type) : Type := json -> T -> option T.

(** foldName: ASCII letters, and the two runes that fold to ASCII ones. *)
Fixpoint fold_name (s : string) : string :=
  match s with
  | EmptyString => EmptyString
  | String a r =>
      let b := byte_of a in
      if (97 <=? b) && (b <=? 122) then String (chr (b - 32)) (fold_name r) else
      match r with
      | String a2 r2 =>
          if (b =? 0xC5) && (byte_of a2 =? 0xBF) then String "S" (fold_name r2) else
          match r2 with
          | String a3 r3 =>
              if (b =? 0xE2) && (byte_of a2 =? 0x84) && (byte_of a3 =? 0xAA)
              then String "K" (fold_name r3) else String a (fold_name r)
          | EmptyString => String a (fold_name r)
          end
      | EmptyString => String a (fold_name r)
      end
  end.

Fixpoint find_by {T} (eqk : string -> bool) (fs : list (string * setter T)) : option (setter T) :=
  match fs with
  | [] => None
  | (n, f) :: fs => if eqk n then Some f else find_by eqk fs
  end.

Definition find_field {T} (fs : list (string * setter T)) (key : string) : option (setter T) :=
  match find_by (fun n => (n =? key)%string) fs with
  | Some f => Some f
  | None => find_by (fun n => (fold_name n =? fold_name key)%string) fs
  end.

Fixpoint dec_members {T} (strict : bool) (fs : list (string * setter T))
    (l : list (string * json)) (t : T) : option T :=
  match l with
  | [] => Some t
  | (k, v) :: l =>
      match find_field fs k with
      | Some f => match f v t with Some t' => dec_members strict fs l t' | None => None end
      | None => if strict then None else dec_members strict fs l t
      end
  end.

Definition dec_struct {T} (strict : bool) (fs : list (string * setter T)) (j : json) (t : T) : option T :=
  match j with
  | JNull => Some t
  | JObj l => dec_members strict fs l t
  | _ => None
  end.

Definition dec_string {T} (set : string -> T -> T) : setter T := fun j t =>
  match j with JStr s => Some (set s t) | JNull => Some t | _ => None end.
Definition dec_bool {T} (set : bool -> T -> T) : setter T := fun j t =>
  match j with JBool b => Some (set b t) | JNull => Some t | _ => None end.
Definition dec_int {T} (set : Z -> T -> T) : setter T := fun j t =>
  match j with
  | JNum lit => (fun z => set z t) <$> ParseInt lit
  | JNull => Some t
  | _ => None
  end.
Definition dec_ptr_bool {T} (set : option bool -> T -> T) : setter T := fun j t =>
  match j with JBool b => Some (set (Some b) t) | JNull => Some (set None t) | _ => None end.

(** A JSON array into a [[]string]; a [null] element keeps what the slice
    already holds at that index. *)
Fixpoint dec_elems (old : list string) (l : list json) : option (list string) :=
  match l with
  | [] => Some []
  | v :: l =>
      let o := match old with x :: _ => x | [] => EmptyString end in
      match v with
      | JStr s => cons s <$> dec_elems (tail old) l
      | JNull => cons o <$> dec_elems (tail old) l
      | _ => None
      end
  end.

Definition dec_strings {T} (get : T -> list string) (set : list string -> T -> T) : setter T := fun j t =>
  match j with
  | JArr l => (fun x => set x t) <$> dec_elems (get t) l
  | JNull => Some (set [] t)
  | _ => None
  end.

(** A pointer to a struct: allocated when nil, decoded in place otherwise. *)
Definition dec_ptr {T U} (zero : U) (dec : json -> U -> option U)
    (get : T -> option U) (set : option U -> T -> T) : setter T := fun j t =>
  match j with
  | JNull => Some (set None t)
  | _ => (fun u => set (Some u) t) <$> dec j (default zero (get t))
  end.

Section decoders.
Context (strict : bool).

Definition zero_ExecRequest : ExecRequest := MkExecRequest false EmptyString [] EmptyString [] 0 0.
Definition dec_ExecRequest : json -> ExecRequest -> option ExecRequest :=
  dec_struct strict
    [ ("use_shell", dec_bool (fun x r => MkExecRequest x (xq_Cmd r) (xq_Argv r) (xq_Cwd r) (xq_Env r) (xq_TimeoutMs r) (xq_MaxOutputBytes r)));
      ("cmd", dec_string (fun x r => MkExecRequest (xq_UseShell r) x (xq_Argv r) (xq_Cwd r) (xq_Env r) (xq_TimeoutMs r) (xq_MaxOutputBytes r)));
      ("argv", dec_strings xq_Argv (fun x r => MkExecRequest (xq_UseShell r) (xq_Cmd r) x (xq_Cwd r) (xq_Env r) (xq_TimeoutMs r) (xq_MaxOutputBytes r)));
      ("cwd", dec_string (fun x r => MkExecRequest (xq_UseShell r) (xq_Cmd r) (xq_Argv r) x (xq_Env r) (xq_TimeoutMs r) (xq_MaxOutputBytes r)));
      ("env", dec_strings xq_Env (fun x r => MkExecRequest (xq_UseShell r) (xq_Cmd r) (xq_Argv r) (xq_Cwd r) x (xq_TimeoutMs r) (xq_MaxOutputBytes r)));
      ("timeout_ms", dec_int (fun x r => MkExecRequest (xq_UseShell r) (xq_Cmd r) (xq_Argv r) (xq_Cwd r) (xq_Env r) x (xq_MaxOutputBytes r)));
      ("max_output_bytes", dec_int (fun x r => MkExecRequest (xq_UseShell r) (xq_Cmd r) (xq_Argv r) (xq_Cwd r) (xq_Env r) (xq_TimeoutMs r) x)) ].

Definition zero_NetRequest : NetRequest := MkNetRequest EmptyString EmptyString EmptyString EmptyString.
Definition dec_NetRequest : json -> NetRequest -> option NetRequest :=
  dec_struct strict
    [ ("interface", dec_string (fun x r => MkNetRequest x (nq_Address r) (nq_Gateway r) (nq_DNS r)));
      ("address", dec_string (fun x r => MkNetRequest (nq_Interface r) x (nq_Gateway r) (nq_DNS r)));
      ("gateway", dec_string (fun x r => MkNetRequest (nq_Interface r) (nq_Address r) x (nq_DNS r)));
      ("dns", dec_string (fun x r => MkNetRequest (nq_Interface r) (nq_Address r) (nq_Gateway r) x)) ].

Definition zero_Request : Request := MkRequest EmptyString None None.
Definition dec_Request : json -> Request -> option Request :=
  dec_struct strict
    [ ("type", dec_string (fun x r => MkRequest x (rq_Exec r) (rq_Net r)));
      ("exec", dec_ptr zero_ExecRequest dec_ExecRequest rq_Exec (fun x r => MkRequest (rq_Type r) x (rq_Net r)));
      ("net", dec_ptr zero_NetRequest dec_NetRequest rq_Net (fun x r => MkRequest (rq_Type r) (rq_Exec r) x)) ].

Definition zero_PingResponse : PingResponse := MkPingResponse EmptyString 0.
Definition dec_PingResponse : json -> PingResponse -> option PingResponse :=
  dec_struct strict
    [ ("agent_version", dec_string (fun x r => MkPingResponse x (pr_NowUnixMs r)));
      ("now_unix_ms", dec_int (fun x r => MkPingResponse (pr_AgentVersion r) x)) ].

Definition zero_ExecResponse : ExecResponse := MkExecResponse 0 EmptyString EmptyString false.
Definition dec_ExecResponse : json -> ExecResponse -> option ExecResponse :=
  dec_struct strict
    [ ("exit_code", dec_int (fun x r => MkExecResponse x (xs_Stdout r) (xs_Stderr r) (xs_TimedOut r)));
      ("stdout", dec_string (fun x r => MkExecResponse (xs_ExitCode r) x (xs_Stderr r) (xs_TimedOut r)));
      ("stderr", dec_string (fun x r => MkExecResponse (xs_ExitCode r) (xs_Stdout r) x (xs_TimedOut r)));
      ("timed_out", dec_bool (fun x r => MkExecResponse (xs_ExitCode r) (xs_Stdout r) (xs_Stderr r) x)) ].

Definition zero_NetResponse : NetResponse := MkNetResponse false.
Definition dec_NetResponse : json -> NetResponse -> option NetResponse :=
  dec_struct strict [ ("configured", dec_bool (fun x _ => MkNetResponse x)) ].

Definition zero_Response : Response := MkResponse false EmptyString None None None.
Definition dec_Response : json -> Response -> option Response :=
  dec_struct strict
    [ ("ok", dec_bool (fun x r => MkResponse x (rs_Error r) (rs_Ping r) (rs_Exec r) (rs_Net r)));
      ("error", dec_string (fun x r => MkResponse (rs_OK r) x (rs_Ping r) (rs_Exec r) (rs_Net r)));
      ("ping", dec_ptr zero_PingResponse dec_PingResponse rs_Ping (fun x r => MkResponse (rs_OK r) (rs_Error r) x (rs_Exec r) (rs_Net r)));
      ("exec", dec_ptr zero_ExecResponse dec_ExecResponse rs_Exec (fun x r => MkResponse (rs_OK r) (rs_Error r) (rs_Ping r) x (rs_Net r)));
      ("net", dec_ptr zero_NetResponse dec_NetResponse rs_Net (fun x r => MkResponse (rs_OK r) (rs_Error r) (rs_Ping r) (rs_Exec r) x)) ].

Definition zero_execRequest : execRequest := MkExecReq EmptyString EmptyString [] None 0.
Definition dec_execRequest : json -> execRequest -> option execRequest :=
  dec_struct strict
    [ ("sandbox_id", dec_string (fun x r => MkExecReq x (eq_Cmd r) (eq_Argv r) (eq_UseShell r) (eq_TimeoutMs r)));
      ("cmd", dec_string (fun x r => MkExecReq (eq_SandboxID r) x (eq_Argv r) (eq_UseShell r) (eq_TimeoutMs r)));
      ("argv", dec_strings eq_Argv (fun x r => MkExecReq (eq_SandboxID r) (eq_Cmd r) x (eq_UseShell r) (eq_TimeoutMs r)));
      ("use_shell", dec_ptr_bool (fun x r => MkExecReq (eq_SandboxID r) (eq_Cmd r) (eq_Argv r) x (eq_TimeoutMs r)));
      ("timeout_ms", dec_int (fun x r => MkExecReq (eq_SandboxID r) (eq_Cmd r) (eq_Argv r) (eq_UseShell r) x)) ].

(** destroyRequest, snapshotRestoreRequest and snapshotDeleteRequest have a
    single string field. *)
Definition dec_one (name : string) : json -> string -> option string :=
  dec_struct strict [ (name, dec_string (fun x _ => x)) ].

Definition dec_snapshotCreateRequest : json -> snapshotCreateRequest -> option snapshotCreateRequest :=
  dec_struct strict
    [ ("sandbox_id", dec_string (fun x r => MkSnapCreateReq x (scq_Name r)));
      ("name", dec_string (fun x r => MkSnapCreateReq (scq_SandboxID r) x)) ].

Definition zero_snapshotMeta : snapshotMeta := MkSnapshotMeta 0 EmptyString EmptyString EmptyString.
Definition dec_snapshotMeta : json -> snapshotMeta -> option snapshotMeta :=
  dec_struct strict
    [ ("version", dec_int (fun x m => MkSnapshotMeta x (sm_LineageID m) (sm_BaseRootfsPath m) (sm_CreatedAt m)));
      ("lineage_id", dec_string (fun x m => MkSnapshotMeta (sm_Version m) x (sm_BaseRootfsPath m) (sm_CreatedAt m)));
      ("base_rootfs_path", dec_string (fun x m => MkSnapshotMeta (sm_Version m) (sm_LineageID m) x (sm_CreatedAt m)));
      ("created_at", dec_string (fun x m => MkSnapshotMeta (sm_Version m) (sm_LineageID m) (sm_BaseRootfsPath m) x)) ].

Definition zero_userSnapshotMeta : userSnapshotMeta :=
  MkUserSnapshotMeta EmptyString EmptyString EmptyString EmptyString EmptyString EmptyString EmptyString EmptyString EmptyString.
Definition dec_userSnapshotMeta : json -> userSnapshotMeta -> option userSnapshotMeta :=
  dec_struct strict
    [ ("snapshot_id", dec_string (fun x m => MkUserSnapshotMeta x (um_Name m) (um_CreatedAt m) (um_StateFile m) (um_MemFile m) (um_DiskFile m) (um_LineageID m) (um_SourceSandboxID m) (um_SourceRootfsPath m)));
      ("name", dec_string (fun x m => MkUserSnapshotMeta (um_SnapshotID m) x (um_CreatedAt m) (um_StateFile m) (um_MemFile m) (um_DiskFile m) (um_LineageID m) (um_SourceSandboxID m) (um_SourceRootfsPath m)));
      ("created_at", dec_string (fun x m => MkUserSnapshotMeta (um_SnapshotID m) (um_Name m) x (um_StateFile m) (um_MemFile m) (um_DiskFile m) (um_LineageID m) (um_SourceSandboxID m) (um_SourceRootfsPath m)));
      ("state_file", dec_string (fun x m => MkUserSnapshotMeta (um_SnapshotID m) (um_Name m) (um_CreatedAt m) x (um_MemFile m) (um_DiskFile m) (um_LineageID m) (um_SourceSandboxID m) (um_SourceRootfsPath m)));
      ("mem_file", dec_string (fun x m => MkUserSnapshotMeta (um_SnapshotID m) (um_Name m) (um_CreatedAt m) (um_StateFile m) x (um_DiskFile m) (um_LineageID m) (um_SourceSandboxID m) (um_SourceRootfsPath m)));
      ("disk_file", dec_string (fun x m => MkUserSnapshotMeta (um_SnapshotID m) (um_Name m) (um_CreatedAt m) (um_StateFile m) (um_MemFile m) x (um_LineageID m) (um_SourceSandboxID m) (um_SourceRootfsPath m)));
      ("lineage_id", dec_string (fun x m => MkUserSnapshotMeta (um_SnapshotID m) (um_Name m) (um_CreatedAt m) (um_StateFile m) (um_MemFile m) (um_DiskFile m) x (um_SourceSandboxID m) (um_SourceRootfsPath m)));
      ("source_sandbox_id", dec_string (fun x m => MkUserSnapshotMeta (um_SnapshotID m) (um_Name m) (um_CreatedAt m) (um_StateFile m) (um_MemFile m) (um_DiskFile m) (um_LineageID m) x (um_SourceRootfsPath m)));
      ("source_rootfs_path", dec_string (fun x m => MkUserSnapshotMeta (um_SnapshotID m) (um_Name m) (um_CreatedAt m) (um_StateFile m) (um_MemFile m) (um_DiskFile m) (um_LineageID m) (um_SourceSandboxID m) x)) ].
End decoders.

(** http_util.go, decodeJSON: the first value of the body, unknown fields
    refused. *)
Definition decodeJSON {T} (dec : bool -> json -> T -> option T) (zero : T) (body : string) : option T :=
  match decode_first body with
  | Some j => dec true j zero
  | None => None
  end.

(** json.Unmarshal into a struct. *)
Definition Unmarshal {T} (dec : bool -> json -> T -> option T) (zero : T) (raw : string) : option T :=
  match unmarshal_text raw with
  | Some j => dec false j zero
  | None => None
  end.
