(* ===== verification/WireFacts.v ===== *)
(** * Encoding then decoding a message

    Every message of the agent protocol and every metadata file is read back
    as it was written, for strings that are valid UTF-8 and integers in their
    range. *)

From S2P Require Export Wire.

(** Every string of a value, member names included, is valid UTF-8. *)
Fixpoint utf8_ok (j : json) : Prop :=
  match j with
  | JStr s => ValidString s = true
  | JArr l => Forall id (map utf8_ok l)
  | JObj l => Forall id (map (fun p => ValidString (fst p) = true /\ utf8_ok (snd p)) l)
  | _ => True
  end.

Definition is_int64 (z : Z) : Prop := - 2 ^ 63 <= z < 2 ^ 63.

Record ExecRequest_ok (r : ExecRequest) : Prop := {
  xq_cmd_ok : ValidString (xq_Cmd r) = true;
  xq_argv_ok : Forall (fun s => ValidString s = true) (xq_Argv r);
  xq_cwd_ok : ValidString (xq_Cwd r) = true;
  xq_env_ok : Forall (fun s => ValidString s = true) (xq_Env r);
  xq_timeout_ok : is_int64 (xq_TimeoutMs r);
  xq_max_ok : is_int64 (xq_MaxOutputBytes r);
}.

Record NetRequest_ok (r : NetRequest) : Prop := {
  nq_if_ok : ValidString (nq_Interface r) = true;
  nq_addr_ok : ValidString (nq_Address r) = true;
  nq_gw_ok : ValidString (nq_Gateway r) = true;
  nq_dns_ok : ValidString (nq_DNS r) = true;
}.

Record Request_ok (r : Request) : Prop := {
  rq_type_ok : ValidString (rq_Type r) = true;
  rq_exec_ok : match rq_Exec r with Some x => ExecRequest_ok x | None => True end;
  rq_net_ok : match rq_Net r with Some x => NetRequest_ok x | None => True end;
}.

Record ExecResponse_ok (r : ExecResponse) : Prop := {
  xs_code_ok : is_int64 (xs_ExitCode r);
  xs_out_ok : ValidString (xs_Stdout r) = true;
  xs_err_ok : ValidString (xs_Stderr r) = true;
}.

Record PingResponse_ok (r : PingResponse) : Prop := {
  pr_version_ok : ValidString (pr_AgentVersion r) = true;
  pr_now_ok : is_int64 (pr_NowUnixMs r);
}.

Record Response_ok (r : Response) : Prop := {
  rs_error_ok : ValidString (rs_Error r) = true;
  rs_ping_ok : match rs_Ping r with Some x => PingResponse_ok x | None => True end;
  rs_exec_ok : match rs_Exec r with Some x => ExecResponse_ok x | None => True end;
}.

Record userSnapshotMeta_ok (m : userSnapshotMeta) : Prop := {
  um_id_ok : ValidString (um_SnapshotID m) = true;
  um_name_ok : ValidString (um_Name m) = true;
  um_created_ok : ValidString (um_CreatedAt m) = true;
  um_state_ok : ValidString (um_StateFile m) = true;
  um_mem_ok : ValidString (um_MemFile m) = true;
  um_disk_ok : ValidString (um_DiskFile m) = true;
  um_lineage_ok : ValidString (um_LineageID m) = true;
  um_source_ok : ValidString (um_SourceSandboxID m) = true;
  um_rootfs_ok : ValidString (um_SourceRootfsPath m) = true;
}.

Record snapshotMeta_ok (m : snapshotMeta) : Prop := {
  sm_version_ok : is_int64 (sm_Version m);
  sm_lineage_ok : ValidString (sm_LineageID m) = true;
  sm_base_ok : ValidString (sm_BaseRootfsPath m) = true;
  sm_created_ok : ValidString (sm_CreatedAt m) = true;
}.

(** ** What the wire does to a well-formed value: nothing *)

Lemma on_wire_id j : utf8_ok j -> on_wire j = j.
Proof.
  unfold on_wire. induction j as [ |b|t|s|l IH|l IH] using json_nested_ind; simpl; intros H; try done.
  - by rewrite sanitize_valid.
  - f_equal. apply (proj1 (List.Forall_map utf8_ok id l)) in H.
    induction IH as [|v l Hv _ IHl]; [done|]. inversion H; subst. simpl. rewrite Hv, IHl; done.
  - f_equal. apply (proj1 (List.Forall_map _ id l)) in H.
    induction IH as [|[k v] l Hv _ IHl]; [done|]. inversion H as [|? ? [Hk Hvv] HF]; subst. simpl in *.
    rewrite sanitize_valid, Hv, IHl; done.
Qed.

Create HintDb wire.

Lemma Forall_id_app (f : string * json -> Prop) l1 l2 :
  Forall id (map f l1) -> Forall id (map f l2) -> Forall id (map f (l1 ++ l2)).
Proof. rewrite map_app. apply Forall_app_2. Qed.

Lemma members_field (f : string * json -> Prop) n v : f (n, v) -> Forall id (map f (field n v)).
Proof. intros H. by repeat constructor. Qed.

Lemma members_omitempty (f : string * json -> Prop) b n v : f (n, v) -> Forall id (map f (omitempty b n v)).
Proof. intros H. destruct b; by repeat constructor. Qed.

Lemma members_ptr {A} (f : string * json -> Prop) (enc : A -> json) n o :
  (forall a, o = Some a -> f (n, enc a)) -> Forall id (map f (ptr enc n o)).
Proof. intros H. destruct o as [a|]; repeat constructor. by apply H. Qed.

Lemma utf8_jstrs l : Forall (fun s => ValidString s = true) l -> utf8_ok (jstrs l).
Proof. intros H. simpl. induction H; simpl; constructor; done. Qed.

Lemma ints_jstrs l : int_numbers (jstrs l).
Proof. simpl. induction l; simpl; constructor; done. Qed.

Lemma ints_jint z : int_numbers (jint z).
Proof. by exists z. Qed.

#[export] Hint Resolve Forall_id_app members_field members_omitempty members_ptr utf8_jstrs ints_jstrs ints_jint : wire.

(** Closes the well-formedness of an encoded struct. *)
Ltac wire_ok :=
  cbn [utf8_ok int_numbers];
  repeat match goal with
  | |- Forall id (map _ (_ ++ _)) => apply Forall_id_app
  | |- Forall id (map _ (field _ _)) => apply members_field
  | |- Forall id (map _ (omitempty _ _ _)) => apply members_omitempty
  | |- Forall id (map _ (ptr _ _ ?o)) =>
      apply members_ptr; let H := fresh in intros ? H; rewrite ?H in *
  end;
  cbn [fst snd];
  repeat match goal with |- _ /\ _ => split end;
  eauto with wire; try (by vm_compute).

(** ** Field by field *)

Lemma dec_elems_strs l old : dec_elems old (map JStr l) = Some l.
Proof.
  revert old. induction l as [|x l IH]; intros old; simpl; [done|]. by rewrite IH.
Qed.

Arguments ParseInt : simpl never.
Arguments itoa : simpl never.

(** Decodes the members one after the other; each optional member is there or
    absent because its value is the zero value. *)
Ltac wire_dec :=
  repeat match goal with
  | |- context [omitempty (is_empty ?s) _ _] => destruct s eqn:?; cbn [omitempty is_empty]
  | |- context [omitempty (bool_decide (?l = [])) _ _] =>
      destruct l eqn:?; cbn [omitempty]; [rewrite bool_decide_true by done|rewrite bool_decide_false by done]
  | |- context [omitempty (?z =? 0) _ _] => destruct (Z.eqb_spec z 0) as [->|]; cbn [omitempty]
  end;
  simpl;
  repeat first [rewrite ParseInt_itoa by assumption; simpl | rewrite dec_elems_strs; simpl];
  try reflexivity.

(** Looks the member names up, without unfolding the decoders of pointers. *)
Ltac wire_members :=
  cbn [dec_members find_field find_by String.eqb Ascii.eqb Bool.eqb dec_string dec_bool dec_int].

Lemma dec_enc_ExecRequest strict r :
  ExecRequest_ok r -> dec_ExecRequest strict (enc_ExecRequest r) zero_ExecRequest = Some r.
Proof.
  destruct r as [sh cmd argv cwd env t m]. intros [_ _ _ _ Ht Hm]. simpl in *.
  unfold enc_ExecRequest, dec_ExecRequest. cbn [xq_UseShell xq_Cmd xq_Argv xq_Cwd xq_Env xq_TimeoutMs xq_MaxOutputBytes].
  wire_dec.
Qed.

Lemma dec_enc_NetRequest strict r :
  dec_NetRequest strict (enc_NetRequest r) zero_NetRequest = Some r.
Proof.
  destruct r as [i a g d]. unfold enc_NetRequest, dec_NetRequest.
  cbn [nq_Interface nq_Address nq_Gateway nq_DNS]. wire_dec.
Qed.

(** A pointer to a struct that was encoded: decoding allocates it. *)
Lemma dec_ptr_enc {T U} (zero u : U) (dec : json -> U -> option U) get (set : option U -> T -> T) j t :
  get t = None -> j <> JNull -> dec j zero = Some u -> dec_ptr zero dec get set j t = Some (set (Some u) t).
Proof. intros Hg Hj Hd. unfold dec_ptr. rewrite Hg. simpl. rewrite Hd. by destruct j. Qed.

Lemma dec_enc_Request strict r :
  Request_ok r -> dec_Request strict (enc_Request r) zero_Request = Some r.
Proof.
  destruct r as [t [x|] [n|]]; intros [_ Hx _]; simpl in Hx;
    unfold enc_Request, dec_Request, dec_struct; cbn [rq_Type rq_Exec rq_Net ptr field app];
    wire_members;
    rewrite ?(dec_ptr_enc _ x) by (done || by apply dec_enc_ExecRequest);
    wire_members; rewrite ?(dec_ptr_enc _ n) by (done || by apply dec_enc_NetRequest); done.
Qed.

Lemma dec_enc_PingResponse strict r :
  PingResponse_ok r -> dec_PingResponse strict (enc_PingResponse r) zero_PingResponse = Some r.
Proof.
  destruct r as [v t]. intros [_ Ht]. simpl in Ht. unfold enc_PingResponse, dec_PingResponse. wire_dec.
Qed.

Lemma dec_enc_ExecResponse strict r :
  ExecResponse_ok r -> dec_ExecResponse strict (enc_ExecResponse r) zero_ExecResponse = Some r.
Proof.
  destruct r as [c o e t]. intros [Hc _ _]. simpl in Hc. unfold enc_ExecResponse, dec_ExecResponse. wire_dec.
Qed.

Lemma dec_enc_Response strict r :
  Response_ok r -> dec_Response strict (enc_Response r) zero_Response = Some r.
Proof.
  destruct r as [ok e p x n]; intros [_ Hp Hx]; unfold enc_Response, dec_Response; simpl in *.
  assert (match x with Some x => dec_ExecResponse strict (enc_ExecResponse x) zero_ExecResponse = Some x | None => True end) as Hx'.
  { destruct x; [by apply dec_enc_ExecResponse|done]. }
  assert (match p with Some p => dec_PingResponse strict (enc_PingResponse p) zero_PingResponse = Some p | None => True end) as Hp'.
  { destruct p; [by apply dec_enc_PingResponse|done]. }
  destruct e, p, x, n as [[]|]; simpl in *; rewrite ?Hp'; simpl; rewrite ?Hx'; done.
Qed.

Lemma dec_enc_userSnapshotMeta strict m :
  dec_userSnapshotMeta strict (enc_userSnapshotMeta m) zero_userSnapshotMeta = Some m.
Proof. destruct m. unfold enc_userSnapshotMeta, dec_userSnapshotMeta. simpl. wire_dec. Qed.

Lemma dec_enc_snapshotMeta strict m :
  is_int64 (sm_Version m) -> dec_snapshotMeta strict (enc_snapshotMeta m) zero_snapshotMeta = Some m.
Proof. destruct m. simpl. intros H. unfold enc_snapshotMeta, dec_snapshotMeta. simpl. wire_dec. Qed.

(** ** Well-formedness of the encodings *)

Lemma enc_ExecRequest_ints r : int_numbers (enc_ExecRequest r).
Proof. unfold enc_ExecRequest. wire_ok. Qed.

Lemma enc_NetRequest_ints r : int_numbers (enc_NetRequest r).
Proof. unfold enc_NetRequest. wire_ok. Qed.

Lemma enc_Request_ints r : int_numbers (enc_Request r).
Proof. unfold enc_Request. wire_ok; [apply enc_ExecRequest_ints|apply enc_NetRequest_ints]. Qed.

Lemma enc_ExecRequest_utf8 r : ExecRequest_ok r -> utf8_ok (enc_ExecRequest r).
Proof. intros []. unfold enc_ExecRequest. wire_ok. Qed.

Lemma enc_NetRequest_utf8 r : NetRequest_ok r -> utf8_ok (enc_NetRequest r).
Proof. intros []. unfold enc_NetRequest. wire_ok. Qed.

Lemma enc_Request_utf8 r : Request_ok r -> utf8_ok (enc_Request r).
Proof.
  intros [Ht Hx Hn]. unfold enc_Request. wire_ok; [by apply enc_ExecRequest_utf8|by apply enc_NetRequest_utf8].
Qed.

Lemma enc_Response_ints r : int_numbers (enc_Response r).
Proof.
  unfold enc_Response. wire_ok; unfold enc_PingResponse, enc_ExecResponse, enc_NetResponse; wire_ok.
Qed.

Lemma enc_Response_utf8 r : Response_ok r -> utf8_ok (enc_Response r).
Proof.
  intros [He Hp Hx]. unfold enc_Response. wire_ok.
  - destruct Hp. unfold enc_PingResponse. wire_ok.
  - destruct Hx. unfold enc_ExecResponse. wire_ok.
  - unfold enc_NetResponse. wire_ok.
Qed.

Lemma enc_userSnapshotMeta_ints m : int_numbers (enc_userSnapshotMeta m).
Proof. unfold enc_userSnapshotMeta. wire_ok. Qed.

Lemma enc_userSnapshotMeta_utf8 m : userSnapshotMeta_ok m -> utf8_ok (enc_userSnapshotMeta m).
Proof. intros []. unfold enc_userSnapshotMeta. wire_ok. Qed.

Lemma enc_snapshotMeta_ints m : int_numbers (enc_snapshotMeta m).
Proof. unfold enc_snapshotMeta. wire_ok. Qed.

Lemma enc_snapshotMeta_utf8 m : snapshotMeta_ok m -> utf8_ok (enc_snapshotMeta m).
Proof. intros []. unfold enc_snapshotMeta. wire_ok. Qed.

(** ** Text level *)

Lemma decode_marshal {T} (dec : bool -> json -> T -> option T) zero j r (x : T) :
  int_numbers j -> utf8_ok j -> ends_number r -> dec true j zero = Some x ->
  decodeJSON dec zero (marshal j +:+ r) = Some x.
Proof.
  intros Hi Hu Hr Hd. unfold decodeJSON. rewrite decode_first_marshal by done. by rewrite on_wire_id.
Qed.

Lemma unmarshal_marshal {T} (dec : bool -> json -> T -> option T) zero j (x : T) :
  int_numbers j -> utf8_ok j -> dec false j zero = Some x ->
  Unmarshal dec zero (marshal_indent j +:+ String (chr 10) EmptyString) = Some x.
Proof.
  intros Hi Hu Hd. unfold Unmarshal. rewrite unmarshal_marshal_indent by done. by rewrite on_wire_id.
Qed.
