(* ===== verification/AgentRPC.v ===== *)
(** * internal/agentrpc: framed JSON messages

    A frame is the length of the payload on four bytes, big endian, and the
    payload.  [WriteMessage] and [ReadMessage] are written over any writer and
    any reader; the host and the guest agent instantiate them with their
    sockets, and the theorems here with a byte stream. *)

From S2P Require Export WireFacts Prog.

(** ** encoding/binary *)

(** binary.BigEndian.PutUint32 *)
Definition PutUint32 (n : Z) : string :=
  String (chr (n / 2 ^ 24 mod 256)) (String (chr (n / 2 ^ 16 mod 256))
    (String (chr (n / 2 ^ 8 mod 256)) (str1 (chr (n mod 256))))).

(** binary.BigEndian.Uint32 *)
Definition Uint32 (hdr : string) : Z :=
  match hdr with
  | String a (String b (String c (String d _))) =>
      Z.lor (Z.shiftl (byte_of a) 24)
        (Z.lor (Z.shiftl (byte_of b) 16) (Z.lor (Z.shiftl (byte_of c) 8) (byte_of d)))
  | _ => 0
  end.

Definition len (s : string) : Z := Z.of_nat (String.length s).

Section rpc.
Context {E : Type -> Type}.
Context (w_Write : string -> prog E (option error)).
Context (r_ReadFull : nat -> prog E (result string)).

(** [raw] is what json.Marshal made of the message. *)
Definition WriteMessage (raw : string) : prog E (option error) :=
  if len raw >? MaxMessageBytes then
    Ret (Some (errorf [Lit "agentrpc: message too large: "; Lit (itoa (len raw)); Lit " bytes"]))
  else
    let! err := w_Write (PutUint32 (uint32 (len raw))) in
    match err with
    | Some e => Ret (Some e)
    | None => w_Write raw
    end.

Definition errDecode : error := errorf [Lit "json: cannot decode message"].

Definition ReadMessage {T} (dec : bool -> json -> T -> option T) (zero : T) : prog E (result T) :=
  let! hdr := r_ReadFull 4 in
  match hdr with
  | Err e => Ret (Err e)
  | Ok hdr =>
      let n := Uint32 hdr in
      if (n =? 0) || (n >? MaxMessageBytes) then
        Ret (Err (errorf [Lit "agentrpc: invalid message length: "; Lit (itoa n)]))
      else
        let! buf := r_ReadFull (Z.to_nat n) in
        match buf with
        | Err e => Ret (Err e)
        | Ok buf =>
            match decodeJSON dec zero buf with
            | Some v => Ret (Ok v)
            | None => Ret (Err errDecode)
            end
        end
  end.
End rpc.

(** ** A byte stream: what was written comes out in order, then end of file *)

Inductive streamE : Type -> Type :=
| SWrite (b : string) : streamE (option error)
| SReadFull (n : nat) : streamE (result string).

Definition errEOF : error := MkError [Lit "EOF"] [ErrEOF].
Definition errUnexpectedEOF : error := MkError [Lit "unexpected EOF"] [ErrUnexpectedEOF].

(** io.ReadFull: EOF when nothing is left, ErrUnexpectedEOF in the middle. *)
Definition stream_step (X : Type) (e : streamE X) (s : string) : option (X * string) :=
  match e in streamE X return option (X * string) with
  | SWrite b => Some (None, s +:+ b)
  | SReadFull n =>
      if (n <=? String.length s)%nat then
        Some (Ok (String.substring 0 n s), String.substring n (String.length s - n) s)
      else if is_empty s then Some (Err errEOF, EmptyString)
      else Some (Err errUnexpectedEOF, EmptyString)
  end.

Definition swrite (b : string) : prog streamE (option error) := trigger (SWrite b).
Definition sread (n : nat) : prog streamE (result string) := trigger (SReadFull n).

Fixpoint write_all (raws : list string) : prog streamE (option error) :=
  match raws with
  | [] => Ret None
  | raw :: raws =>
      let! err := WriteMessage swrite raw in
      match err with Some e => Ret (Some e) | None => write_all raws end
  end.

Fixpoint read_all {T} (dec : bool -> json -> T -> option T) (zero : T) (n : nat) : prog streamE (result (list T)) :=
  match n with
  | O => Ret (Ok [])
  | S m =>
      let! r := ReadMessage sread dec zero in
      match r with
      | Err e => Ret (Err e)
      | Ok v =>
          let! rs := read_all dec zero m in
          match rs with Err e => Ret (Err e) | Ok vs => Ret (Ok (v :: vs)) end
      end
  end.

(** ** Lemmas *)

Lemma length_PutUint32 n : String.length (PutUint32 n) = 4%nat.
Proof. done. Qed.

Lemma byte_of_chr_mod z : byte_of (chr (z mod 256)) = z mod 256.
Proof. apply byte_of_chr, Z.mod_pos_bound. lia. Qed.

(** Shifted bytes do not overlap, so [lor] adds them. *)
Lemma land_shiftl_small a b k : 0 <= k -> 0 <= b < 2 ^ k -> Z.land (Z.shiftl a k) b = 0.
Proof.
  intros Hk Hb. apply Z.bits_inj'. intros i Hi. rewrite Z.land_spec, Z.bits_0.
  destruct (Z.lt_ge_cases i k) as [Hlt|Hge]; [by rewrite Z.shiftl_spec_low|].
  destruct (Z.eq_dec b 0) as [->|Hb0]; [by rewrite Z.bits_0, andb_false_r|].
  rewrite (Z.bits_above_log2 b), andb_false_r; [done|lia|].
  apply Z.lt_le_trans with k; [apply Z.log2_lt_pow2|]; lia.
Qed.

Lemma lor_shiftl_add a b k : 0 <= k -> 0 <= b < 2 ^ k -> Z.lor (Z.shiftl a k) b = a * 2 ^ k + b.
Proof.
  intros Hk Hb. pose proof (land_shiftl_small a b k Hk Hb) as H.
  rewrite <- Z.lxor_lor, <- Z.add_nocarry_lxor by done. by rewrite Z.shiftl_mul_pow2.
Qed.

Lemma Uint32_PutUint32 n : 0 <= n < 2 ^ 32 -> Uint32 (PutUint32 n) = n.
Proof.
  intros Hn. unfold PutUint32, Uint32, str1. rewrite !byte_of_chr_mod.
  change (2 ^ 32) with 4294967296 in Hn. change (2 ^ 8) with 256 in *.
  change (2 ^ 16) with 65536. change (2 ^ 24) with 16777216.
  rewrite (lor_shiftl_add (n / 256 mod 256)) by (change (2 ^ 8) with 256; div_lia).
  rewrite (lor_shiftl_add (n / 65536 mod 256))
    by (change (2 ^ 16) with 65536; change (2 ^ 8) with 256; div_lia).
  rewrite (lor_shiftl_add (n / 16777216 mod 256))
    by (change (2 ^ 24) with 16777216; change (2 ^ 16) with 65536; change (2 ^ 8) with 256; div_lia).
  change (2 ^ 8) with 256. change (2 ^ 16) with 65536. change (2 ^ 24) with 16777216. div_lia.
Qed.

(** ** What a message type promises to the framing *)

Class Message (T : Type) := {
  msg_enc : T -> json;
  msg_dec : bool -> json -> T -> option T;
  msg_zero : T;
  msg_ok : T -> Prop;
  msg_ints : forall v, int_numbers (msg_enc v);
  msg_utf8 : forall v, msg_ok v -> utf8_ok (msg_enc v);
  msg_dec_enc : forall v, msg_ok v -> msg_dec true (msg_enc v) msg_zero = Some v;
}.

#[export] Instance Request_message : Message Request := {|
  msg_enc := enc_Request; msg_dec := dec_Request; msg_zero := zero_Request; msg_ok := Request_ok;
  msg_ints := enc_Request_ints; msg_utf8 := enc_Request_utf8; msg_dec_enc := dec_enc_Request true |}.

#[export] Instance Response_message : Message Response := {|
  msg_enc := enc_Response; msg_dec := dec_Response; msg_zero := zero_Response; msg_ok := Response_ok;
  msg_ints := enc_Response_ints; msg_utf8 := enc_Response_utf8; msg_dec_enc := dec_enc_Response true |}.

(** The bytes of a message, and the messages that fit in a frame. *)
Definition raw_of {T} `{Message T} (v : T) : string := marshal (msg_enc v).
Definition sendable {T} `{Message T} (v : T) : Prop := msg_ok v /\ len (raw_of v) <= MaxMessageBytes.
Definition frame (raw : string) : string := PutUint32 (len raw) +:+ raw.

Lemma substring_app_l a b n : n = String.length a -> String.substring 0 n (a +:+ b) = a.
Proof.
  intros ->. induction a as [|c a IH]; autorewrite with manta; [by destruct b|]. simpl. by rewrite IH.
Qed.

Lemma substring_app_r a b n m :
  n = String.length a -> m = String.length b -> String.substring n m (a +:+ b) = b.
Proof.
  intros -> ->. induction a as [|c a IH]; [apply substring_all|exact IH].
Qed.

Lemma stream_read a b : stream_step _ (SReadFull (String.length a)) (a +:+ b) = Some (Ok a, b).
Proof.
  unfold stream_step. rewrite string_length_app.
  destruct (Nat.leb_spec (String.length a) (String.length a + String.length b)); [|lia].
  rewrite substring_app_l by done. rewrite substring_app_r by lia. done.
Qed.

Lemma stream_read_n n a b :
  String.length a = n -> stream_step _ (SReadFull n) (a +:+ b) = Some (Ok a, b).
Proof. intros <-. apply stream_read. Qed.

Lemma marshal_nonempty j : int_numbers j -> 0 < len (marshal j).
Proof.
  intros Hj. destruct (print_starts (fun _ => EmptyString) EmptyString 0 j Hj) as (c & r & Hm & _).
  unfold marshal, len. rewrite Hm. simpl. lia.
Qed.

Lemma decode_raw {T} `{Message T} (v : T) : msg_ok v -> decodeJSON msg_dec msg_zero (raw_of v) = Some v.
Proof.
  intros Hv. unfold raw_of. rewrite <- (string_app_nil_r (marshal _)).
  apply decode_marshal; auto using msg_ints, msg_utf8, msg_dec_enc. done.
Qed.

Lemma write_run raw s :
  len raw <= MaxMessageBytes ->
  run stream_step (WriteMessage swrite raw) s = (Done None, s +:+ frame raw).
Proof.
  intros Hl. unfold WriteMessage, frame. rewrite Z.gtb_ltb.
  destruct (Z.ltb_spec MaxMessageBytes (len raw)); [lia|]. simpl.
  rewrite string_app_assoc, uint32_id; [done|].
  unfold MaxMessageBytes in *. unfold len in *. lia.
Qed.

Lemma read_run {T} `{Message T} (v : T) s :
  sendable v -> run stream_step (ReadMessage sread msg_dec msg_zero) (frame (raw_of v) +:+ s) = (Done (Ok v), s).
Proof.
  intros [Hv Hl]. unfold ReadMessage, frame. rewrite string_app_assoc.
  assert (0 < len (raw_of v)) as Hpos by apply marshal_nonempty, msg_ints.
  assert (0 <= len (raw_of v) < 2 ^ 32) as Hr by (unfold MaxMessageBytes in *; lia).
  cbn [bind run sread trigger]. rewrite (stream_read_n 4) by apply length_PutUint32.
  cbv beta iota. rewrite Uint32_PutUint32 by done.
  destruct (Z.eqb_spec (len (raw_of v)) 0); [lia|]. rewrite Z.gtb_ltb.
  destruct (Z.ltb_spec MaxMessageBytes (len (raw_of v))); [lia|].
  cbn [orb bind run]. rewrite stream_read_n by (unfold len; lia).
  by rewrite (decode_raw v Hv).
Qed.

Lemma write_all_run raws s :
  Forall (fun raw => len raw <= MaxMessageBytes) raws ->
  run stream_step (write_all raws) s = (Done None, s +:+ String.concat EmptyString (map frame raws)).
Proof.
  intros H. revert s. induction H as [|raw raws Hr _ IH]; intros s; cbn [write_all].
  - simpl. by rewrite string_app_nil_r.
  - rewrite run_bind, write_run by done. rewrite IH. f_equal.
    rewrite string_app_assoc. f_equal. simpl. destruct (map frame raws); simpl; [|done].
    by rewrite string_app_nil_r.
Qed.

Lemma concat_frames_cons raw raws :
  String.concat EmptyString (map frame (raw :: raws)) = frame raw +:+ String.concat EmptyString (map frame raws).
Proof. simpl. destruct (map frame raws); simpl; [|done]. by rewrite string_app_nil_r. Qed.

Lemma read_all_run {T} `{Message T} (vs : list T) s :
  Forall sendable vs ->
  run stream_step (read_all msg_dec msg_zero (length vs))
    (String.concat EmptyString (map frame (map raw_of vs)) +:+ s) = (Done (Ok vs), s).
Proof.
  intros Hv. induction Hv as [|v vs Hv _ IH]; [done|].
  cbn [length read_all]. rewrite map_cons, run_bind, concat_frames_cons, string_app_assoc, read_run by done.
  by rewrite run_bind, IH.
Qed.

(** ** What the reader makes of any stream *)

Inductive frame_read {T} (dec : bool -> json -> T -> option T) (zero : T) : string -> result T -> string -> Prop :=
| fr_message raw v rest :
    0 < len raw <= MaxMessageBytes -> decodeJSON dec zero raw = Some v ->
    frame_read dec zero (frame raw +:+ rest) (Ok v) rest
| fr_undecodable raw rest :
    0 < len raw <= MaxMessageBytes -> decodeJSON dec zero raw = None ->
    frame_read dec zero (frame raw +:+ rest) (Err errDecode) rest
| fr_length n rest :
    0 <= n < 2 ^ 32 -> n = 0 \/ MaxMessageBytes < n ->
    frame_read dec zero (PutUint32 n +:+ rest) (Err (errorf [Lit "agentrpc: invalid message length: "; Lit (itoa n)])) rest
| fr_closed : frame_read dec zero EmptyString (Err errEOF) EmptyString
| fr_header s : 0 < len s < 4 -> frame_read dec zero s (Err errUnexpectedEOF) EmptyString
| fr_nothing n : 0 < n <= MaxMessageBytes -> frame_read dec zero (PutUint32 n) (Err errEOF) EmptyString
| fr_cut n t :
    0 < len t < n -> n <= MaxMessageBytes ->
    frame_read dec zero (PutUint32 n +:+ t) (Err errUnexpectedEOF) EmptyString.

(** The header of a stream of at least four bytes. *)
Lemma read_header {T} (dec : bool -> json -> T -> option T) (zero : T) n t :
  0 <= n < 2 ^ 32 ->
  run stream_step (ReadMessage sread dec zero) (PutUint32 n +:+ t) =
  if (n =? 0) || (n >? MaxMessageBytes) then (Done (Err (errorf [Lit "agentrpc: invalid message length: "; Lit (itoa n)])), t)
  else run stream_step
    (let! buf := sread (Z.to_nat n) in
     match buf with
     | Err e => Ret (Err e)
     | Ok buf => match decodeJSON dec zero buf with Some v => Ret (Ok v) | None => Ret (Err errDecode) end
     end) t.
Proof.
  intros Hn. unfold ReadMessage. cbn [bind run sread trigger]. rewrite (stream_read_n 4) by apply length_PutUint32.
  cbv beta iota. rewrite Uint32_PutUint32 by done. by destruct (_ || _).
Qed.

(** The body: all of it, some of it, or nothing. *)
Lemma read_short n t :
  (String.length t < n)%nat ->
  stream_step _ (SReadFull n) t = Some (Err (if is_empty t then errEOF else errUnexpectedEOF), EmptyString).
Proof. intros H. cbn. destruct (Nat.leb_spec n (String.length t)); [lia|]. by destruct (is_empty t). Qed.

Lemma read_body {T} (dec : bool -> json -> T -> option T) (zero : T) n t :
  0 < n <= MaxMessageBytes ->
  run stream_step (ReadMessage sread dec zero) (PutUint32 n +:+ t) =
  run stream_step
    (let! buf := sread (Z.to_nat n) in
     match buf with
     | Err e => Ret (Err e)
     | Ok buf => match decodeJSON dec zero buf with Some v => Ret (Ok v) | None => Ret (Err errDecode) end
     end) t.
Proof.
  intros Hn. rewrite read_header by (unfold MaxMessageBytes in *; lia). rewrite Z.gtb_ltb.
  destruct (Z.eqb_spec n 0); [lia|]. by destruct (Z.ltb_spec MaxMessageBytes n); [lia|].
Qed.

Lemma frame_read_run {T} (dec : bool -> json -> T -> option T) (zero : T) s r rest :
  frame_read dec zero s r rest -> run stream_step (ReadMessage sread dec zero) s = (Done r, rest).
Proof.
  intros H. destruct H as [raw v rest Hn Hd|raw rest Hn Hd|n rest Hn Hbad| |s Hs|n Hn|n t Ht Hn].
  1-2: unfold frame; rewrite string_app_assoc, read_body by done; cbn [bind run sread trigger];
    rewrite stream_read_n by (unfold len; lia); by rewrite Hd.
  - rewrite read_header by done. rewrite Z.gtb_ltb.
    destruct (Z.eqb_spec n 0), (Z.ltb_spec MaxMessageBytes n); try done; lia.
  - done.
  - unfold ReadMessage. cbn [bind run sread trigger]. rewrite read_short by (unfold len in Hs; lia).
    destruct s; [by destruct Hs|done].
  - rewrite <- (string_app_nil_r (PutUint32 n)), read_body by done. cbn [bind run sread trigger].
    by rewrite read_short by (cbn; lia).
  - rewrite read_body by lia. cbn [bind run sread trigger]. rewrite read_short by (unfold len in Ht; lia).
    destruct t; [by destruct Ht|done].
Qed.

(** Four bytes are a length. *)
Lemma header_length a b c d :
  exists n, 0 <= n < 2 ^ 32 /\ String a (String b (String c (str1 d))) = PutUint32 n.
Proof.
  pose proof (byte_of_range a). pose proof (byte_of_range b). pose proof (byte_of_range c). pose proof (byte_of_range d).
  exists (byte_of a * 16777216 + byte_of b * 65536 + byte_of c * 256 + byte_of d). split; [lia|]. unfold PutUint32, str1.
  change (2 ^ 24) with 16777216. change (2 ^ 16) with 65536.
  rewrite <- (chr_byte_of a) at 1. rewrite <- (chr_byte_of b) at 1. rewrite <- (chr_byte_of c) at 1. rewrite <- (chr_byte_of d) at 1.
  repeat f_equal; div_lia.
Qed.

Lemma split_string n s : (n <= String.length s)%nat -> exists a b, s = a +:+ b /\ String.length a = n.
Proof.
  revert n. induction s as [|c s IH]; intros n H; cbn in H.
  - exists EmptyString, EmptyString. split; [done|]. cbn. lia.
  - destruct n as [|n]; [by exists EmptyString, (String c s)|].
    destruct (IH n) as (a & b & -> & <-); [lia|]. by exists (String c a), b.
Qed.

Lemma frame_read_total {T} (dec : bool -> json -> T -> option T) (zero : T) s :
  exists r rest, frame_read dec zero s r rest.
Proof.
  destruct s as [|a [|b [|c [|d t]]]]; [by do 2 eexists; apply fr_closed|..].
  1-3: do 2 eexists; apply fr_header; unfold len; cbn; lia.
  destruct (header_length a b c d) as (n & Hn & Hh).
  assert (String a (String b (String c (String d t))) = PutUint32 n +:+ t) as -> by by rewrite <- Hh.
  destruct (decide (n = 0 \/ MaxMessageBytes < n)) as [Hbad|Hok]; [by do 2 eexists; apply fr_length|].
  destruct (decide (Z.of_nat (String.length t) < n)) as [Hlt|Hge].
  - destruct t as [|x t]; [rewrite string_app_nil_r; do 2 eexists; apply fr_nothing; lia|].
    do 2 eexists. apply fr_cut; unfold len in *; cbn in *; lia.
  - destruct (split_string (Z.to_nat n) t) as (raw & rest & -> & Hlen); [lia|].
    assert (len raw = n) as <- by (unfold len; lia). rewrite <- string_app_assoc. fold (frame raw).
    destruct (decodeJSON dec zero raw) as [v|] eqn:E; do 2 eexists; [eapply fr_message|apply fr_undecodable]; try done; lia.
Qed.

(** ** Properties *)

(** C35. A connection carries any sequence of messages: what one side writes,
    frame after frame, the other side reads back as the same messages in the
    same order, and the bytes that follow are left in the stream. *)
Theorem frames_roundtrip {T} `{Message T} (vs : list T) (rest : string) :
  Forall sendable vs ->
  exists s,
    run stream_step (write_all (map raw_of vs)) EmptyString = (Done None, s)
    /\ run stream_step (read_all msg_dec msg_zero (length vs)) (s +:+ rest) = (Done (Ok vs), rest).
Proof.
  intros Hv. exists (String.concat EmptyString (map frame (map raw_of vs))). split.
  - apply (write_all_run _ EmptyString). apply List.Forall_map.
    apply (Forall_impl _ _ _ Hv). by intros v [_ Hl].
  - by apply read_all_run.
Qed.

(** C36. The framing is what its two functions make of a byte stream: the
    writer appends the frame of a message of at most 8 MiB and refuses a larger
    one before a byte is written; and the reader, on any bytes whatever, does
    what [frame_read] says and nothing else: it returns a message exactly when
    a whole frame with an admissible length that decodes stands in front, and
    otherwise the error of the first thing that is wrong. *)
Theorem framing_spec {T} (dec : bool -> json -> T -> option T) (zero : T) (raw s : string) :
  run stream_step (WriteMessage swrite raw) s
    = (if len raw <=? MaxMessageBytes then (Done None, s +:+ frame raw)
       else (Done (Some (errorf [Lit "agentrpc: message too large: "; Lit (itoa (len raw)); Lit " bytes"])), s))
  /\ forall r rest, run stream_step (ReadMessage sread dec zero) s = (Done r, rest) <-> frame_read dec zero s r rest.
Proof.
  split.
  - destruct (Z.leb_spec (len raw) MaxMessageBytes); [by apply write_run|]. unfold WriteMessage.
    rewrite Z.gtb_ltb. by destruct (Z.ltb_spec MaxMessageBytes (len raw)); [|lia].
  - intros r rest. split; [|apply frame_read_run]. intros H.
    destruct (frame_read_total dec zero s) as (r0 & rest0 & H0). by rewrite (frame_read_run _ _ _ _ _ H0) in H; simplify_eq.
Qed.

(** ** Witnesses *)

Definition sample_request : Request :=
  MkRequest "exec" (Some (MkExecRequest true "echo hi" [] EmptyString ["A=1"] 5000 1048576)) None.

Lemma sample_sendable : sendable sample_request.
Proof.
  split; [|by vm_compute].
  split; [by vm_compute| |done]. split; try (by vm_compute); try (unfold is_int64; simpl; lia); repeat constructor.
Qed.

Lemma frames_roundtrip_witness :
  exists s,
    run stream_step (write_all (map raw_of [sample_request; sample_request])) EmptyString = (Done None, s)
    /\ run stream_step (read_all msg_dec msg_zero 2) (s +:+ "tail") = (Done (Ok [sample_request; sample_request]), "tail").
Proof. apply (frames_roundtrip [sample_request; sample_request] "tail"). repeat constructor; apply sample_sendable. Defined.
