(* ===== verification/Bench.v ===== *)
(** * cmd/bench: the client that measures create, exec and destroy

    A benchmark client asks the server over HTTP and reads the clock; what it
    prints on stderr while it runs is left out.  The flags are arguments. *)

From S2P Require Export Wire GoFormat Duration Watch.

Inductive benchE : Type -> Type :=
| ClientDo (method url body : string) : benchE (result (Z * result string))  (* status, and the body as read *)
| BNow : benchE Z.

Section bench.
(** Whether http.NewRequest accepts a URL (net/url); the clients drop its
    error and use the nil request. *)
Context (validURL : string -> bool).

(** ** HTTP *)

Definition doJSON (method url body : string) : prog benchE (result string) :=
  if negb (validURL url) then Panic
  else
    try! (status, raw) := ask (ClientDo method url body) catch err => Ret (Err err) in
    match raw with
    | Err err => Ret (Err err)
    | Ok raw =>
        if (status <? 200) || (status >=? 300) then
          Ret (Err (errorf [Lit "status "; Lit (itoa status); Lit " body="; Lit (TrimSpace raw)]))
        else Ret (Ok raw)
    end.

(** ** Answers of the server *)

Record createResponse := MkCreateResp { cr_SandboxID : string; cr_Error : string }.
Record execResponse := MkBExecResp { be_Stdout : string; be_Stderr : string; be_ExitCode : Z; be_Error : string }.
Record destroyResponse := MkDestroyResp { dr_Status : string; dr_Error : string }.

Definition dec_createResponse (strict : bool) : json -> createResponse -> option createResponse :=
  dec_struct strict
    [ ("sandbox_id", dec_string (fun x r => MkCreateResp x (cr_Error r)));
      ("error", dec_string (fun x r => MkCreateResp (cr_SandboxID r) x)) ].

Definition dec_execResponse (strict : bool) : json -> execResponse -> option execResponse :=
  dec_struct strict
    [ ("stdout", dec_string (fun x r => MkBExecResp x (be_Stderr r) (be_ExitCode r) (be_Error r)));
      ("stderr", dec_string (fun x r => MkBExecResp (be_Stdout r) x (be_ExitCode r) (be_Error r)));
      ("exit_code", dec_int (fun x r => MkBExecResp (be_Stdout r) (be_Stderr r) x (be_Error r)));
      ("error", dec_string (fun x r => MkBExecResp (be_Stdout r) (be_Stderr r) (be_ExitCode r) x)) ].

Definition dec_destroyResponse (strict : bool) : json -> destroyResponse -> option destroyResponse :=
  dec_struct strict
    [ ("status", dec_string (fun x r => MkDestroyResp x (dr_Error r)));
      ("error", dec_string (fun x r => MkDestroyResp (dr_Status r) x)) ].

(** json.Marshal of a map[string]string: the keys are sorted. *)
Definition jmap (l : list (string * string)) : string := marshal (JObj (map (fun p => (fst p, JStr (snd p))) l)).

(** The text of the json error is not modelled. *)
Definition decodeError (what raw : string) : error :=
  errorf [Lit "decode "; Lit what; Lit " response: json"; Lit " (body="; Quoted (TrimSpace raw); Lit ")"].

(** ** One measured run *)

(** The closure [destroy]. *)
Definition destroySandbox (endpoint id : string) : prog benchE (option error) :=
  try! raw := doJSON "POST" (endpoint +:+ "/destroy") (jmap [("sandbox_id"%string, id)]) catch err => Ret (Some err) in
  match Unmarshal dec_destroyResponse (MkDestroyResp EmptyString EmptyString) raw with
  | None => Ret (Some (decodeError "destroy" raw))
  | Some resp => Ret (if negb (is_empty (dr_Error resp)) then Some (errorf [Lit (dr_Error resp)]) else None)
  end.

(** Lines 135 to 162, once the sandbox exists. *)
Definition measure (endpoint cmd id : string) (start : Z) : prog benchE (result Z) :=
  let! r := doJSON "POST" (endpoint +:+ "/exec") (jmap [("cmd"%string, cmd); ("sandbox_id"%string, id)]) in
  match r with
  | Err err => destroySandbox endpoint id ;;; Ret (Err (wrapf [Lit "exec request"] err))
  | Ok raw =>
      match Unmarshal dec_execResponse (MkBExecResp EmptyString EmptyString 0 EmptyString) raw with
      | None => destroySandbox endpoint id ;;; Ret (Err (errorf [Lit "decode exec response: json"]))
      | Some resp =>
          if negb (is_empty (be_Error resp)) then
            destroySandbox endpoint id ;;; Ret (Err (errorf [Lit "exec failed: "; Lit (be_Error resp)]))
          else
            let! now := ask BNow in
            do! destroySandbox endpoint id catch err => Ret (Err (wrapf [Lit "destroy failed"] err)) in
            Ret (Ok (now - start))
      end
  end.

Definition runOnce (endpoint cmd : string) : prog benchE (result Z) :=
  let! start := ask BNow in
  try! raw := doJSON "POST" (endpoint +:+ "/create") EmptyString catch err =>
    Ret (Err (wrapf [Lit "create request"] err)) in
  match Unmarshal dec_createResponse (MkCreateResp EmptyString EmptyString) raw with
  | None => Ret (Err (decodeError "create" raw))
  | Some resp =>
      if negb (is_empty (cr_Error resp)) || is_empty (cr_SandboxID resp) then
        Ret (Err (errorf [Lit "create failed: error="; Quoted (TrimSpace (cr_Error resp)); Lit " sandbox_id=";
          Quoted (cr_SandboxID resp); Lit " body="; Quoted (TrimSpace raw)]))
      else measure endpoint cmd (cr_SandboxID resp) start
  end.

(** ** Statistics *)

(** sort.Slice on durations, ascending. *)
Fixpoint insertZ (x : Z) (l : list Z) : list Z :=
  match l with
  | [] => [x]
  | y :: ys => if y <? x then y :: insertZ x ys else x :: l
  end.

Definition sortZ (l : list Z) : list Z := foldr insertZ [] l.

(** The constants 0.50, 0.95 and 0.99: the float64 nearest to n / 100. *)
Definition hundredths (n : Z) : float64 := fdiv (of_int n) (of_int 100).

Definition percentile (values : list Z) (p : float64) : Z :=
  match values with
  | [] => 0
  | _ =>
      let n := Z.of_nat (length values) in
      let idx := trunc (fmul (of_int (n - 1)) p) in
      let idx := if idx <? 0 then 0 else idx in
      let idx := if idx >=? n then n - 1 else idx in
      nth (Z.to_nat idx) values 0
  end.

(** ** main *)

(** strings.TrimRight(s, "/") *)
Fixpoint drop_slashes (s : string) : string :=
  match s with
  | String c r => if Ascii.eqb c "/" then drop_slashes r else s
  | EmptyString => s
  end.
Definition TrimRightSlash (s : string) : string := String.rev (drop_slashes (String.rev s)).

(** The runs of a loop, in order; the failed ones are only logged. *)
Fixpoint runs {A} (n : nat) (run : prog benchE (result A)) : prog benchE (list A) :=
  match n with
  | O => Ret []
  | S n =>
      let! r := run in
      let! rs := runs n run in
      Ret (match r with Ok a => a :: rs | Err _ => rs end)
  end.

Definition jns (name : string) (z : Z) : string * json := (name, JNum (itoa z)).

(** The five figures of a sorted list of durations. *)
Definition figures (pre : string) (ds : list Z) : list (string * json) :=
  [ jns (pre +:+ "max_ns") (default 0 (last ds)); jns (pre +:+ "min_ns") (hd 0 ds);
    jns (pre +:+ "p50_ns") (percentile ds (hundredths 50)); jns (pre +:+ "p95_ns") (percentile ds (hundredths 95));
    jns (pre +:+ "p99_ns") (percentile ds (hundredths 99)) ].

(** What is printed on stdout; [None] is exit status 1. *)
Definition main (endpoint cmd : string) (iterations warmup : Z) : prog benchE (option string) :=
  let base := TrimRightSlash endpoint in
  let! _warm := runs (Z.to_nat warmup) (runOnce base cmd) in
  if iterations <? 0 then Panic        (* make([]runResult, 0, iterations) *)
  else
    let! results := runs (Z.to_nat iterations) (runOnce base cmd) in
    match results with
    | [] => Ret None
    | _ =>
        let durations := sortZ results in
        Ret (Some (marshal (JObj ([jns "iterations_requested" iterations;
          jns "iterations_success" (Z.of_nat (length durations))] ++ figures EmptyString durations)) +:+ NL))
    end.
End bench.
