(* ===== verification/BenchRestore.v ===== *)
(** * cmd/bench_restore: the client that measures restores

    It makes a fixture snapshot, then restores it again and again.  The HTTP
    helper and percentile are the same text as in cmd/bench. *)

From S2P Require Export Bench.

Section bench_restore.
Context (validURL : string -> bool).

Definition doJSON : string -> string -> string -> prog benchE (result string) := Bench.doJSON validURL.
Definition percentile : list Z -> float64 -> Z := Bench.percentile.

Record snapshotCreateResponse := MkSnapCreateResp { sr_SnapshotID : string; sr_Error : string }.

Definition dec_snapshotCreateResponse (strict : bool) : json -> snapshotCreateResponse -> option snapshotCreateResponse :=
  dec_struct strict
    [ ("snapshot_id", dec_string (fun x r => MkSnapCreateResp x (sr_Error r)));
      ("error", dec_string (fun x r => MkSnapCreateResp (sr_SnapshotID r) x)) ].

(** ** The calls of the API *)

Definition failed (what field : string) (err id raw : string) : error :=
  errorf [Lit what; Lit " failed: error="; Quoted (TrimSpace err); Lit " "; Lit field; Lit "="; Quoted id;
    Lit " body="; Quoted (TrimSpace raw)].

Definition createSandbox (endpoint : string) : prog benchE (result string) :=
  try! raw := doJSON "POST" (endpoint +:+ "/create") EmptyString catch err => Ret (Err err) in
  match Unmarshal dec_createResponse (MkCreateResp EmptyString EmptyString) raw with
  | None => Ret (Err (decodeError "create" raw))
  | Some resp =>
      if negb (is_empty (cr_Error resp)) || is_empty (TrimSpace (cr_SandboxID resp)) then
        Ret (Err (failed "create" "sandbox_id" (cr_Error resp) (cr_SandboxID resp) raw))
      else Ret (Ok (cr_SandboxID resp))
  end.

Definition createUserSnapshot (endpoint sandboxID : string) : prog benchE (result string) :=
  try! raw := doJSON "POST" (endpoint +:+ "/snapshot/create")
    (jmap [("name"%string, "bench-restore-fixture"%string); ("sandbox_id"%string, sandboxID)]) catch err => Ret (Err err) in
  match Unmarshal dec_snapshotCreateResponse (MkSnapCreateResp EmptyString EmptyString) raw with
  | None => Ret (Err (decodeError "snapshot/create" raw))
  | Some resp =>
      if negb (is_empty (sr_Error resp)) || is_empty (TrimSpace (sr_SnapshotID resp)) then
        Ret (Err (failed "snapshot/create" "snapshot_id" (sr_Error resp) (sr_SnapshotID resp) raw))
      else Ret (Ok (sr_SnapshotID resp))
  end.

(** snapshotRestoreResponse has the fields of createResponse. *)
Definition restoreSandbox (endpoint snapshotID : string) : prog benchE (result string) :=
  try! raw := doJSON "POST" (endpoint +:+ "/snapshot/restore") (jmap [("snapshot_id"%string, snapshotID)]) catch err => Ret (Err err) in
  match Unmarshal dec_createResponse (MkCreateResp EmptyString EmptyString) raw with
  | None => Ret (Err (decodeError "snapshot/restore" raw))
  | Some resp =>
      if negb (is_empty (cr_Error resp)) || is_empty (TrimSpace (cr_SandboxID resp)) then
        Ret (Err (failed "snapshot/restore" "sandbox_id" (cr_Error resp) (cr_SandboxID resp) raw))
      else Ret (Ok (cr_SandboxID resp))
  end.

Definition execInSandbox (endpoint sandboxID cmd : string) : prog benchE (result string) :=
  try! raw := doJSON "POST" (endpoint +:+ "/exec") (jmap [("cmd"%string, cmd); ("sandbox_id"%string, sandboxID)]) catch err => Ret (Err err) in
  match Unmarshal dec_execResponse (MkBExecResp EmptyString EmptyString 0 EmptyString) raw with
  | None => Ret (Err (decodeError "exec" raw))
  | Some resp =>
      if negb (is_empty (be_Error resp)) then Ret (Err (errorf [Lit (be_Error resp)]))
      else if negb (be_ExitCode resp =? 0) then
        Ret (Err (errorf [Lit "exec exit code "; Lit (itoa (be_ExitCode resp)); Lit " stderr="; Quoted (be_Stderr resp)]))
      else Ret (Ok (be_Stdout resp))
  end.

Definition destroySandbox (endpoint sandboxID : string) : prog benchE (option error) :=
  try! raw := doJSON "POST" (endpoint +:+ "/destroy") (jmap [("sandbox_id"%string, sandboxID)]) catch err => Ret (Some err) in
  match Unmarshal dec_destroyResponse (MkDestroyResp EmptyString EmptyString) raw with
  | None => Ret (Some (decodeError "destroy" raw))
  | Some resp => Ret (if negb (is_empty (dr_Error resp)) then Some (errorf [Lit (dr_Error resp)]) else None)
  end.

(** ** The fixture and one measured run *)

Definition prepareFixture (endpoint mutationCmd sanityCmd expectStdout : string) : prog benchE (result string) :=
  try! sbID := createSandbox endpoint catch err => Ret (Err (wrapf [Lit "create fixture sandbox"] err)) in
  defer (
    try! _out := execInSandbox endpoint sbID mutationCmd catch err => Ret (Err (wrapf [Lit "run mutation workload"] err)) in
    try! sanity := execInSandbox endpoint sbID sanityCmd catch err => Ret (Err (wrapf [Lit "sanity validation failed"] err)) in
    if negb (bool_decide (sanity = expectStdout)) then
      Ret (Err (errorf [Lit "sanity stdout mismatch during fixture setup: got="; Quoted sanity; Lit " want="; Quoted expectStdout]))
    else
      try! snapshotID := createUserSnapshot endpoint sbID catch err => Ret (Err (wrapf [Lit "create user snapshot"] err)) in
      Ret (Ok snapshotID))
  (destroySandbox endpoint sbID ;;; Ret tt).

(** The classes under which failures are counted. *)
Inductive failureClass := RestoreAPI | SanityExec | DestroyFailed.

Record runResult := MkRunResult { rr_RestoreOnly : Z; rr_RestoreTTI : Z }.

Definition runOnce (endpoint snapshotID sanityCmd expectStdout : string) : prog benchE (failureClass * error + runResult) :=
  let! restoreStart := ask BNow in
  try! sbID := restoreSandbox endpoint snapshotID catch err => Ret (inl (RestoreAPI, wrapf [Lit "restore request"] err)) in
  let! now := ask BNow in
  let restoreOnly := now - restoreStart in
  try! stdout := execInSandbox endpoint sbID sanityCmd catch err =>
    destroySandbox endpoint sbID ;;; Ret (inl (SanityExec, wrapf [Lit "sanity exec"] err)) in
  if negb (bool_decide (stdout = expectStdout)) then
    destroySandbox endpoint sbID ;;;
    Ret (inl (SanityExec, errorf [Lit "sanity stdout mismatch: got="; Quoted stdout; Lit " want="; Quoted expectStdout]))
  else
    let! now := ask BNow in
    let restoreTTI := now - restoreStart in
    do! destroySandbox endpoint sbID catch err => Ret (inl (DestroyFailed, wrapf [Lit "destroy failed"] err)) in
    Ret (inr (MkRunResult restoreOnly restoreTTI)).

(** ** main *)

(** The loop of runs: the results, and the class of each failure. *)
Fixpoint measuredRuns (n : nat) (run : prog benchE (failureClass * error + runResult)) : prog benchE (list runResult * list failureClass) :=
  match n with
  | O => Ret ([], [])
  | S n =>
      let! r := run in
      let! (rs, fs) := measuredRuns n run in
      Ret (match r with inr a => (a :: rs, fs) | inl (c, _) => (rs, c :: fs) end)
  end.

#[local] Instance failureClass_eq_dec : EqDecision failureClass.
Proof. solve_decision. Defined.

Definition countClass (c : failureClass) (fs : list failureClass) : Z := Z.of_nat (length (filter (fun x => x = c) fs)).

Definition main (endpoint mutationCmd sanityCmd expectStdout : string) (iterations warmup : Z) : prog benchE (option string) :=
  let base := TrimRightSlash endpoint in
  try! snapshotID := prepareFixture base mutationCmd sanityCmd expectStdout catch _ => Ret None in
  let run := runOnce base snapshotID sanityCmd expectStdout in
  let! _warm := measuredRuns (Z.to_nat warmup) run in
  if iterations <? 0 then Panic
  else
    let! (results, failures) := measuredRuns (Z.to_nat iterations) run in
    match results with
    | [] => Ret None
    | _ =>
        let restoreOnly := sortZ (map rr_RestoreOnly results) in
        let restoreTTI := sortZ (map rr_RestoreTTI results) in
        Ret (Some (marshal (JObj (
          [("failures"%string, JObj [jns "destroy" (countClass DestroyFailed failures); jns "other" 0;
             jns "restore_api" (countClass RestoreAPI failures); jns "sanity_exec" (countClass SanityExec failures)]);
           jns "iterations_requested" iterations; jns "iterations_success" (Z.of_nat (length results))]
          ++ figures "restore_only_" restoreOnly ++ figures "restore_tti_" restoreTTI
          ++ [("sanity_cmd"%string, JStr sanityCmd); ("sanity_expected_stdout"%string, JStr expectStdout);
              ("snapshot_id"%string, JStr snapshotID)])) +:+ NL))
    end.
End bench_restore.
