(* ===== verification/BenchFacts.v ===== *)
(** * Theorems about the benchmark clients

    Whatever the server answers, every sandbox that a client was given is
    asked to be destroyed, once and before the next one is asked for; the
    percentiles are the exact ranks of the sorted sample. *)

From Stdlib Require Import Sorted.
From S2P Require Export BenchRestore.

(** ** What a client relies on

    The clients are verified against an interface: a server as they see it.
    [idle] says that no sandbox of the client is left, [held id] that the
    sandbox [id] is.  Two servers implement it: an account of the requests
    that anyone may answer (below), and the server itself (Web.v). *)

(** What doJSON makes of an answer. *)
Definition accepted (a : result (Z * result string)) : result string :=
  match a with
  | Err err => Err err
  | Ok (_, Err err) => Err err
  | Ok (status, Ok raw) =>
      if (status <? 200) || (status >=? 300) then
        Err (errorf [Lit "status "; Lit (itoa status); Lit " body="; Lit (TrimSpace raw)])
      else Ok raw
  end.

(** The sandbox that an answer to a create or a restore names. *)
Definition grantedID (usable : string -> bool) (a : result (Z * result string)) : option string :=
  match accepted a with
  | Err _ => None
  | Ok raw =>
      match Unmarshal dec_createResponse (MkCreateResp EmptyString EmptyString) raw with
      | None => None
      | Some resp =>
          if negb (is_empty (cr_Error resp)) || negb (usable (cr_SandboxID resp)) then None else Some (cr_SandboxID resp)
      end
  end.

Definition destroyBody (id : string) : string := jmap [("sandbox_id"%string, id)].

(** The requests that give a sandbox, and those that neither give nor take
    one. *)
Definition acquiring (p : string) : Prop := p ∈ ["/create"; "/snapshot/restore"]%string.
Definition other (p : string) : Prop := p ∈ ["/exec"; "/snapshot/create"]%string.

Class service {S : Type} (base : string) (usable : string -> bool)
    (post : forall X, benchE X -> S -> X -> S -> Prop) := {
  idle : S -> Prop;
  held : string -> S -> Prop;
  service_now s x s' : post _ BNow s x s' -> (idle s -> idle s') /\ (forall id, held id s -> held id s');
  service_acquire p body s a s' :
    acquiring p -> idle s -> post _ (ClientDo "POST" (base +:+ p) body) s a s' ->
    match grantedID usable a with Some id => held id s' | None => idle s' end;
  service_other p body s a s' id :
    other p -> held id s -> post _ (ClientDo "POST" (base +:+ p) body) s a s' -> held id s';
  service_destroy s a s' id :
    held id s -> post _ (ClientDo "POST" (base +:+ "/destroy") (destroyBody id)) s a s' -> idle s';
}.

(** The URLs that the clients ask for. *)
Definition validURLs (validURL : string -> bool) (base : string) : Prop :=
  Forall (fun p => validURL (base +:+ p) = true)
    ["/create"; "/exec"; "/destroy"; "/snapshot/create"; "/snapshot/restore"]%string.

Definition nonEmpty (id : string) : bool := negb (is_empty id).
Definition nonBlank (id : string) : bool := negb (is_empty (TrimSpace id)).

Section clients.
Context {S : Type} (base : string) (usable : string -> bool) (post : forall X, benchE X -> S -> X -> S -> Prop).
Context `{!service base usable post}.
Context (validURL : string -> bool) (valid : validURLs validURL base).
Notation cwp := (wp (fun _ _ _ => True) post).

(** What a run leaves: its outcome is a value, no sandbox is left. *)
Definition tidy {A} (o : outcome A) (s : S) : Prop := (exists a, o = Done a) /\ idle s.
Definition leaves_idle {A} (p : prog benchE A) : Prop := forall s, idle s -> cwp p tidy s.

Lemma valid_path p : p ∈ ["/create"; "/exec"; "/destroy"; "/snapshot/create"; "/snapshot/restore"]%string -> validURL (base +:+ p) = true.
Proof. intros Hp. by apply (proj1 (Forall_forall _ _) valid). Qed.

Lemma tidy_ret {A} (a : A) s : idle s -> cwp (Ret a) tidy s.
Proof. intros H. split; [by exists a|done]. Qed.

Lemma cwp_seq {A B} (p : prog benchE A) (k : A -> prog benchE B) Q s :
  leaves_idle p -> idle s -> (forall a s, idle s -> cwp (k a) Q s) -> cwp (bind p k) Q s.
Proof.
  intros Hp Hs Hk. apply wp_bind. eapply wp_mono; [|by apply Hp]. intros o s' [[a ->] Hs']. by apply Hk.
Qed.

(** The clock. *)
Lemma cwp_now_idle {A} (k : Z -> prog benchE A) Q s :
  idle s -> (forall x s, idle s -> cwp (k x) Q s) -> cwp (bind (ask BNow) k) Q s.
Proof. intros Hs H. split; [done|]. intros x s' Hp. apply H. by apply (service_now _ _ _ Hp). Qed.

Lemma cwp_now_held {A} id (k : Z -> prog benchE A) Q s :
  held id s -> (forall x s, held id s -> cwp (k x) Q s) -> cwp (bind (ask BNow) k) Q s.
Proof. intros Hs H. split; [done|]. intros x s' Hp. apply H. by apply (service_now _ _ _ Hp). Qed.

(** A request and its answer. *)
Lemma cwp_doJSON {A} p body (k : result string -> prog benchE A) Q s :
  p ∈ ["/create"; "/exec"; "/destroy"; "/snapshot/create"; "/snapshot/restore"]%string ->
  (forall a s', post _ (ClientDo "POST" (base +:+ p) body) s a s' -> cwp (k (accepted a)) Q s') ->
  cwp (bind (Bench.doJSON validURL "POST" (base +:+ p) body) k) Q s.
Proof.
  intros Hp H. unfold Bench.doJSON. rewrite valid_path by done. cbn [negb]. apply wp_bind.
  split; [done|]. intros a s' Ha. specialize (H a s' Ha).
  destruct a as [[status [raw|err]]|err]; cbn [accepted] in H; try exact H. cbn. by destruct (_ || _).
Qed.

(** The common text of createSandbox and restoreSandbox. *)
Lemma cwp_granted {A} (unusable : string -> bool) (Hunusable : forall id, unusable id = negb (usable id)) p body decodeErr failErr (k : result string -> prog benchE A) Q s :
  acquiring p -> idle s ->
  (forall id s, held id s -> cwp (k (Ok id)) Q s) -> (forall err s, idle s -> cwp (k (Err err)) Q s) ->
  cwp (bind (
    try! raw := Bench.doJSON validURL "POST" (base +:+ p) body catch err => Ret (Err err) in
    match Unmarshal dec_createResponse (MkCreateResp EmptyString EmptyString) raw with
    | None => Ret (Err (decodeErr raw))
    | Some resp =>
        if negb (is_empty (cr_Error resp)) || unusable (cr_SandboxID resp) then Ret (Err (failErr resp raw))
        else Ret (Ok (cr_SandboxID resp))
    end) k) Q s.
Proof.
  intros Hp Hs Hok Herr. apply wp_bind, cwp_doJSON; [unfold acquiring in Hp; set_solver|]. intros a s' Ha.
  apply (service_acquire _ _ _ _ _ Hp Hs) in Ha. unfold grantedID in Ha.
  destruct (accepted a) as [raw|err]; [|by apply Herr].
  destruct (Unmarshal _ _ raw) as [resp|]; [|by apply Herr].
  rewrite Hunusable. destruct (_ || _); [by apply Herr|by apply Hok].
Qed.

(** Requests that neither give nor take a sandbox. *)
Lemma cwp_other {A} id p body (k : result string -> prog benchE A) Q s :
  other p -> held id s -> (forall r s, held id s -> cwp (k r) Q s) ->
  cwp (bind (Bench.doJSON validURL "POST" (base +:+ p) body) k) Q s.
Proof.
  intros Hp Hs H. apply cwp_doJSON; [unfold other in Hp; set_solver|]. intros a s' Ha. apply H.
  by eapply service_other.
Qed.

Lemma cwp_destroy {A} id (k : option error -> prog benchE A) Q s :
  held id s -> (forall r s, idle s -> cwp (k r) Q s) ->
  cwp (bind (Bench.destroySandbox validURL base id) k) Q s.
Proof.
  intros Hs H. apply wp_bind. unfold Bench.destroySandbox. apply cwp_doJSON; [set_solver|]. intros a s' Ha.
  apply (service_destroy _ _ _ _ Hs) in Ha.
  destruct (accepted a) as [raw|err]; [|by apply H].
  destruct (Unmarshal dec_destroyResponse _ raw) as [resp|]; by apply H.
Qed.

Lemma destroyed_tidy {A} id (a : A) s :
  held id s -> cwp (Bench.destroySandbox validURL base id ;;; Ret a) tidy s.
Proof. intros Hs. apply (cwp_destroy id); [done|]. intros r s' Hs'. by apply tidy_ret. Qed.

(** The loops of the measured runs. *)
Lemma idle_runs {A} n (run : prog benchE (result A)) : leaves_idle run -> leaves_idle (runs n run).
Proof.
  intros H. induction n as [|n IH]; intros s Hs; cbn [runs]; [by apply tidy_ret|].
  apply cwp_seq; [done..|]. intros r s' Hs'. apply cwp_seq; [done..|]. intros rs s'' Hs''. by apply tidy_ret.
Qed.

Lemma idle_measured n run : leaves_idle run -> leaves_idle (measuredRuns n run).
Proof.
  intros H. induction n as [|n IH]; intros s Hs; cbn [measuredRuns]; [by apply tidy_ret|].
  apply cwp_seq; [done..|]. intros r s' Hs'. apply cwp_seq; [done..|]. intros [rs fs] s'' Hs''. by apply tidy_ret.
Qed.

(** *** cmd/bench *)

Lemma idle_measure id cmd start s : held id s -> cwp (measure validURL base cmd id start) tidy s.
Proof.
  intros Hs. unfold measure. apply (cwp_other id); [unfold other; set_solver|done|].
  intros [raw|err] s' Hs'; [|by apply (destroyed_tidy id)].
  destruct (Unmarshal dec_execResponse _ raw) as [resp|]; [|by apply (destroyed_tidy id)].
  destruct (negb _); [by apply (destroyed_tidy id)|].
  apply (cwp_now_held id); [done|]. intros now s'' Hs''. apply (cwp_destroy id); [done|].
  intros r s3 Hs3. by destruct r; apply tidy_ret.
Qed.

(** *** cmd/bench_restore *)

Lemma cwp_exec {A} id id' cmd (k : result string -> prog benchE A) Q s :
  held id s -> (forall r s, held id s -> cwp (k r) Q s) -> cwp (bind (execInSandbox validURL base id' cmd) k) Q s.
Proof.
  intros Hs H. apply wp_bind, (cwp_other id); [unfold other; set_solver|done|].
  intros [raw|err] s' Hs'; [|by apply H]. destruct (Unmarshal _ _ raw) as [resp|]; [|by apply H].
  destruct (negb _); [by apply H|]. destruct (negb _); by apply H.
Qed.

Lemma cwp_createUserSnapshot {A} id id' (k : result string -> prog benchE A) Q s :
  held id s -> (forall r s, held id s -> cwp (k r) Q s) -> cwp (bind (createUserSnapshot validURL base id') k) Q s.
Proof.
  intros Hs H. apply wp_bind, (cwp_other id); [unfold other; set_solver|done|].
  intros [raw|err] s' Hs'; [|by apply H]. destruct (Unmarshal _ _ raw) as [resp|]; [|by apply H].
  destruct (_ || _); by apply H.
Qed.
End clients.

Arguments tidy {S base usable post _ A} o s.
Arguments leaves_idle {S base usable post _ A} p.

Definition ended {A} (iterations : Z) (o : outcome A) : Prop :=
  if iterations <? 0 then o = Panicked else exists a, o = Done a.

(** *** cmd/bench takes any id that is not empty *)

Section bench.
Context {S : Type} (base : string) (post : forall X, benchE X -> S -> X -> S -> Prop) `{!service base nonEmpty post}.
Context (validURL : string -> bool) (valid : validURLs validURL base).
Notation cwp := (wp (fun _ _ _ => True) post).

Lemma idle_runOnce cmd : leaves_idle (Bench.runOnce validURL base cmd).
Proof.
  intros s Hs. unfold Bench.runOnce. apply (cwp_now_idle base nonEmpty post); [done|]. intros start s1 Hs1.
  apply (cwp_doJSON base post); [done|set_solver|]. intros a s' Ha.
  apply (service_acquire (base := base) (usable := nonEmpty)) in Ha; [|unfold acquiring; set_solver|done].
  unfold grantedID in Ha. destruct (accepted a) as [raw|err]; [|by apply tidy_ret].
  destruct (Unmarshal dec_createResponse _ raw) as [resp|]; [|by apply tidy_ret].
  unfold nonEmpty in Ha. rewrite negb_involutive in Ha. destruct (_ || _); [by apply tidy_ret|].
  by apply (idle_measure base nonEmpty post).
Qed.

(** main, after the flags are read. *)
Lemma cwp_main endpoint cmd iterations warmup s :
  base = TrimRightSlash endpoint -> idle s ->
  cwp (Bench.main validURL endpoint cmd iterations warmup) (fun o s' => ended iterations o /\ idle s') s.
Proof.
  intros Hb Hs. unfold Bench.main. rewrite <- Hb. unfold ended.
  apply (cwp_seq base nonEmpty post); [apply (idle_runs base nonEmpty post), idle_runOnce|done|]. intros ws s1 Hs1.
  destruct (iterations <? 0); [done|].
  apply (cwp_seq base nonEmpty post); [apply (idle_runs base nonEmpty post), idle_runOnce|done|]. intros rs s2 Hs2.
  destruct rs; (split; [by eexists|done]).
Qed.
End bench.

(** *** cmd/bench_restore takes any id that is not blank *)

Section bench_restore.
Context {S : Type} (base : string) (post : forall X, benchE X -> S -> X -> S -> Prop) `{!service base nonBlank post}.
Context (validURL : string -> bool) (valid : validURLs validURL base).
Notation cwp := (wp (fun _ _ _ => True) post).

Definition blank (id : string) : bool := is_empty (TrimSpace id).

Lemma blank_usable id : blank id = negb (nonBlank id).
Proof. unfold nonBlank. by rewrite negb_involutive. Qed.

Lemma cwp_createSandbox {A} (k : result string -> prog benchE A) Q s :
  idle s -> (forall id s, held id s -> cwp (k (Ok id)) Q s) -> (forall err s, idle s -> cwp (k (Err err)) Q s) ->
  cwp (bind (BenchRestore.createSandbox validURL base) k) Q s.
Proof.
  intros Hs Hok Herr.
  apply (cwp_granted base nonBlank post validURL valid blank blank_usable "/create" EmptyString (decodeError "create")
    (fun resp raw => failed "create" "sandbox_id" (cr_Error resp) (cr_SandboxID resp) raw)); try done.
  unfold acquiring. set_solver.
Qed.

Lemma cwp_restoreSandbox {A} snapshotID (k : result string -> prog benchE A) Q s :
  idle s -> (forall id s, held id s -> cwp (k (Ok id)) Q s) -> (forall err s, idle s -> cwp (k (Err err)) Q s) ->
  cwp (bind (restoreSandbox validURL base snapshotID) k) Q s.
Proof.
  intros Hs Hok Herr.
  apply (cwp_granted base nonBlank post validURL valid blank blank_usable "/snapshot/restore" _ (decodeError "snapshot/restore")
    (fun resp raw => failed "snapshot/restore" "sandbox_id" (cr_Error resp) (cr_SandboxID resp) raw)); try done.
  unfold acquiring. set_solver.
Qed.

Lemma idle_restoreOnce snapshotID cmd want : leaves_idle (BenchRestore.runOnce validURL base snapshotID cmd want).
Proof.
  intros s Hs. unfold BenchRestore.runOnce. apply (cwp_now_idle base nonBlank post); [done|]. intros start s1 Hs1.
  apply cwp_restoreSandbox; [done| |intros err s2 Hs2; by apply tidy_ret]. intros id s2 Hs2.
  apply (cwp_now_held base nonBlank post id); [done|]. intros now s3 Hs3.
  apply (cwp_exec base nonBlank post validURL valid id); [done|].
  intros [stdout|err] s4 Hs4; [|by apply (destroyed_tidy base nonBlank post validURL valid id)].
  destruct (negb _); [by apply (destroyed_tidy base nonBlank post validURL valid id)|].
  apply (cwp_now_held base nonBlank post id); [done|]. intros now' s5 Hs5.
  apply (cwp_destroy base nonBlank post validURL valid id); [done|]. intros r s6 Hs6. by destruct r; apply tidy_ret.
Qed.

(** The destroy of prepareFixture is deferred. *)
Lemma idle_prepareFixture mutationCmd sanityCmd want : leaves_idle (prepareFixture validURL base mutationCmd sanityCmd want).
Proof.
  intros s Hs. unfold prepareFixture. apply cwp_createSandbox; [done| |intros err s2 Hs2; by apply tidy_ret].
  intros id s1 Hs1. apply wp_defer.
  assert (Hd : forall (r : result string) s, held id s ->
    deferQ (fun _ _ _ => True) post (BenchRestore.destroySandbox validURL base id ;;; Ret tt) tidy (Done r) s).
  { intros r s2 Hs2. refine (wp_mono _ _ _ tidy _ _ _ (destroyed_tidy base nonBlank post validURL valid id tt s2 Hs2)).
    intros o s3 [[a ->] Hs3]. by apply tidy_ret. }
  apply (cwp_exec base nonBlank post validURL valid id); [done|]. intros [out|err] s2 Hs2; [|by apply Hd].
  apply (cwp_exec base nonBlank post validURL valid id); [done|]. intros [out'|err] s3 Hs3; [|by apply Hd].
  destruct (negb _); [by apply Hd|].
  apply (cwp_createUserSnapshot base nonBlank post validURL valid id); [done|]. intros [sid|err] s4 Hs4; by apply Hd.
Qed.

Lemma cwp_restore_main endpoint mutationCmd sanityCmd want iterations warmup s :
  base = TrimRightSlash endpoint -> idle s ->
  cwp (BenchRestore.main validURL endpoint mutationCmd sanityCmd want iterations warmup)
    (fun o s' => (ended iterations o \/ o = Done None) /\ idle s') s.
Proof.
  intros Hb Hs. unfold BenchRestore.main. rewrite <- Hb. unfold ended.
  apply (cwp_seq base nonBlank post); [apply idle_prepareFixture|done|]. intros [sid|err] s1 Hs1; [|by split; [right|]].
  pose proof (idle_measured base nonBlank post) as Hm.
  apply (cwp_seq base nonBlank post); [apply Hm, idle_restoreOnce|done|]. intros ws s2 Hs2.
  destruct (iterations <? 0); [by split; [left|]|].
  apply (cwp_seq base nonBlank post); [apply Hm, idle_restoreOnce|done|]. intros [rs fs] s3 Hs3.
  destruct rs; (split; [left; by eexists|done]).
Qed.
End bench_restore.

(** ** The account of a run, whoever answers *)

Inductive entry := Granted (id : string) | Destroyed (body : string).

Definition is_path (base url p : string) : bool := bool_decide (url = base +:+ p).

Definition ledger (base : string) (usable : string -> bool) (X : Type) (e : benchE X) : X -> list entry -> list entry :=
  match e in benchE Y return Y -> list entry -> list entry with
  | BNow => fun _ t => t
  | ClientDo _ url body => fun a t =>
      if is_path base url "/create" || is_path base url "/snapshot/restore" then
        t ++ match grantedID usable a with Some id => [Granted id] | None => [] end
      else if is_path base url "/destroy" then t ++ [Destroyed body]
      else t
  end.

(** Every sandbox granted is destroyed before the next one is granted. *)
Inductive balanced : list entry -> Prop :=
| balanced_nil : balanced []
| balanced_next t id : balanced t -> balanced (t ++ [Granted id; Destroyed (destroyBody id)]).

Lemma is_path_app base q p : is_path base (base +:+ q) p = bool_decide (q = p).
Proof. apply bool_decide_ext. split; [apply (inj (String.append base))|by intros ->]. Qed.

#[export] Instance ledger_service base usable : service base usable (gpost (ledger base usable)).
Proof.
  refine (Build_service _ base usable (gpost (ledger base usable)) balanced
    (fun id t => exists t0, balanced t0 /\ t = t0 ++ [Granted id]) _ _ _ _); unfold gpost; cbn [ledger].
  - by intros t x t' ->.
  - intros p body t a t' Hp Ht ->. rewrite !is_path_app.
    replace (bool_decide (p = "/create"%string) || bool_decide (p = "/snapshot/restore"%string)) with true.
    + destruct (grantedID usable a) as [id|]; [by exists t|by rewrite app_nil_r].
    + by apply elem_of_cons in Hp as [->|Hp%list_elem_of_singleton]; [|subst].
  - intros p body t a t' id Hp Ht ->. unfold other in Hp. rewrite !is_path_app.
    rewrite !bool_decide_eq_false_2 by set_solver. exact Ht.
  - intros t a t' id (t0 & Ht0 & ->) ->. rewrite !is_path_app.
    rewrite (bool_decide_eq_false_2 ("/destroy"%string = "/create"%string)) by done.
    rewrite (bool_decide_eq_false_2 ("/destroy"%string = "/snapshot/restore"%string)) by done.
    rewrite bool_decide_eq_true_2 by done. cbn [orb]. rewrite <- app_assoc. by constructor.
Defined.

(** The account of a client that asks the server [g]. *)
Definition accountOf {W A} (base : string) usable (g : env_of benchE W) (p : prog benchE A) (w : W) : outcome A * list entry :=
  let '(o, (_, t)) := env_watched (ledger base usable) g p w [] in (o, t).

(** C31. Whatever the server answers, each benchmark client asks for the
    destruction of every sandbox it was given, exactly once and before it asks
    for the next one, the sandbox of the fixture included; and it ends, by a
    panic only when the number of iterations is negative. *)
Theorem clients_clean_up {W} (g : env_of benchE W) validURL endpoint cmd mutationCmd sanityCmd want iterations warmup w base :
  base = TrimRightSlash endpoint -> validURLs validURL base ->
  (forall o t, accountOf base nonEmpty g (Bench.main validURL endpoint cmd iterations warmup) w = (o, t) ->
     ended iterations o /\ balanced t) /\
  (forall o t, accountOf base nonBlank g (BenchRestore.main validURL endpoint mutationCmd sanityCmd want iterations warmup) w = (o, t) ->
     (ended iterations o \/ o = Done None) /\ balanced t).
Proof.
  intros -> Hv. unfold accountOf. split; intros o t.
  - pose proof (awp_watched _ g _ _ w [] (cwp_main _ _ validURL Hv endpoint cmd iterations warmup [] eq_refl balanced_nil)) as H.
    destruct (env_watched _ _ _ _ _) as [o' [w' t']]. by intros [= <- <-].
  - pose proof (awp_watched _ g _ _ w [] (cwp_restore_main _ _ validURL Hv endpoint mutationCmd sanityCmd want iterations warmup [] eq_refl balanced_nil)) as H.
    destruct (env_watched _ _ _ _ _) as [o' [w' t']]. by intros [= <- <-].
Qed.

(** ** Percentiles *)

Lemma insertZ_perm x l : insertZ x l ≡ₚ x :: l.
Proof.
  induction l as [|y l IH]; cbn [insertZ]; [done|]. destruct (y <? x); [|done].
  rewrite IH. apply Permutation_swap.
Qed.

Lemma insertZ_sorted x l : Sorted Z.le l -> Sorted Z.le (insertZ x l).
Proof.
  induction l as [|y l IH]; intros H; cbn [insertZ]; [by repeat constructor|].
  inversion H as [|? ? Hl Hy]; subst. destruct (Z.ltb_spec y x) as [Hlt|Hge].
  - constructor; [by apply IH|]. destruct l as [|z l]; cbn [insertZ]; [constructor; lia|].
    inversion Hy; subst. destruct (z <? x); constructor; lia.
  - by repeat constructor.
Qed.

Lemma sortZ_perm l : sortZ l ≡ₚ l.
Proof. induction l as [|x l IH]; cbn [sortZ foldr]; [done|]. fold (sortZ l). by rewrite insertZ_perm, IH. Qed.

Lemma sortZ_sorted l : Sorted Z.le (sortZ l).
Proof. induction l as [|x l IH]; [constructor|]. by apply insertZ_sorted. Qed.

Lemma sorted_nth l i j : Sorted Z.le l -> (i <= j < length l)%nat -> nth i l 0 <= nth j l 0.
Proof.
  intros H%Sorted_StronglySorted; [|intros x y z; lia].
  revert i j. induction H as [|x l _ IH Hx]; intros i j Hij; cbn in *; [lia|].
  destruct j as [|j]; [by replace i with 0%nat by lia|]. destruct i as [|i]; cbn; [|apply IH; lia].
  rewrite List.Forall_forall in Hx. apply Hx, nth_In. lia.
Qed.

(** The rank of a percentile is exact in samples of at most 500 runs (the
    default is 50). *)
Definition rank (n p : Z) : Z := (n - 1) * p / 100.

Lemma rank_exact n p :
  (n < 500)%nat -> p ∈ [50; 95; 99] -> trunc (fmul (of_int (Z.of_nat (S n) - 1)) (hundredths p)) = rank (Z.of_nat (S n)) p.
Proof.
  intros Hn Hp.
  assert (H : forallb (fun n => forallb (fun p => trunc (fmul (of_int (Z.of_nat (S n) - 1)) (hundredths p)) =? rank (Z.of_nat (S n)) p)
    [50; 95; 99]) (seq 0 500) = true) by (vm_compute; reflexivity).
  rewrite forallb_forall in H. specialize (H n). rewrite forallb_forall in H.
  apply Z.eqb_eq, H; [apply in_seq; lia|by apply list_elem_of_In].
Qed.

Lemma rank_range n p : 0 < n -> 0 <= p <= 100 -> 0 <= rank n p < n.
Proof. intros Hn Hp. unfold rank. split; [apply Z.div_pos; nia|apply Z.div_lt_upper_bound; nia]. Qed.

Lemma rank_mono n p q : 0 < n -> p <= q -> rank n p <= rank n q.
Proof. intros Hn Hp. apply Z.div_le_mono; nia. Qed.

Lemma percentile_rank l p :
  l <> [] -> (length l <= 500)%nat -> p ∈ [50; 95; 99] ->
  Bench.percentile l (hundredths p) = nth (Z.to_nat (rank (Z.of_nat (length l)) p)) l 0.
Proof.
  intros Hl Hlen Hp. destruct l as [|x l]; [done|]. unfold Bench.percentile. cbn [length] in *.
  rewrite rank_exact by (done || lia).
  pose proof (rank_range (Z.of_nat (S (length l))) p) as Hr. assert (0 <= p <= 100) as Hp' by (clear -Hp; set_unfold; lia).
  specialize (Hr ltac:(lia) Hp').
  rewrite (proj2 (Z.ltb_ge _ _)) by lia. rewrite Z.geb_leb, (proj2 (Z.leb_gt _ _)) by lia. done.
Qed.

(** C33. The figures of a report.  The sample is sorted without losing a run; in a
    sample of at most 500 runs the 50th, 95th and 99th percentiles are the
    runs of rank (n-1)p/100 rounded down, with no rounding error of the
    float64 arithmetic, and min <= p50 <= p95 <= p99 <= max. *)
Theorem percentiles_ordered sample :
  sample <> [] -> (length sample <= 500)%nat ->
  let l := sortZ sample in
  l ≡ₚ sample /\ Sorted Z.le l /\
  (forall p, p ∈ [50; 95; 99] -> Bench.percentile l (hundredths p) = nth (Z.to_nat ((Z.of_nat (length sample) - 1) * p / 100)) l 0) /\
  hd 0 l <= Bench.percentile l (hundredths 50) <= Bench.percentile l (hundredths 95) /\
  Bench.percentile l (hundredths 95) <= Bench.percentile l (hundredths 99) <= default 0 (last l).
Proof.
  intros Hne Hlen l. pose proof (sortZ_perm sample : l ≡ₚ sample) as Hp. pose proof (sortZ_sorted sample : Sorted Z.le l) as Hs.
  pose proof (Permutation_length Hp) as Hlen'.
  assert (l <> []) as Hl by (intros ->; by apply Permutation_nil_l in Hp).
  rewrite !(percentile_rank l) by (set_solver || lia).
  set (n := Z.of_nat (length l)). assert (0 < n) by (destruct l; [done|]; subst n; cbn; lia).
  pose proof (rank_range n 50 ltac:(lia) ltac:(lia)). pose proof (rank_range n 99 ltac:(lia) ltac:(lia)).
  pose proof (rank_mono n 50 95 ltac:(lia) ltac:(lia)). pose proof (rank_mono n 95 99 ltac:(lia) ltac:(lia)).
  assert (hd 0 l = nth 0 l 0) as -> by by destruct l.
  assert (default 0 (last l) = nth (length l - 1) l 0) as ->.
  { rewrite last_lookup. rewrite <- (nth_lookup l). by replace (Nat.pred (length l)) with (length l - 1)%nat by lia. }
  split_and!; try done.
  - intros p Hin. rewrite (percentile_rank l) by (done || lia). subst n. by rewrite Hlen'.
  - apply sorted_nth; [done|lia].
  - apply sorted_nth; [done|lia].
  - apply sorted_nth; [done|lia].
  - apply sorted_nth; [done|lia].
Qed.

(** ** Witnesses *)

(** A server that creates one sandbox after another, and a clock. *)
Definition small_server : env_of benchE Z := fun X e =>
  match e in benchE Y return Z -> Y * Z with
  | BNow => fun n => (n, n)
  | ClientDo _ url _ => fun n =>
      if bool_decide (url = "http://h/create"%string) || bool_decide (url = "http://h/snapshot/restore"%string) then
        (Ok (200, Ok (jmap [("sandbox_id"%string, "sb-" +:+ itoa (n + 1))])), n + 1)
      else if bool_decide (url = "http://h/snapshot/create"%string) then (Ok (200, Ok (jmap [("snapshot_id"%string, "us-1"%string)])), n)
      else if bool_decide (url = "http://h/exec"%string) then (Ok (200, Ok "{}"%string), n)
      else (Ok (200, Ok "{}"%string), n)
  end.

(** Two measured runs against it. *)
#[local] Notation small_account :=
  (accountOf "http://h" nonEmpty small_server (Bench.main (fun _ => true) "http://h/" "true" 2 0) 0).

Lemma clients_clean_up_witness :
  (("http://h"%string = TrimRightSlash "http://h/" /\ validURLs (fun _ => true) "http://h") /\
   snd small_account = [Granted "sb-1"; Destroyed (destroyBody "sb-1"); Granted "sb-2"; Destroyed (destroyBody "sb-2")]) /\
  ended 2 (fst small_account) /\ balanced (snd small_account).
Proof.
  assert (Hb : "http://h"%string = TrimRightSlash "http://h/") by reflexivity.
  assert (Hv : validURLs (fun _ => true) "http://h") by (repeat constructor).
  split; [split; [split; [exact Hb|exact Hv]|vm_compute; reflexivity]|].
  destruct (clients_clean_up small_server (fun _ => true) "http://h/" "true" EmptyString EmptyString EmptyString 2 0 0 _ Hb Hv) as [H _].
  exact (H _ _ (surjective_pairing small_account)).
Defined.

Lemma percentiles_ordered_witness :
  let l := sortZ [30; 10; 20] in
  l = [10; 20; 30] /\ Bench.percentile l (hundredths 95) = 20 /\
  hd 0 l <= Bench.percentile l (hundredths 50) <= Bench.percentile l (hundredths 95).
Proof.
  intros l. split; [reflexivity|]. split; [vm_compute; reflexivity|].
  destruct (percentiles_ordered [30; 10; 20] ltac:(discriminate) ltac:(cbn; lia)) as (_ & _ & _ & H & _).
  fold l in H. exact H.
Defined.
