(* ===== verification/Lifecycle.v ===== *)
(** * sandbox_lifecycle.go: the state machine of one sandbox

    Every function of the file holds [lifecycleMu] for its whole body (or for
    the single read it makes), so each is one atomic function of the sandbox.
    [waitForExecDrain], which polls, is in Sandbox.v. *)

From S2P Require Export Types.

(** Updates of the fields that change after creation. *)
Definition set_lifecycle (st : sandboxState) (n : Z) (sb : sandbox) : sandbox :=
  MkSandbox (sb_ID sb) (sb_Subnet sb) (sb_TapDevice sb) (sb_HostIP sb) (sb_GuestIP sb)
    (sb_GuestCID sb) (sb_Netns sb) (sb_Dir sb) (sb_SocketPath sb) (sb_VsockPath sb)
    (sb_ConfigPath sb) (sb_RootfsPath sb) (sb_LogPath sb) (sb_CgroupPath sb) (sb_Process sb)
    (sb_SSHClient sb) (sb_Agent sb) (sb_agentMu sb) st n.

Definition set_agent (a : option agentConn) (sb : sandbox) : sandbox :=
  MkSandbox (sb_ID sb) (sb_Subnet sb) (sb_TapDevice sb) (sb_HostIP sb) (sb_GuestIP sb)
    (sb_GuestCID sb) (sb_Netns sb) (sb_Dir sb) (sb_SocketPath sb) (sb_VsockPath sb)
    (sb_ConfigPath sb) (sb_RootfsPath sb) (sb_LogPath sb) (sb_CgroupPath sb) (sb_Process sb)
    (sb_SSHClient sb) a (sb_agentMu sb) (sb_state sb) (sb_inFlightExec sb).

Definition set_agentMu (held : bool) (sb : sandbox) : sandbox :=
  MkSandbox (sb_ID sb) (sb_Subnet sb) (sb_TapDevice sb) (sb_HostIP sb) (sb_GuestIP sb)
    (sb_GuestCID sb) (sb_Netns sb) (sb_Dir sb) (sb_SocketPath sb) (sb_VsockPath sb)
    (sb_ConfigPath sb) (sb_RootfsPath sb) (sb_LogPath sb) (sb_CgroupPath sb) (sb_Process sb)
    (sb_SSHClient sb) (sb_Agent sb) held (sb_state sb) (sb_inFlightExec sb).

Definition set_netns (nc : option netnsConfig) (sb : sandbox) : sandbox :=
  MkSandbox (sb_ID sb) (sb_Subnet sb) (sb_TapDevice sb) (sb_HostIP sb) (sb_GuestIP sb)
    (sb_GuestCID sb) nc (sb_Dir sb) (sb_SocketPath sb) (sb_VsockPath sb)
    (sb_ConfigPath sb) (sb_RootfsPath sb) (sb_LogPath sb) (sb_CgroupPath sb) (sb_Process sb)
    (sb_SSHClient sb) (sb_Agent sb) (sb_agentMu sb) (sb_state sb) (sb_inFlightExec sb).

Definition errClosing : error := errorf [Lit "sandbox is closing"].

Definition tryStartExec (sb : sandbox) : sandbox * option error :=
  if bool_decide (sb_state sb = sandboxStateRunning)
  then (set_lifecycle (sb_state sb) (sb_inFlightExec sb + 1) sb, None)
  else (sb, Some errClosing).

Definition finishExec (sb : sandbox) : sandbox :=
  if sb_inFlightExec sb >? 0
  then set_lifecycle (sb_state sb) (sb_inFlightExec sb - 1) sb
  else sb.

Definition beginDestroy (sb : sandbox) : sandbox * bool :=
  if bool_decide (sb_state sb = sandboxStateRunning)
  then (set_lifecycle sandboxStateClosing (sb_inFlightExec sb) sb, true)
  else (sb, false).

Definition currentInFlightExec (sb : sandbox) : Z := sb_inFlightExec sb.

Definition finishDestroy (sb : sandbox) : sandbox :=
  set_lifecycle sandboxStateClosed (sb_inFlightExec sb) sb.

(** ** One sandbox under any sequence of lifecycle calls *)

Inductive lifecycle_call := CallTryStart | CallFinish | CallBeginDestroy | CallFinishDestroy.

Definition lifecycle_step (c : lifecycle_call) (sb : sandbox) : sandbox :=
  match c with
  | CallTryStart => fst (tryStartExec sb)
  | CallFinish => finishExec sb
  | CallBeginDestroy => fst (beginDestroy sb)
  | CallFinishDestroy => finishDestroy sb
  end.

Definition lifecycle_run (cs : list lifecycle_call) (sb : sandbox) : sandbox :=
  fold_left (fun s c => lifecycle_step c s) cs sb.

Definition state_rank (s : sandboxState) : nat :=
  match s with sandboxStateRunning => 0 | sandboxStateClosing => 1 | sandboxStateClosed => 2 end.

(** How many of the calls were answered with success. *)
Fixpoint admitted (cs : list lifecycle_call) (sb : sandbox) : list lifecycle_call :=
  match cs with
  | [] => []
  | c :: cs =>
      let rest := admitted cs (lifecycle_step c sb) in
      match c with
      | CallTryStart => match snd (tryStartExec sb) with None => c :: rest | Some _ => rest end
      | CallBeginDestroy => if snd (beginDestroy sb) then c :: rest else rest
      | _ => c :: rest
      end
  end.

(** ** Lemmas *)

Lemma tryStartExec_running sb :
  snd (tryStartExec sb) = None <-> sb_state sb = sandboxStateRunning.
Proof. unfold tryStartExec. case_bool_decide; simpl; split; congruence. Qed.

Lemma beginDestroy_running sb :
  snd (beginDestroy sb) = true <-> sb_state sb = sandboxStateRunning.
Proof. unfold beginDestroy. case_bool_decide; simpl; split; congruence. Qed.

Lemma lifecycle_step_rank c sb :
  (state_rank (sb_state sb) <= state_rank (sb_state (lifecycle_step c sb)))%nat.
Proof.
  destruct c; simpl; unfold tryStartExec, finishExec, beginDestroy, finishDestroy;
    try case_bool_decide; try case_match; simpl; destruct (sb_state sb); simpl; try lia; congruence.
Qed.

Lemma lifecycle_run_rank cs sb :
  (state_rank (sb_state sb) <= state_rank (sb_state (lifecycle_run cs sb)))%nat.
Proof.
  revert sb. induction cs as [|c cs IH]; intros sb; simpl; [lia|].
  pose proof (lifecycle_step_rank c sb). specialize (IH (lifecycle_step c sb)).
  unfold lifecycle_run in *. lia.
Qed.

Lemma lifecycle_run_app cs1 cs2 sb : lifecycle_run (cs1 ++ cs2) sb = lifecycle_run cs2 (lifecycle_run cs1 sb).
Proof. apply fold_left_app. Qed.

Lemma not_running_rank sb : sb_state sb <> sandboxStateRunning <-> (1 <= state_rank (sb_state sb))%nat.
Proof. destruct (sb_state sb); simpl; split; try lia; congruence. Qed.

(** Once closing, no exec and no second destroy is admitted. *)
Lemma admitted_not_running cs sb c :
  sb_state sb <> sandboxStateRunning -> c ∈ admitted cs sb -> c = CallFinish \/ c = CallFinishDestroy.
Proof.
  revert sb. induction cs as [|d cs IH]; intros sb Hs; simpl; [set_solver|].
  assert (sb_state (lifecycle_step d sb) <> sandboxStateRunning) as Hs'.
  { apply not_running_rank. apply not_running_rank in Hs. pose proof (lifecycle_step_rank d sb). lia. }
  specialize (IH _ Hs'). destruct d.
  - destruct (snd (tryStartExec sb)) eqn:E; [done|]. by apply tryStartExec_running in E.
  - rewrite elem_of_cons. intros [->|?]; auto.
  - destruct (snd (beginDestroy sb)) eqn:E; [|done]. by apply beginDestroy_running in E.
  - rewrite elem_of_cons. intros [->|?]; auto.
Qed.

(** ** Properties *)

(** The lifecycle only moves forward, and the counter of running execs is
    never negative, under any sequence of calls. *)
Theorem lifecycle_monotone cs sb :
  0 <= sb_inFlightExec sb ->
  (state_rank (sb_state sb) <= state_rank (sb_state (lifecycle_run cs sb)))%nat
  /\ 0 <= sb_inFlightExec (lifecycle_run cs sb).
Proof.
  intros H0. split; [apply lifecycle_run_rank|].
  revert sb H0. induction cs as [|c cs IH]; intros sb H0; [done|]. apply IH.
  destruct c; simpl; unfold tryStartExec, finishExec, beginDestroy, finishDestroy;
    try case_bool_decide; simpl; try lia.
  rewrite Z.gtb_ltb. destruct (Z.ltb_spec 0 (sb_inFlightExec sb)); simpl; lia.
Qed.

(** A destroy is admitted at most once, and after it no exec is: in any
    sequence of calls on one sandbox, what follows the admitted
    [beginDestroy] holds only [finishExec] and [finishDestroy]. *)
Theorem destroy_is_exclusive cs1 cs2 sb :
  snd (beginDestroy (lifecycle_run cs1 sb)) = true ->
  Forall (fun c => c = CallFinish \/ c = CallFinishDestroy)
    (admitted cs2 (lifecycle_run (cs1 ++ [CallBeginDestroy]) sb)).
Proof.
  intros H. apply Forall_forall. intros c Hc. eapply admitted_not_running; [|exact Hc].
  rewrite lifecycle_run_app. simpl. unfold beginDestroy in *. case_bool_decide; simpl in *; congruence.
Qed.

(** ** Witnesses *)

Definition sample_sandbox : sandbox :=
  MkSandbox "sb-1" 1 "tap0" "172.16.1.1" "172.16.1.2" 3 None "/w/sandboxes/sb-1" "/w/sandboxes/sb-1/firecracker.sock"
    "/w/sandboxes/sb-1/vsock.sock" EmptyString "/w/sandboxes/sb-1/rootfs.ext4" "/w/sandboxes/sb-1/firecracker.log"
    EmptyString (Some 4242) None (Some 9) false sandboxStateRunning 0.

Lemma lifecycle_monotone_witness :
  0 <= sb_inFlightExec sample_sandbox
  /\ (0 <= state_rank (sb_state (lifecycle_run [CallTryStart; CallBeginDestroy; CallFinish; CallFinish] sample_sandbox)))%nat
  /\ 0 <= sb_inFlightExec (lifecycle_run [CallTryStart; CallBeginDestroy; CallFinish; CallFinish] sample_sandbox).
Proof.
  split; [by vm_compute|].
  apply (lifecycle_monotone [CallTryStart; CallBeginDestroy; CallFinish; CallFinish] sample_sandbox). by vm_compute.
Defined.

Lemma destroy_is_exclusive_witness :
  Forall (fun c => c = CallFinish \/ c = CallFinishDestroy)
    (admitted [CallTryStart; CallFinish; CallBeginDestroy; CallFinishDestroy]
       (lifecycle_run ([CallTryStart] ++ [CallBeginDestroy]) sample_sandbox)).
Proof.
  apply (destroy_is_exclusive [CallTryStart] [CallTryStart; CallFinish; CallBeginDestroy; CallFinishDestroy] sample_sandbox).
  by vm_compute.
Defined.
