(* ===== verification/World.v ===== *)
(** * The world of the server: operations, shared memory, interpreters

    [envE] lists what the server asks of the operating system, of Firecracker,
    of the guest and of third-party packages; their answers are arbitrary.
    [memE] lists what it does to memory shared between goroutines; these have
    a definition, [mem_step], taken from main.go, types.go, handlers.go,
    netns_pool.go and sandbox_lifecycle.go. *)

From S2P Require Export Prog Lifecycle.

(** ** Operations on the environment *)

(** netlink.Veth and netlink.Tuntap *)
Inductive nlLink :=
| NlVeth (name peer : string)
| NlTap (name : string).

(** Bodies of HTTP answers, one constructor per Go type that is encoded. *)
Inductive payload :=
| PError (t : list piece)                      (* map[string]string{"error": ...} *)
| PCreate (id : string)                        (* createResponse *)
| PExec (r : execResponse)
| PStatus (s : string)                         (* destroyResponse, snapshotDeleteResponse, /healthz *)
| PSnapshotCreate (id : string)
| PSnapshotRestore (id : string)
| PSnapshots (l : list userSnapshotMeta).

Inductive envE : Type -> Type :=
(* package os *)
| OsMkdirAll (p : string) : envE (option error)
| OsMkdir (p : string) : envE (option error)
| OsRemove (p : string) : envE (option error)
| OsRemoveAll (p : string) : envE (option error)
| OsStat (p : string) : envE (option error)
| OsWriteFile (p data : string) : envE (option error)
| OsReadFile (p : string) : envE (result string)
| OsRename (a b : string) : envE (option error)
| OsReadDir (p : string) : envE (result (list (string * bool)))
| OsOpenTrunc (p : string) : envE (option error)
| OsCloseFile (p : string) : envE unit
| OsOpen (p : string) : envE (result Z)
| FileReadAll (f : Z) : envE (result string)         (* io.Copy from a file: all that is left in it *)
| FileClose (f : Z) : envE unit
| OsGetenv (name : string) : envE string
| OsGetwd : envE (result string)
| OsGeteuid : envE Z
(* package os/exec, syscall *)
| LookPath (name : string) : envE (option error)
| RunCommand (name : string) (args : list string) : envE (string * string * option error)
| StartProcess (name : string) (args : list string) (dir : string) : envE (result Z)
| KillGroup (pid : Z) : envE (option error)          (* syscall.Kill(-pid, SIGKILL) *)
| KillProcess (pid : Z) : envE (option error)        (* Process.Kill *)
| WaitProcess (pid timeout : Z) : envE (option (option error))  (* None: time.After won *)
| ReapProcess (pid : Z) : envE unit                  (* Process.Wait *)
(* package time *)
| Now : envE Z
| Sleep (d : Z) : envE unit
(* the scheduler *)
| Pick : envE bool
(* sockets *)
| DialUnix (path : string) (timeout : Z) : envE (result Z)
| ConnWrite (c : Z) (b : string) : envE (option error)
| ConnReadFull (c : Z) (n : nat) : envE (result string)
| ConnReadLine (c timeout : Z) : envE (option (result string))  (* None: time.After won *)
| ConnSetDeadline (c : Z) (d : option Z) : envE unit
| ConnClose (c : Z) : envE (option error)
(* the Firecracker API *)
| HttpDo (sock : string) (timeout : Z) (method path body : string) : envE (result (Z * string))
(* packages netns and netlink *)
| LockOSThread : envE unit
| UnlockOSThread : envE unit
| NetnsGet : envE (result Z)
| NetnsNewNamed (name : string) : envE (result Z)
| NetnsSet (ns : Z) : envE (option error)
| NetnsClose (ns : Z) : envE unit
| NetnsDeleteNamed (name : string) : envE (option error)
| NlNewHandle : envE (result Z)
| NlDeleteHandle (h : Z) : envE unit
| NlLinkAdd (h : Z) (l : nlLink) : envE (option error)
| NlLinkByName (h : Z) (name : string) : envE (result Z)
| NlLinkDel (h link : Z) : envE (option error)
| NlLinkSetNsFd (h link ns : Z) : envE (option error)
| NlParseAddr (s : string) : envE (result string)
| NlAddrAdd (h link : Z) (addr : string) : envE (option error)
| NlLinkSetUp (h link : Z) : envE (option error)
| NlRouteReplace (h link : Z) (dst : option string) (gw : string) : envE (option error)
| NlRouteDel (h : Z) (dst : string) : envE (option error)
(* package ssh *)
| SshParseKey (key : string) : envE (option error)
| SshDial (addr key : string) (timeout : Z) : envE (result Z)
| SshNewSession (c : Z) : envE (result Z)
| SshStart (s : Z) (cmd : string) : envE (option error)
| SshRun (s : Z) (cmd : string) : envE (option error)             (* session.Run: start and wait *)
| SshWait (s timeout : Z) : envE (option (option error))
| SshKill (s : Z) : envE unit
| SshOutput (s : Z) : envE (string * string)
| SshCloseSession (s : Z) : envE unit
| SshCloseClient (c : Z) : envE unit
(* package net/http: the answer to the request being served *)
| WriteJSON (status : Z) (p : payload) : envE unit.

(** ** Memory shared by the handlers *)

(** A pointer to a sandbox. *)
Abbreviation loc := nat (only parsing).

Record netnsPool := MkPool {
  pool_size : nat;
  pool_ch : list netnsConfig;     (* the buffered channel, oldest first *)
  pool_all : list netnsConfig;
  pool_once : bool;
}.

Record server := MkServer {
  s_nextSandboxID : Z;
  s_nextSnapshotID : Z;
  s_nextSubnet : Z;
  s_sandboxes : gmap string loc;
  s_heap : list sandbox;
  s_netnsPool : option netnsPool;
}.

Inductive memE : Type -> Type :=
(* sync/atomic counters *)
| AddSandboxID : memE Z
| AddSnapshotID : memE Z
| AddSubnet : memE Z
(* s.mu and the sandbox map *)
| SandboxesGet (id : string) : memE (option loc)
| SandboxesPut (id : string) (l : loc) : memE unit
| SandboxesTake (id : string) : memE (option loc)     (* lookup and delete *)
| SandboxesSweep : memE (list loc)                    (* take all *)
(* sandboxes *)
| NewSandbox (sb : sandbox) : memE loc
| LoadSandbox (l : loc) : memE sandbox
| LockAgentMu (l : loc) : memE unit
| UnlockAgentMu (l : loc) : memE unit
| SetAgent (l : loc) (a : option agentConn) : memE unit
| SetNetns (l : loc) (nc : option netnsConfig) : memE unit
| TryStartExec (l : loc) : memE (option error)
| FinishExec (l : loc) : memE unit
| BeginDestroy (l : loc) : memE bool
| InFlightExec (l : loc) : memE Z
| FinishDestroy (l : loc) : memE unit
(* the netns pool *)
| PoolEnabled : memE bool                             (* s.netnsPool != nil *)
| PoolOnce : memE bool                                (* once.Do: are we the first? *)
| PoolRegister (nc : netnsConfig) : memE unit         (* p.all = append(p.all, nc) *)
| PoolAll : memE (list netnsConfig)
| PoolRecv (timeout : Z) : memE (option netnsConfig)  (* select: channel or time.After *)
| PoolSend (nc : netnsConfig) : memE unit.

(** The two families together. *)
Inductive sysE : Type -> Type :=
| Sys {X : Type} (e : envE X) : sysE X
| Mem {X : Type} (m : memE X) : sysE X.

Definition sys {X} (e : envE X) : prog sysE X := trigger (Sys e).
Definition memory {X} (m : memE X) : prog sysE X := trigger (Mem m).

(** ** Meaning of the memory operations *)

Definition upd_sandboxes (f : gmap string loc -> gmap string loc) (s : server) : server :=
  MkServer (s_nextSandboxID s) (s_nextSnapshotID s) (s_nextSubnet s) (f (s_sandboxes s)) (s_heap s) (s_netnsPool s).
Definition upd_heap (f : list sandbox -> list sandbox) (s : server) : server :=
  MkServer (s_nextSandboxID s) (s_nextSnapshotID s) (s_nextSubnet s) (s_sandboxes s) (f (s_heap s)) (s_netnsPool s).
Definition upd_pool (p : netnsPool) (s : server) : server :=
  MkServer (s_nextSandboxID s) (s_nextSnapshotID s) (s_nextSubnet s) (s_sandboxes s) (s_heap s) (Some p).

(** Runs [f] on the sandbox at [l]; a dangling pointer cannot arise. *)
Definition on_sandbox {X} (l : loc) (f : sandbox -> sandbox * X) (s : server) : option (X * server) :=
  match s_heap s !! l with
  | Some sb => let '(sb', x) := f sb in Some (x, upd_heap (<[l := sb']>) s)
  | None => None
  end.

Definition on_pool {X} (f : netnsPool -> option (X * netnsPool)) (s : server) : option (X * server) :=
  match s_netnsPool s with
  | Some p => match f p with Some (x, p') => Some (x, upd_pool p' s) | None => None end
  | None => None
  end.

(** [None]: the operation blocks. *)
Definition mem_step {X} (m : memE X) (s : server) : option (X * server) :=
  match m in memE X return option (X * server) with
  | AddSandboxID =>
      let n := uint64 (s_nextSandboxID s + 1) in
      Some (n, MkServer n (s_nextSnapshotID s) (s_nextSubnet s) (s_sandboxes s) (s_heap s) (s_netnsPool s))
  | AddSnapshotID =>
      let n := uint64 (s_nextSnapshotID s + 1) in
      Some (n, MkServer (s_nextSandboxID s) n (s_nextSubnet s) (s_sandboxes s) (s_heap s) (s_netnsPool s))
  | AddSubnet =>
      let n := uint32 (s_nextSubnet s + 1) in
      Some (n, MkServer (s_nextSandboxID s) (s_nextSnapshotID s) n (s_sandboxes s) (s_heap s) (s_netnsPool s))
  | SandboxesGet id => Some (s_sandboxes s !! id, s)
  | SandboxesPut id l => Some (tt, upd_sandboxes (<[id := l]>) s)
  | SandboxesTake id => Some (s_sandboxes s !! id, upd_sandboxes (delete id) s)
  | SandboxesSweep => Some ((map_to_list (s_sandboxes s)).*2, upd_sandboxes (fun _ => ∅) s)
  | NewSandbox sb => Some (length (s_heap s), upd_heap (fun h => h ++ [sb]) s)
  | LoadSandbox l => on_sandbox l (fun sb => (sb, sb)) s
  | LockAgentMu l =>
      match s_heap s !! l with
      | Some sb => if sb_agentMu sb then None else Some (tt, upd_heap (<[l := set_agentMu true sb]>) s)
      | None => None
      end
  | UnlockAgentMu l => on_sandbox l (fun sb => (set_agentMu false sb, tt)) s
  | SetAgent l a => on_sandbox l (fun sb => (set_agent a sb, tt)) s
  | SetNetns l nc => on_sandbox l (fun sb => (set_netns nc sb, tt)) s
  | TryStartExec l => on_sandbox l tryStartExec s
  | FinishExec l => on_sandbox l (fun sb => (finishExec sb, tt)) s
  | BeginDestroy l => on_sandbox l beginDestroy s
  | InFlightExec l => on_sandbox l (fun sb => (sb, currentInFlightExec sb)) s
  | FinishDestroy l => on_sandbox l (fun sb => (finishDestroy sb, tt)) s
  | PoolEnabled => Some (bool_decide (is_Some (s_netnsPool s)), s)
  | PoolOnce =>
      on_pool (fun p => Some (negb (pool_once p), MkPool (pool_size p) (pool_ch p) (pool_all p) true)) s
  | PoolRegister nc =>
      on_pool (fun p => Some (tt, MkPool (pool_size p) (pool_ch p) (pool_all p ++ [nc]) (pool_once p))) s
  | PoolAll => on_pool (fun p => Some (pool_all p, p)) s
  | PoolRecv _ =>
      on_pool (fun p =>
        match pool_ch p with
        | nc :: ch => Some (Some nc, MkPool (pool_size p) ch (pool_all p) (pool_once p))
        | [] => Some (None, p)
        end) s
  | PoolSend nc =>
      on_pool (fun p =>
        if (length (pool_ch p) <? pool_size p)%nat
        then Some (tt, MkPool (pool_size p) (pool_ch p ++ [nc]) (pool_all p) (pool_once p))
        else None) s
  end.

Definition with_pool (p : netnsPool) (s : server) : Prop := s_netnsPool s = Some p.

Lemma PoolSend_step p nc s :
  with_pool p s -> (length (pool_ch p) < pool_size p)%nat ->
  mem_step (PoolSend nc) s = Some (tt, upd_pool (MkPool (pool_size p) (pool_ch p ++ [nc]) (pool_all p) (pool_once p)) s).
Proof.
  unfold with_pool. intros Hp Hlen. unfold mem_step, on_pool. rewrite Hp.
  by rewrite (proj2 (Nat.ltb_lt _ _) Hlen).
Qed.

(** *** A sandbox at a known place *)

(** The server with the sandbox at [l] changed. *)
Definition at_loc (l : loc) (sb : sandbox) (s : server) : server := upd_heap (<[l := sb]>) s.

Lemma at_loc_lookup l sb s : (l < length (s_heap s))%nat -> s_heap (at_loc l sb s) !! l = Some sb.
Proof. intros H. cbn. by rewrite list_lookup_insert_eq. Qed.

Lemma on_sandbox_at {X} l (f : sandbox -> sandbox * X) sb s :
  (l < length (s_heap s))%nat ->
  on_sandbox l f (at_loc l sb s) = Some (snd (f sb), at_loc l (fst (f sb)) s).
Proof.
  intros H. unfold on_sandbox. rewrite at_loc_lookup by done. destruct (f sb) as [sb' x]. cbn. do 2 f_equal.
  unfold at_loc, upd_heap. cbn. by rewrite list_insert_insert_eq.
Qed.

Lemma lock_at l sb s :
  (l < length (s_heap s))%nat -> sb_agentMu sb = false ->
  mem_step (LockAgentMu l) (at_loc l sb s) = Some (tt, at_loc l (set_agentMu true sb) s).
Proof.
  intros H Hmu. unfold mem_step. rewrite at_loc_lookup, Hmu by done. do 2 f_equal.
  unfold at_loc, upd_heap. cbn. by rewrite list_insert_insert_eq.
Qed.

Lemma at_loc_id l sb s : s_heap s !! l = Some sb -> at_loc l sb s = s.
Proof. intros H. destruct s. unfold at_loc, upd_heap. cbn in *. by rewrite list_insert_id. Qed.

(** The answer to the request that an operation sends. *)
Definition sent {X} (e : envE X) : list (Z * payload) :=
  match e with WriteJSON status p => [(status, p)] | _ => [] end.

(** ** Interpreters *)

(** A run against an environment [eh] with state [W]. *)
Definition env (W : Type) : Type := forall X, envE X -> W -> X * W.

Definition handler {W} (eh : env W) (X : Type) (e : sysE X) (w : server * W) : option (X * (server * W)) :=
  match e in sysE X return option (X * (server * W)) with
  | Sys e => let '(x, w') := eh _ e (snd w) in Some (x, (fst w, w'))
  | Mem m => match mem_step m (fst w) with Some (x, s') => Some (x, (s', snd w)) | None => None end
  end.

Definition exec {W A} (eh : env W) (p : prog sysE A) (s : server) (w : W) : outcome A * (server * W) :=
  run (handler eh) p (s, w).

Lemma exec_bind {W A B} (eh : env W) (p : prog sysE A) (f : A -> prog sysE B) s w :
  exec eh (bind p f) s w =
  match exec eh p s w with
  | (Done a, (s', w')) => exec eh (f a) s' w'
  | (Panicked, sw) => (Panicked, sw)
  | (OutOfFuel, sw) => (OutOfFuel, sw)
  | (Blocked, sw) => (Blocked, sw)
  end.
Proof. unfold exec. rewrite run_bind. by destruct (run _ p _) as [[] [? ?]]. Qed.

Lemma exec_ret {W A} (eh : env W) (a : A) s w : exec eh (Ret a) s w = (Done a, (s, w)).
Proof. done. Qed.

Lemma exec_mem {W X A} (eh : env W) (m : memE X) (k : X -> prog sysE A) x s s' w :
  mem_step m s = Some (x, s') -> exec eh (bind (memory m) k) s w = exec eh (k x) s' w.
Proof. intros H. unfold exec. simpl. by rewrite H. Qed.

Lemma exec_mem_end {W X} (eh : env W) (m : memE X) x s s' w :
  mem_step m s = Some (x, s') -> exec eh (memory m) s w = (Done x, (s', w)).
Proof. intros H. unfold exec. simpl. by rewrite H. Qed.

(** The same run under an observer of the operations performed and of their
    answers. *)
Definition watch {W T} (obs : forall X, sysE X -> X -> T -> T) (h : forall X, sysE X -> W -> option (X * W))
    (X : Type) (e : sysE X) (w : W * T) : option (X * (W * T)) :=
  match h X e (fst w) with Some (x, w') => Some (x, (w', obs X e x (snd w))) | None => None end.

Definition exec_watched {W T A} (obs : forall X, sysE X -> X -> T -> T) (eh : env W) (p : prog sysE A)
    (s : server) (w : W) (t : T) : outcome A * (server * W * T) :=
  run (watch obs (handler eh)) p (s, w, t).

Lemma exec_watched_exec {W T A} obs (eh : env W) (p : prog sysE A) s w (t : T) :
  exec eh p s w = (fst (exec_watched obs eh p s w t), fst (snd (exec_watched obs eh p s w t))).
Proof.
  unfold exec, exec_watched. generalize (s, w) as sw. revert t. induction p as [a| | |X e k IH]; intros t sw; try done.
  cbn. unfold watch at 1 3. cbn. destruct (handler eh X e sw) as [[x sw']|]; [apply IH|done].
Qed.

(** An observer of the environment only. *)
Definition envObs {T} (obs : forall X, envE X -> X -> T -> T) (X : Type) (e : sysE X) : X -> T -> T :=
  match e in sysE X return X -> T -> T with
  | Sys e => obs _ e
  | Mem _ => fun _ t => t
  end.

(** The logic: server memory is exact, the environment answers anything
    [allowed] permits, and an observer [obs] accumulates what was done. *)
Section logic.
Context {T : Type}.
Context (allowed : forall X, envE X -> T -> X -> Prop).
Context (obs : forall X, sysE X -> X -> T -> T).

Definition sys_pre (X : Type) (e : sysE X) (st : server * T) : Prop :=
  match e with
  | Sys _ => True
  | Mem m => is_Some (mem_step m (fst st))
  end.

Definition sys_post (X : Type) (e : sysE X) (st : server * T) (x : X) (st' : server * T) : Prop :=
  match e in sysE X return X -> Prop with
  | Sys e => fun x => allowed _ e (snd st) x /\ st' = (fst st, obs _ (Sys e) x (snd st))
  | Mem m => fun x => mem_step m (fst st) = Some (x, fst st') /\ snd st' = obs _ (Mem m) x (snd st)
  end x.

Definition swp {A} (p : prog sysE A) (Q : outcome A -> server -> T -> Prop) (s : server) (t : T) : Prop :=
  wp sys_pre sys_post p (fun o st => Q o (fst st) (snd st)) (s, t).

Lemma swp_ret {A} (a : A) Q s t : Q (Done a) s t -> swp (Ret a) Q s t.
Proof. done. Qed.

Lemma swp_sys {X A} (e : envE X) (k : X -> prog sysE A) Q s t :
  (forall x, allowed _ e t x -> swp (k x) Q s (obs _ (Sys e) x t)) -> swp (bind (sys e) k) Q s t.
Proof. intros H. split; [done|]. intros x [s' t'] [Hx [= -> ->]]. by apply H. Qed.

Lemma swp_mem {X A} (m : memE X) (k : X -> prog sysE A) x s' Q s t :
  mem_step m s = Some (x, s') -> swp (k x) Q s' (obs _ (Mem m) x t) -> swp (bind (memory m) k) Q s t.
Proof.
  intros Hm Hk. split; [by eexists|]. intros y [s2 t2] [Hy Ht]. simpl in *. by simplify_eq.
Qed.

Definition swp_bindQ {A B} (f : A -> prog sysE B) (Q : outcome B -> server -> T -> Prop)
    (o : outcome A) (s : server) (t : T) : Prop :=
  match o with
  | Done a => swp (f a) Q s t
  | Panicked => Q Panicked s t
  | OutOfFuel => Q OutOfFuel s t
  | Blocked => Q Blocked s t
  end.

Lemma swp_bind {A B} (p : prog sysE A) (f : A -> prog sysE B) Q s t :
  swp p (swp_bindQ f Q) s t -> swp (bind p f) Q s t.
Proof.
  intros H. apply wp_bind. eapply wp_mono; [|exact H]. intros [a| | |] [s' t']; simpl; auto.
Qed.

Lemma swp_mono {A} (p : prog sysE A) (Q Q' : outcome A -> server -> T -> Prop) s t :
  (forall o s t, Q o s t -> Q' o s t) -> swp p Q s t -> swp p Q' s t.
Proof. intros H. apply wp_mono. intros o [s' t']. apply H. Qed.

Lemma swp_sys_end {X} (e : envE X) Q s t :
  (forall x, allowed _ e t x -> Q (Done x) s (obs _ (Sys e) x t)) -> swp (sys e) Q s t.
Proof. intros H. split; [done|]. intros x [s' t'] [Hx [= -> ->]]. by apply H. Qed.

Lemma swp_mem_end {X} (m : memE X) x s' Q s t :
  mem_step m s = Some (x, s') -> Q (Done x) s' (obs _ (Mem m) x t) -> swp (memory m) Q s t.
Proof. intros Hm HQ. split; [by eexists|]. intros y [s2 t2] [Hy Ht]. simpl in *. by simplify_eq. Qed.

Definition swp_deferQ {A} (d : prog sysE unit) (Q : outcome A -> server -> T -> Prop)
    (o : outcome A) (s : server) (t : T) : Prop :=
  match o with
  | Done a => swp d (swp_bindQ (fun _ => Ret a) Q) s t
  | Panicked => swp d (swp_bindQ (fun _ => Panic) Q) s t
  | OutOfFuel => Q OutOfFuel s t
  | Blocked => Q Blocked s t
  end.

Lemma swp_bindQ_eq {A B} (f : A -> prog sysE B) Q o st :
  swp_bindQ f Q o (fst st) (snd st) -> bindQ sys_pre sys_post f (fun o st => Q o (fst st) (snd st)) o st.
Proof. by destruct o, st. Qed.

Lemma swp_defer {A} (p : prog sysE A) d Q s t : swp p (swp_deferQ d Q) s t -> swp (defer p d) Q s t.
Proof.
  intros H. apply wp_defer. eapply wp_mono; [|exact H].
  by intros [a| | |] [s' t']; simpl; try apply wp_mono; try (intros o st; apply swp_bindQ_eq).
Qed.

Definition swp_deferWithQ {A L} (l0 : L) (d : L -> prog sysE unit) (Q : outcome A -> server -> T -> Prop)
    (o : outcome (A * L)) (s : server) (t : T) : Prop :=
  match o with
  | Done (a, l) => swp (d l) (swp_bindQ (fun _ => Ret a) Q) s t
  | Panicked => swp (d l0) (swp_bindQ (fun _ => Panic) Q) s t
  | OutOfFuel => Q OutOfFuel s t
  | Blocked => Q Blocked s t
  end.

Lemma swp_deferWith {A L} (l0 : L) (p : prog sysE (A * L)) d Q s t :
  swp p (swp_deferWithQ l0 d Q) s t -> swp (deferWith l0 p d) Q s t.
Proof.
  intros H. apply wp_deferWith. eapply wp_mono; [|exact H].
  by intros [[a l]| | |] [s' t']; simpl; try apply wp_mono; try (intros o st; apply swp_bindQ_eq).
Qed.

(** A loop over a list keeps [I] and may leave the function with [Q]. *)
Lemma swp_forRange {A R} (I : list A -> server -> T -> Prop) (l : list A) (body : A -> prog sysE (option R))
    rest Q s t :
  (forall x xs s t, I (x :: xs) s t ->
     swp (body x) (fun o s t =>
       match o with
       | Done None => I xs s t
       | Done (Some v) => Q (Done v) s t
       | Panicked => Q Panicked s t
       | OutOfFuel => Q OutOfFuel s t
       | Blocked => Q Blocked s t
       end) s t) ->
  (forall s t, I [] s t -> swp rest Q s t) ->
  I l s t -> swp (forRange l body rest) Q s t.
Proof.
  intros Hbody Hrest. revert s t. induction l as [|x l IH]; intros s t HI; cbn [forRange]; [by apply Hrest|].
  apply swp_bind. eapply swp_mono; [|by apply Hbody].
  intros [[v|]| | |] s' t' H; simpl; auto.
Qed.

(** A loop with an invariant. *)
Lemma swp_loop {X R} (I : X -> server -> T -> Prop) (body : X -> prog sysE (X + R)) Q n x s t :
  (forall x s t, I x s t ->
     swp (body x) (fun o s' t' =>
       match o with
       | Done (inl x') => I x' s' t'
       | Done (inr r) => Q (Done r) s' t'
       | Panicked => Q Panicked s' t'
       | OutOfFuel => Q OutOfFuel s' t'
       | Blocked => Q Blocked s' t'
       end) s t) ->
  (forall x s t, I x s t -> Q OutOfFuel s t) ->
  I x s t -> swp (loop n body x) Q s t.
Proof.
  intros Hbody Hfuel HI. apply (wp_loop _ _ (fun x st => I x (fst st) (snd st))); [|by intros x0 [? ?] H0; apply (Hfuel x0)|done].
  intros x' [s' t'] H. eapply wp_mono; [|apply Hbody, H]. by intros [[?|?]| | |] [? ?].
Qed.
End logic.

(** One step of a weakest-precondition proof: the rule for the head of the
    program.  Memory operations are left to the caller's [mem_step] facts. *)
Ltac swp_step :=
  cbv beta iota zeta;
  lazymatch goal with
  | |- swp _ _ (Ret _) _ _ _ => apply swp_ret
  | |- swp _ _ (bind (Ret ?a) ?k) _ _ _ => change (bind (Ret a) k) with (k a)
  | |- swp _ _ (bind (sys _) _) _ _ _ => apply swp_sys; intros ? ?
  | |- swp _ _ (bind (memory _) _) _ _ _ => eapply swp_mem; [reflexivity|]
  | |- swp _ _ (bind (match ?x with _ => _ end) _) _ _ _ => destruct x eqn:?
  | |- swp _ _ (bind _ _) _ _ _ => apply swp_bind
  | |- swp _ _ (sys _) _ _ _ => apply swp_sys_end; intros ? ?
  | |- swp _ _ (memory _) _ _ _ => eapply swp_mem_end; [reflexivity|]
  | |- swp _ _ (defer _ _) _ _ _ => apply swp_defer
  | |- swp _ _ (deferWith _ _ _) _ _ _ => apply swp_deferWith
  | |- swp _ _ (when ?b _) _ _ _ => destruct b eqn:?; cbn [when]
  | |- swp _ _ (match ?x with _ => _ end) _ _ _ => destruct x eqn:?
  | |- swp_bindQ _ _ _ _ _ _ _ => cbn [swp_bindQ]
  | |- swp_deferQ _ _ _ _ _ _ _ => cbn [swp_deferQ]
  | |- swp_deferWithQ _ _ _ _ _ _ _ _ => cbn [swp_deferWithQ]
  end; cbv beta iota zeta.

Ltac swp_steps := repeat swp_step.

(** What [swp] proves holds of every run in every environment whose answers
    are allowed, with the observer's final value. *)
Lemma swp_exec {W T A} (Rel : W -> T -> Prop) (allowed : forall X, envE X -> T -> X -> Prop)
    (obs : forall X, sysE X -> X -> T -> T) (eh : env W) (p : prog sysE A) Q s w t :
  (forall X (e : envE X) w t, Rel w t ->
     allowed _ e t (fst (eh _ e w)) /\ Rel (snd (eh _ e w)) (obs _ (Sys e) (fst (eh _ e w)) t)) ->
  (forall X (m : memE X) x w t, Rel w t -> Rel w (obs _ (Mem m) x t)) ->
  Rel w t -> swp allowed obs p Q s t ->
  let '(o, (s', w', t')) := exec_watched obs eh p s w t in Rel w' t' /\ Q o s' t'.
Proof.
  intros Heh Hmem HR Hwp.
  set (R := fun (sw : server * W * T) (st : server * T) =>
    fst (fst sw) = fst st /\ snd sw = snd st /\ Rel (snd (fst sw)) (snd st)).
  assert (forall X (e : sysE X) sw st x sw', R sw st -> sys_pre X e st ->
    watch obs (handler eh) X e sw = Some (x, sw') -> exists st', sys_post allowed obs X e st x st' /\ R sw' st') as Hok.
  { intros X [Y e|Y m] [[s1 w1] t1] [s2 t2] x [[s3 w3] t3] (Hs & Ht & HR1) Hpre Hh; unfold watch in Hh; simpl in *; subst.
    - specialize (Heh Y e w1 t2 HR1). destruct (eh Y e w1) as [y w']. simplify_eq/=.
      exists (s3, obs Y (Sys e) x t2). destruct Heh. by repeat split.
    - destruct (mem_step m s2) as [[y s4]|] eqn:Hm; [|done]. simplify_eq. exists (s3, obs Y (Mem m) x t2).
      repeat split; simpl; auto. }
  assert (forall X (e : sysE X) sw st, R sw st -> sys_pre X e st -> is_Some (watch obs (handler eh) X e sw)) as Hsome.
  { intros X [Y e|Y m] [[s1 w1] t1] [s2 t2] (Hs & Ht & HR1) Hpre; unfold watch; simpl in *; subst.
    - destruct (eh Y e w1). by eexists.
    - destruct Hpre as [[y s4] ->]. by eexists. }
  destruct (wp_sound_total _ _ _ R Hok p _ (s, w, t) (s, t) Hsome Hwp) as ([s' t'] & (Hs & Ht & HR') & HQ); [done|].
  unfold exec_watched. destruct (run _ _ _) as [o [[s1 w1] t1]]. simpl in *. by subst.
Qed.

(** The same for an arbitrary environment. *)
Lemma swp_watched {W T A} (obs : forall X, sysE X -> X -> T -> T) (eh : env W) (p : prog sysE A) Q s w t :
  swp (fun _ _ _ _ => True) obs p Q s t ->
  let '(o, (s', _, t')) := exec_watched obs eh p s w t in Q o s' t'.
Proof.
  intros Hwp. pose proof (swp_exec (fun _ _ => True) _ obs eh p Q s w t (fun _ _ _ _ _ => conj I I) (fun _ _ _ _ _ _ => I) I Hwp) as H.
  destruct (exec_watched _ _ _ _ _ _) as [o [[s' w'] t']]. apply H.
Qed.

(** Without looking at the observer. *)
Lemma swp_exec_only {W T A} (allowed : forall X, envE X -> T -> X -> Prop) (obs : forall X, sysE X -> X -> T -> T)
    (eh : env W) (p : prog sysE A) (Q : outcome A -> server -> Prop) s w t :
  (forall X (e : envE X) w t, allowed _ e t (fst (eh _ e w))) ->
  swp allowed obs p (fun o s _ => Q o s) s t ->
  let '(o, (s', _)) := exec eh p s w in Q o s'.
Proof.
  intros Heh Hwp. rewrite (exec_watched_exec obs eh p s w t).
  pose proof (swp_exec (fun _ _ => True) _ obs eh p (fun o s _ => Q o s) s w t
    (fun X e w t _ => conj (Heh X e w t) I) (fun _ _ _ _ _ _ => I) I Hwp) as H.
  destruct (exec_watched _ _ _ _ _ _) as [o [[s' w'] t']]. apply H.
Qed.
