(* ===== verification/Netns.v ===== *)
(** * Per-sandbox networking: netns.go, netns_util.go, netns_alloc.go,
      netns_pool.go, iptables.go and cmdutil.go *)

From S2P Require Export World Addr.

(** ** Names and addresses of a subnet *)

Definition netnsNameForSandbox (id : string) : string :=
  let id := TrimSpace id in
  if is_empty id then "manta-unknown"
  else
    let name := "manta-" +:+ id in
    if (63 <? String.length name)%nat then take_bytes 63 name else name.

Definition vethHostOf (subnet : Z) : string := "veth" +:+ fmt03d subnet.
Definition vethHostIPOf (subnet : Z) : string := "10.200." +:+ itoa subnet +:+ ".1".
Definition vethNSIPOf (subnet : Z) : string := "10.200." +:+ itoa subnet +:+ ".2".
Definition vethCIDROf (subnet : Z) : string := "10.200." +:+ itoa subnet +:+ ".0/30".
Definition hostIPOf (subnet : Z) : string := "172.16." +:+ itoa subnet +:+ ".1".
Definition guestIPOf (subnet : Z) : string := "172.16." +:+ itoa subnet +:+ ".2".
Definition subnetCIDROf (subnet : Z) : string := "172.16." +:+ itoa subnet +:+ ".0/30".

(** The value setupSandboxNetnsAndRouting returns. *)
Definition netnsConfigOf (ns : string) (subnet : Z) : netnsConfig :=
  MkNetns ns subnet false (vethHostOf subnet) "veth0" (vethCIDROf subnet) (vethHostIPOf subnet)
    (vethNSIPOf subnet) "tap0" (subnetCIDROf subnet) (hostIPOf subnet) (guestIPOf subnet).

(** ** netns_util.go *)

Definition withNetns (target : Z) (fn : prog sysE (option error)) : prog sysE (option error) :=
  sys LockOSThread ;;;
  defer (
    try! orig := sys NetnsGet catch err => Ret (Some err) in
    defer (
      do! sys (NetnsSet target) catch err => Ret (Some err) in
      defer fn (sys (NetnsSet orig) ;;; Ret tt))
    (sys (NetnsClose orig)))
  (sys UnlockOSThread).

(** ** netns.go *)

(** os.IsExist of an error that comes straight from a system call. *)
Definition IsExist (e : error) : bool := errorsIs e EEXIST || errorsIs e ENOTEMPTY.

(** The error of a call for which "already exists" is as good as done. *)
Definition unlessExist (p : prog sysE (option error)) : prog sysE (option error) :=
  let! herr := p in
  match herr with
  | Some e => if IsExist e then Ret None else Ret (Some e)
  | None => Ret None
  end.

(** The function setupSandboxNetnsAndRouting runs inside the new namespace. *)
Definition configureInsideNetns (subnet : Z) : prog sysE (option error) :=
  let vethNS := "veth0" in
  let tap := "tap0" in
  let vethHostIP := vethHostIPOf subnet in
  let vethNSIP := vethNSIPOf subnet in
  let hostIP := hostIPOf subnet in
  try! h := sys NlNewHandle catch e => Ret (Some (wrapf [Lit "netlink netns handle"] e)) in
  defer (
    try! nsVeth := sys (NlLinkByName h vethNS) catch e => Ret (Some (wrapf [Lit "lookup veth in netns"] e)) in
    try! addrNS := sys (NlParseAddr (vethNSIP +:+ "/30")) catch e => Ret (Some e) in
    do! unlessExist (sys (NlAddrAdd h nsVeth addrNS)) catch e => Ret (Some (wrapf [Lit "assign veth ns ip"] e)) in
    do! sys (NlLinkSetUp h nsVeth) catch e => Ret (Some (wrapf [Lit "set veth ns up"] e)) in
    do! sys (OsWriteFile "/proc/sys/net/ipv4/ip_forward" ("1" +:+ String (ascii_of_N 10) EmptyString))
      catch e => Ret (Some (wrapf [Lit "enable ip_forward in netns"] e)) in
    match ParseIP4 vethHostIP with
    | None => Ret (Some (errorf [Lit "invalid gw ip: "; Quoted vethHostIP]))
    | Some _ =>
        do! sys (NlRouteReplace h nsVeth None vethHostIP)
          catch e => Ret (Some (wrapf [Lit "set netns default route"] e)) in
        do! sys (NlLinkAdd h (NlTap tap)) catch e => Ret (Some (wrapf [Lit "create tap"] e)) in
        try! nsTap := sys (NlLinkByName h tap) catch e => Ret (Some (wrapf [Lit "lookup tap"] e)) in
        try! tapAddr := sys (NlParseAddr (hostIP +:+ "/30")) catch e => Ret (Some e) in
        do! unlessExist (sys (NlAddrAdd h nsTap tapAddr)) catch e => Ret (Some (wrapf [Lit "assign tap ip"] e)) in
        do! sys (NlLinkSetUp h nsTap) catch e => Ret (Some (wrapf [Lit "set tap up"] e)) in
        Ret None
    end)
  (sys (NlDeleteHandle h)).

(** Lines 67 to 89: create the namespace, then move the thread back. *)
Definition newNamedNetns (ns : string) : prog sysE (result Z) :=
  sys LockOSThread ;;;
  try! origNS := sys NetnsGet catch err =>
    sys UnlockOSThread ;;; Ret (Err (wrapf [Lit "get current netns"] err)) in
  try! nsHandle := sys (NetnsNewNamed ns) catch err =>
    sys (NetnsClose origNS) ;;; sys UnlockOSThread ;;;
    Ret (Err (wrapf [Lit "create netns "; Quoted ns] err)) in
  do! sys (NetnsSet origNS) catch err =>
    sys (NetnsClose nsHandle) ;;; sys (NetnsClose origNS) ;;; sys UnlockOSThread ;;;
    Ret (Err (wrapf [Lit "restore original netns after create"] err)) in
  sys (NetnsClose origNS) ;;;
  sys UnlockOSThread ;;;
  Ret (Ok nsHandle).

(** Lines 117 to 245, between the creation of the veth pair and the return;
    the second component is the variable [cleanupVeth]. *)
Definition configureVethAndRoute (ns : string) (subnet nsHandle rootHandle : Z)
    : prog sysE (result netnsConfig * bool) :=
  let vethHost := vethHostOf subnet in
  let vethNS := "veth0" in
  let vethHostIP := vethHostIPOf subnet in
  let vethNSIP := vethNSIPOf subnet in
  let subnetCIDR := subnetCIDROf subnet in
  try! peer := sys (NlLinkByName rootHandle vethNS) catch err =>
    sys (NetnsDeleteNamed ns) ;;; Ret (Err (wrapf [Lit "lookup veth peer"] err), true) in
  do! sys (NlLinkSetNsFd rootHandle peer nsHandle) catch err =>
    sys (NetnsDeleteNamed ns) ;;; Ret (Err (wrapf [Lit "move veth peer into netns"] err), true) in
  try! rootVeth := sys (NlLinkByName rootHandle vethHost) catch err =>
    sys (NetnsDeleteNamed ns) ;;; Ret (Err (wrapf [Lit "lookup veth host"] err), true) in
  try! addrHost := sys (NlParseAddr (vethHostIP +:+ "/30")) catch err =>
    sys (NetnsDeleteNamed ns) ;;; Ret (Err err, true) in
  do! unlessExist (sys (NlAddrAdd rootHandle rootVeth addrHost)) catch err =>
    Ret (Err (wrapf [Lit "assign veth host ip"] err), true) in
  do! sys (NlLinkSetUp rootHandle rootVeth) catch err =>
    Ret (Err (wrapf [Lit "set veth host up"] err), true) in
  do! withNetns nsHandle (configureInsideNetns subnet) catch err =>
    Ret (Err err, true) in
  match ParseCIDR4 subnetCIDR with
  | None => Ret (Err (errorf [Lit "invalid CIDR address: "; Lit subnetCIDR]), true)
  | Some _ =>
      match ParseIP4 vethNSIP with
      | None => Ret (Err (errorf [Lit "invalid veth ns ip: "; Quoted vethNSIP]), true)
      | Some _ =>
          do! sys (NlRouteReplace rootHandle rootVeth (Some subnetCIDR) vethNSIP) catch err =>
            Ret (Err (wrapf [Lit "add route to guest subnet"] err), true) in
          Ret (Ok (netnsConfigOf ns subnet), false)
      end
  end.

Definition deleteVeth (rootHandle : Z) (vethHost : string) : prog sysE unit :=
  let! l := sys (NlLinkByName rootHandle vethHost) in
  match l with
  | Ok l => sys (NlLinkDel rootHandle l) ;;; Ret tt
  | Err _ => Ret tt
  end.

Definition setupSandboxNetnsAndRouting (id : string) (subnet : Z) : prog sysE (result netnsConfig) :=
  let ns := netnsNameForSandbox id in
  let vethHost := vethHostOf subnet in
  try! nsHandle := newNamedNetns ns catch err => Ret (Err err) in
  defer (
    try! rootHandle := sys NlNewHandle catch err =>
      sys (NetnsDeleteNamed ns) ;;; Ret (Err (wrapf [Lit "netlink root handle"] err)) in
    defer (
      do! sys (NlLinkAdd rootHandle (NlVeth vethHost "veth0")) catch err =>
        sys (NetnsDeleteNamed ns) ;;; Ret (Err (wrapf [Lit "create veth pair"] err)) in
      deferWith true (configureVethAndRoute ns subnet nsHandle rootHandle)
        (fun cleanupVeth => when cleanupVeth (deleteVeth rootHandle vethHost)))
    (sys (NlDeleteHandle rootHandle)))
  (sys (NetnsClose nsHandle)).

(** strings.Join(errs, "; ") as an error, if there are any. *)
Definition joinErrs (errs : list (list piece)) : option error :=
  match errs with
  | [] => None
  | e :: es => Some (errorf (foldl (fun acc t => acc ++ [Lit "; "] ++ t) e es))
  end.

Definition errEntry (label : string) (r : option error) : list (list piece) :=
  match r with Some e => [[Lit label] ++ err_text e] | None => [] end.

Definition cleanupSandboxNetnsAndRouting (nc : option netnsConfig) : prog sysE (option error) :=
  match nc with
  | None => Ret None
  | Some nc =>
      let! r := sys NlNewHandle in
      let! errs :=
        match r with
        | Ok rootHandle =>
            match ParseCIDR4 (nc_SubnetCIDR nc) with
            | Some _ => sys (NlRouteDel rootHandle (nc_SubnetCIDR nc)) ;;; Ret tt
            | None => Ret tt
            end ;;;
            deleteVeth rootHandle (nc_VethHost nc) ;;;
            sys (NlDeleteHandle rootHandle) ;;;
            Ret []
        | Err err => Ret (errEntry "netlink root handle: " (Some err))
        end in
      let! d := sys (NetnsDeleteNamed (nc_NetnsName nc)) in
      Ret (joinErrs (errs ++ errEntry "remove netns: " d))
  end.

(** ** netns_pool.go *)

Definition newNetnsPool (size : nat) : netnsPool := MkPool size [] [] false.

Definition poolEntryID (i : Z) : string := "pool-" +:+ fmt03d i.

(** nc.Pooled = true; nc.Subnet = i *)
Definition pooled (nc : netnsConfig) (i : Z) : netnsConfig :=
  MkNetns (nc_NetnsName nc) i true (nc_VethHost nc) (nc_VethNS nc) (nc_VethCIDR nc) (nc_VethHostIP nc)
    (nc_VethNSIP nc) (nc_TapName nc) (nc_SubnetCIDR nc) (nc_HostIP nc) (nc_GuestIP nc).

(** One round of the loop of Init: [Some err] leaves the loop. *)
Definition initEntry (i : Z) : prog sysE (option error) :=
  let id := poolEntryID i in
  cleanupSandboxNetnsAndRouting (Some (MkNetns (netnsNameForSandbox id) 0 false (vethHostOf i)
    EmptyString EmptyString EmptyString EmptyString EmptyString (subnetCIDROf i) EmptyString EmptyString)) ;;;
  try! nc := setupSandboxNetnsAndRouting id i catch err =>
    Ret (Some (wrapf [Lit "init netns pool entry "; Lit (itoa i)] err)) in
  let nc := pooled nc i in
  memory (PoolRegister nc) ;;;
  memory (PoolSend nc) ;;;
  Ret None.

Definition poolIndices (size : nat) : list Z := map (fun i => Z.of_nat i + 1) (seq 0 size).

Definition Init (size : nat) : prog sysE (option error) :=
  let! first := memory PoolOnce in
  if first then
    forRange (poolIndices size)
      (fun i => let! r := initEntry i in Ret (match r with Some e => Some (Some e) | None => None end))
      (Ret None)
  else Ret None.

Definition Acquire (timeout : Z) : prog sysE (result netnsConfig) :=
  let timeout := if timeout <=? 0 then 5 * second else timeout in
  let! r := memory (PoolRecv timeout) in
  match r with
  | Some nc => Ret (Ok nc)
  | None => Ret (Err (errorf [Lit "timed out acquiring netns from pool after "; DurText timeout]))
  end.

Definition Release (nc : option netnsConfig) : prog sysE unit :=
  match nc with
  | None => Ret tt
  | Some nc => memory (PoolSend nc)
  end.

Definition Destroy : prog sysE unit :=
  let! all := memory PoolAll in
  forRange all (fun nc => cleanupSandboxNetnsAndRouting (Some nc) ;;; Ret (@None unit)) (Ret tt).

(** ** netns_alloc.go *)

Definition acquireNetns (id : string) : prog sysE (result netnsConfig) :=
  let onDemand :=
    let! subnet := memory AddSubnet in
    setupSandboxNetnsAndRouting id subnet in
  let! enabled := memory PoolEnabled in
  if enabled : bool then
    let! r := Acquire (10 * millisecond) in
    match r with
    | Ok nc => Ret (Ok nc)
    | Err _ => onDemand
    end
  else onDemand.

Definition releaseNetns (nc : option netnsConfig) : prog sysE unit :=
  match nc with
  | None => Ret tt
  | Some c =>
      let! enabled := memory PoolEnabled in
      if enabled && nc_Pooled c then Release nc
      else cleanupSandboxNetnsAndRouting nc ;;; Ret tt
  end.

(** ** cmdutil.go and iptables.go *)

(** The text of %v of a []string. *)
Definition bracketed (args : list string) : string := "[" +:+ String.concat " " args +:+ "]".

Definition runCmd (name : string) (args : list string) : prog sysE (string * string * option error) :=
  let! (stdout, stderr, err) := sys (RunCommand name args) in
  match err with
  | Some err =>
      Ret (stdout, stderr,
        Some (MkError ([Lit name; Lit " "; Lit (bracketed args); Lit ": "] ++ err_text err
                ++ [Lit " (stderr: "; Lit (TrimSpace stderr); Lit ")"]) (err_chain err)))
  | None => Ret (stdout, stderr, None)
  end.

Definition masqueradeArgs (op hostIface : string) : list string :=
  ["-t"; "nat"; op; "POSTROUTING"; "-s"; "172.16.0.0/16"; "-o"; hostIface; "-j"; "MASQUERADE"].

Definition ensureGlobalMasquerade (hostIface : string) : prog sysE (option error) :=
  if is_empty (TrimSpace hostIface) then Ret (Some (errorf [Lit "host iface is empty"]))
  else
    let! (_, _, err) := runCmd "iptables" (masqueradeArgs "-C" hostIface) in
    match err with
    | None => Ret None
    | Some _ =>
        let! (_, _, aerr) := runCmd "iptables" (masqueradeArgs "-A" hostIface) in
        match aerr with
        | Some e => Ret (Some (wrapf [Lit "add global MASQUERADE rule"] e))
        | None => Ret None
        end
    end.
