(* ===== verification/Host.v ===== *)
(** * cgroup.go, procutil.go and the polling loops

    A loop that polls until a deadline is given [polls timeout step] rounds,
    where [step] is what it sleeps in a round: with a clock that advances by
    what is slept, the deadline is passed before they run out (Timed.v). *)

From S2P Require Export World GoFormat Netns.

Definition polls (timeout step : Z) : nat := S (S (Z.to_nat (timeout / step))).

(** ** procutil.go; [None] is a nil command *)

Definition killProcessGroup (cmd : option Z) : prog sysE (option error) :=
  match cmd with
  | None => Ret None
  | Some pid =>
      let! err := sys (KillGroup pid) in
      match err with
      | Some e =>
          if errorsIs e ESRCH then Ret None
          else sys (KillProcess pid) ;;; Ret (Some e)
      | None => Ret None
      end
  end.

(** ** cgroup.go *)

Definition ensureCgroupRoot (root : string) : prog sysE (option error) :=
  do! sys (OsStat "/sys/fs/cgroup/cgroup.controllers") catch err =>
    Ret (Some (wrapf [Lit "cgroup v2 not available at /sys/fs/cgroup"] err)) in
  do! sys (OsMkdirAll root) catch err =>
    Ret (Some (wrapf [Lit "create cgroup root "; Quoted root] err)) in
  Ret None.

Definition killCgroup (cgroupPath : string) : prog sysE (option error) :=
  if is_empty (TrimSpace cgroupPath) then Ret None
  else
    let killFile := Join [cgroupPath; "cgroup.kill"] in
    do! sys (OsStat killFile) catch err =>
      Ret (Some (wrapf [Lit "cgroup.kill missing for "; Quoted cgroupPath] err)) in
    do! sys (OsWriteFile killFile ("1" +:+ NL)) catch err =>
      Ret (Some (wrapf [Lit "write cgroup.kill for "; Quoted cgroupPath] err)) in
    Ret None.

Definition removeCgroupDir (cgroupPath : string) (timeout : Z) : prog sysE (option error) :=
  if is_empty (TrimSpace cgroupPath) then Ret None
  else
    let! now := sys Now in
    let deadline := now + timeout in
    loop (polls timeout (50 * millisecond)) (fun _ : unit =>
      let! err := sys (OsRemove cgroupPath) in
      match err with
      | None => Ret (inr None)
      | Some e =>
          if errorsIs e ENOENT then Ret (inr None)
          else if errorsIs e EBUSY || errorsIs e ENOTEMPTY then
            let! now := sys Now in
            if now >? deadline then Ret (inr (Some e))
            else sys (Sleep (50 * millisecond)) ;;; Ret (inl tt)
          else Ret (inr (Some e))
      end) tt.

Definition scavengeCgroups (root : string) : prog sysE unit :=
  try! entries := sys (OsReadDir root) catch _err => Ret tt in
  forRange entries (fun '(name, isDir) =>
    if isDir : bool then
      let cg := Join [root; name] in
      killCgroup cg ;;;
      removeCgroupDir cg (1500 * millisecond) ;;;
      Ret (@None unit)
    else Ret None) (Ret tt).

Definition movePidToCgroup (cgroupPath : string) (pid : Z) : prog sysE (option error) :=
  let procsFile := Join [cgroupPath; "cgroup.procs"] in
  do! sys (OsStat procsFile) catch err =>
    Ret (Some (wrapf [Lit "cgroup.procs missing for "; Quoted cgroupPath] err)) in
  do! sys (OsWriteFile procsFile (itoa pid +:+ NL)) catch err =>
    Ret (Some (wrapf [Lit "write cgroup.procs for "; Quoted cgroupPath] err)) in
  Ret None.

(** snapshot.go, fileExists *)
Definition fileExists (p : string) : prog sysE bool :=
  let! err := sys (OsStat p) in
  Ret (match err with None => true | Some _ => false end).
