(* ===== verification/Agent.v ===== *)
(** * cmd/agent/main.go: the guest agent

    The agent runs inside the VM and has a world of its own: [agentE] lists
    what it asks of the guest kernel, of its commands and of the connection it
    serves.  Two streams of a command are copied by two goroutines while a
    third waits for it; [GPick] is the scheduler's choice among them. *)

From S2P Require Export AgentRPC GoFormat Addr Watch.

Definition agentVersion : string := "v0.2.0".

Inductive stream := Stdout | Stderr.

(** The address families of package netlink. *)
Inductive family := FAMILY_ALL | FAMILY_V4 | FAMILY_V6.

Inductive agentE : Type -> Type :=
(* the command *)
| GEnviron : agentE (list string)
| GPipe (st : stream) : agentE (option error)                (* StdoutPipe, StderrPipe *)
| GStart (argv : list string) (dir : string) (env : list string) : agentE (result Z)
| GPipeRead (st : stream) : agentE (result string)           (* what one read finds; empty at the end *)
| GWait (timeout : Z) : agentE (option (option error))       (* None: time.After won *)
| GAwait : agentE (option error)                             (* <-waitCh *)
| GKillGroup (pid : Z) : agentE (option error)
| GKill (pid : Z) : agentE (option error)
| GPick : agentE bool
| GNow : agentE Z
(* package netlink, on the namespace of the guest *)
| GLinkByName (name : string) : agentE (result Z)
| GLinkSetUp (link : Z) : agentE (option error)
| GAddrList (link : Z) (f : family) : agentE (result (list string))
| GAddrDel (link : Z) (a : string) : agentE (option error)
| GParseAddr (a : string) : agentE (result string)
| GAddrAdd (link : Z) (a : string) : agentE (option error)
| GRouteReplace (link : Z) (gw : string) : agentE (option error)
| GWriteFile (p data : string) : agentE (option error)
(* the connection being served *)
| GReadFull (n : nat) : agentE (result string)
| GWrite (b : string) : agentE (option error)
| GClose : agentE (option error)
(* the listener *)
| GListen (port : Z) : agentE (option error)
| GAccept : agentE (option error)
| GGoServe : agentE unit.                                    (* go serveConn(c) *)

(** ** Commands *)

Definition normalizeArgv (req : ExecRequest) : result (list string) :=
  let cmd := TrimSpace (xq_Cmd req) in
  if xq_UseShell req then
    if is_empty cmd then Err (errorf [Lit "use_shell set but cmd is empty"])
    else Ok ["/bin/sh"%string; "-lc"%string; cmd]
  else
    match xq_Argv req with
    | [] =>
        if negb (is_empty cmd) then Err (errorf [Lit "cmd provided without use_shell; provide argv or set use_shell"])
        else Err (errorf [Lit "argv is required when not using shell"])
    | argv => Ok argv
    end.

Definition killProcessGroup (pid : Z) : prog agentE unit :=
  ask (GKillGroup pid) ;;; ask (GKill pid) ;;; Ret tt.

(** io.Copy into a buffer from io.LimitReader(pipe, N): a read takes at most
    what is left of [N]; the copy stops at the end of the file, at an error
    and when nothing is left.  A read that is not the last takes a byte or
    more, so [N] rounds are enough. *)
Fixpoint copyLimited (fuel : nat) (st : stream) (N : Z) (buf : string) : prog agentE string :=
  if N <=? 0 then Ret buf else
  match fuel with
  | O => NoFuel
  | S fuel =>
      let! r := ask (GPipeRead st) in
      match r with
      | Err _ => Ret buf
      | Ok chunk =>
          let d := take_bytes (Z.to_nat N) chunk in
          if is_empty d then Ret buf else copyLimited fuel st (N - len d) (buf +:+ d)
      end
  end.

(** The select on the exit of the command and the timeout: [timedOut] and
    [waitErr]. *)
Definition awaitCommand (pid timeout : Z) : prog agentE (bool * option error) :=
  let! w := ask (GWait timeout) in
  match w with
  | Some waitErr => Ret (false, waitErr)
  | None => killProcessGroup pid ;;; ask GAwait ;;; Ret (true, None)
  end.

(** The last part of runExec: the exit code, and the error that is reported. *)
Definition exitOf (timedOut : bool) (waitErr : option error) : Z * option error :=
  if timedOut then (124, None)
  else match waitErr with
       | None => (0, None)
       | Some e => match asExitError e with Some code => (code, None) | None => (1, Some e) end
       end.

Definition runExecTimeout (req : ExecRequest) : Z :=
  let timeout := int64 (xq_TimeoutMs req * millisecond) in
  if timeout <=? 0 then 20 * second else timeout.

Definition maxOut (req : ExecRequest) : Z :=
  if xq_MaxOutputBytes req <=? 0 then 2 ^ 20 else xq_MaxOutputBytes req.

Definition execFailed (code : Z) (err : error) : ExecResponse * option error :=
  (MkExecResponse code EmptyString EmptyString false, Some err).

Definition runExec (req : ExecRequest) : prog agentE (ExecResponse * option error) :=
  let timeout := runExecTimeout req in
  let maxOut := maxOut req in
  match normalizeArgv req with
  | Err err => Ret (execFailed 2 err)
  | Ok [] => Panic
  | Ok argv =>
      let dir := if is_empty (TrimSpace (xq_Cwd req)) then EmptyString else xq_Cwd req in
      let! environ := ask GEnviron in
      do! ask (GPipe Stdout) catch err => Ret (execFailed 1 err) in
      do! ask (GPipe Stderr) catch err => Ret (execFailed 1 err) in
      try! pid := ask (GStart argv dir (environ ++ xq_Env req)) catch err => Ret (execFailed 127 err) in
      let! ((timedOut, waitErr), (out, err)) :=
        par GPick (awaitCommand pid timeout)
          (par GPick (copyLimited (Z.to_nat maxOut) Stdout maxOut EmptyString)
             (copyLimited (Z.to_nat maxOut) Stderr maxOut EmptyString)) in
      let '(exitCode, waitErr) := exitOf timedOut waitErr in
      Ret (MkExecResponse exitCode out err timedOut, waitErr)
  end.

(** ** The network *)

Definition configureNetwork (req : NetRequest) : prog agentE (option error) :=
  let iface := TrimSpace (nq_Interface req) in
  let iface := if is_empty iface then "eth0"%string else iface in
  let addr := TrimSpace (nq_Address req) in
  let gw := TrimSpace (nq_Gateway req) in
  if is_empty addr || is_empty gw then Ret (Some (errorf [Lit "address and gateway are required"]))
  else if negb (ParseIP_valid gw) then Ret (Some (errorf [Lit "invalid gateway ip "; Quoted gw]))
  else
    try! link := ask (GLinkByName iface) catch err =>
      Ret (Some (wrapf [Lit "lookup interface "; Quoted iface] err)) in
    do! ask (GLinkSetUp link) catch err =>
      Ret (Some (MkError ([Lit "set interface "; Quoted iface; Lit " up: "] ++ err_text err) (err_chain err))) in
    try! addrs := ask (GAddrList link FAMILY_V4) catch err =>
      Ret (Some (wrapf [Lit "list addresses on "; Quoted iface] err)) in
    forRange addrs (fun existing =>
      do! ask (GAddrDel link existing) catch err =>
        Ret (Some (Some (wrapf [Lit "remove address "; Quoted existing; Lit " on "; Quoted iface] err))) in
      Ret None)
    (try! parsedAddr := ask (GParseAddr addr) catch err =>
       Ret (Some (wrapf [Lit "parse interface address "; Quoted addr] err)) in
     do! ask (GAddrAdd link parsedAddr) catch err =>
       Ret (Some (wrapf [Lit "assign address "; Quoted addr; Lit " to "; Quoted iface] err)) in
     do! ask (GRouteReplace link gw) catch err =>
       Ret (Some (wrapf [Lit "set default route via "; Quoted gw; Lit " dev "; Quoted iface] err)) in
     let dns := TrimSpace (nq_DNS req) in
     (if is_empty dns then Ret tt
      else ask (GWriteFile "/etc/resolv.conf" ("nameserver " +:+ dns +:+ NL)) ;;; Ret tt) ;;;
     Ret None).

(** ** Requests *)

Definition errString (err : option error) : string :=
  match err with Some e => Error e | None => EmptyString end.

Definition handle (req : Request) : prog agentE Response :=
  let t := rq_Type req in
  if bool_decide (t = "ping"%string) then
    let! now := ask GNow in
    Ret (MkResponse true EmptyString (Some (MkPingResponse agentVersion (now / millisecond))) None None)
  else if bool_decide (t = "exec"%string) then
    match rq_Exec req with
    | None => Ret (MkResponse false "missing exec payload" None None None)
    | Some x =>
        let! (resp, err) := runExec x in
        Ret (MkResponse (bool_decide (err = None)) (errString err) None (Some resp) None)
    end
  else if bool_decide (t = "net"%string) then
    match rq_Net req with
    | None => Ret (MkResponse false "missing net payload" None None None)
    | Some n =>
        do! configureNetwork n catch err =>
          Ret (MkResponse false (Error err) None None (Some (MkNetResponse false))) in
        Ret (MkResponse true EmptyString None None (Some (MkNetResponse true)))
    end
  else Ret (MkResponse false (render [Lit "unknown request type "; Quoted t]) None None None).

(** One round of serveConn; [None] when it returns. *)
Definition serveOne : prog agentE bool :=
  let! req := ReadMessage (fun n => ask (GReadFull n)) dec_Request zero_Request in
  match req with
  | Err _ => Ret false
  | Ok req =>
      let! resp := handle req in
      let! err := WriteMessage (fun b => ask (GWrite b)) (marshal (enc_Response resp)) in
      Ret (match err with Some _ => false | None => true end)
  end.

(** The loop serves at most [fuel] requests. *)
Definition serveConn (fuel : nat) : prog agentE unit :=
  defer
    (loop fuel (fun _ : unit => let! again := serveOne in Ret (if again : bool then inl tt else inr tt)) tt)
    (ask GClose ;;; Ret tt).

(** main: [log.Fatalf] when the port cannot be had; otherwise accept for ever,
    here [fuel] times. *)
Definition agentMain (fuel : nat) : prog agentE unit :=
  do! ask (GListen DefaultPort) catch _ => Ret tt in
  loop fuel (fun _ : unit =>
    do! ask GAccept catch _ => Ret (inl tt) in
    ask GGoServe ;;; Ret (inl tt)) tt.
