(* ===== verification/AgentFacts.v ===== *)
(** * Theorems about the guest agent

    Every request is answered with the payload of its kind, within the limits
    of the request, and whatever the guest kernel and the commands do; a
    connection is served in order; a configured interface has exactly the
    requested address. *)

From S2P Require Export Agent.

(** A guest kernel, with the commands that run in it. *)
Notation guest := (env_of agentE).

(** ** The copying goroutines *)

(** All outcomes of [p], whatever is answered. *)
Definition leaves {A} (p : prog agentE A) (P : outcome A -> Prop) : Prop := forall o, leaf p o -> P o.

Definition copied (N : Z) (o : outcome string) : Prop :=
  match o with Done s => len s <= N | _ => False end.

Lemma take_bytes_length n s : (String.length (take_bytes n s) <= n)%nat.
Proof.
  unfold take_bytes. revert n. induction s as [|c s IH]; intros [|n]; cbn; try lia. specialize (IH n). lia.
Qed.

Lemma len_app a b : len (a +:+ b) = len a + len b.
Proof. unfold len. rewrite string_length_app. lia. Qed.

(** The fuel is enough: a read that is not the last brings a byte. *)
Lemma leaves_copyLimited fuel st N buf :
  N <= Z.of_nat fuel -> leaves (copyLimited fuel st N buf) (copied (len buf + Z.max 0 N)).
Proof.
  revert N buf. induction fuel as [|fuel IH]; intros N buf HN o; cbn [copyLimited].
  - destruct (Z.leb_spec N 0); [|lia]. cbn [leaf]. intros ->. cbn [copied]. lia.
  - destruct (Z.leb_spec N 0); [cbn [leaf]; intros ->; cbn [copied]; lia|].
    cbn [ask trigger bind leaf]. intros [[chunk|e] Ho]; [|cbn [leaf] in Ho; subst; cbn [copied]; lia].
    pose proof (take_bytes_length (Z.to_nat N) chunk) as Hd.
    destruct (take_bytes (Z.to_nat N) chunk) as [|c d] eqn:E; cbn [is_empty] in Ho.
    { cbn [leaf] in Ho. subst. cbn [copied]. lia. }
    assert (1 <= len (String c d) <= N) as Hl by (unfold len; cbn [String.length] in *; lia).
    specialize (IH (N - len (String c d)) (buf +:+ String c d) ltac:(lia) o Ho). destruct o; try done.
    cbn [copied] in *. rewrite len_app in IH. lia.
Qed.

Lemma leaf_bind {A B} (p : prog agentE A) (f : A -> prog agentE B) o :
  leaf (bind p f) o -> exists o', leaf p o' /\
    match o' with Done a => leaf (f a) o | Panicked => o = Panicked | OutOfFuel => o = OutOfFuel | Blocked => False end.
Proof.
  induction p as [a| | |X e k IH]; cbn; eauto. intros [x Hx]. destruct (IH x Hx) as (o' & Ho' & Hm). eauto.
Qed.

(** Both results of two goroutines that always return. *)
Lemma leaves_par {A B} pick (p : prog agentE A) (q : prog agentE B) (P : A -> Prop) (R : B -> Prop) :
  leaves p (fun o => match o with Done a => P a | _ => False end) ->
  leaves q (fun o => match o with Done b => R b | _ => False end) ->
  leaves (par pick p q) (fun o => match o with Done (a, b) => P a /\ R b | _ => False end).
Proof.
  revert q. induction p as [a| | |X e k IHp]; intros q Hp Hq.
  - assert (P a) as Ha by (by apply (Hp (Done a))).
    assert (forall o, leaf (bind q (fun b => Ret (a, b))) o -> match o with Done (a, b) => P a /\ R b | _ => False end) as Hl.
    { intros o Ho. apply leaf_bind in Ho as (o' & Ho' & Hm). specialize (Hq o' Ho'). destruct o'; try done.
      cbn in Hm. by subst. }
    destruct q; [exact Hl| | |exact Hl].
    + by destruct (Hq Panicked).
    + by destruct (Hq OutOfFuel).
  - by destruct (Hp Panicked).
  - by destruct (Hp OutOfFuel).
  - induction q as [b| | |Y e' k' IHq].
    + intros o Ho. cbn in Ho. destruct Ho as [x Ho]. apply leaf_bind in Ho as (o' & Ho' & Hm).
      assert (match o' with Done a => P a | _ => False end) as H by (apply Hp; by exists x). destruct o'; try done.
      cbn in Hm. subst. split; [done|]. by apply (Hq (Done b)).
    + by destruct (Hq Panicked).
    + by destruct (Hq OutOfFuel).
    + intros o Ho. cbn in Ho. destruct Ho as [[] [x Ho]].
      * apply (IHp x (Vis e' k')); [intros o' Ho'; apply Hp; by exists x|exact Hq|exact Ho].
      * apply (IHq x); [|exact Ho]. intros o' Ho'. apply Hq. by exists x.
Qed.

Lemma silent_par {T A B} (obs : forall X, agentE X -> X -> T -> T) pick (p : prog agentE A) (q : prog agentE B) :
  silent (fun _ _ _ => True) (gpost obs) pick ->
  silent_prog (fun _ _ _ => True) (gpost obs) p -> silent_prog (fun _ _ _ => True) (gpost obs) q ->
  silent_prog (fun _ _ _ => True) (gpost obs) (par pick p q).
Proof.
  intros Hpick. revert q. induction p as [a| | |X e k IHp]; intros q Hp Hq.
  - assert (silent_prog (fun _ _ _ => True) (gpost obs) (bind q (fun b => Ret (a, b)))) as H.
    { clear -Hq. induction q; cbn in *; try done. destruct Hq. split; auto. }
    by destruct q.
  - by destruct q.
  - by destruct q.
  - induction q as [b| | |Y e' k' IHq]; try done.
    + cbn. destruct Hp as [He Hk]. split; [done|]. intros x. specialize (Hk x). clear -Hk.
      induction (k x); cbn in *; try done. destruct Hk. split; auto.
    + cbn. split; [done|]. destruct Hp as [He Hk], Hq as [He' Hk']. intros []; cbn; (split; [done|]).
      * intros x. by apply IHp.
      * intros y. by apply IHq.
Qed.

Lemma silent_copy {T} (obs : forall X, agentE X -> X -> T -> T) fuel st N buf :
  (forall st x t, obs _ (GPipeRead st) x t = t) ->
  silent_prog (fun _ _ _ => True) (gpost obs) (copyLimited fuel st N buf).
Proof.
  intros Hobs. revert N buf. induction fuel as [|fuel IH]; intros N buf; cbn; destruct (N <=? 0); cbn; try done.
  split; [split; [done|]; intros s x s' ->; apply Hobs|]. intros [chunk|e]; [|done]. by destruct (is_empty _).
Qed.

(** ** Commands *)

(** What happens to processes. *)
Inductive procEvent :=
| Started (argv env : list string) (pid : Z)
| GroupKilled (pid : Z).

Definition proc_obs (X : Type) (e : agentE X) : X -> list procEvent -> list procEvent :=
  match e in agentE X return X -> list procEvent -> list procEvent with
  | GStart argv _ env => fun r t => match r with Ok pid => t ++ [Started argv env pid] | Err _ => t end
  | GKillGroup pid => fun _ t => t ++ [GroupKilled pid]
  | _ => fun _ t => t
  end.

(** The outputs stay within the limit.  A command that timed out was started
    and its process group killed; otherwise nothing was killed, and nothing
    was started when the reply has an error and no output. *)
Definition exec_result (req : ExecRequest) (o : outcome (ExecResponse * option error)) (t : list procEvent) : Prop :=
  match o with
  | Done (r, err) =>
      len (xs_Stdout r) <= maxOut req /\ len (xs_Stderr r) <= maxOut req /\
      if xs_TimedOut r then
        xs_ExitCode r = 124 /\ err = None
        /\ exists argv env pid, normalizeArgv req = Ok argv /\ t = [Started argv (env ++ xq_Env req) pid; GroupKilled pid]
      else
        (t = [] /\ exists code e, (r, err) = execFailed code e /\ (code = 2 <-> is_ok (normalizeArgv req) = false))
        \/ exists argv env pid, normalizeArgv req = Ok argv /\ t = [Started argv (env ++ xq_Env req) pid]
  | _ => False
  end.

Lemma maxOut_pos req : 0 < maxOut req.
Proof. unfold maxOut. destruct (Z.leb_spec (xq_MaxOutputBytes req) 0); lia. Qed.

Lemma normalizeArgv_nonempty req : normalizeArgv req <> Ok [].
Proof. unfold normalizeArgv. by repeat case_match. Qed.

Lemma copies_leaves fuel st1 st2 N :
  N <= Z.of_nat fuel -> 0 <= N ->
  leaves (par GPick (copyLimited fuel st1 N EmptyString) (copyLimited fuel st2 N EmptyString))
    (fun o => match o with Done (a, b) => len a <= N /\ len b <= N | _ => False end).
Proof.
  intros HN H0. apply (leaves_par _ _ _ (fun a => len a <= N) (fun b => len b <= N)).
  all: intros o Ho; apply leaves_copyLimited in Ho; [|done].
  all: destruct o; try done; cbn [copied] in Ho; unfold len in *; cbn [String.length] in *; lia.
Qed.

Lemma awp_execFailed code e req t :
  t = [] -> (code = 2 <-> is_ok (normalizeArgv req) = false) ->
  awp proc_obs (Ret (execFailed code e)) (exec_result req) t.
Proof.
  intros -> Hc. apply awp_ret. pose proof (maxOut_pos req). cbn. change (len EmptyString) with 0.
  split_and!; [lia|lia|]. left. split; [done|]. by exists code, e.
Qed.

(** *** The three goroutines of a started command *)

Lemma awp_awaitCommand pid timeout (Q : outcome (bool * option error) -> list procEvent -> Prop) t :
  (forall err, Q (Done (false, err)) t) -> Q (Done (true, None)) (t ++ [GroupKilled pid]) ->
  awp proc_obs (awaitCommand pid timeout) Q t.
Proof.
  intros H1 H2. unfold awaitCommand, killProcessGroup. repeat awp_step; cbn [proc_obs abindQ]; auto.
Qed.

Lemma awp_wait_and_copy pid timeout N fuel Q t :
  N <= Z.of_nat fuel -> 0 <= N ->
  (forall err a b, len a <= N -> len b <= N -> Q (Done ((false, err), (a, b))) t) ->
  (forall a b, len a <= N -> len b <= N -> Q (Done ((true, None), (a, b))) (t ++ [GroupKilled pid])) ->
  awp proc_obs (par GPick (awaitCommand pid timeout)
    (par GPick (copyLimited fuel Stdout N EmptyString) (copyLimited fuel Stderr N EmptyString))) Q t.
Proof.
  intros HN H0 H1 H2. pose proof (copies_leaves fuel Stdout Stderr N HN H0) as Hl.
  set (q := par GPick (copyLimited fuel Stdout N EmptyString) _) in *.
  assert (silent (fun _ _ _ => True) (gpost proc_obs) GPick) as Hpick by (split; [done|]; by intros s x s' ->).
  apply wp_par; [done| | | |].
  - apply silent_par; [done| |]; by apply silent_copy.
  - intros s' Hp. by destruct (Hl Panicked Hp).
  - intros s' Hp. by destruct (Hl OutOfFuel Hp).
  - apply awp_awaitCommand; [intros err|].
    all: split_and!; [|intros Hp; by destruct (Hl Panicked Hp)|intros Hp; by destruct (Hl OutOfFuel Hp)].
    all: intros [a b] Hab; destruct (Hl (Done (a, b)) Hab); auto.
Qed.

Lemma awp_runExec req : awp proc_obs (runExec req) (exec_result req) [].
Proof.
  pose proof (maxOut_pos req) as Hpos. unfold runExec. cbv zeta.
  destruct (normalizeArgv req) as [argv|e] eqn:Ha; [|by apply awp_execFailed; rewrite ?Ha].
  destruct argv as [|a0 args]; [by destruct (normalizeArgv_nonempty req)|].
  assert (forall code, code <> 2 -> code = 2 <-> is_ok (normalizeArgv req) = false) as Hcode by (rewrite Ha; cbn; split; congruence).
  apply awp_ask. intros environ. cbn [proc_obs].
  apply awp_ask. intros [e|]; cbn [proc_obs]; [apply awp_execFailed; auto; by apply Hcode|].
  apply awp_ask. intros [e|]; cbn [proc_obs]; [apply awp_execFailed; auto; by apply Hcode|].
  apply awp_ask. intros [pid|e]; cbn [proc_obs app]; [|apply awp_execFailed; auto; by apply Hcode].
  apply awp_bind, awp_wait_and_copy; [lia|lia| |]; [intros err out er Ho He|intros out er Ho He]; cbn [abindQ].
  - destruct (exitOf false err) as [code werr]. apply awp_ret. cbn [exec_result xs_Stdout xs_Stderr xs_TimedOut].
    split_and!; [done|done|]. right. by exists (a0 :: args), environ, pid.
  - cbn [exitOf app]. apply awp_ret. cbn [exec_result xs_Stdout xs_Stderr xs_TimedOut xs_ExitCode].
    split_and!; [done|done|done|done|]. by exists (a0 :: args), environ, pid.
Qed.

(** ** Requests *)

(** The reply to a request has the payload of its kind. *)
Definition answers (req : Request) (o : outcome Response) (t : list procEvent) : Prop :=
  exists resp, o = Done resp /\
  if bool_decide (rq_Type req = "ping"%string) then
    exists now, resp = MkResponse true EmptyString (Some (MkPingResponse agentVersion now)) None None
  else if bool_decide (rq_Type req = "exec"%string) then
    match rq_Exec req with
    | Some x =>
        exists r err, exec_result x (Done (r, err)) t
          /\ resp = MkResponse (bool_decide (err = None)) (errString err) None (Some r) None
    | None => resp = MkResponse false "missing exec payload" None None None
    end
  else if bool_decide (rq_Type req = "net"%string) then
    match rq_Net req with
    | Some _ => rs_Net resp = Some (MkNetResponse (rs_OK resp)) /\ rs_Exec resp = None
    | None => resp = MkResponse false "missing net payload" None None None
    end
  else rs_OK resp = false /\ rs_Exec resp = None /\ rs_Net resp = None.

Lemma awp_configureNetwork {T} (obs : forall X, agentE X -> X -> T -> T) n (I : T -> Prop) t :
  (forall t X (e : agentE X) x, I t -> I (obs X e x t)) -> I t ->
  awp obs (configureNetwork n) (fun o t => match o with Done _ => I t | _ => False end) t.
Proof.
  intros HI Ht. unfold configureNetwork. repeat awp_step; auto 10.
  apply (awp_forRange obs I); [| |auto 10].
  - intros existing t1 Ht1. repeat awp_step; auto.
  - intros t1 Ht1. repeat awp_step; cbn [abindQ]; repeat awp_step; auto 10.
Qed.

Lemma awp_handle req : awp proc_obs (handle req) (answers req) [].
Proof.
  unfold handle, answers. cbv zeta.
  destruct (bool_decide (rq_Type req = "ping"%string)); [repeat awp_step; eauto|].
  destruct (bool_decide (rq_Type req = "exec"%string)).
  - destruct (rq_Exec req) as [x|]; [|apply awp_ret; eauto].
    apply awp_bind. eapply awp_mono; [apply awp_runExec|].
    intros [[r err]| | |] t H; try done. cbn [abindQ]. apply awp_ret. eauto 10.
  - destruct (bool_decide (rq_Type req = "net"%string)); [|apply awp_ret; eauto 10].
    destruct (rq_Net req) as [n|]; [|apply awp_ret; eauto].
    apply awp_bind. eapply awp_mono; [by apply (awp_configureNetwork proc_obs n (fun _ => True))|].
    intros [[e|]| | |] t H; try done; cbn [abindQ]; apply awp_ret; eauto.
Qed.

(** C12. Every request is answered, whatever the guest kernel and the commands
    do: no panic and no endless loop.  A ping has its payload; an exec has an
    ExecResponse whose two outputs are at most the limit of the request, whose
    code is 124 exactly when it timed out and then the process group that was
    started has been killed, and no other kill is ever sent; a net has a
    NetResponse that agrees with OK; anything else is refused. *)
Theorem handle_answers {W} (g : guest W) (req : Request) (w : W) :
  let '(o, (_, t)) := env_watched proc_obs g (handle req) w [] in answers req o t.
Proof. apply (awp_watched proc_obs g), awp_handle. Qed.

(** ** A connection *)

(** [g] with a connection whose unread bytes are [i] and whose written bytes
    are [o]; the peer has closed its side. *)
Definition connected {W} (g : guest W) (X : Type) (e : agentE X) (s : W * string * string) : X * (W * string * string) :=
  let '(w, i, o) := s in
  match e in agentE X return X * (W * string * string) with
  | GReadFull n =>
      match stream_step _ (SReadFull n) i with
      | Some (r, i') => (r, (w, i', o))
      | None => (Err (errorf []), s)
      end
  | GWrite b => (None, (w, i, o +:+ b))
  | e => let '(x, w') := g _ e w in (x, (w', i, o))
  end.

(** Abstractly, a connection is a list of requests served one after the other;
    it ends early when a reply is too large for a frame. *)
Inductive served {W} (g : guest W) : list Request -> W -> list Response -> W -> Prop :=
| served_end w : served g [] w [] w
| served_reply rq rqs w rs w1 rss w2 :
    env_run g (handle rq) w = (Done rs, w1) -> len (raw_of rs) <= MaxMessageBytes ->
    served g rqs w1 rss w2 -> served g (rq :: rqs) w (rs :: rss) w2
| served_too_large rq rqs w rs w1 :
    env_run g (handle rq) w = (Done rs, w1) -> MaxMessageBytes < len (raw_of rs) ->
    served g (rq :: rqs) w [] w1.

Definition off_line (X : Type) (e : agentE X) (_ : unit) : Prop :=
  match e with GReadFull _ | GWrite _ => False | _ => True end.

Definition offline {A} (p : prog agentE A) : Prop := wp off_line (fun _ _ _ _ _ => True) p (fun _ _ => True) tt.

Lemma connected_offline {W A} (g : guest W) (p : prog agentE A) w i o :
  offline p ->
  env_run (connected g) p (w, i, o) = (fst (env_run g p w), (snd (env_run g p w), i, o)).
Proof.
  unfold env_run. revert w. induction p as [a| | |X e k IH]; intros w Hp; try done.
  destruct Hp as [He Hk]. cbn [run].
  assert (connected g X e (w, i, o) = let '(x, w') := g X e w in (x, (w', i, o))) as -> by (by destruct e).
  destruct (g X e w) as [x w']. apply IH. by apply Hk.
Qed.

(** *** handle does not use the connection *)

Lemma offline_ret {A} (a : A) : offline (Ret a).
Proof. done. Qed.

Lemma offline_ask {X A} (e : agentE X) (k : X -> prog agentE A) :
  off_line X e tt -> (forall x, offline (k x)) -> offline (bind (ask e) k).
Proof. intros He Hk. split; [done|]. intros x [] _. apply Hk. Qed.

Lemma offline_bind {A B} (p : prog agentE A) (f : A -> prog agentE B) :
  offline p -> (forall a, offline (f a)) -> offline (bind p f).
Proof. intros Hp Hf. apply wp_bind. eapply wp_mono; [|exact Hp]. intros [] [] _; cbn; auto. apply Hf. Qed.

Lemma offline_forRange {A R} (l : list A) (body : A -> prog agentE (option R)) rest :
  (forall x, offline (body x)) -> offline rest -> offline (forRange l body rest).
Proof.
  intros Hb Hr. induction l as [|x l IH]; [done|]. cbn [forRange]. apply offline_bind; [done|]. by intros [].
Qed.

Lemma offline_par {A B} (p : prog agentE A) (q : prog agentE B) : offline p -> offline q -> offline (par GPick p q).
Proof.
  revert q. induction p as [a| | |X e k IHp]; intros q Hp Hq.
  - assert (offline (bind q (fun b => Ret (a, b)))) by (by apply offline_bind). by destruct q.
  - by destruct q.
  - by destruct q.
  - induction q as [b| | |Y e' k' IHq]; try done.
    + apply (offline_bind (Vis e k)); [done|]. done.
    + cbn. split; [done|]. destruct Hp as [He Hk], Hq as [He' Hk']. intros [] [] _; (split; [done|]); intros x [] _.
      * apply IHp; [by apply Hk|by split].
      * apply IHq. by apply Hk'.
Qed.

Lemma offline_copy fuel st N buf : offline (copyLimited fuel st N buf).
Proof.
  revert N buf. induction fuel as [|fuel IH]; intros N buf; cbn; destruct (N <=? 0); try done.
  apply offline_ask; [done|]. intros [chunk|e]; [|done]. destruct (is_empty _); [done|apply IH].
Qed.

Ltac offline_step :=
  cbv beta iota zeta;
  lazymatch goal with
  | |- offline (Ret _) => apply offline_ret
  | |- offline (bind (ask _) _) => apply offline_ask; [exact I|intros ?]
  | |- offline (bind (match ?x with _ => _ end) _) => destruct x
  | |- offline (bind _ _) => apply offline_bind; [|intros ?]
  | |- offline (forRange _ _ _) => apply offline_forRange; [intros ?|]
  | |- offline (par _ _ _) => apply offline_par
  | |- offline (copyLimited _ _ _ _) => apply offline_copy
  | |- offline (ask _) => split; [exact I|done]
  | |- offline (match ?x with _ => _ end) => destruct x
  | |- offline Panic => exact I
  end.

Lemma offline_handle req : offline (handle req).
Proof.
  unfold handle, runExec, configureNetwork, awaitCommand, killProcessGroup. repeat offline_step.
Qed.

(** *** The framing over the connection is the framing over a byte stream *)

Lemma connected_read {W T} (g : guest W) (dec : bool -> json -> T -> option T) z w i o :
  env_run (connected g) (ReadMessage (fun n => ask (GReadFull n)) dec z) (w, i, o)
  = let '(r, i') := run stream_step (ReadMessage sread dec z) i in (r, (w, i', o)).
Proof.
  assert (forall n i, exists r i', stream_step _ (SReadFull n) i = Some (r, i')) as Hs.
  { intros n j. unfold stream_step. repeat case_match; eauto. }
  unfold ReadMessage, env_run. cbn [bind ask sread trigger run connected].
  destruct (Hs 4%nat i) as (r & i1 & E1). rewrite E1. destruct r as [hdr|e]; [|done].
  destruct ((Uint32 hdr =? 0) || (Uint32 hdr >? MaxMessageBytes)); [done|]. cbn [bind run connected].
  destruct (Hs (Z.to_nat (Uint32 hdr)) i1) as (r & i2 & E2). rewrite E2. destruct r as [buf|e]; [|done].
  by destruct (decodeJSON dec z buf).
Qed.

Lemma connected_write {W} (g : guest W) raw w i o :
  env_run (connected g) (WriteMessage (fun b => ask (GWrite b)) raw) (w, i, o)
  = let '(r, o') := run stream_step (WriteMessage swrite raw) o in (r, (w, i, o')).
Proof. unfold WriteMessage, env_run. by destruct (len raw >? MaxMessageBytes). Qed.

Lemma run_defer {E : Type -> Type} {W A} (h : forall X, E X -> W -> option (X * W)) (p : prog E A) d w :
  run h (defer p d) w =
  match run h p w with
  | (Done a, w') => run h (d ;;; Ret a) w'
  | (Panicked, w') => run h (d ;;; Panic) w'
  | r => r
  end.
Proof.
  revert w. induction p as [a| | |X e k IH]; intros w; try done. cbn. by destruct (h X e w) as [[x w']|].
Qed.

Lemma handle_done {W} (g : guest W) req w : exists rs w', env_run g (handle req) w = (Done rs, w').
Proof.
  rewrite (env_watched_run proc_obs g (handle req) w []).
  pose proof (awp_watched proc_obs g _ _ w [] (awp_handle req)) as H.
  destruct (env_watched _ _ _ _ _) as [o [w' t]]. destruct H as (rs & -> & _). by exists rs, w'.
Qed.

(** One round, on a request that is there. *)
Lemma serveOne_run {W} (g : guest W) rq rs w w1 i o :
  sendable rq -> env_run g (handle rq) w = (Done rs, w1) ->
  env_run (connected g) serveOne (w, frame (raw_of rq) +:+ i, o)
  = if len (raw_of rs) >? MaxMessageBytes then (Done false, (w1, i, o))
    else (Done true, (w1, i, o +:+ frame (raw_of rs))).
Proof.
  intros Hs Hh. unfold serveOne. rewrite env_run_bind, connected_read.
  rewrite (read_run rq i Hs : run stream_step (ReadMessage sread dec_Request zero_Request) _ = _).
  rewrite env_run_bind, (connected_offline g _ _ _ _ (offline_handle rq)), Hh. cbn [fst snd].
  rewrite env_run_bind, connected_write. change (marshal (enc_Response rs)) with (raw_of rs).
  rewrite Z.gtb_ltb. destruct (Z.ltb_spec MaxMessageBytes (len (raw_of rs))) as [Hl|Hl].
  - unfold WriteMessage. rewrite Z.gtb_ltb. by destruct (Z.ltb_spec MaxMessageBytes (len (raw_of rs))); [|lia].
  - by rewrite write_run.
Qed.

(** The next read at the end of the stream. *)
Lemma serveOne_end {W} (g : guest W) w o :
  env_run (connected g) serveOne (w, EmptyString, o) = (Done false, (w, EmptyString, o)).
Proof. reflexivity. Qed.

Lemma serve_loop {W} (g : guest W) reqs w o :
  Forall sendable reqs ->
  exists rss w' rest,
    env_run (connected g)
      (loop (S (length reqs)) (fun _ : unit => let! again := serveOne in Ret (if again : bool then inl tt else inr tt)) tt)
      (w, String.concat EmptyString (map frame (map raw_of reqs)), o)
    = (Done tt, (w', rest, o +:+ String.concat EmptyString (map frame (map raw_of rss))))
    /\ served g reqs w rss w'.
Proof.
  intros Hs. revert w o. induction Hs as [|rq rqs Hrq Hrqs IH]; intros w o.
  - exists [], w, EmptyString. split; [|constructor]. cbn [loop length].
    rewrite env_run_bind, env_run_bind. cbn [map String.concat]. rewrite serveOne_end. cbn. by rewrite string_app_nil_r.
  - destruct (handle_done g rq w) as (rs & w1 & Hh). cbn [length]. cbn [loop].
    rewrite env_run_bind, env_run_bind, map_cons, concat_frames_cons, (serveOne_run g rq rs w w1) by done.
    rewrite Z.gtb_ltb. destruct (Z.ltb_spec MaxMessageBytes (len (raw_of rs))) as [Hl|Hl].
    + exists [], w1, (String.concat EmptyString (map frame (map raw_of rqs))).
      split; [cbn; by rewrite string_app_nil_r|by eapply served_too_large].
    + destruct (IH w1 (o +:+ frame (raw_of rs))) as (rss & w' & rest & Hrun & Hserved).
      exists (rs :: rss), w', rest. split; [|by eapply served_reply].
      rewrite (map_cons raw_of rs), concat_frames_cons. cbn [env_run run]. cbn [env_run run] in Hrun.
      rewrite string_app_assoc in Hrun. exact Hrun.
Qed.

(** C13. A connection is served as the abstract server does: given the frames
    of any requests and then the end of the stream, the agent handles each
    request once, in order, writes exactly the frames of the replies, in
    order, and closes the connection; a reply above 8 MiB ends it early. *)
Theorem serveConn_refines {W} (g : guest W) (reqs : list Request) (w : W) :
  Forall sendable reqs ->
  exists rss w' rest,
    env_run (connected g) (serveConn (S (length reqs)))
      (w, String.concat EmptyString (map frame (map raw_of reqs)), EmptyString)
    = (Done tt, (snd (g _ GClose w'), rest, String.concat EmptyString (map frame (map raw_of rss))))
    /\ served g reqs w rss w'.
Proof.
  intros Hs. destruct (serve_loop g reqs w EmptyString Hs) as (rss & w' & rest & Hrun & Hserved).
  exists rss, w', rest. split; [|done]. unfold serveConn. unfold env_run in *.
  rewrite run_defer, Hrun. cbn. by destruct (g _ GClose w').
Qed.

(** ** The network *)

Lemma env_run_ask {W X A} (g : guest W) (e : agentE X) (k : X -> prog agentE A) w :
  env_run g (bind (ask e) k) w = env_run g (k (fst (g _ e w))) (snd (g _ e w)).
Proof. unfold env_run. cbn. by destruct (g X e w). Qed.

(** What netlink and the kernel document: [index] numbers the links by name,
    [canon] is netlink.ParseAddr, [isV4] tells the IPv4 addresses it answers, and
    [addrs4 w l] are the IPv4 addresses of link [l], which nobody else changes.
    A deletion may take other addresses with it (those that are secondary to the
    deleted one). *)
Record netlink_laws {W} (g : guest W) (index : string -> Z) (canon : string -> option string) (isV4 : string -> bool)
    (addrs4 : W -> Z -> list string) : Prop := {
  nl_by_name n w l : fst (g _ (GLinkByName n) w) = Ok l -> l = index n;
  nl_parse a w p : fst (g _ (GParseAddr a) w) = Ok p -> canon a = Some p;
  nl_list l w xs : fst (g _ (GAddrList l FAMILY_V4) w) = Ok xs -> xs = addrs4 w l;
  nl_del l a w : fst (g _ (GAddrDel l a) w) = None ->
    forall x, x ∈ addrs4 (snd (g _ (GAddrDel l a) w)) l -> x ∈ addrs4 w l /\ x <> a;
  nl_add l a w : fst (g _ (GAddrAdd l a) w) = None ->
    addrs4 (snd (g _ (GAddrAdd l a) w)) l ≡ₚ if isV4 a then a :: addrs4 w l else addrs4 w l;
  nl_list_keeps l w : addrs4 (snd (g _ (GAddrList l FAMILY_V4) w)) l = addrs4 w l;
  nl_parse_keeps a w l : addrs4 (snd (g _ (GParseAddr a) w)) l = addrs4 w l;
  nl_route_keeps k gw w l : addrs4 (snd (g _ (GRouteReplace k gw) w)) l = addrs4 w l;
  nl_file_keeps p d w l : addrs4 (snd (g _ (GWriteFile p d) w)) l = addrs4 w l;
}.

Section network.
Context {W : Type} (g : guest W) (index : string -> Z) (canon : string -> option string) (isV4 : string -> bool) (addrs : W -> Z -> list string).
Context (laws : netlink_laws g index canon isV4 addrs).

(** The loop that removes the old addresses leaves none. *)
Lemma remove_all (link : Z) (msg : string -> error -> error) (rest : prog agentE (option error)) (Q : option error -> W -> Prop) l w :
  (forall x, x ∈ addrs w link -> x ∈ l) ->
  (forall w, addrs w link = [] -> let '(o, w') := env_run g rest w in forall r, o = Done r -> Q r w') ->
  (forall e w, Q (Some e) w) ->
  let '(o, w') := env_run g (forRange l (fun existing =>
      do! ask (GAddrDel link existing) catch err => Ret (Some (Some (msg existing err))) in Ret None) rest) w in
  forall r, o = Done r -> Q r w'.
Proof.
  intros Hl Hrest Herr. revert w Hl. induction l as [|a l IH]; intros w Hl; cbn [forRange].
  - apply Hrest. assert (forall xs : list string, (forall x, x ∈ xs -> x ∈ ([] : list string)) -> xs = []) as Hnil; [|by apply Hnil].
    intros [|x xs] H; [done|]. destruct (not_elem_of_nil x). apply H. left.
  - rewrite env_run_bind, env_run_ask. destruct (fst (g _ (GAddrDel link a) w)) as [e|] eqn:E.
    + cbn. intros r [= <-]. apply Herr.
    + cbn [env_run run]. apply IH. intros x Hx. apply (nl_del _ _ _ _ _ laws link a w E) in Hx as [Hx Hne].
      apply Hl in Hx. by apply elem_of_cons in Hx as [->|].
Qed.

Lemma configureNetwork_addrs req w :
  let '(o, w') := env_run g (configureNetwork req) w in
  o = Done None ->
  let iface := if is_empty (TrimSpace (nq_Interface req)) then "eth0"%string else TrimSpace (nq_Interface req) in
  exists p, canon (TrimSpace (nq_Address req)) = Some p /\ addrs w' (index iface) = (if isV4 p then [p] else [])
    /\ ParseIP_valid (TrimSpace (nq_Gateway req)) = true.
Proof.
  unfold configureNetwork. cbv zeta.
  set (iface := if is_empty (TrimSpace (nq_Interface req)) then "eth0"%string else TrimSpace (nq_Interface req)).
  set (addr := TrimSpace (nq_Address req)). set (gw := TrimSpace (nq_Gateway req)).
  destruct (is_empty addr || is_empty gw); [done|].
  destruct (ParseIP_valid gw) eqn:Hgw; [|done]. cbn [negb].
  rewrite env_run_ask. destruct (fst (g _ (GLinkByName iface) w)) as [link|e] eqn:Elink; [|done].
  apply (nl_by_name _ _ _ _ _ laws) in Elink as ->. set (link := index iface). set (w1 := snd (g _ (GLinkByName iface) w)).
  rewrite env_run_ask. destruct (fst (g _ (GLinkSetUp link) w1)) as [e|]; [done|]. set (w2 := snd (g _ (GLinkSetUp link) w1)).
  rewrite env_run_ask. destruct (fst (g _ (GAddrList link FAMILY_V4) w2)) as [xs|e] eqn:Elist; [|done].
  apply (nl_list _ _ _ _ _ laws) in Elist. set (w3 := snd (g _ (GAddrList link FAMILY_V4) w2)).
  pose proof (remove_all link (fun existing => wrapf [Lit "remove address "; Quoted existing; Lit " on "; Quoted iface])) as Hrem.
  match goal with |- context [forRange xs ?b ?rest] =>
    specialize (Hrem rest (fun r w => r = None -> exists p, canon addr = Some p /\ addrs w link = (if isV4 p then [p] else []) /\ true = true) xs w3) end.
  destruct (env_run _ (forRange _ _ _) _) as [o w'] eqn:E. intros ->. refine (Hrem _ _ _ None eq_refl eq_refl); [| |done].
  - intros x. unfold w3. by rewrite (nl_list_keeps _ _ _ _ _ laws), <- Elist.
  - clear -laws. intros w Hnil. rewrite env_run_ask. destruct (fst (g _ (GParseAddr addr) w)) as [p|e] eqn:Ep; [|by intros r [= <-]].
    apply (nl_parse _ _ _ _ _ laws) in Ep. set (w1 := snd (g _ (GParseAddr addr) w)).
    rewrite env_run_ask. destruct (fst (g _ (GAddrAdd link p) w1)) as [e|] eqn:Eadd; [by intros r [= <-]|].
    apply (nl_add _ _ _ _ _ laws) in Eadd. set (w2 := snd (g _ (GAddrAdd link p) w1)) in *.
    assert (addrs w2 link = if isV4 p then [p] else []) as H2.
    { unfold w1 in Eadd. rewrite (nl_parse_keeps _ _ _ _ _ laws), Hnil in Eadd. destruct (isV4 p).
      - by apply Permutation_singleton_r in Eadd.
      - by apply Permutation_nil_r in Eadd. }
    rewrite env_run_ask. destruct (fst (g _ (GRouteReplace link gw) w2)) as [e|]; [by intros r [= <-]|].
    set (w3 := snd (g _ (GRouteReplace link gw) w2)).
    assert (addrs w3 link = if isV4 p then [p] else []) as H3 by (unfold w3; by rewrite (nl_route_keeps _ _ _ _ _ laws)).
    destruct (is_empty (TrimSpace (nq_DNS req))); [cbn; intros r [= <-]; eauto|].
    rewrite env_run_bind, env_run_ask. cbn. intros r [= <-] _. exists p. split_and!; [done| |done].
    by rewrite (nl_file_keeps _ _ _ _ _ laws).
Qed.
End network.

(** C23. A successful network configuration leaves the interface with exactly
    one IPv4 address, the requested one (whatever the base image had), and the
    gateway was a valid IP address; if the requested address is not an IPv4
    one, with no IPv4 address; what is said of other families is nothing, the
    code lists IPv4 addresses only.  A request without address or gateway, or
    with an invalid gateway, is refused before the kernel is asked anything. *)
Theorem configureNetwork_sets_address {W} (g : guest W) index canon isV4 addrs req w :
  netlink_laws g index canon isV4 addrs ->
  let iface := if is_empty (TrimSpace (nq_Interface req)) then "eth0"%string else TrimSpace (nq_Interface req) in
  let addr := TrimSpace (nq_Address req) in
  let gw := TrimSpace (nq_Gateway req) in
  let '(o, w') := env_run g (configureNetwork req) w in
  (o = Done None -> exists p, canon addr = Some p /\ addrs w' (index iface) = (if isV4 p then [p] else []) /\ ParseIP_valid gw = true)
  /\ (is_empty addr || is_empty gw || negb (ParseIP_valid gw) = true -> w' = w /\ exists e, o = Done (Some e)).
Proof.
  intros laws. cbv zeta. pose proof (configureNetwork_addrs g index canon isV4 addrs laws req w) as H. cbv zeta in H.
  destruct (env_run g (configureNetwork req) w) as [o w'] eqn:E. split; [exact H|]. intros Hbad.
  unfold configureNetwork in E. cbv zeta in E.
  destruct (is_empty (TrimSpace (nq_Address req)) || is_empty (TrimSpace (nq_Gateway req))).
  { injection E as <- <-. eauto. }
  cbn [orb] in Hbad. rewrite Hbad in E. injection E as <- <-. eauto.
Qed.

(** ** Witnesses *)

(** The text of an address with a colon is an IPv6 one. *)
Definition noColon (a : string) : bool := str_forall (fun c => negb (Ascii.eqb c ":")) a.

Definition of_family (f : family) (a : string) : bool :=
  match f with FAMILY_ALL => true | FAMILY_V4 => noColon a | FAMILY_V6 => negb (noColon a) end.

(** A guest whose commands write [snd w] and exit with 0, and whose only link
    has the addresses [fst w]. *)
Definition small_guest (X : Type) (e : agentE X) (w : list string * string) : X * (list string * string) :=
  match e in agentE X return X * (list string * string) with
  | GEnviron => (["PATH=/bin"%string], w)
  | GPipe _ => (None, w)
  | GStart _ _ _ => (Ok 100, w)
  | GPipeRead Stdout => (Ok (snd w), (fst w, EmptyString))
  | GPipeRead Stderr => (Ok EmptyString, w)
  | GWait _ => (Some None, w)
  | GAwait => (None, w)
  | GKillGroup _ | GKill _ => (None, w)
  | GPick => (true, w)
  | GNow => (1709210096000000000, w)
  | GLinkByName n => (if bool_decide (n = "eth0"%string) then Ok 2 else Err (errorf []), w)
  | GLinkSetUp _ => (None, w)
  | GAddrList l f => (Ok (if l =? 2 then filter (fun a => of_family f a = true) (fst w) else []), w)
  | GAddrDel l a => (None, if l =? 2 then (filter (fun x => x <> a) (fst w), snd w) else w)
  | GParseAddr a => (Ok a, w)
  | GAddrAdd l a => if l =? 2 then (None, (fst w ++ [a], snd w)) else (Some (errorf []), w)
  | GRouteReplace _ _ => (None, w)
  | GWriteFile _ _ => (None, w)
  | GReadFull _ => (Err (errorf []), w)
  | GWrite _ => (None, w)
  | GClose => (None, w)
  | GListen _ | GAccept => (None, w)
  | GGoServe => (tt, w)
  end.

Lemma small_guest_laws :
  netlink_laws small_guest (fun _ => 2) Some noColon (fun w l => if l =? 2 then filter (fun a => noColon a = true) (fst w) else []).
Proof.
  split; cbn; try done.
  - intros n w l. case_bool_decide; congruence.
  - congruence.
  - congruence.
  - intros l a w _ x. destruct (l =? 2); cbn; [rewrite !list_elem_of_filter; tauto|by intros ?%elem_of_nil].
  - intros l a w. destruct (l =? 2); cbn; [|done]. intros _. rewrite filter_app, filter_cons. destruct (noColon a); cbn.
    + by rewrite Permutation_app_comm.
    + by rewrite app_nil_r.
Qed.

(** The interface has an IPv6 address, too. *)
Lemma configureNetwork_sets_address_witness :
  let req := MkNetRequest " eth0 " "172.16.1.2/24" "172.16.1.1" EmptyString in
  let '(o, w') := env_run small_guest (configureNetwork req) (["10.0.0.1/8"; "fe80::1/64"; "10.0.0.2/8"]%string, EmptyString) in
  o = Done None /\ fst w' = ["fe80::1/64"; "172.16.1.2/24"]%string /\
  ((o = Done None -> exists p, Some (TrimSpace (nq_Address req)) = Some p
      /\ filter (fun a => noColon a = true) (fst w') = (if noColon p then [p] else [])
      /\ ParseIP_valid (TrimSpace (nq_Gateway req)) = true)
   /\ (is_empty (TrimSpace (nq_Address req)) || is_empty (TrimSpace (nq_Gateway req)) || negb (ParseIP_valid (TrimSpace (nq_Gateway req))) = true ->
        w' = (["10.0.0.1/8"; "fe80::1/64"; "10.0.0.2/8"]%string, EmptyString) /\ exists e, o = Done (Some e))).
Proof.
  cbv zeta. pose proof (configureNetwork_sets_address small_guest (fun _ => 2) Some noColon _
    (MkNetRequest " eth0 " "172.16.1.2/24" "172.16.1.1" EmptyString)
    (["10.0.0.1/8"; "fe80::1/64"; "10.0.0.2/8"]%string, EmptyString) small_guest_laws) as H. cbv zeta in H.
  destruct (env_run small_guest _ _) as [o w'] eqn:E. split; [|split; [|exact H]].
  - apply (f_equal fst) in E. cbn [fst] in E. subst o. vm_compute. reflexivity.
  - apply (f_equal snd) in E. cbn [snd] in E. subst w'. vm_compute. reflexivity.
Defined.

(** Two requests on one connection: a ping and a command. *)
Definition two_requests : list Request :=
  [MkRequest "ping" None None; MkRequest "exec" (Some (MkExecRequest true "echo hi" [] EmptyString [] 0 64)) None].

Lemma two_requests_sendable : Forall sendable two_requests.
Proof.
  repeat constructor; try (by vm_compute); try (unfold is_int64; simpl; lia).
Qed.

Lemma serveConn_refines_witness :
  Forall sendable two_requests /\
  exists rss w' rest,
    env_run (connected small_guest) (serveConn 3)
      ([], "hi"%string, String.concat EmptyString (map frame (map raw_of two_requests)), EmptyString)
    = (Done tt, (w', rest, String.concat EmptyString (map frame (map raw_of rss))))
    /\ served small_guest two_requests ([], "hi"%string) rss w'.
Proof.
  split; [exact two_requests_sendable|].
  destruct (serveConn_refines small_guest two_requests ([], "hi"%string) two_requests_sendable) as (rss & w' & rest & H & Hs).
  exists rss, w', rest. split; [exact H|exact Hs].
Defined.
