(* ===== verification/AgentClient.v ===== *)
(** * cmd/server/agent.go: the host side of the agent protocol

    A connection is the descriptor of its socket.  [ac.mu] is not modelled:
    a connection is used by the function that dialled it, or by an exec that
    holds the sandbox's [agentMu]. *)

From S2P Require Export Host AgentRPC.

(** agentrpc.ReadLine on the reader of connection [c]. *)
Definition ReadLine (c timeout : Z) : prog sysE (result string) :=
  let timeout := if timeout <=? 0 then 5 * second else timeout in
  let! res := sys (ConnReadLine c timeout) in
  match res with
  | Some r => Ret r
  | None => Ret (Err (errorf [Lit "agentrpc: timed out reading line after "; DurText timeout]))
  end.

Definition dialAgent (udsPath : string) (port timeout : Z) : prog sysE (result agentConn) :=
  if is_empty (TrimSpace udsPath) then Ret (Err (errorf [Lit "agent uds path is empty"]))
  else if (port <=? 0) || (port >? 65535) then
    Ret (Err (errorf [Lit "invalid agent port: "; Lit (itoa port)]))
  else
    let timeout := if timeout <=? 0 then 2 * second else timeout in
    try! c := sys (DialUnix udsPath timeout) catch err => Ret (Err err) in
    let! now := sys Now in
    sys (ConnSetDeadline c (Some (now + timeout))) ;;;
    do! sys (ConnWrite c ("CONNECT " +:+ itoa port +:+ NL)) catch err =>
      sys (ConnClose c) ;;; Ret (Err err) in
    try! line := ReadLine c timeout catch err =>
      sys (ConnClose c) ;;; Ret (Err err) in
    if negb (HasPrefix line "OK ") && negb (bool_decide (TrimSpace line = "OK"%string)) then
      sys (ConnClose c) ;;;
      Ret (Err (errorf [Lit "vsock CONNECT failed: "; Quoted (TrimSpace line)]))
    else
      sys (ConnSetDeadline c None) ;;;
      Ret (Ok c).

(** agentConn.Close, on a pointer that is not nil. *)
Definition Close (ac : agentConn) : prog sysE (option error) := sys (ConnClose ac).

Definition Call (ac : agentConn) (req : Request) (timeout : Z) : prog sysE (result Response) :=
  let timeout := if timeout <=? 0 then 20 * second else timeout in
  let! now := sys Now in
  sys (ConnSetDeadline ac (Some (now + timeout))) ;;;
  defer (
    do! WriteMessage (fun b => sys (ConnWrite ac b)) (marshal (enc_Request req)) catch err => Ret (Err err) in
    try! resp := ReadMessage (fun n => sys (ConnReadFull ac n)) dec_Response zero_Response catch err =>
      Ret (Err err) in
    if rs_OK resp then Ret (Ok resp)
    else if negb (is_empty (TrimSpace (rs_Error resp))) then Ret (Err (errorf [Lit (rs_Error resp)]))
    else Ret (Err (errorf [Lit "agent returned ok=false"])))
  (sys (ConnSetDeadline ac None)).

Definition pingRequest : Request := MkRequest "ping" None None.

Definition waitForAgentReady (udsPath : string) (port timeout dialTimeout : Z) : prog sysE (result agentConn) :=
  let! start := sys Now in
  let deadline := start + timeout in
  let step := 10 * millisecond in
  loop (polls timeout step) (fun lastErr : option error =>
    let! now := sys Now in
    if now <? deadline then
      let! r := dialAgent udsPath port dialTimeout in
      match r with
      | Ok ac =>
          let! p := Call ac pingRequest (2 * second) in
          match p with
          | Ok _ => Ret (inr (Ok ac))
          | Err perr =>
              Close ac ;;;
              sys (Sleep step) ;;; Ret (inl (Some perr))
          end
      | Err err => sys (Sleep step) ;;; Ret (inl (Some err))
      end
    else
      match lastErr with
      | Some e => Ret (inr (Err (wrapf [Lit "agent not ready after "; DurText timeout] e)))
      | None => Ret (inr (Err (errorf [Lit "agent not ready after "; DurText timeout])))
      end) None.
