(* ===== verification/Firecracker.v ===== *)
(** * firecracker_api.go, and the waits and retries of snapshot.go around it *)

From S2P Require Export Host.

(** A client is the path of the API socket and the timeout of its calls. *)
Definition fcClient : Type := string * Z.

Definition newFCClient (socketPath : string) (timeout : Z) : fcClient :=
  (socketPath, if timeout <=? 0 then 5 * second else timeout).

Definition doJSON (c : fcClient) (method path : string) (payload : json) : prog sysE (option error) :=
  try! resp := sys (HttpDo c.1 c.2 method path (marshal payload)) catch err => Ret (Some err) in
  let '(status, raw) := resp in
  if (status <? 200) || (status >=? 300) then
    let msg := TrimSpace raw in
    if is_empty msg then
      Ret (Some (errorf [Lit "firecracker "; Lit method; Lit " "; Lit path; Lit ": status "; Lit (itoa status)]))
    else
      Ret (Some (errorf [Lit "firecracker "; Lit method; Lit " "; Lit path; Lit ": status "; Lit (itoa status);
        Lit " body="; Quoted msg]))
  else Ret None.

(** The keys of a Go map are encoded in order. *)
Definition pauseVM (c : fcClient) : prog sysE (option error) :=
  doJSON c "PATCH" "/vm" (JObj [("state", JStr "Paused")]).

Definition resumeVM (c : fcClient) : prog sysE (option error) :=
  doJSON c "PATCH" "/vm" (JObj [("state", JStr "Resumed")]).

Definition createFullSnapshot (c : fcClient) (statePath memPath : string) : prog sysE (option error) :=
  doJSON c "PUT" "/snapshot/create"
    (JObj [("mem_file_path", JStr memPath); ("snapshot_path", JStr statePath); ("snapshot_type", JStr "Full")]).

Definition loadSnapshot (c : fcClient) (statePath memPath : string) (resume : bool) : prog sysE (option error) :=
  doJSON c "PUT" "/snapshot/load"
    (JObj [("mem_backend", JObj [("backend_path", JStr memPath); ("backend_type", JStr "File")]);
           ("resume_vm", JBool resume); ("snapshot_path", JStr statePath)]).

(** ** snapshot.go *)

Definition isTransientUnixSocketErr (err : error) : bool :=
  if errorsIs err ENOENT || errorsIs err ECONNREFUSED then true
  else
    let msg := ToLower (Error err) in
    Contains msg "connect: no such file or directory" || Contains msg "connect: connection refused".

Definition waitForUnixSocketReady (socketPath : string) (timeout : Z) : prog sysE (option error) :=
  if is_empty (TrimSpace socketPath) then Ret (Some (errorf [Lit "socket path is empty"]))
  else
    let timeout := if timeout <=? 0 then 1500 * millisecond else timeout in
    let! start := sys Now in
    let deadline := start + timeout in
    let step := 2 * millisecond in
    loop (polls timeout step) (fun lastErr : option error =>
      let! now := sys Now in
      if now <? deadline then
        let! serr := sys (OsStat socketPath) in
        match serr with
        | Some err => sys (Sleep step) ;;; Ret (inl (Some err))
        | None =>
            let! r := sys (DialUnix socketPath (50 * millisecond)) in
            match r with
            | Ok c => sys (ConnClose c) ;;; Ret (inr None)
            | Err err => sys (Sleep step) ;;; Ret (inl (Some err))
            end
        end
      else
        match lastErr with
        | Some e => Ret (inr (Some (wrapf [Quoted socketPath; Lit " not ready after "; DurText timeout] e)))
        | None => Ret (inr (Some (errorf [Quoted socketPath; Lit " not ready after "; DurText timeout])))
        end) None.

Definition loadSnapshotWithRetry (c : fcClient) (statePath memPath : string) (resume : bool) (timeout : Z)
    : prog sysE (option error) :=
  let timeout := if timeout <=? 0 then 1500 * millisecond else timeout in
  let! start := sys Now in
  let deadline := start + timeout in
  let step := 20 * millisecond in
  loop (polls timeout step) (fun _ : unit =>
    let! err := loadSnapshot c statePath memPath resume in
    match err with
    | None => Ret (inr None)
    | Some e =>
        if negb (isTransientUnixSocketErr e) then Ret (inr (Some e))
        else
          let! now := sys Now in
          if now >? deadline then Ret (inr (Some e))
          else sys (Sleep step) ;;; Ret (inl tt)
    end) tt.
