(* ===== verification/Snapshot.v ===== *)
(** * vm_config.go and snapshot.go: the golden snapshot *)

From S2P Require Export AgentClient Firecracker.

(** ** vm_config.go *)

Definition guestMACOf (subnet : Z) : string :=
  "06:00:AC:10:" +:+ fmt02X (Z.land (Z.shiftr subnet 8) 0xFF) +:+ ":" +:+ fmt02X (Z.land subnet 0xFF).

Definition vmConfig (cfg : config) (tapDevice rootfsPath : string) (subnet : Z) (vsockPath : string) (guestCID : Z) : json :=
  JObj [
    ("boot-source", JObj [("kernel_image_path", JStr (cfg_KernelPath cfg)); ("boot_args", JStr (cfg_BootArgs cfg))]);
    ("drives", JArr [JObj [("drive_id", JStr "rootfs"); ("path_on_host", JStr rootfsPath);
                           ("is_root_device", JBool true); ("is_read_only", JBool false)]]);
    ("machine-config", JObj [("vcpu_count", jint (cfg_DefaultVCPU cfg)); ("mem_size_mib", jint (cfg_DefaultMemMiB cfg))]);
    ("network-interfaces", JArr [JObj [("iface_id", JStr "eth0"); ("guest_mac", JStr (guestMACOf subnet));
                                       ("host_dev_name", JStr tapDevice)]]);
    ("vsock", JObj [("guest_cid", jint guestCID); ("uds_path", JStr vsockPath)]) ].

Definition writeVMConfig (configPath : string) (cfg : config) (tapDevice rootfsPath : string) (subnet : Z)
    (vsockPath : string) (guestCID : Z) : prog sysE (option error) :=
  sys (OsWriteFile configPath (marshal_indent (vmConfig cfg tapDevice rootfsPath subnet vsockPath guestCID) +:+ NL)).

(** ** snapshot.go *)

Definition snapshotLayout (workDir : string) : snapshotPaths :=
  let dir := Join [workDir; "snapshot"] in
  let base := Join [dir; "base"] in
  MkSnapshotPaths dir base (Join [base; "rootfs.ext4"]) (Join [dir; "state.snap"]) (Join [dir; "mem.snap"])
    (Join [dir; "meta.json"]).

Section snapshot.
Context (cfg : config).

Definition reflinkRequired : bool := bool_decide (cfg_RootfsCloneMode cfg = "reflink-required"%string).

Definition materializeSandboxRootfs (srcPath dstPath : string) : prog sysE (option error) :=
  let reflinkMode := if reflinkRequired then "--reflink=always"%string else "--reflink=auto"%string in
  let! (_, _, err) := runCmd "cp" [reflinkMode; srcPath; dstPath] in
  match err with
  | Some e =>
      if reflinkRequired
      then Ret (Some (MkError (err_text e ++ [Lit "; reflink-required mode prevents full-copy fallback"]) (err_chain e)))
      else Ret (Some e)
  | None => Ret None
  end.

Definition errUnmarshal : error := errorf [Lit "json: cannot unmarshal"].

(** What validateSnapshotMeta decides of the decoded metadata. *)
Definition checkSnapshotMeta (meta : snapshotMeta) : option error :=
  if negb (sm_Version meta =? 1) then
    Some (errorf [Lit "unsupported snapshot meta version "; Lit (itoa (sm_Version meta))])
  else if is_empty (TrimSpace (cfg_BaseRootfsLineageID cfg)) then None
  else if is_empty (TrimSpace (sm_LineageID meta)) then Some (errorf [Lit "snapshot meta missing lineage id"])
  else if negb (bool_decide (sm_LineageID meta = cfg_BaseRootfsLineageID cfg)) then
    Some (errorf [Lit "snapshot lineage mismatch (meta="; Lit (sm_LineageID meta); Lit " current=";
      Lit (cfg_BaseRootfsLineageID cfg); Lit ")"])
  else None.

Definition validateSnapshotMeta (sp : snapshotPaths) : prog sysE (option error) :=
  try! raw := sys (OsReadFile (sp_MetaFile sp)) catch err => Ret (Some (wrapf [Lit "read snapshot meta"] err)) in
  match Unmarshal dec_snapshotMeta zero_snapshotMeta raw with
  | None => Ret (Some (wrapf [Lit "decode snapshot meta"] errUnmarshal))
  | Some meta => Ret (checkSnapshotMeta meta)
  end.

Definition writeSnapshotMeta (sp : snapshotPaths) : prog sysE (option error) :=
  let! now := sys Now in
  let meta := MkSnapshotMeta 1 (cfg_BaseRootfsLineageID cfg) (cfg_BaseRootfsPath cfg) (FormatRFC3339Nano now) in
  let raw := marshal_indent (enc_snapshotMeta meta) +:+ NL in
  let tmp := sp_MetaFile sp +:+ ".tmp" in
  do! sys (OsWriteFile tmp raw) catch err => Ret (Some (wrapf [Lit "write snapshot meta"] err)) in
  do! sys (OsRename tmp (sp_MetaFile sp)) catch err => Ret (Some (wrapf [Lit "persist snapshot meta"] err)) in
  Ret None.

Definition resetSnapshotDir (sp : snapshotPaths) : prog sysE (option error) :=
  do! sys (OsRemoveAll (sp_Dir sp)) catch err => Ret (Some (wrapf [Lit "remove old snapshot dir"] err)) in
  do! sys (OsMkdirAll (sp_BaseDir sp)) catch err => Ret (Some (wrapf [Lit "recreate snapshot dir"] err)) in
  Ret None.

(** Kill and reap the golden VM. *)
Definition killAndWait (pid : Z) : prog sysE unit :=
  killProcessGroup (Some pid) ;;; sys (ReapProcess pid).

(** Lines 119 to 151: from the running golden VM to the files. *)
Definition takeGoldenSnapshot (sp : snapshotPaths) (pid : Z) : prog sysE (result snapshotPaths) :=
  let vsockPath := Join [sp_BaseDir sp; "vsock.sock"] in
  try! ac := waitForAgentReady vsockPath (cfg_AgentPort cfg) (cfg_AgentWaitTimeout cfg) (cfg_AgentDialTimeout cfg) catch err =>
    Ret (Err (wrapf [Lit "wait for snapshot agent"] err)) in
  Close ac ;;;
  let apiSock := Join [sp_BaseDir sp; "firecracker.sock"] in
  let fc := newFCClient apiSock (5 * second) in
  do! pauseVM fc catch err => Ret (Err (wrapf [Lit "pause snapshot vm"] err)) in
  sys (OsRemove (sp_StateFile sp)) ;;;
  sys (OsRemove (sp_MemFile sp)) ;;;
  do! createFullSnapshot fc (sp_StateFile sp) (sp_MemFile sp) catch err =>
    Ret (Err (wrapf [Lit "create snapshot"] err)) in
  killAndWait pid ;;;
  do! writeSnapshotMeta sp catch err => Ret (Err err) in
  Ret (Ok sp).

(** Lines 65 to 151: boot the golden VM and snapshot it. *)
Definition buildSnapshot (sp : snapshotPaths) : prog sysE (result snapshotPaths) :=
  do! sys (OsMkdirAll (sp_BaseDir sp)) catch err => Ret (Err (wrapf [Lit "create snapshot dir"] err)) in
  do! materializeSandboxRootfs (cfg_BaseRootfsPath cfg) (sp_BaseDisk sp) catch err =>
    Ret (Err (wrapf [Lit "copy base disk for snapshot"] err)) in
  let snapSubnet := 250 in
  try! nc := setupSandboxNetnsAndRouting "snapshot" snapSubnet catch err =>
    Ret (Err (wrapf [Lit "setup snapshot netns"] err)) in
  defer (
    let configPath := Join [sp_BaseDir sp; "vm-config.json"] in
    do! writeVMConfig configPath cfg (nc_TapName nc) "rootfs.ext4" snapSubnet "vsock.sock" 3 catch err =>
      Ret (Err (wrapf [Lit "write snapshot vm config"] err)) in
    sys (OsRemove (Join [sp_BaseDir sp; "firecracker.sock"])) ;;;
    sys (OsRemove (Join [sp_BaseDir sp; "vsock.sock"])) ;;;
    let logPath := Join [sp_BaseDir sp; "firecracker.log"] in
    do! sys (OsOpenTrunc logPath) catch err => Ret (Err (wrapf [Lit "open snapshot firecracker log"] err)) in
    defer (
      try! pid := sys (StartProcess "ip" ["netns"; "exec"; nc_NetnsName nc; cfg_FirecrackerBin cfg;
          "--api-sock"; "firecracker.sock"; "--config-file"; "vm-config.json"] (sp_BaseDir sp)) catch err =>
        Ret (Err (wrapf [Lit "start snapshot firecracker"] err)) in
      defer (takeGoldenSnapshot sp pid) (killAndWait pid))
    (sys (OsCloseFile logPath)))
  (cleanupSandboxNetnsAndRouting (Some nc) ;;; Ret tt).

Definition ensureSnapshot : prog sysE (result snapshotPaths) :=
  let sp := snapshotLayout (cfg_WorkDir cfg) in
  let! state := fileExists (sp_StateFile sp) in
  let! mem := if state : bool then fileExists (sp_MemFile sp) else Ret false in
  let! disk := if mem : bool then fileExists (sp_BaseDisk sp) else Ret false in
  if disk : bool then
    do! validateSnapshotMeta sp catch _err =>
      do! resetSnapshotDir sp catch err => Ret (Err err) in
      buildSnapshot sp
    in Ret (Ok sp)
  else buildSnapshot sp.
End snapshot.
