(* ===== verification/Sandbox.v ===== *)
(** * sandbox.go, restore.go and waitForExecDrain: the life of a sandbox

    The stage timings of restore.go, which are only logged, are left out. *)

From S2P Require Export Snapshot.

Definition destroyExecDrainTimeout : Z := 2 * second.

Definition prepareSandboxRuntimePaths (sbDir : string) : prog sysE (string * string * string) :=
  let socketPath := Join [sbDir; "firecracker.sock"] in
  let vsockPath := Join [sbDir; "vsock.sock"] in
  let logPath := Join [sbDir; "firecracker.log"] in
  sys (OsRemove socketPath) ;;;
  sys (OsRemove vsockPath) ;;;
  Ret (socketPath, vsockPath, logPath).

Definition openSandboxLog (logPath : string) : prog sysE (option error) :=
  do! sys (OsOpenTrunc logPath) catch err => Ret (Some (wrapf [Lit "open firecracker log file"] err)) in
  Ret None.

Section sandbox.
Context (cfg : config).

Definition prepareSandboxCgroup (id : string) : prog sysE string :=
  if negb (cfg_EnableCgroups cfg) then Ret EmptyString
  else
    let cg := Join [cfg_CgroupRoot cfg; id] in
    do! sys (OsMkdir cg) catch _err => Ret EmptyString in
    Ret cg.

Definition attachSandboxProcessToCgroup (cgroupPath : string) (pid : Z) : prog sysE string :=
  if is_empty cgroupPath then Ret EmptyString
  else
    do! movePidToCgroup cgroupPath pid catch _err =>
      sys (OsRemove cgroupPath) ;;; Ret EmptyString in
    Ret cgroupPath.

Definition netRequest (nc : netnsConfig) : Request :=
  MkRequest "net" None (Some (MkNetRequest "eth0" (nc_GuestIP nc +:+ "/30") (nc_HostIP nc) "1.1.1.1")).

Definition configureSandboxGuestNetwork (ac : agentConn) (nc : netnsConfig) : prog sysE (option error) :=
  try! _resp := Call ac (netRequest nc) (5 * second) catch err =>
    Ret (Some (wrapf [Lit "agent network config failed"] err)) in
  Ret None.

(** The two goroutines of a create, and what follows them when one failed. *)
Definition cloneAndAcquire (id src dst : string) (label : list piece) : prog sysE (result netnsConfig) :=
  let! (netnsRes, cloneErr) := par (Sys Pick) (acquireNetns id)
    (do! materializeSandboxRootfs cfg src dst catch err => Ret (Some (wrapf label err)) in Ret None) in
  match cloneErr, netnsRes with
  | None, Ok nc => Ret (Ok nc)
  | Some cerr, Ok nc => releaseNetns (Some nc) ;;; Ret (Err cerr)
  | Some cerr, Err _ => Ret (Err cerr)
  | None, Err nerr => Ret (Err nerr)
  end.

(** Kill a VM that failed to come up. *)
Definition abandonVM (pid : Z) (cgroupPath : string) : prog sysE unit :=
  killProcessGroup (Some pid) ;;; killCgroup cgroupPath ;;; Ret tt.

(** restore.go, lines 110 to 196: from the slot to the sandbox.  The result
    comes with the variables [cleanupDir] and [cleanupNet]. *)
Definition restoreIntoNetns (id sbDir rootfsCopy stateFile memFile : string) (nc : netnsConfig)
    : prog sysE (result loc * bool * bool) :=
  let fail e := Ret (Err e, true, true) in
  let! (socketPath, vsockPath, logPath) := prepareSandboxRuntimePaths sbDir in
  do! openSandboxLog logPath catch err => fail err in
  let! cgroupPath := prepareSandboxCgroup id in
  try! pid := sys (StartProcess "ip" ["netns"; "exec"; nc_NetnsName nc; cfg_FirecrackerBin cfg;
      "--api-sock"; "firecracker.sock"] sbDir) catch err =>
    sys (OsCloseFile logPath) ;;; fail (wrapf [Lit "start firecracker"] err) in
  do! waitForUnixSocketReady socketPath (1500 * millisecond) catch err =>
    abandonVM pid cgroupPath ;;; sys (OsCloseFile logPath) ;;;
    fail (wrapf [Lit "firecracker api socket not ready"] err) in
  let! cgroupPath := attachSandboxProcessToCgroup cgroupPath pid in
  let fc := newFCClient socketPath (10 * second) in
  do! loadSnapshotWithRetry fc stateFile memFile true (1500 * millisecond) catch err =>
    abandonVM pid cgroupPath ;;; sys (OsCloseFile logPath) ;;;
    fail (wrapf [Lit "load snapshot"] err) in
  try! ac := waitForAgentReady vsockPath (cfg_AgentPort cfg) (cfg_AgentWaitTimeout cfg) (cfg_AgentDialTimeout cfg) catch err =>
    abandonVM pid cgroupPath ;;; sys (OsCloseFile logPath) ;;;
    fail (wrapf [Lit "wait for agent after snapshot"] err) in
  do! configureSandboxGuestNetwork ac nc catch err =>
    Close ac ;;; abandonVM pid cgroupPath ;;; sys (OsCloseFile logPath) ;;;
    fail err in
  sys (OsCloseFile logPath) ;;;
  let! l := memory (NewSandbox (MkSandbox id (nc_Subnet nc) (nc_TapName nc) (nc_HostIP nc) (nc_GuestIP nc) 3 (Some nc)
    sbDir socketPath vsockPath EmptyString rootfsCopy logPath cgroupPath (Some pid) None (Some ac) false
    sandboxStateRunning 0)) in
  Ret (Ok l, false, false).

Definition restoreSandboxFromArtifacts (id diskSrcPath stateFile memFile : string) (cloneErrLabel : list piece)
    (keepFailedSandboxDir : bool) : prog sysE (result loc) :=
  let sbDir := Join [cfg_WorkDir cfg; "sandboxes"; id] in
  do! sys (OsMkdirAll sbDir) catch err => Ret (Err (wrapf [Lit "create sandbox dir"] err)) in
  deferWith true (
    let rootfsCopy := Join [sbDir; "rootfs.ext4"] in
    try! nc := cloneAndAcquire id diskSrcPath rootfsCopy cloneErrLabel catch err => Ret (Err err, true) in
    deferWith true (restoreIntoNetns id sbDir rootfsCopy stateFile memFile nc)
      (fun cleanupNet => when cleanupNet (releaseNetns (Some nc))))
  (fun cleanupDir => when (cleanupDir && negb keepFailedSandboxDir) (sys (OsRemoveAll sbDir) ;;; Ret tt)).

Definition createSandboxFromSnapshot (id : string) : prog sysE (result loc) :=
  try! sp := ensureSnapshot cfg catch err => Ret (Err err) in
  restoreSandboxFromArtifacts id (sp_BaseDisk sp) (sp_StateFile sp) (sp_MemFile sp)
    [Lit "clone snapshot base disk"] (cfg_KeepFailedSandboxes cfg).

Definition createSandboxFromUserSnapshot (id : string) (meta : userSnapshotMeta) : prog sysE (result loc) :=
  forRange [um_StateFile meta; um_MemFile meta; um_DiskFile meta]
    (fun p =>
      let! ok := fileExists p in
      if ok : bool then Ret None
      else Ret (Some (Err (errorf [Lit "snapshot artifact missing: "; Lit p]))))
    (restoreSandboxFromArtifacts id (um_DiskFile meta) (um_StateFile meta) (um_MemFile meta)
      [Lit "clone user snapshot disk"] false).

(** sandbox.go, lines 74 to 145. *)
Definition bootIntoNetns (id sbDir rootfsCopy : string) (nc : netnsConfig) : prog sysE (result loc * bool * bool) :=
  let fail e := Ret (Err e, true, true) in
  let cid := uint32 (1000 + nc_Subnet nc) in
  let configPath := Join [sbDir; "vm-config.json"] in
  do! writeVMConfig configPath cfg (nc_TapName nc) "rootfs.ext4" (nc_Subnet nc) "vsock.sock" cid catch err =>
    fail (wrapf [Lit "write vm config"] err) in
  let! (socketPath, vsockPath, logPath) := prepareSandboxRuntimePaths sbDir in
  do! openSandboxLog logPath catch err => fail err in
  let! cgroupPath := prepareSandboxCgroup id in
  try! pid := sys (StartProcess "ip" ["netns"; "exec"; nc_NetnsName nc; cfg_FirecrackerBin cfg;
      "--api-sock"; "firecracker.sock"; "--config-file"; "vm-config.json"] sbDir) catch err =>
    sys (OsCloseFile logPath) ;;; fail (wrapf [Lit "start firecracker"] err) in
  let! cgroupPath := attachSandboxProcessToCgroup cgroupPath pid in
  try! ac := waitForAgentReady vsockPath (cfg_AgentPort cfg) (cfg_AgentWaitTimeout cfg) (cfg_AgentDialTimeout cfg) catch err =>
    abandonVM pid cgroupPath ;;; cleanupSandboxNetnsAndRouting (Some nc) ;;;
    sys (OsCloseFile logPath) ;;; Ret (Err (wrapf [Lit "wait for agent"] err), true, false) in
  do! configureSandboxGuestNetwork ac nc catch err =>
    Close ac ;;; abandonVM pid cgroupPath ;;; cleanupSandboxNetnsAndRouting (Some nc) ;;;
    sys (OsCloseFile logPath) ;;; Ret (Err err, true, false) in
  sys (OsCloseFile logPath) ;;;
  let! l := memory (NewSandbox (MkSandbox id (nc_Subnet nc) (nc_TapName nc) (nc_HostIP nc) (nc_GuestIP nc) cid (Some nc)
    sbDir socketPath vsockPath configPath rootfsCopy logPath cgroupPath (Some pid) None (Some ac) false
    sandboxStateRunning 0)) in
  Ret (Ok l, false, false).

Definition createSandbox (id : string) : prog sysE (result loc) :=
  if cfg_EnableSnapshots cfg then createSandboxFromSnapshot id
  else
    let sbDir := Join [cfg_WorkDir cfg; "sandboxes"; id] in
    do! sys (OsMkdirAll sbDir) catch err => Ret (Err (wrapf [Lit "create sandbox dir"] err)) in
    deferWith true (
      let rootfsCopy := Join [sbDir; "rootfs.ext4"] in
      try! nc := cloneAndAcquire id (cfg_BaseRootfsPath cfg) rootfsCopy [Lit "copy rootfs"] catch err => Ret (Err err, true) in
      deferWith true (bootIntoNetns id sbDir rootfsCopy nc)
        (fun cleanupNet => when cleanupNet (releaseNetns (Some nc))))
    (fun cleanupDir => when cleanupDir (sys (OsRemoveAll sbDir) ;;; Ret tt)).
End sandbox.

(** ** The end of a sandbox *)

Definition waitForExecDrain (l : loc) (timeout : Z) : prog sysE bool :=
  let! start := sys Now in
  let deadline := start + timeout in
  loop (polls timeout (10 * millisecond)) (fun _ : unit =>
    let! inFlight := memory (InFlightExec l) in
    if inFlight =? 0 then Ret (inr true)
    else
      let! now := sys Now in
      if now >? deadline then Ret (inr false)
      else sys (Sleep (10 * millisecond)) ;;; Ret (inl tt)) tt.

(** The agent connection is closed and forgotten, under [agentMu]. *)
Definition dropAgent (l : loc) : prog sysE unit :=
  memory (LockAgentMu l) ;;;
  let! sb := memory (LoadSandbox l) in
  match sb_Agent sb with
  | Some ac => Close ac ;;; memory (SetAgent l None)
  | None => Ret tt
  end ;;;
  memory (UnlockAgentMu l).

(** Kill the process group and wait up to 5 s for the exit. *)
Definition stopProcess (process : option Z) : prog sysE (list (list piece)) :=
  match process with
  | None => Ret []
  | Some pid =>
      killProcessGroup (Some pid) ;;;
      let! done := sys (WaitProcess pid (5 * second)) in
      match done with
      | None => Ret [[Lit "timed out waiting for firecracker process exit"]]
      | Some None => Ret []
      | Some (Some err) =>
          match asExitError err with
          | Some _ => Ret []
          | None => Ret (errEntry "wait firecracker: " (Some err))
          end
      end
  end.

Definition cleanupSandbox (l : loc) : prog sysE (option error) :=
  dropAgent l ;;;
  let! sb := memory (LoadSandbox l) in
  match sb_SSHClient sb with Some c => sys (SshCloseClient c) | None => Ret tt end ;;;
  let! cgErr := if is_empty (sb_CgroupPath sb) then Ret None else killCgroup (sb_CgroupPath sb) in
  let! procErrs := stopProcess (sb_Process sb) in
  (if is_empty (sb_CgroupPath sb) then Ret None else removeCgroupDir (sb_CgroupPath sb) (1500 * millisecond)) ;;;
  let! sb := memory (LoadSandbox l) in
  releaseNetns (sb_Netns sb) ;;;
  memory (SetNetns l None) ;;;
  let! dirErr := sys (OsRemoveAll (sb_Dir sb)) in
  Ret (joinErrs (errEntry "kill cgroup: " cgErr ++ procErrs ++ errEntry "remove sandbox dir: " dirErr)).

Definition destroyAll : prog sysE unit :=
  let! all := memory SandboxesSweep in
  forRange all (fun l =>
    let! first := memory (BeginDestroy l) in
    when first (
      let! drained := waitForExecDrain l destroyExecDrainTimeout in
      when (negb drained) (memory (InFlightExec l) ;;; Ret tt)) ;;;
    cleanupSandbox l ;;;
    memory (FinishDestroy l) ;;;
    Ret (@None unit)) (Ret tt).

(** main.go, after the shutdown of the HTTP server. *)
Definition shutdown : prog sysE unit :=
  let! enabled := memory PoolEnabled in
  when enabled Destroy ;;;
  destroyAll.
