(* ===== verification/Config.v ===== *)
(** * config.go, preflight.go, diagnostics.go: how the server starts *)

From S2P Require Export Snapshot Sha256 Duration.

(** ** config.go *)

Definition Getenv (name : string) : prog sysE string := sys (OsGetenv name).

Definition envOr (name fallback : string) : prog sysE string :=
  let! v := Getenv name in
  let v := TrimSpace v in
  Ret (if negb (is_empty v) then v else fallback).

(** strconv.Atoi *)
Definition intOr (name : string) (fallback : Z) : prog sysE Z :=
  let! v := Getenv name in
  let v := TrimSpace v in
  Ret (if negb (is_empty v) then default fallback (ParseInt v) else fallback).

Definition durationOr (name : string) (fallback : Z) : prog sysE Z :=
  let! v := Getenv name in
  let v := TrimSpace v in
  Ret (if negb (is_empty v) then default fallback (ParseDuration v) else fallback).

Definition detectDefaultInterface : prog sysE (result string) :=
  let! (out, _, err) := runCmd "sh" ["-c"%string; "ip route show default | awk '{print $5; exit}'"%string] in
  match err with
  | Some err => Ret (Err err)
  | None =>
      let iface := TrimSpace out in
      if is_empty iface then Ret (Err (errorf [Lit "no default route interface found"])) else Ret (Ok iface)
  end.

(** filepath.Abs *)
Definition Abs (path : string) : prog sysE (result string) :=
  if rooted path then Ret (Ok (Clean path))
  else
    try! wd := sys OsGetwd catch err => Ret (Err err) in
    Ret (Ok (Join [wd; path])).

(** snapshot.go *)
Definition computeFileSHA256 (path : string) : prog sysE (result string) :=
  try! f := sys (OsOpen path) catch err => Ret (Err (wrapf [Lit "open file for sha256 "; Quoted path] err)) in
  defer (
    try! data := sys (FileReadAll f) catch err => Ret (Err (wrapf [Lit "hash file "; Quoted path] err)) in
    Ret (Ok (hexSHA256 data)))
  (sys (FileClose f)).

(** The struct literal of loadConfig: the variables are read in this order. *)
Definition envConfig : prog sysE config :=
  let! listenAddr := envOr "MANTA_LISTEN_ADDR" ":8080" in
  let! kernelPath := envOr "MANTA_KERNEL_PATH" "./guest-artifacts/vmlinux" in
  let! baseRootfsPath := envOr "MANTA_ROOTFS_PATH" "./guest-artifacts/rootfs.ext4" in
  let! rootfsCloneMode := envOr "MANTA_ROOTFS_CLONE_MODE" "auto" in
  let! sshPrivateKey := envOr "MANTA_SSH_KEY_PATH" "./guest-artifacts/sandbox_key" in
  let! firecrackerBin := envOr "MANTA_FIRECRACKER_BIN" "firecracker" in
  let! workDir := envOr "MANTA_WORK_DIR" ".manta-work" in
  let! cgroupRoot := envOr "MANTA_CGROUP_ROOT" "/sys/fs/cgroup/manta" in
  let! enableCgroups := intOr "MANTA_ENABLE_CGROUPS" 1 in
  let! netnsPoolSize := intOr "MANTA_NETNS_POOL_SIZE" 64 in
  let! enableSnapshots := intOr "MANTA_ENABLE_SNAPSHOTS" 1 in
  let! keepFailed := intOr "MANTA_DEBUG_KEEP_FAILED_SANDBOX" 0 in
  let! stageTimings := intOr "MANTA_ENABLE_STAGE_TIMINGS" 0 in
  let! execTransport := envOr "MANTA_EXEC_TRANSPORT" "agent" in
  let! agentPort := intOr "MANTA_AGENT_PORT" DefaultPort in
  let! agentWaitTimeout := durationOr "MANTA_AGENT_WAIT_TIMEOUT" (30 * second) in
  let! agentDialTimeout := durationOr "MANTA_AGENT_DIAL_TIMEOUT" (250 * millisecond) in
  let! agentCallTimeout := durationOr "MANTA_AGENT_CALL_TIMEOUT" (20 * second) in
  let! agentMaxOutputB := intOr "MANTA_AGENT_MAX_OUTPUT_BYTES" (2 ^ 20) in
  let! sshWaitTimeout := durationOr "MANTA_SSH_WAIT_TIMEOUT" (30 * second) in
  let! sshDialTimeout := durationOr "MANTA_SSH_DIAL_TIMEOUT" (2 * second) in
  let! sshExecWait := durationOr "MANTA_SSH_EXEC_WAIT_TIMEOUT" (20 * second) in
  let! execTimeout := durationOr "MANTA_EXEC_TIMEOUT" (20 * second) in
  let! bootArgs := envOr "MANTA_BOOT_ARGS" "console=ttyS0 reboot=k panic=1 pci=off root=/dev/vda rw init=/sbin/init" in
  let! memMiB := intOr "MANTA_VM_MEM_MIB" 512 in
  let! vcpu := intOr "MANTA_VM_VCPU" 1 in
  Ret (MkConfig listenAddr kernelPath baseRootfsPath EmptyString (ToLower (TrimSpace rootfsCloneMode)) sshPrivateKey
    firecrackerBin EmptyString workDir cgroupRoot (negb (enableCgroups =? 0)) netnsPoolSize (negb (enableSnapshots =? 0))
    (negb (keepFailed =? 0)) (negb (stageTimings =? 0)) (ToLower (TrimSpace execTransport)) agentPort agentWaitTimeout
    agentDialTimeout agentCallTimeout agentMaxOutputB sshWaitTimeout sshDialTimeout sshExecWait execTimeout bootArgs memMiB vcpu).

(** Updates of the fields that are set after the literal. *)
Definition with_paths (kernel rootfs key work : string) (c : config) : config :=
  MkConfig (cfg_ListenAddr c) kernel rootfs (cfg_BaseRootfsLineageID c) (cfg_RootfsCloneMode c) key (cfg_FirecrackerBin c)
    (cfg_HostNATIface c) work (cfg_CgroupRoot c) (cfg_EnableCgroups c) (cfg_NetnsPoolSize c) (cfg_EnableSnapshots c)
    (cfg_KeepFailedSandboxes c) (cfg_EnableStageTimingLogs c) (cfg_ExecTransport c) (cfg_AgentPort c) (cfg_AgentWaitTimeout c)
    (cfg_AgentDialTimeout c) (cfg_AgentCallTimeout c) (cfg_AgentMaxOutputB c) (cfg_SSHWaitTimeout c) (cfg_SSHDialTimeout c)
    (cfg_SSHExecWait c) (cfg_ExecTimeout c) (cfg_BootArgs c) (cfg_DefaultMemMiB c) (cfg_DefaultVCPU c).

Definition with_lineage_iface (lineage iface : string) (c : config) : config :=
  MkConfig (cfg_ListenAddr c) (cfg_KernelPath c) (cfg_BaseRootfsPath c) lineage (cfg_RootfsCloneMode c) (cfg_SSHPrivateKey c)
    (cfg_FirecrackerBin c) iface (cfg_WorkDir c) (cfg_CgroupRoot c) (cfg_EnableCgroups c) (cfg_NetnsPoolSize c)
    (cfg_EnableSnapshots c) (cfg_KeepFailedSandboxes c) (cfg_EnableStageTimingLogs c) (cfg_ExecTransport c) (cfg_AgentPort c)
    (cfg_AgentWaitTimeout c) (cfg_AgentDialTimeout c) (cfg_AgentCallTimeout c) (cfg_AgentMaxOutputB c) (cfg_SSHWaitTimeout c)
    (cfg_SSHDialTimeout c) (cfg_SSHExecWait c) (cfg_ExecTimeout c) (cfg_BootArgs c) (cfg_DefaultMemMiB c) (cfg_DefaultVCPU c).

(** One round of the loop over the relative paths. *)
Definition resolvePath (p : string) : prog sysE (result string) :=
  try! abs := Abs p catch err => Ret (Err (wrapf [Lit "resolve path "; Quoted p] err)) in
  Ret (Ok abs).

Definition loadConfig : prog sysE (result config) :=
  let! cfg := envConfig in
  try! kernel := resolvePath (cfg_KernelPath cfg) catch err => Ret (Err err) in
  try! rootfs := resolvePath (cfg_BaseRootfsPath cfg) catch err => Ret (Err err) in
  try! key := resolvePath (cfg_SSHPrivateKey cfg) catch err => Ret (Err err) in
  try! work := resolvePath (cfg_WorkDir cfg) catch err => Ret (Err err) in
  let cfg := with_paths kernel rootfs key work cfg in
  try! lineage :=
    (if cfg_EnableSnapshots cfg then
       try! lineage := computeFileSHA256 (cfg_BaseRootfsPath cfg) catch err =>
         Ret (Err (wrapf [Lit "compute base rootfs lineage"] err)) in
       Ret (Ok lineage)
     else Ret (Ok EmptyString)) catch err => Ret (Err err) in
  if negb (bool_decide (cfg_RootfsCloneMode cfg ∈ ["auto"; "reflink-required"]%string)) then
    Ret (Err (errorf [Lit "invalid MANTA_ROOTFS_CLONE_MODE "; Quoted (cfg_RootfsCloneMode cfg);
      Lit " (expected auto or reflink-required)"]))
  else
    let! host := Getenv "MANTA_HOST_IFACE" in
    let iface := TrimSpace host in
    if is_empty iface then
      try! iface := detectDefaultInterface catch err =>
        Ret (Err (wrapf [Lit "detect default host interface"] err)) in
      Ret (Ok (with_lineage_iface lineage iface cfg))
    else Ret (Ok (with_lineage_iface lineage iface cfg)).

(** ** preflight.go *)

Definition ensurePreflight (cfg : config) : prog sysE (option error) :=
  do! sys (LookPath (cfg_FirecrackerBin cfg)) catch err =>
    Ret (Some (wrapf [Lit "firecracker binary not found"] err)) in
  forRange [cfg_KernelPath cfg; cfg_BaseRootfsPath cfg; cfg_SSHPrivateKey cfg] (fun p =>
    do! sys (OsStat p) catch err =>
      Ret (Some (Some (MkError ([Lit "required file "; Quoted p; Lit " missing: "] ++ err_text err) (err_chain err)))) in
    Ret None)
  (do! sys (OsStat "/dev/kvm") catch err => Ret (Some (wrapf [Lit "/dev/kvm unavailable"] err)) in
   do! sys (OsMkdirAll (Join [cfg_WorkDir cfg; "sandboxes"%string])) catch err =>
     Ret (Some (wrapf [Lit "create work dir"] err)) in
   let! (_, _, err) := runCmd "sysctl" ["-w"%string; "net.ipv4.ip_forward=1"%string] in
   match err with
   | Some err => Ret (Some (wrapf [Lit "enable ip_forward"] err))
   | None =>
       do! ensureGlobalMasquerade (cfg_HostNATIface cfg) catch err =>
         Ret (Some (wrapf [Lit "ensure global MASQUERADE"] err)) in
       (if cfg_EnableCgroups cfg then
          let! err := ensureCgroupRoot (cfg_CgroupRoot cfg) in
          match err with Some _ => Ret tt | None => scavengeCgroups (cfg_CgroupRoot cfg) end
        else Ret tt) ;;;
       if cfg_EnableSnapshots cfg then
         try! _sp := ensureSnapshot cfg catch err => Ret (Some (wrapf [Lit "ensure snapshot"] err)) in
         Ret None
       else Ret None
   end).

(** ** diagnostics.go: what it prints is left out *)

Definition probeReflinkSupport (workDir : string) : prog sysE (result bool) :=
  let probeDir := Join [workDir; ".reflink-probe"%string] in
  do! sys (OsMkdirAll probeDir) catch err => Ret (Err (wrapf [Lit "create probe dir"] err)) in
  defer (
    let src := Join [probeDir; "src"%string] in
    let dst := Join [probeDir; "dst"%string] in
    do! sys (OsWriteFile src ("probe" +:+ NL)) catch err => Ret (Err (wrapf [Lit "write probe src"] err)) in
    let! (_, _, err) := runCmd "cp" ["--reflink=always"%string; src; dst] in
    Ret (Ok (match err with Some _ => false | None => true end)))
  (sys (OsRemoveAll probeDir) ;;; Ret tt).

Definition logStartupDiagnostics (cfg : config) : prog sysE unit :=
  probeReflinkSupport (cfg_WorkDir cfg) ;;; Ret tt.

(** ** main.go, up to the HTTP server *)

(** Before the server exists: the configuration, or the status of the exit
    that log.Fatalf makes. *)
Definition startup : prog sysE (result config) :=
  let! euid := sys OsGeteuid in
  if negb (euid =? 0) then Ret (Err (errorf [Lit "this server must run as root (try: sudo go run ./cmd/server)"]))
  else
    try! cfg := loadConfig catch err => Ret (Err (wrapf [Lit "load config"] err)) in
    do! ensurePreflight cfg catch err => Ret (Err (wrapf [Lit "preflight failed"] err)) in
    logStartupDiagnostics cfg ;;;
    Ret (Ok cfg).

(** The server that main allocates. *)
Definition newServer (cfg : config) : server :=
  MkServer 0 0 0 ∅ [] (if cfg_NetnsPoolSize cfg >? 0 then Some (newNetnsPool (Z.to_nat (cfg_NetnsPoolSize cfg))) else None).

Definition prepare (cfg : config) : prog sysE (option error) :=
  do! ensureGlobalMasquerade (cfg_HostNATIface cfg) catch err =>
    Ret (Some (wrapf [Lit "ensure global MASQUERADE"] err)) in
  if cfg_NetnsPoolSize cfg >? 0 then
    do! Init (Z.to_nat (cfg_NetnsPoolSize cfg)) catch err => Ret (Some (wrapf [Lit "init netns pool"] err)) in
    Ret None
  else Ret None.

(** The start as a whole: [Ok] when the server begins to listen. *)
Definition start {W} (eh : env W) (w : W) : outcome (result (config * server)) * W :=
  match exec eh startup (MkServer 0 0 0 ∅ [] None) w with
  | (Done (Ok cfg), (_, w)) =>
      match exec eh (prepare cfg) (newServer cfg) w with
      | (Done None, (s, w)) => (Done (Ok (cfg, s)), w)
      | (Done (Some err), (_, w)) => (Done (Err err), w)
      | (Panicked, (_, w)) => (Panicked, w)
      | (OutOfFuel, (_, w)) => (OutOfFuel, w)
      | (Blocked, (_, w)) => (Blocked, w)
      end
  | (Done (Err err), (_, w)) => (Done (Err err), w)
  | (Panicked, (_, w)) => (Panicked, w)
  | (OutOfFuel, (_, w)) => (OutOfFuel, w)
  | (Blocked, (_, w)) => (Blocked, w)
  end.
