(* ===== verification/UserSnapshot.v ===== *)
(** * user_snapshot.go: snapshots of running sandboxes *)

From S2P Require Export Sandbox.

Definition is_alnum (c : ascii) : bool :=
  is_digit c || Json.between 65 90 c || Json.between 97 122 c.

Definition is_snapshot_char (c : ascii) : bool :=
  is_alnum c || Ascii.eqb c "." || Ascii.eqb c "_" || Ascii.eqb c "-".

(** snapshotIDPattern.MatchString, for ^[A-Za-z0-9][A-Za-z0-9._-]{0,127}$ *)
Definition snapshotIDPattern (s : string) : bool :=
  match s with
  | EmptyString => false
  | String c s => is_alnum c && str_forall is_snapshot_char s && (String.length s <=? 127)%nat
  end.

Definition normalizeSnapshotID (raw : string) : result string :=
  let id := TrimSpace raw in
  if is_empty id then Err (errorf [Lit "snapshot_id is required"])
  else if negb (snapshotIDPattern id) then Err (errorf [Lit "invalid snapshot_id"])
  else Ok id.

Definition userSnapshotsDir (workDir : string) : string := Join [workDir; "user-snapshots"].
Definition userSnapshotRootDir (workDir snapshotID : string) : string := Join [userSnapshotsDir workDir; snapshotID].
Definition userSnapshotMetaPath (workDir snapshotID : string) : string :=
  Join [userSnapshotRootDir workDir snapshotID; "meta.json"].

Section user_snapshot.
Context (cfg : config).

Definition writeUserSnapshotMeta (meta : userSnapshotMeta) : prog sysE (option error) :=
  let raw := marshal_indent (enc_userSnapshotMeta meta) +:+ NL in
  let metaPath := userSnapshotMetaPath (cfg_WorkDir cfg) (um_SnapshotID meta) in
  let tmp := metaPath +:+ ".tmp" in
  do! sys (OsWriteFile tmp raw) catch err => Ret (Some (wrapf [Lit "write snapshot meta"] err)) in
  do! sys (OsRename tmp metaPath) catch err => Ret (Some (wrapf [Lit "persist snapshot meta"] err)) in
  Ret None.

Definition with_SnapshotID (id : string) (m : userSnapshotMeta) : userSnapshotMeta :=
  MkUserSnapshotMeta id (um_Name m) (um_CreatedAt m) (um_StateFile m) (um_MemFile m) (um_DiskFile m)
    (um_LineageID m) (um_SourceSandboxID m) (um_SourceRootfsPath m).

Definition loadUserSnapshotMeta (snapshotID : string) : prog sysE (result userSnapshotMeta) :=
  match normalizeSnapshotID snapshotID with
  | Err err => Ret (Err err)
  | Ok snapshotID =>
      let metaPath := userSnapshotMetaPath (cfg_WorkDir cfg) snapshotID in
      try! raw := sys (OsReadFile metaPath) catch err => Ret (Err (wrapf [Lit "read snapshot metadata"] err)) in
      match Unmarshal dec_userSnapshotMeta zero_userSnapshotMeta raw with
      | None => Ret (Err (wrapf [Lit "decode snapshot metadata"] errUnmarshal))
      | Some meta =>
          Ret (Ok (if is_empty (TrimSpace (um_SnapshotID meta)) then with_SnapshotID snapshotID meta else meta))
      end
  end.

(** Lines 212 to 237; the second component is [resumeNeeded]. *)
Definition snapshotPausedVM (fc : fcClient) (sb : sandbox) (snapshotID name rootDir : string)
    : prog sysE (result userSnapshotMeta * bool) :=
  let stateFile := Join [rootDir; "state.snap"] in
  let memFile := Join [rootDir; "mem.snap"] in
  let diskFile := Join [rootDir; "disk.ext4"] in
  sys (OsRemove stateFile) ;;;
  sys (OsRemove memFile) ;;;
  sys (OsRemove diskFile) ;;;
  do! createFullSnapshot fc stateFile memFile catch err =>
    Ret (Err (wrapf [Lit "create user snapshot"] err), true) in
  do! materializeSandboxRootfs cfg (sb_RootfsPath sb) diskFile catch err =>
    Ret (Err (wrapf [Lit "persist snapshot disk"] err), true) in
  let! now := sys Now in
  let meta := MkUserSnapshotMeta snapshotID (TrimSpace name) (FormatRFC3339Nano now) stateFile memFile diskFile
    (cfg_BaseRootfsLineageID cfg) (sb_ID sb) (sb_RootfsPath sb) in
  do! writeUserSnapshotMeta meta catch err => Ret (Err err, true) in
  do! resumeVM fc catch err => Ret (Err (wrapf [Lit "resume vm after snapshot"] err), true) in
  Ret (Ok meta, false).

Definition createUserSnapshotFromSandbox (l : loc) (snapshotID name : string) : prog sysE (result userSnapshotMeta) :=
  dropAgent l ;;;
  let! sb := memory (LoadSandbox l) in
  let rootDir := userSnapshotRootDir (cfg_WorkDir cfg) snapshotID in
  do! sys (OsMkdirAll rootDir) catch err => Ret (Err (wrapf [Lit "create snapshot dir"] err)) in
  let fc := newFCClient (sb_SocketPath sb) (10 * second) in
  do! pauseVM fc catch err => Ret (Err (wrapf [Lit "pause vm"] err)) in
  deferWith true (snapshotPausedVM fc sb snapshotID name rootDir)
    (fun resumeNeeded => when resumeNeeded (resumeVM fc ;;; Ret tt)).

(** sort.Slice by descending CreatedAt, compared as text; equal texts, whose
    order sort.Slice leaves open, stay in the order of the directory. *)
Definition newer (a b : userSnapshotMeta) : bool := String.ltb (um_CreatedAt b) (um_CreatedAt a).

Fixpoint insert_newest (m : userSnapshotMeta) (l : list userSnapshotMeta) : list userSnapshotMeta :=
  match l with
  | [] => [m]
  | x :: xs => if newer x m then x :: insert_newest m xs else m :: l
  end.

Definition sortNewest (l : list userSnapshotMeta) : list userSnapshotMeta := foldr insert_newest [] l.

(** The loop of listUserSnapshots over the directory entries. *)
Fixpoint loadEntries (entries : list (string * bool)) : prog sysE (list userSnapshotMeta) :=
  match entries with
  | [] => Ret []
  | (name, isDir) :: entries =>
      if isDir : bool then
        let! r := loadUserSnapshotMeta name in
        let! out := loadEntries entries in
        Ret (match r with Ok meta => meta :: out | Err _ => out end)
      else loadEntries entries
  end.

Definition listUserSnapshots : prog sysE (result (list userSnapshotMeta)) :=
  let! r := sys (OsReadDir (userSnapshotsDir (cfg_WorkDir cfg))) in
  match r with
  | Err err =>
      if errorsIs err ENOENT then Ret (Ok [])
      else Ret (Err (wrapf [Lit "read snapshot directory"] err))
  | Ok entries =>
      let! out := loadEntries entries in
      Ret (Ok (sortNewest out))
  end.
End user_snapshot.
