(* ===== verification/PathFacts.v ===== *)
(** * Facts about paths: filepath.Clean and Join on absolute paths, and the
      names that the server makes them of *)

From S2P Require Export UserSnapshot.

(** ** Identifiers and paths *)

Definition no_slash (s : string) : bool := str_forall (fun c => negb (Ascii.eqb c "/")) s.

(** A path component that Clean keeps as it is. *)
Definition plain_name (s : string) : bool :=
  no_slash s && negb (is_empty s) && negb (s =? ".")%string && negb (s =? "..")%string.

Lemma split_join xs y :
  Forall (fun s => no_slash s = true) xs -> no_slash y = true ->
  split_slash (String.concat "/" (xs ++ [y])) = xs ++ [y].
Proof.
  intros Hxs Hy. induction xs as [|x xs IH]; [by apply split_on_last|].
  inversion Hxs as [|? ? Hx Hxs']. subst.
  assert (String.concat "/" ((x :: xs) ++ [y]) = x +:+ String "/" (String.concat "/" (xs ++ [y]))) as ->.
  { cbn. by destruct (xs ++ [y]) eqn:E; [by destruct xs|]. }
  unfold split_slash. rewrite split_on_app by exact Hx. fold split_slash. by rewrite IH.
Qed.

Lemma split_on_no_sep sep s : Forall (fun x => str_forall (fun c => negb (Ascii.eqb c sep)) x = true) (split_on sep s).
Proof.
  induction s as [|c s IH]; cbn; [by repeat constructor|]. destruct (Ascii.eqb c sep) eqn:E; [by constructor|].
  destruct (split_on sep s) as [|x xs]; inversion IH; subst; constructor; cbn; rewrite ?E; done.
Qed.

(** From the root, cleaning leaves plain names only. *)
Lemma clean_go_plain comps out :
  Forall (fun s => no_slash s = true) comps -> Forall (fun s => plain_name s = true) out ->
  Forall (fun s => plain_name s = true) (clean_go true out comps).
Proof.
  revert out. induction comps as [|x comps IH]; intros out Hc Ho; cbn [clean_go]; [by apply Forall_rev|].
  inversion Hc as [|? ? Hx Hc']. subst.
  destruct (x =? EmptyString)%string eqn:E1; [by apply IH|]. destruct (x =? ".")%string eqn:E2; [by apply IH|]. cbn [orb].
  destruct (x =? "..")%string eqn:E3.
  - destruct out as [|y ys]; [by apply IH|]. inversion Ho as [|? ? Hy Hys]. subst.
    unfold plain_name in Hy. destruct (y =? "..")%string; [by rewrite andb_false_r in Hy|]. by apply IH.
  - apply IH; [done|]. constructor; [|done]. unfold plain_name. rewrite Hx, E2, E3. by destruct x.
Qed.

Lemma clean_go_id xs out : Forall (fun s => plain_name s = true) xs -> clean_go true out xs = rev out ++ xs.
Proof.
  revert out. induction xs as [|x xs IH]; intros out Hx; cbn [clean_go]; [by rewrite app_nil_r|].
  inversion Hx as [|? ? Hx1 Hxs]. subst. unfold plain_name in Hx1.
  rewrite !andb_true_iff, !negb_true_iff in Hx1. destruct Hx1 as [[[_ He] Hd] Hdd].
  assert ((x =? EmptyString)%string = false) as -> by (by destruct x). rewrite Hd, Hdd. cbn [orb].
  rewrite IH by done. cbn. by rewrite <- app_assoc.
Qed.

Lemma plain_no_slash s : plain_name s = true -> no_slash s = true.
Proof. unfold plain_name. rewrite !andb_true_iff. tauto. Qed.

Lemma split_on_some sep a : split_on sep a <> [].
Proof. destruct a as [|c a]; cbn; [done|]. destruct (Ascii.eqb c sep); [done|]. by destruct (split_on sep a). Qed.

Lemma split_app_sep sep a b : split_on sep (a +:+ String sep b) = split_on sep a ++ split_on sep b.
Proof.
  induction a as [|c a IH]; autorewrite with manta; cbn [split_on]; [by rewrite Ascii.eqb_refl|].
  rewrite IH. destruct (Ascii.eqb c sep); [done|].
  pose proof (split_on_some sep a). by destruct (split_on sep a).
Qed.

(** A plain last component stays last. *)
Lemma clean_go_snoc root out comps s :
  plain_name s = true -> clean_go root out (comps ++ [s]) = clean_go root out comps ++ [s].
Proof.
  intros Hs. unfold plain_name in Hs. rewrite !andb_true_iff, !negb_true_iff in Hs. destruct Hs as [[[_ He] Hd] Hdd].
  assert ((s =? EmptyString)%string = false) as He' by (by destruct s).
  revert out. induction comps as [|x comps IH]; intros out; cbn [app clean_go]; [by rewrite He', Hd, Hdd|].
  repeat case_match; done || apply IH.
Qed.

Lemma concat_snoc cs s : cs <> [] -> String.concat "/" (cs ++ [s]) = String.concat "/" cs +:+ String "/" s.
Proof.
  induction cs as [|c [|c' cs] IH]; intros Hne; [done|done|].
  change (String.concat "/" ((c :: c' :: cs) ++ [s])) with (c +:+ String "/" (String.concat "/" ((c' :: cs) ++ [s]))).
  change (String.concat "/" (c :: c' :: cs)) with (c +:+ String "/" (String.concat "/" (c' :: cs))).
  rewrite IH by done. by rewrite string_app_assoc.
Qed.

Lemma rooted_slash x : rooted (String "/" x) = true.
Proof. exact (HasPrefix_app "/" x). Qed.

(** A plain name joined to a cleaned rooted path is its last component. *)
Lemma Join_plain dir s :
  rooted dir = true -> plain_name s = true -> clean_comps dir <> [] ->
  Join [Clean dir; s] = Clean dir +:+ "/" +:+ s.
Proof.
  intros Hr Hs Hne. set (cs := clean_comps dir) in *.
  assert (Forall (fun s => plain_name s = true) cs) as Hcs.
  { unfold cs, clean_comps. rewrite Hr. apply clean_go_plain; [apply split_on_no_sep|done]. }
  assert (Clean dir = "/" +:+ String.concat "/" cs) as Hd by (unfold Clean; by rewrite Hr).
  assert (is_empty s = false) as Hes.
  { unfold plain_name in Hs. rewrite !andb_true_iff, !negb_true_iff in Hs. tauto. }
  unfold Join. rewrite Hd.
  assert (filter (fun x => is_empty x = false) ["/" +:+ String.concat "/" cs; s] = ["/" +:+ String.concat "/" cs; s]) as ->.
  { rewrite filter_cons_True by done. by rewrite filter_cons_True by done. }
  assert (String.concat "/" ["/" +:+ String.concat "/" cs; s] = String "/" (String.concat "/" (cs ++ [s]))) as ->.
  { by rewrite concat_snoc by done. }
  unfold Clean at 1. rewrite !rooted_slash. unfold clean_comps at 1. rewrite rooted_slash.
  assert (forall x, split_slash (String "/" x) = EmptyString :: split_slash x) as -> by done.
  rewrite split_join by (by apply plain_no_slash || (by eapply Forall_impl; [exact Hcs|intros; apply plain_no_slash])). cbn [clean_go]. change ((EmptyString =? EmptyString)%string) with true.
  cbn [orb]. rewrite clean_go_id by (apply Forall_app; by split; [|constructor]). cbn [rev app].
  rewrite concat_snoc by done. by rewrite !string_app_assoc.
Qed.

Lemma Join_two a b : is_empty a = false -> is_empty b = false -> Join [a; b] = Clean (a +:+ "/" +:+ b).
Proof. intros Ha Hb. unfold Join. by rewrite !filter_cons_True by done. Qed.

Lemma rooted_app a b : rooted a = true -> rooted (a +:+ b) = true.
Proof. unfold rooted. intros [r ->]%HasPrefix_spec. apply HasPrefix_spec. exists (r +:+ b). by rewrite string_app_assoc. Qed.

(** Joining a name to a cleaned directory that is itself a join. *)
Lemma Join_under dir sub s :
  rooted dir = true -> plain_name sub = true -> plain_name s = true ->
  Join [Join [dir; sub]; s] = Join [dir; sub] +:+ "/" +:+ s.
Proof.
  intros Hr Hsub Hs.
  assert (is_empty dir = false) as Hd by (by destruct dir).
  assert (is_empty sub = false) as Hes.
  { unfold plain_name in Hsub. rewrite !andb_true_iff, !negb_true_iff in Hsub. tauto. }
  rewrite (Join_two dir sub) by done. apply Join_plain; [by apply rooted_app|done|].
  unfold clean_comps, split_slash. change ("/" +:+ sub) with (String "/" sub).
  rewrite split_app_sep, (split_on_last _ sub), clean_go_snoc by (done || by apply plain_no_slash).
  by destruct (clean_go _ _ _).
Qed.

(** ** normalizeSnapshotID *)

Lemma snapshotIDPattern_plain s : snapshotIDPattern s = true -> plain_name s = true.
Proof.
  unfold snapshotIDPattern. destruct s as [|c s]; [done|]. rewrite !andb_true_iff. intros [[Hc Hs] _].
  assert (forall c, is_snapshot_char c = true -> negb (Ascii.eqb c "/") = true) as Hch.
  { intros x Hx. destruct (Ascii.eqb_spec x "/") as [->|]; [by vm_compute in Hx|done]. }
  assert (is_snapshot_char c = true) as Hc' by (unfold is_snapshot_char; by rewrite Hc).
  unfold plain_name, no_slash. cbn [str_forall is_empty]. rewrite (Hch c Hc'), (str_forall_impl _ _ s Hch Hs). cbn [andb negb].
  assert (c <> "."%char) as Hdot by (intros ->; by vm_compute in Hc).
  rewrite andb_true_iff, !negb_true_iff. split; apply String.eqb_neq; congruence.
Qed.

Lemma normalizeSnapshotID_plain raw id : normalizeSnapshotID raw = Ok id -> plain_name id = true.
Proof.
  unfold normalizeSnapshotID. repeat case_match; intros; simplify_eq. apply snapshotIDPattern_plain. by apply negb_false_iff.
Qed.

(** ** Absolute paths as lists of names *)

Definition path_of (cs : list string) : string := "/" +:+ String.concat "/" cs.

Lemma rooted_path_of cs : rooted (path_of cs) = true.
Proof. apply rooted_slash. Qed.

Lemma Clean_path p : rooted p = true -> Clean p = path_of (clean_comps p).
Proof. intros H. unfold Clean. by rewrite H. Qed.

Lemma clean_comps_plain p : rooted p = true -> Forall (fun s => plain_name s = true) (clean_comps p).
Proof. intros H. unfold clean_comps. rewrite H. apply clean_go_plain; [apply split_on_no_sep|constructor]. Qed.

Lemma plain_not_empty s : plain_name s = true -> is_empty s = false.
Proof. unfold plain_name. rewrite !andb_true_iff, !negb_true_iff. tauto. Qed.

Lemma clean_go_plain_app root out comps cs :
  Forall (fun s => plain_name s = true) cs -> clean_go root out (comps ++ cs) = clean_go root out comps ++ cs.
Proof.
  revert comps. induction cs as [|c cs IH]; intros comps Hcs; [by rewrite !app_nil_r|]. inversion Hcs as [|? ? Hc Hcs']. subst.
  change (c :: cs) with ([c] ++ cs). by rewrite (app_assoc comps), IH, clean_go_snoc, app_assoc.
Qed.

Lemma split_concat cs :
  cs <> [] -> Forall (fun s => plain_name s = true) cs -> split_slash (String.concat "/" cs) = cs.
Proof.
  intros Hne Hcs. destruct (exists_last Hne) as (cs' & c & ->). apply Forall_app in Hcs as [Hcs' Hc].
  inversion Hc. subst. apply split_join; [|by apply plain_no_slash].
  eapply Forall_impl; [exact Hcs'|]. intros; by apply plain_no_slash.
Qed.

(** Joining plain names to an absolute path. *)
Lemma Join_names p cs :
  rooted p = true -> cs <> [] -> Forall (fun s => plain_name s = true) cs -> Join (p :: cs) = path_of (clean_comps p ++ cs).
Proof.
  intros Hp Hne Hcs. unfold Join.
  assert (filter (fun x => is_empty x = false) (p :: cs) = p :: cs) as ->.
  { rewrite filter_cons_True by (by destruct p). f_equal. clear Hne. induction Hcs as [|c cs Hc Hcs IH]; [done|].
    rewrite filter_cons_True by (by apply plain_not_empty). by rewrite IH. }
  assert (String.concat "/" (p :: cs) = p +:+ String "/" (String.concat "/" cs)) as -> by (by destruct cs).
  rewrite Clean_path by (by apply rooted_app). f_equal. unfold clean_comps. rewrite rooted_app, Hp by done.
  unfold split_slash. rewrite split_app_sep. fold split_slash. by rewrite split_concat, clean_go_plain_app.
Qed.

Lemma clean_comps_path_of cs : Forall (fun s => plain_name s = true) cs -> clean_comps (path_of cs) = cs.
Proof.
  intros Hcs. destruct cs as [|c cs]; [done|]. unfold clean_comps. rewrite rooted_path_of. unfold path_of.
  change ("/" +:+ String.concat "/" (c :: cs)) with (EmptyString +:+ String "/" (String.concat "/" (c :: cs))).
  unfold split_slash. rewrite split_app_sep. fold split_slash. rewrite split_concat by done. by rewrite clean_go_plain_app.
Qed.

Lemma Join_path_of cs n :
  Forall (fun s => plain_name s = true) cs -> plain_name n = true -> Join [path_of cs; n] = path_of (cs ++ [n]).
Proof.
  intros Hcs Hn. rewrite Join_names by (done || apply rooted_path_of || by repeat constructor). by rewrite clean_comps_path_of.
Qed.

Lemma path_of_snoc cs n : cs <> [] -> path_of (cs ++ [n]) = path_of cs +:+ "/" +:+ n.
Proof. intros Hcs. unfold path_of. by rewrite concat_snoc, string_app_assoc. Qed.

(** A suffix of the last name. *)
Lemma path_of_suffix cs n x : path_of (cs ++ [n]) +:+ x = path_of (cs ++ [n +:+ x]).
Proof.
  unfold path_of. rewrite string_app_assoc. f_equal. destruct cs as [|c cs]; [done|]. rewrite !concat_snoc by done.
  by rewrite string_app_assoc.
Qed.

Lemma userSnapshotMetaPath_names wd id :
  rooted wd = true -> plain_name id = true ->
  userSnapshotMetaPath wd id = path_of (clean_comps wd ++ ["user-snapshots"; id; "meta.json"]%string).
Proof.
  intros Hw Hid. pose proof (clean_comps_plain _ Hw) as Hp. unfold userSnapshotMetaPath, userSnapshotRootDir, userSnapshotsDir.
  rewrite (Join_names _ ["user-snapshots"%string]) by (done || by repeat constructor).
  rewrite !Join_path_of by (done || (repeat apply Forall_app_2; by repeat constructor)). by rewrite <- !app_assoc.
Qed.

(** ** Below a directory *)

Definition under (p q : string) : Prop := q = p \/ exists r, q = p +:+ "/" +:+ r.

Lemma split_path_of cs :
  cs <> [] -> Forall (fun s => plain_name s = true) cs -> split_slash (path_of cs) = EmptyString :: cs.
Proof.
  intros Hne Hcs. unfold path_of. change ("/" +:+ String.concat "/" cs) with (EmptyString +:+ String "/" (String.concat "/" cs)).
  unfold split_slash. rewrite split_app_sep. fold split_slash. by rewrite split_concat.
Qed.

Lemma under_names cs cs' :
  cs <> [] -> cs' <> [] -> Forall (fun s => plain_name s = true) cs -> Forall (fun s => plain_name s = true) cs' ->
  under (path_of cs) (path_of cs') -> exists r, cs' = cs ++ r.
Proof.
  intros Hne Hne' Hcs Hcs' [H|[r H]]; apply (f_equal split_slash) in H.
  - rewrite !split_path_of in H by done. injection H as ->. exists []. by rewrite app_nil_r.
  - change ("/" +:+ r) with (String "/" r) in H. unfold split_slash in H at 2. rewrite split_app_sep in H. fold split_slash in H.
    rewrite !split_path_of in H by done. injection H as ->. by eexists.
Qed.
