(* ===== verification/Handlers.v ===== *)
(** * The HTTP handlers: handlers.go, user_snapshot.go, http_util.go and
      sshutil.go

    A handler gets the whole body of its request and answers with
    [WriteJSON]. *)

From S2P Require Export UserSnapshot.

(** ** http_util.go, writeJSON: the text sent for a payload *)

Definition payload_json (p : payload) : json :=
  match p with
  | PError t => JObj [("error", JStr (render t))]
  | PCreate id => JObj [("sandbox_id", JStr id)]
  | PExec r => JObj [("stdout", JStr (es_Stdout r)); ("stderr", JStr (es_Stderr r)); ("exit_code", jint (es_ExitCode r))]
  | PStatus s => JObj [("status", JStr s)]
  | PSnapshotCreate id => JObj [("snapshot_id", JStr id)]
  | PSnapshotRestore id => JObj [("sandbox_id", JStr id)]
  | PSnapshots l => JObj [("snapshots", JArr (map enc_userSnapshotMeta l))]
  end.

Definition payload_body (p : payload) : string := marshal (payload_json p) +:+ NL.

Definition writeJSON (status : Z) (p : payload) : prog sysE unit := sys (WriteJSON status p).

Definition errorReply (status : Z) (t : list piece) : prog sysE unit := writeJSON status (PError t).

(** ** sshutil.go *)

Definition JoinHostPort (host port : string) : string := host +:+ ":" +:+ port.

Definition dialSSH (ip keyPath : string) (dialTimeout : Z) : prog sysE (result Z) :=
  try! key := sys (OsReadFile keyPath) catch err => Ret (Err (wrapf [Lit "read ssh key"] err)) in
  do! sys (SshParseKey key) catch err => Ret (Err (wrapf [Lit "parse ssh key"] err)) in
  sys (SshDial (JoinHostPort ip "22") key dialTimeout).

(** Nothing calls it. *)
Definition waitForSSH (ip keyPath : string) (timeout dialTimeout : Z) : prog sysE (result Z) :=
  let! start := sys Now in
  let deadline := start + timeout in
  let addr := JoinHostPort ip "22" in
  let step := 100 * millisecond in
  loop (polls timeout step) (fun _ : unit =>
    let! now := sys Now in
    if now <? deadline then
      let again := sys (Sleep step) ;;; Ret (inl tt) in
      try! client := dialSSH ip keyPath dialTimeout catch _ => again in
      try! session := sys (SshNewSession client) catch _ => sys (SshCloseClient client) ;;; again in
      let! rerr := sys (SshRun session "true") in
      match rerr with
      | None => sys (SshCloseSession session) ;;; Ret (inr (Ok client))
      | Some _ => sys (SshCloseSession session) ;;; sys (SshCloseClient client) ;;; again
      end
    else Ret (inr (Err (errorf [Lit "ssh not reachable at "; Lit addr; Lit " after "; DurText timeout])))) tt.

Definition waitForExecSSH (ip keyPath : string) (timeout dialTimeout : Z) : prog sysE (result Z) :=
  let! start := sys Now in
  let deadline := start + timeout in
  let addr := JoinHostPort ip "22" in
  let step := 150 * millisecond in
  loop (polls timeout step) (fun lastErr : option error =>
    let! now := sys Now in
    if now <? deadline then
      let! r := dialSSH ip keyPath dialTimeout in
      match r with
      | Ok client => Ret (inr (Ok client))
      | Err err => sys (Sleep step) ;;; Ret (inl (Some err))
      end
    else
      match lastErr with
      | Some e => Ret (inr (Err (wrapf [Lit "dial "; Lit addr; Lit " failed for "; DurText timeout] e)))
      | None => Ret (inr (Err (errorf [Lit "dial "; Lit addr; Lit " failed for "; DurText timeout])))
      end) None.

Definition runSSHCommand (session : Z) (cmd : string) (timeout : Z) : prog sysE (Z * option error) :=
  do! sys (SshStart session cmd) catch err => Ret (0, Some err) in
  let! r := sys (SshWait session timeout) in
  match r with
  | Some None => Ret (0, None)
  | Some (Some err) =>
      match asExitError err with
      | Some code => Ret (code, None)
      | None => Ret (0, Some err)
      end
  | None =>
      sys (SshKill session) ;;;
      Ret (124, Some (errorf [Lit "command timed out after "; DurText timeout]))
  end.

Section handlers.
Context (cfg : config).

(** ** handlers.go *)

Definition handleCreate : prog sysE unit :=
  let! n := memory AddSandboxID in
  let id := "sb-" +:+ itoa n in
  try! l := createSandbox cfg id catch err => errorReply 500 (err_text err) in
  let! sb := memory (LoadSandbox l) in
  memory (SandboxesPut (sb_ID sb) l) ;;;
  writeJSON 200 (PCreate (sb_ID sb)).

(** The timeout of an exec: a multiplication of int64 durations. *)
Definition execTimeout (req : execRequest) : Z :=
  if eq_TimeoutMs req >? 0 then int64 (eq_TimeoutMs req * millisecond) else cfg_ExecTimeout cfg.

(** The switch on cmd and argv: [useShell], or the text of a 400. *)
Definition chooseShell (req : execRequest) : list piece + bool :=
  let cmd := TrimSpace (eq_Cmd req) in
  match eq_Argv req with
  | _ :: _ =>
      if negb (is_empty cmd) then inl [Lit "provide either cmd or argv, not both"]
      else match eq_UseShell req with
           | Some true => inl [Lit "use_shell=true is not valid with argv"]
           | _ => inr false
           end
  | [] =>
      if negb (is_empty cmd) then
        match eq_UseShell req with
        | Some false => inl [Lit "use_shell=false is not valid with cmd; provide argv instead"]
        | _ => inr true
        end
      else inl [Lit "cmd or argv is required"]
  end.

Definition execRPC (req : execRequest) (useShell : bool) : Request :=
  MkRequest "exec" (Some (MkExecRequest useShell (TrimSpace (eq_Cmd req)) (eq_Argv req) EmptyString []
    (Milliseconds (execTimeout req)) (cfg_AgentMaxOutputB cfg))) None.

Definition execOverSSH (l : loc) (req : execRequest) : prog sysE unit :=
  let! sb := memory (LoadSandbox l) in
  try! sshClient := waitForExecSSH (sb_GuestIP sb) (cfg_SSHPrivateKey cfg) (cfg_SSHExecWait cfg) (cfg_SSHDialTimeout cfg) catch err =>
    errorReply 500 ([Lit "ssh dial failed: "] ++ err_text err) in
  defer (
    try! session := sys (SshNewSession sshClient) catch err =>
      errorReply 500 ([Lit "new ssh session: "] ++ err_text err) in
    defer (
      let! (exitCode, err) := runSSHCommand session (TrimSpace (eq_Cmd req)) (execTimeout req) in
      match err with
      | Some err => errorReply 500 ([Lit "exec failed: "] ++ err_text err)
      | None =>
          let! (stdout, stderr) := sys (SshOutput session) in
          writeJSON 200 (PExec (MkExecResp stdout stderr exitCode))
      end)
    (sys (SshCloseSession session)))
  (sys (SshCloseClient sshClient)).

(** Answers with the payload of an RPC that succeeded; resp.Exec is a
    pointer. *)
Definition replyExec (resp : Response) : prog sysE unit :=
  match rs_Exec resp with
  | Some e => writeJSON 200 (PExec (MkExecResp (xs_Stdout e) (xs_Stderr e) (xs_ExitCode e)))
  | None => Panic
  end.

Definition execOverAgent (l : loc) (req : execRequest) (useShell : bool) : prog sysE unit :=
  memory (LockAgentMu l) ;;;
  defer (
    let! sb := memory (LoadSandbox l) in
    let dial := dialAgent (sb_VsockPath sb) (cfg_AgentPort cfg) (cfg_AgentDialTimeout cfg) in
    let! r :=
      match sb_Agent sb with
      | Some ac => Ret (Ok ac)
      | None =>
          try! newAC := dial catch err => Ret (Err err) in
          memory (SetAgent l (Some newAC)) ;;; Ret (Ok newAC)
      end in
    match r with
    | Err err => errorReply 500 ([Lit "agent dial failed: "] ++ err_text err)
    | Ok ac =>
        try! resp := Call ac (execRPC req useShell) (cfg_AgentCallTimeout cfg) catch err =>
          Close ac ;;;
          memory (SetAgent l None) ;;;
          try! newAC := dial catch derr =>
            errorReply 500 ([Lit "agent dial failed: "] ++ err_text derr ++ [Lit " (original error: "] ++ err_text err ++ [Lit ")"]) in
          memory (SetAgent l (Some newAC)) ;;;
          try! resp := Call newAC (execRPC req useShell) (cfg_AgentCallTimeout cfg) catch err =>
            errorReply 500 ([Lit "agent exec failed: "] ++ err_text err) in
          replyExec resp
        in
        replyExec resp
    end)
  (memory (UnlockAgentMu l)).

(** From the admission of the exec to its answer. *)
Definition execAdmitted (l : loc) (req : execRequest) : prog sysE unit :=
  match chooseShell req with
  | inl msg => errorReply 400 msg
  | inr useShell =>
      let transport := cfg_ExecTransport cfg in
      if bool_decide (transport = "ssh"%string) then
        if negb useShell then errorReply 400 [Lit "ssh transport only supports cmd (shell mode)"]
        else execOverSSH l req
      else if bool_decide (transport = "agent"%string) || is_empty transport then
        execOverAgent l req useShell
      else errorReply 400 [Lit "unknown exec transport "; Quoted transport]
  end.

Definition handleExec (body : string) : prog sysE unit :=
  match decodeJSON dec_execRequest zero_execRequest body with
  | None => errorReply 400 [Lit "invalid request body"]
  | Some req =>
      if is_empty (TrimSpace (eq_SandboxID req)) then errorReply 400 [Lit "sandbox_id is required"]
      else
        let! sb := memory (SandboxesGet (eq_SandboxID req)) in
        match sb with
        | None => errorReply 404 [Lit "sandbox not found"]
        | Some l =>
            do! memory (TryStartExec l) catch err => errorReply 409 (err_text err) in
            defer (execAdmitted l req) (memory (FinishExec l))
        end
  end.

Definition handleDestroy (body : string) : prog sysE unit :=
  match decodeJSON (fun strict => dec_one strict "sandbox_id") EmptyString body with
  | None => errorReply 400 [Lit "invalid request body"]
  | Some sandboxID =>
      if is_empty (TrimSpace sandboxID) then errorReply 400 [Lit "sandbox_id is required"]
      else
        let! sb := memory (SandboxesTake sandboxID) in
        match sb with
        | None => errorReply 404 [Lit "sandbox not found"]
        | Some l =>
            let! first := memory (BeginDestroy l) in
            if negb first then errorReply 409 [Lit "sandbox is closing"]
            else
              defer (
                let! drained := waitForExecDrain l destroyExecDrainTimeout in
                when (negb drained) (memory (InFlightExec l) ;;; Ret tt) ;;;
                do! cleanupSandbox l catch err => errorReply 500 (err_text err) in
                writeJSON 200 (PStatus "ok"))
              (memory (FinishDestroy l))
        end
  end.

(** ** user_snapshot.go *)

Definition handleSnapshotCreate (body : string) : prog sysE unit :=
  match decodeJSON dec_snapshotCreateRequest (MkSnapCreateReq EmptyString EmptyString) body with
  | None => errorReply 400 [Lit "invalid request body"]
  | Some req =>
      if is_empty (TrimSpace (scq_SandboxID req)) then errorReply 400 [Lit "sandbox_id is required"]
      else
        let! sb := memory (SandboxesGet (scq_SandboxID req)) in
        match sb with
        | None => errorReply 404 [Lit "sandbox not found"]
        | Some l =>
            let! n := memory AddSnapshotID in
            let snapshotID := "us-" +:+ itoa n in
            try! meta := createUserSnapshotFromSandbox cfg l snapshotID (scq_Name req) catch err =>
              errorReply 500 (err_text err) in
            writeJSON 200 (PSnapshotCreate (um_SnapshotID meta))
        end
  end.

(** The lineage check of a restore: the text of a 409. *)
Definition checkLineage (meta : userSnapshotMeta) : option (list piece) :=
  let currentLineage := TrimSpace (cfg_BaseRootfsLineageID cfg) in
  let metaLineage := TrimSpace (um_LineageID meta) in
  if is_empty currentLineage then None
  else if is_empty metaLineage then Some [Lit "snapshot meta missing lineage id"]
  else if negb (bool_decide (metaLineage = currentLineage)) then
    Some [Lit "snapshot lineage mismatch (snapshot="; Lit metaLineage; Lit " current="; Lit currentLineage; Lit ")"]
  else None.

Definition handleSnapshotRestore (body : string) : prog sysE unit :=
  match decodeJSON (fun strict => dec_one strict "snapshot_id") EmptyString body with
  | None => errorReply 400 [Lit "invalid request body"]
  | Some rawID =>
      match normalizeSnapshotID rawID with
      | Err err => errorReply 400 (err_text err)
      | Ok snapshotID =>
          try! meta := loadUserSnapshotMeta cfg snapshotID catch err => errorReply 404 (err_text err) in
          match checkLineage meta with
          | Some msg => errorReply 409 msg
          | None =>
              let! n := memory AddSandboxID in
              let id := "sb-" +:+ itoa n in
              try! l := createSandboxFromUserSnapshot cfg id meta catch err => errorReply 500 (err_text err) in
              let! sb := memory (LoadSandbox l) in
              memory (SandboxesPut (sb_ID sb) l) ;;;
              writeJSON 200 (PSnapshotRestore (sb_ID sb))
          end
      end
  end.

Definition handleSnapshotList : prog sysE unit :=
  try! items := listUserSnapshots cfg catch err => errorReply 500 (err_text err) in
  writeJSON 200 (PSnapshots items).

Definition handleSnapshotDelete (body : string) : prog sysE unit :=
  match decodeJSON (fun strict => dec_one strict "snapshot_id") EmptyString body with
  | None => errorReply 400 [Lit "invalid request body"]
  | Some rawID =>
      match normalizeSnapshotID rawID with
      | Err err => errorReply 400 (err_text err)
      | Ok snapshotID =>
          do! sys (OsRemoveAll (userSnapshotRootDir (cfg_WorkDir cfg) snapshotID)) catch err =>
            errorReply 500 ([Lit "delete snapshot: "] ++ err_text err) in
          writeJSON 200 (PStatus "ok")
      end
  end.

(** ** main.go: the routes *)

Inductive route :=
| RCreate
| RExec (body : string)
| RDestroy (body : string)
| RSnapshotCreate (body : string)
| RSnapshotRestore (body : string)
| RSnapshotList
| RSnapshotDelete (body : string)
| RHealthz.

Definition serve (r : route) : prog sysE unit :=
  match r with
  | RCreate => handleCreate
  | RExec body => handleExec body
  | RDestroy body => handleDestroy body
  | RSnapshotCreate body => handleSnapshotCreate body
  | RSnapshotRestore body => handleSnapshotRestore body
  | RSnapshotList => handleSnapshotList
  | RSnapshotDelete body => handleSnapshotDelete body
  | RHealthz => writeJSON 200 (PStatus "ok")
  end.
End handlers.

Definition routeOf (method path body : string) : option route :=
  if bool_decide (method = "POST"%string) then
    if bool_decide (path = "/create"%string) then Some RCreate
    else if bool_decide (path = "/exec"%string) then Some (RExec body)
    else if bool_decide (path = "/destroy"%string) then Some (RDestroy body)
    else if bool_decide (path = "/snapshot/create"%string) then Some (RSnapshotCreate body)
    else if bool_decide (path = "/snapshot/restore"%string) then Some (RSnapshotRestore body)
    else if bool_decide (path = "/snapshot/delete"%string) then Some (RSnapshotDelete body)
    else None
  else if bool_decide (method = "GET"%string) then
    if bool_decide (path = "/snapshot/list"%string) then Some RSnapshotList
    else if bool_decide (path = "/healthz"%string) then Some RHealthz
    else None
  else None.
