(* ===== verification/Calls.v ===== *)
(** * Programs that only make certain calls

    Most functions of the server ask the environment for things that a given
    theorem does not depend on.  [only ok p P] says that [p] performs only
    operations of [ok], touches no shared memory, and ends with an outcome of
    [P]; the rules and the tactic [only_steps] prove it of a function from
    its text and the facts about the functions it calls. *)

From S2P Require Export World.

(** Returns a value, unless a loop has run out of rounds. *)
Definition plain {A} (o : outcome A) : Prop := match o with Done _ | OutOfFuel => True | _ => False end.

(** Always returns a value. *)
Definition total {A} (o : outcome A) : Prop := match o with Done _ => True | _ => False end.

(** The same as [plain], with a property of the value. *)
Definition returns {A} (P : A -> Prop) (o : outcome A) : Prop :=
  match o with Done a => P a | OutOfFuel => True | _ => False end.

(** ** Programs that only ask the environment for certain things *)

Section only.
Context (ok : forall X, envE X -> Prop).

Definition only_pre (X : Type) (e : sysE X) (_ : unit) : Prop :=
  match e with Sys e => ok _ e | Mem _ => False end.

(** [p] performs only operations of [ok], touches no memory, and its outcome
    satisfies [P]. *)
Definition only {A} (p : prog sysE A) (P : outcome A -> Prop) : Prop :=
  wp only_pre (fun _ _ _ _ _ => True) p (fun o _ => P o) tt.

Lemma only_ret {A} (a : A) (P : outcome A -> Prop) : P (Done a) -> only (Ret a) P.
Proof. done. Qed.

Lemma only_sys {X A} (e : envE X) (k : X -> prog sysE A) P :
  ok _ e -> (forall x, only (k x) P) -> only (bind (sys e) k) P.
Proof. intros He Hk. split; [exact He|]. intros x [] _. apply Hk. Qed.

Lemma only_sys_end {X} (e : envE X) P : ok _ e -> (forall x, P (Done x)) -> only (sys e) P.
Proof. intros He Hk. split; [exact He|]. intros x [] _. apply Hk. Qed.

Definition qbindQ {A B} (f : A -> prog sysE B) (P : outcome B -> Prop) (o : outcome A) : Prop :=
  match o with
  | Done a => only (f a) P
  | Panicked => P Panicked
  | OutOfFuel => P OutOfFuel
  | Blocked => P Blocked
  end.

Lemma only_mono {A} (p : prog sysE A) (P P' : outcome A -> Prop) : only p P -> (forall o, P o -> P' o) -> only p P'.
Proof. intros H HP. eapply wp_mono; [|exact H]. intros o ? Ho. by apply HP. Qed.

Lemma only_bind {A B} (p : prog sysE A) (f : A -> prog sysE B) P : only p (qbindQ f P) -> only (bind p f) P.
Proof. intros H. apply wp_bind. eapply wp_mono; [|exact H]. by intros [] []. Qed.

Definition qdeferQ {A} (d : prog sysE unit) (P : outcome A -> Prop) (o : outcome A) : Prop :=
  match o with
  | Done a => only d (qbindQ (fun _ => Ret a) P)
  | Panicked => only d (qbindQ (fun _ => Panic) P)
  | OutOfFuel => P OutOfFuel
  | Blocked => P Blocked
  end.

Lemma only_defer {A} (p : prog sysE A) d P : only p (qdeferQ d P) -> only (defer p d) P.
Proof.
  intros H. apply wp_defer. eapply wp_mono; [|exact H].
  by intros [a| | |] [] Hg; cbn in *; try (eapply wp_mono; [|exact Hg]; intros []).
Qed.

Definition qdeferWithQ {A L} (l0 : L) (d : L -> prog sysE unit) (P : outcome A -> Prop) (o : outcome (A * L)) : Prop :=
  match o with
  | Done (a, l) => only (d l) (qbindQ (fun _ => Ret a) P)
  | Panicked => only (d l0) (qbindQ (fun _ => Panic) P)
  | OutOfFuel => P OutOfFuel
  | Blocked => P Blocked
  end.

Lemma only_deferWith {A L} (l0 : L) (p : prog sysE (A * L)) d P :
  only p (qdeferWithQ l0 d P) -> only (deferWith l0 p d) P.
Proof.
  intros H. apply wp_deferWith. eapply wp_mono; [|exact H].
  by intros [[a l]| | |] [] Hg; cbn in *; try (eapply wp_mono; [|exact Hg]; intros []).
Qed.

Lemma only_loop {X R} (body : X -> prog sysE (X + R)) (P : outcome R -> Prop) n x :
  P OutOfFuel ->
  (forall x, only (body x) (fun o =>
     match o with
     | Done (inl _) => True
     | Done (inr r) => P (Done r)
     | Panicked => P Panicked
     | OutOfFuel => P OutOfFuel
     | Blocked => P Blocked
     end)) ->
  only (loop n body x) P.
Proof.
  intros HF Hbody. eapply (wp_loop _ _ (fun _ _ => True)); [|done|done].
  intros x' [] _. eapply wp_mono; [|apply Hbody]. by intros [[]| | |] [].
Qed.

Lemma only_forRange {A R} (l : list A) (body : A -> prog sysE (option R)) rest P :
  (forall x, only (body x) (fun o =>
     match o with
     | Done None => True
     | Done (Some v) => P (Done v)
     | Panicked => P Panicked
     | OutOfFuel => P OutOfFuel
     | Blocked => P Blocked
     end)) ->
  only rest P -> only (forRange l body rest) P.
Proof.
  intros Hbody Hrest. induction l as [|x l IH]; cbn [forRange]; [done|].
  apply only_bind. eapply only_mono; [apply Hbody|]. by intros [[v|]| | |] H; simpl.
Qed.

Lemma only_plain_bind {A B} (p : prog sysE A) (f : A -> prog sysE B) (P : outcome B -> Prop) :
  only p plain -> P OutOfFuel -> (forall a, only (f a) P) -> only (bind p f) P.
Proof. intros Hp HF Hf. apply only_bind. eapply only_mono; [exact Hp|]. by intros [] H; simpl in *. Qed.

End only.

Lemma only_weaken (ok ok' : forall X, envE X -> Prop) {A} (p : prog sysE A) P :
  (forall X (e : envE X), ok X e -> ok' X e) -> only ok p P -> only ok' p P.
Proof.
  intros Hok. unfold only. generalize tt as u. induction p as [a| | |X e k IH]; intros u H; try done.
  destruct H as [Hpre Hk]. destruct e as [Y e|]; [|done]. split; [by apply Hok|].
  intros x [] _. apply (IH x tt), (Hk x tt I).
Qed.

(** An observer that does not see the operations of [ok] sees nothing of a
    program that performs no others. *)
Lemma swp_only (ok : forall X, envE X -> Prop) {T} (allowed : forall X, envE X -> T -> X -> Prop)
    (obs : forall X, sysE X -> X -> T -> T) {A} (p : prog sysE A) P (Q : outcome A -> server -> T -> Prop) s t :
  only ok p P -> (forall X (e : envE X) x t, ok _ e -> obs X (Sys e) x t = t) ->
  (forall o, P o -> Q o s t) -> swp allowed obs p Q s t.
Proof.
  unfold only. intros Hp Hobs HP. revert Hp. generalize tt. induction p as [a| | |X e k IH]; intros u Hp; try (by apply HP).
  destruct Hp as [Hok Hk]. destruct e as [X e|]; [|done]. split; [done|]. intros x [s' t'] [_ E].
  cbn [fst snd] in E. rewrite Hobs in E by exact Hok. simplify_eq. exact (IH x u (Hk x u I)).
Qed.

(** Anything but an answer to the request. *)
Definition not_reply (X : Type) (e : envE X) : Prop := match e with WriteJSON _ _ => False | _ => True end.

(** Nor processes and directories. *)
Definition basic (X : Type) (e : envE X) : Prop :=
  match e with
  | WriteJSON _ _ | StartProcess _ _ _ | KillGroup _ | KillProcess _ | WaitProcess _ _ | ReapProcess _
  | OsMkdirAll _ | OsMkdir _ | OsRemove _ | OsRemoveAll _ => False
  | _ => True
  end.

Abbreviation quiet := (only not_reply).
Abbreviation calm := (only basic).

Lemma calm_quiet {A} (p : prog sysE A) P : calm p P -> quiet p P.
Proof. apply only_weaken. by intros X []. Qed.

(** One step on a quiet program; [only ok] facts about the functions it calls
    come from the hint database. *)
Create HintDb quiet.
#[export] Hint Resolve calm_quiet : quiet.

Ltac only_step :=
  cbv beta iota zeta;
  lazymatch goal with
  | |- only _ (Ret _) _ => apply only_ret
  | |- only _ (bind (Ret ?a) ?k) _ => change (bind (Ret a) k) with (k a)
  | |- only _ (bind (sys _) _) _ => apply only_sys; [exact I|intros ?]
  | |- only _ (bind (match ?x with _ => _ end) _) _ => destruct x eqn:?
  | |- only _ (bind _ _) _ => first [apply only_plain_bind; [by auto with quiet|exact I|intros ?] | apply only_bind]
  | |- only _ (sys _) _ => apply only_sys_end; [exact I|intros ?]
  | |- only _ (defer _ _) _ => apply only_defer
  | |- only _ (deferWith _ _ _) _ => apply only_deferWith
  | |- only _ (loop _ _ _) _ => apply only_loop; [try exact I|intros ?]
  | |- only _ (forRange _ _ _) _ => apply only_forRange; [intros ?|]
  | |- only _ (when ?b _) _ => destruct b eqn:?; cbn [when]
  | |- only _ (match ?x with _ => _ end) _ => destruct x eqn:?
  | |- only _ _ plain => by auto with quiet
  | |- only _ _ _ => eapply only_mono; [by auto with quiet|intros [] ?]
  | |- qbindQ _ _ _ _ => cbn [qbindQ]
  | |- qdeferQ _ _ _ _ => cbn [qdeferQ]
  | |- qdeferWithQ _ _ _ _ _ => cbn [qdeferWithQ]
  | |- match ?x with _ => _ end => destruct x eqn:?
  end.

Ltac only_steps := repeat only_step; try done.

