(* ===== verification/Quiet.v ===== *)
(** * The functions that only talk to the environment

    Each returns (or runs out of polling rounds), without a panic, without
    touching the shared memory and without answering the request. *)

From S2P Require Export Handlers Calls.

Lemma quiet_killProcessGroup c : quiet (killProcessGroup c) plain.
Proof. unfold killProcessGroup. only_steps. Qed.
#[export] Hint Resolve quiet_killProcessGroup : quiet.

Lemma calm_killCgroup p : calm (killCgroup p) plain.
Proof. unfold killCgroup. only_steps. Qed.
#[export] Hint Resolve calm_killCgroup : quiet.

Lemma quiet_removeCgroupDir p t : quiet (removeCgroupDir p t) plain.
Proof. unfold removeCgroupDir. only_steps. Qed.
#[export] Hint Resolve quiet_removeCgroupDir : quiet.

Lemma calm_movePidToCgroup p pid : calm (movePidToCgroup p pid) plain.
Proof. unfold movePidToCgroup. only_steps. Qed.
#[export] Hint Resolve calm_movePidToCgroup : quiet.

Lemma calm_fileExists p : calm (fileExists p) plain.
Proof. unfold fileExists. only_steps. Qed.
#[export] Hint Resolve calm_fileExists : quiet.

Lemma calm_deleteVeth h v : calm (deleteVeth h v) plain.
Proof. unfold deleteVeth. only_steps. Qed.
#[export] Hint Resolve calm_deleteVeth : quiet.

Lemma calm_cleanupNetns nc : calm (cleanupSandboxNetnsAndRouting nc) plain.
Proof. unfold cleanupSandboxNetnsAndRouting. only_steps. Qed.
#[export] Hint Resolve calm_cleanupNetns : quiet.

Lemma calm_newNamedNetns ns : calm (newNamedNetns ns) plain.
Proof. unfold newNamedNetns. only_steps. Qed.
#[export] Hint Resolve calm_newNamedNetns : quiet.

Lemma calm_configureInsideNetns n : calm (configureInsideNetns n) plain.
Proof. unfold configureInsideNetns, unlessExist. only_steps. Qed.
#[export] Hint Resolve calm_configureInsideNetns : quiet.

Lemma calm_withNetns h n : calm (withNetns h (configureInsideNetns n)) plain.
Proof. unfold withNetns. only_steps. Qed.
#[export] Hint Resolve calm_withNetns : quiet.

(** The configuration an on-demand setup returns is not an entry of the
    pool. *)
Definition unpooled (r : result netnsConfig) : Prop :=
  match r with Ok nc => nc_Pooled nc = false | Err _ => True end.

Lemma calm_configureVeth ns n h rh :
  calm (configureVethAndRoute ns n h rh) (returns (fun p => unpooled (fst p))).
Proof. unfold configureVethAndRoute, unlessExist. only_steps. Qed.

Lemma calm_setup id n : calm (setupSandboxNetnsAndRouting id n) (returns unpooled).
Proof.
  unfold setupSandboxNetnsAndRouting. only_steps.
  eapply only_mono; [apply calm_configureVeth|]. intros [[r b]| | |] H; try done. only_steps.
Qed.

Lemma calm_setup_plain id n : calm (setupSandboxNetnsAndRouting id n) plain.
Proof. eapply only_mono; [apply calm_setup|]. by intros []. Qed.
#[export] Hint Resolve calm_setup_plain : quiet.

Lemma calm_runCmd n a : calm (runCmd n a) plain.
Proof. unfold runCmd. only_steps. Qed.
#[export] Hint Resolve calm_runCmd : quiet.

Lemma calm_materialize cfg a b : calm (materializeSandboxRootfs cfg a b) plain.
Proof. unfold materializeSandboxRootfs. only_steps. Qed.
#[export] Hint Resolve calm_materialize : quiet.

(** ** The agent and Firecracker *)

Lemma calm_ReadLine c t : calm (ReadLine c t) plain.
Proof. unfold ReadLine. only_steps. Qed.
#[export] Hint Resolve calm_ReadLine : quiet.

Lemma calm_dialAgent p n t : calm (dialAgent p n t) plain.
Proof. unfold dialAgent. only_steps. Qed.
#[export] Hint Resolve calm_dialAgent : quiet.

Lemma calm_Close c : calm (Close c) plain.
Proof. unfold Close. only_steps. Qed.
#[export] Hint Resolve calm_Close : quiet.

Lemma calm_WriteMessage c m : calm (WriteMessage (fun b => sys (ConnWrite c b)) m) plain.
Proof. unfold WriteMessage. only_steps. Qed.
#[export] Hint Resolve calm_WriteMessage : quiet.

Lemma calm_ReadMessage {T} c (dec : bool -> json -> T -> option T) z : calm (ReadMessage (fun n => sys (ConnReadFull c n)) dec z) plain.
Proof. unfold ReadMessage. only_steps. Qed.
#[export] Hint Resolve calm_ReadMessage : quiet.

Lemma calm_Call c r t : calm (Call c r t) plain.
Proof. unfold Call. only_steps. Qed.
#[export] Hint Resolve calm_Call : quiet.

Lemma calm_waitForAgentReady p n t d : calm (waitForAgentReady p n t d) plain.
Proof. unfold waitForAgentReady. only_steps. Qed.
#[export] Hint Resolve calm_waitForAgentReady : quiet.

Lemma calm_doJSON c m p j : calm (doJSON c m p j) plain.
Proof. unfold doJSON. only_steps. Qed.
#[export] Hint Resolve calm_doJSON : quiet.

Lemma calm_pauseVM c : calm (pauseVM c) plain.
Proof. unfold pauseVM. only_steps. Qed.
#[export] Hint Resolve calm_pauseVM : quiet.

Lemma calm_resumeVM c : calm (resumeVM c) plain.
Proof. unfold resumeVM. only_steps. Qed.
#[export] Hint Resolve calm_resumeVM : quiet.

Lemma calm_createFullSnapshot c a b : calm (createFullSnapshot c a b) plain.
Proof. unfold createFullSnapshot. only_steps. Qed.
#[export] Hint Resolve calm_createFullSnapshot : quiet.

Lemma calm_loadSnapshot c a b r : calm (loadSnapshot c a b r) plain.
Proof. unfold loadSnapshot. only_steps. Qed.
#[export] Hint Resolve calm_loadSnapshot : quiet.

Lemma calm_waitForUnixSocketReady p t : calm (waitForUnixSocketReady p t) plain.
Proof. unfold waitForUnixSocketReady. only_steps. Qed.
#[export] Hint Resolve calm_waitForUnixSocketReady : quiet.

Lemma calm_loadSnapshotWithRetry c a b r t : calm (loadSnapshotWithRetry c a b r t) plain.
Proof. unfold loadSnapshotWithRetry. only_steps. Qed.
#[export] Hint Resolve calm_loadSnapshotWithRetry : quiet.

(** A dial and a call have no loop. *)
Lemma calm_dialAgent_total p n t : calm (dialAgent p n t) total.
Proof. unfold dialAgent, ReadLine. only_steps. Qed.

Lemma calm_Call_total c r t : calm (Call c r t) total.
Proof. unfold Call, WriteMessage, ReadMessage. only_steps. Qed.

(** ** Snapshots and sandboxes *)

Lemma calm_writeVMConfig p cfg a b n v c : calm (writeVMConfig p cfg a b n v c) plain.
Proof. unfold writeVMConfig. only_steps. Qed.
#[export] Hint Resolve calm_writeVMConfig : quiet.

Lemma calm_validateSnapshotMeta cfg sp : calm (validateSnapshotMeta cfg sp) plain.
Proof. unfold validateSnapshotMeta. only_steps. Qed.
#[export] Hint Resolve calm_validateSnapshotMeta : quiet.

Lemma calm_writeSnapshotMeta cfg sp : calm (writeSnapshotMeta cfg sp) plain.
Proof. unfold writeSnapshotMeta. only_steps. Qed.
#[export] Hint Resolve calm_writeSnapshotMeta : quiet.

Lemma quiet_resetSnapshotDir sp : quiet (resetSnapshotDir sp) plain.
Proof. unfold resetSnapshotDir. only_steps. Qed.
#[export] Hint Resolve quiet_resetSnapshotDir : quiet.

Lemma quiet_killAndWait pid : quiet (killAndWait pid) plain.
Proof. unfold killAndWait. only_steps. Qed.
#[export] Hint Resolve quiet_killAndWait : quiet.

Lemma quiet_takeGoldenSnapshot cfg sp pid : quiet (takeGoldenSnapshot cfg sp pid) plain.
Proof. unfold takeGoldenSnapshot. only_steps. Qed.
#[export] Hint Resolve quiet_takeGoldenSnapshot : quiet.

Lemma quiet_buildSnapshot cfg sp : quiet (buildSnapshot cfg sp) plain.
Proof. unfold buildSnapshot. only_steps. Qed.
#[export] Hint Resolve quiet_buildSnapshot : quiet.

Lemma quiet_ensureSnapshot cfg : quiet (ensureSnapshot cfg) plain.
Proof. unfold ensureSnapshot. only_steps. Qed.
#[export] Hint Resolve quiet_ensureSnapshot : quiet.

Lemma quiet_prepareSandboxRuntimePaths d : quiet (prepareSandboxRuntimePaths d) plain.
Proof. unfold prepareSandboxRuntimePaths. only_steps. Qed.
#[export] Hint Resolve quiet_prepareSandboxRuntimePaths : quiet.

Lemma calm_openSandboxLog p : calm (openSandboxLog p) plain.
Proof. unfold openSandboxLog. only_steps. Qed.
#[export] Hint Resolve calm_openSandboxLog : quiet.

Lemma quiet_prepareSandboxCgroup cfg id : quiet (prepareSandboxCgroup cfg id) plain.
Proof. unfold prepareSandboxCgroup. only_steps. Qed.
#[export] Hint Resolve quiet_prepareSandboxCgroup : quiet.

Lemma quiet_attach p pid : quiet (attachSandboxProcessToCgroup p pid) plain.
Proof. unfold attachSandboxProcessToCgroup. only_steps. Qed.
#[export] Hint Resolve quiet_attach : quiet.

Lemma calm_configureGuest ac nc : calm (configureSandboxGuestNetwork ac nc) plain.
Proof. unfold configureSandboxGuestNetwork. only_steps. Qed.
#[export] Hint Resolve calm_configureGuest : quiet.

Lemma quiet_abandonVM pid p : quiet (abandonVM pid p) plain.
Proof. unfold abandonVM. only_steps. Qed.
#[export] Hint Resolve quiet_abandonVM : quiet.

Lemma quiet_stopProcess p : quiet (stopProcess p) plain.
Proof. unfold stopProcess. only_steps. Qed.
#[export] Hint Resolve quiet_stopProcess : quiet.

(** ** User snapshots and SSH *)

Lemma calm_writeUserSnapshotMeta cfg m : calm (writeUserSnapshotMeta cfg m) plain.
Proof. unfold writeUserSnapshotMeta. only_steps. Qed.
#[export] Hint Resolve calm_writeUserSnapshotMeta : quiet.

Lemma calm_loadUserSnapshotMeta cfg id : calm (loadUserSnapshotMeta cfg id) plain.
Proof. unfold loadUserSnapshotMeta. only_steps. Qed.
#[export] Hint Resolve calm_loadUserSnapshotMeta : quiet.

Lemma quiet_snapshotPausedVM cfg fc sb id n d : quiet (snapshotPausedVM cfg fc sb id n d) plain.
Proof. unfold snapshotPausedVM. only_steps. Qed.
#[export] Hint Resolve quiet_snapshotPausedVM : quiet.

Lemma calm_loadEntries cfg l : calm (loadEntries cfg l) plain.
Proof. induction l as [|[n d] l IH]; cbn [loadEntries]; only_steps. Qed.
#[export] Hint Resolve calm_loadEntries : quiet.

Lemma calm_listUserSnapshots cfg : calm (listUserSnapshots cfg) plain.
Proof. unfold listUserSnapshots. only_steps. Qed.
#[export] Hint Resolve calm_listUserSnapshots : quiet.

Lemma calm_dialSSH a b t : calm (dialSSH a b t) plain.
Proof. unfold dialSSH. only_steps. Qed.
#[export] Hint Resolve calm_dialSSH : quiet.

Lemma calm_waitForSSH a b t d : calm (waitForSSH a b t d) plain.
Proof. unfold waitForSSH. only_steps. Qed.

Lemma calm_waitForExecSSH a b t d : calm (waitForExecSSH a b t d) plain.
Proof. unfold waitForExecSSH. only_steps. Qed.
#[export] Hint Resolve calm_waitForExecSSH : quiet.

Lemma calm_runSSHCommand s c t : calm (runSSHCommand s c t) plain.
Proof. unfold runSSHCommand. only_steps. Qed.
#[export] Hint Resolve calm_runSSHCommand : quiet.
