(* ===== verification/Untouched.v ===== *)
(** * What a request leaves alone

    [spares ok okM ansM p] says that [p] asks the environment only for what
    [ok] allows, and performs only the memory operations of [okM], as long as
    these are answered as [ansM] says.  Here the operations are those that
    leave the map of sandboxes as it is and give new sandboxes only ids that
    AddSandboxID has made ([harmless]), and do not look into it either
    ([mapless]). *)

From S2P Require Export Watch Quiet.

(** An id of handleCreate or handleSnapshotRestore. *)
Definition made (id : string) : Prop := exists n, 0 <= n /\ id = "sb-" +:+ itoa n.

Lemma made_id n : 0 <= n -> made ("sb-" +:+ itoa n).
Proof. by exists n. Qed.

Definition harmless {X} (m : memE X) : Prop :=
  match m with
  | SandboxesPut _ _ | SandboxesTake _ | SandboxesSweep => False
  | NewSandbox sb => made (sb_ID sb)
  | _ => True
  end.

Definition mapless {X} (m : memE X) : Prop :=
  match m with SandboxesGet _ => False | m => harmless m end.

Lemma mapless_harmless X (m : memE X) : mapless m -> harmless m.
Proof. by destruct m. Qed.

Section spares.
Context (ok : forall X, envE X -> Prop) (okM : forall X, memE X -> Prop) (ansM : forall X, memE X -> X -> Prop).

Definition spares_pre (X : Type) (e : sysE X) (_ : unit) : Prop :=
  match e with Sys e => ok _ e | Mem m => okM _ m end.

Definition spares_post (X : Type) (e : sysE X) (_ : unit) (x : X) (_ : unit) : Prop :=
  match e in sysE X return X -> Prop with Sys _ => fun _ => True | Mem m => ansM _ m end x.

Definition spares {A} (p : prog sysE A) : Prop := wp spares_pre spares_post p (fun _ _ => True) tt.

Lemma spares_ret {A} (a : A) : spares (Ret a).
Proof. done. Qed.

Lemma spares_panic {A} : spares (@Panic sysE A).
Proof. done. Qed.

Lemma spares_sys {X} (e : envE X) : ok _ e -> spares (sys e).
Proof. by split. Qed.

Lemma spares_mem {X} (m : memE X) : okM _ m -> spares (memory m).
Proof. by split. Qed.

Lemma spares_mem_bind {X A} (m : memE X) (f : X -> prog sysE A) :
  okM _ m -> (forall x, ansM _ m x -> spares (f x)) -> spares (bind (memory m) f).
Proof. intros Hm Hf. split; [done|]. intros x []. apply Hf. Qed.

Lemma spares_bind {A B} (p : prog sysE A) (f : A -> prog sysE B) :
  spares p -> (forall a, spares (f a)) -> spares (bind p f).
Proof. intros Hp Hf. apply wp_bind. eapply wp_mono; [|exact Hp]. intros [a| | |] [] _; try done. apply Hf. Qed.

(** The same with what is known of the value that is returned. *)
Definition spares_val {A} (p : prog sysE A) (P : A -> Prop) : Prop :=
  wp spares_pre spares_post p (fun o _ => match o with Done a => P a | _ => True end) tt.

Lemma spares_val_ret {A} (a : A) (P : A -> Prop) : P a -> spares_val (Ret a) P.
Proof. done. Qed.

Lemma spares_val_call {A B} (p : prog sysE A) (f : A -> prog sysE B) (P : B -> Prop) :
  spares p -> (forall a, spares_val (f a) P) -> spares_val (bind p f) P.
Proof. intros Hp Hf. apply wp_bind. eapply wp_mono; [|exact Hp]. intros [a| | |] [] _; try done. apply Hf. Qed.

Lemma spares_bind_val {A B} (p : prog sysE A) (f : A -> prog sysE B) (P : A -> Prop) :
  spares_val p P -> (forall a, P a -> spares (f a)) -> spares (bind p f).
Proof. intros Hp Hf. apply wp_bind. eapply wp_mono; [|exact Hp]. intros [a| | |] [] Ha; try done. by apply Hf. Qed.

Lemma spares_defer {A} (p : prog sysE A) d : spares p -> spares d -> spares (defer p d).
Proof.
  intros Hp Hd. apply wp_defer. eapply wp_mono; [|exact Hp].
  intros [a| | |] [] _; try done; (eapply wp_mono; [|exact Hd]); by intros [] [].
Qed.

Lemma spares_deferWith {A L} (l0 : L) (p : prog sysE (A * L)) d :
  spares p -> (forall l, spares (d l)) -> spares (deferWith l0 p d).
Proof.
  intros Hp Hd. apply wp_deferWith. eapply wp_mono; [|exact Hp].
  intros [[a l]| | |] [] _; try done; (eapply wp_mono; [|apply Hd]); by intros [] [].
Qed.

Lemma spares_loop {X R} (body : X -> prog sysE (X + R)) n x : (forall x, spares (body x)) -> spares (loop n body x).
Proof.
  intros H. revert x. induction n as [|n IH]; intros x; cbn [loop]; [done|].
  apply spares_bind; [apply H|]. intros [x'|r]; [apply IH|done].
Qed.

Lemma spares_forRange {A R} (l : list A) (body : A -> prog sysE (option R)) rest :
  (forall x, spares (body x)) -> spares rest -> spares (forRange l body rest).
Proof.
  intros H Hr. induction l as [|x l IH]; cbn [forRange]; [done|]. apply spares_bind; [apply H|]. intros [v|]; [done|exact IH].
Qed.

Lemma spares_vis {X A} (e : sysE X) (k : X -> prog sysE A) :
  spares (Vis e k) <-> spares_pre X e tt /\ forall x, spares_post X e tt x tt -> spares (k x).
Proof. split; intros [H1 H2]; (split; [done|]); [intros x; apply H2|intros x []; apply H2]. Qed.

Lemma spares_par {A B} (p : prog sysE A) (q : prog sysE B) :
  ok _ Pick -> spares p -> spares q -> spares (par (Sys Pick) p q).
Proof.
  intros Hok. revert q. induction p as [a| | |X e k IHp]; intros q Hp Hq.
  - destruct q as [b| | |Y e' k']; try done. by apply spares_bind.
  - by destruct q.
  - by destruct q.
  - induction q as [b| | |Y e' k' IHq]; try done.
    + change (spares (bind (Vis e k) (fun a => Ret (a, b)))). by apply spares_bind.
    + apply spares_vis in Hp as Hp'. destruct Hp' as [H1 H2]. apply spares_vis in Hq as [H3 H4].
      apply spares_vis. split; [exact Hok|]. intros [] _.
      * apply spares_vis. split; [done|]. intros x Hx. apply IHp; [by apply H2|]. by apply spares_vis.
      * apply spares_vis. split; [done|]. intros y Hy. by apply IHq, H4.
Qed.

(** Functions that touch no memory. *)
Lemma spares_only (ok' : forall X, envE X -> Prop) {A} (p : prog sysE A) P :
  only ok' p P -> (forall X (e : envE X), ok' X e -> ok X e) -> spares p.
Proof.
  intros Hp Hok. revert Hp. unfold only. generalize tt. induction p as [a| | |X e k IH]; intros u Hp; try done.
  destruct Hp as [Hpre Hk]. apply spares_vis. destruct e as [X e|]; [|done]. split; [by apply Hok|].
  intros x _. exact (IH x u (Hk x u I)).
Qed.

(** What the allowed operations do not change. *)
Lemma spares_leaves {S} (post : forall X, sysE X -> S -> X -> S -> Prop) {A} (p : prog sysE A) :
  (forall X (e : sysE X) s x s', spares_pre X e tt -> post X e s x s' -> s' = s) ->
  (forall X (m : memE X) x, ansM X m x) -> spares p -> leaves_be post p.
Proof.
  intros Hpost Hans. induction p as [a| | |X e k IH]; try done. intros [Hpre Hk]%spares_vis.
  split; [split; [done|]; intros s x s'; by apply Hpost|]. intros x. apply IH, Hk. destruct e; [done|apply Hans].
Qed.

(** *** Runs: whatever the allowed operations keep is kept *)
Section kept.
Context {W : Type} (eh : env W) (I : server -> W -> Prop).
Context (I_mem : forall X (m : memE X) s w x s',
  okM _ m -> mem_step m s = Some (x, s') -> I s w -> ansM _ m x /\ I s' w).
Context (I_env : forall X (e : envE X) s w, ok _ e -> I s w -> I s (snd (eh _ e w))).

Lemma spares_exec {A} (p : prog sysE A) s w :
  spares p -> I s w -> let '(_, (s', w')) := exec eh p s w in I s' w'.
Proof.
  unfold exec. revert s w. induction p as [a| | |X e k IH]; intros s w Hp HI; try done.
  apply spares_vis in Hp as [Hpre Hk]. cbn. destruct e as [X e|X m]; cbn in *.
  - pose proof (I_env X e s w Hpre HI) as HI'. destruct (eh X e w) as [x w']. by apply IH, HI'; apply Hk.
  - destruct (mem_step m s) as [[x s']|] eqn:E; [|done]. destruct (I_mem X m s w x s' Hpre E HI) as [Hx HI'].
    apply IH; [by apply Hk|exact HI'].
Qed.
End kept.
End spares.

Lemma spares_weaken (ok ok' : forall X, envE X -> Prop) (okM okM' : forall X, memE X -> Prop)
    (ansM ansM' : forall X, memE X -> X -> Prop) {A} (p : prog sysE A) :
  (forall X (e : envE X), ok X e -> ok' X e) -> (forall X (m : memE X), okM X m -> okM' X m) ->
  (forall X (m : memE X) x, ansM' X m x -> ansM X m x) ->
  spares ok okM ansM p -> spares ok' okM' ansM' p.
Proof.
  intros H HM HA. induction p as [a| | |X e k IH]; try done. rewrite !spares_vis. intros [H1 H2]. split.
  - destruct e; [by apply H|by apply HM].
  - intros x Hx. apply IH, H2. destruct e; [done|by apply HA].
Qed.

(** ** The functions of the server *)

(** Nothing is assumed of what the memory holds. *)
Definition anything (X : Type) (m : memE X) (x : X) : Prop := True.

Abbreviation silently := (spares not_reply (@mapless) anything).
Abbreviation freely := (spares (fun _ _ => True) (@harmless) anything).
Abbreviation blindly := (spares (fun _ _ => True) (@mapless) anything).

Lemma silently_plain {A} (p : prog sysE A) : quiet p plain -> silently p.
Proof. intros H. by apply (spares_only _ _ _ not_reply p plain). Qed.

Lemma silently_blindly {A} (p : prog sysE A) : silently p -> blindly p.
Proof. by apply spares_weaken. Qed.

Lemma blindly_freely {A} (p : prog sysE A) : blindly p -> freely p.
Proof. apply spares_weaken; [done| |done]. apply mapless_harmless. Qed.

Create HintDb spares discriminated.
#[export] Hint Constants Opaque : spares.

(** One step: [side] proves that an operation is allowed, [call] that a
    function is. *)
Ltac spares_step_with side call :=
  cbv beta iota zeta;
  lazymatch goal with
  | |- spares _ _ _ (Ret _) => apply spares_ret
  | |- spares _ _ _ Panic => apply spares_panic
  | |- spares _ _ _ (bind (Ret ?a) ?k) => change (bind (Ret a) k) with (k a)
  | |- spares _ _ _ (bind (memory _) _) => apply spares_mem_bind; [side|intros ? ?]
  | |- spares _ _ _ (bind _ _) => apply spares_bind; [|intros ?]
  | |- spares _ _ _ (sys _) => apply spares_sys; side
  | |- spares _ _ _ (memory _) => apply spares_mem; side
  | |- spares _ _ _ (defer _ _) => apply spares_defer
  | |- spares _ _ _ (deferWith _ _ _) => apply spares_deferWith; [|intros ?]
  | |- spares _ _ _ (loop _ _ _) => apply spares_loop; intros ?
  | |- spares _ _ _ (forRange _ _ _) => apply spares_forRange; [intros ?|]
  | |- spares _ _ _ (par _ _ _) => apply spares_par; [exact I| |]
  | |- spares _ _ _ (when ?b _) => destruct b; cbn [when]
  | |- spares _ _ _ (match ?x with _ => _ end) => destruct x eqn:?
  | |- spares _ _ _ _ => call
  end.

Ltac spares_step := spares_step_with ltac:(first [exact I|assumption]) ltac:(solve [auto with nocore spares]).

Ltac spares_steps := repeat first [spares_step | apply silently_plain; solve [auto with nocore quiet] | apply silently_blindly, silently_plain; solve [auto with nocore quiet] | apply blindly_freely, silently_blindly, silently_plain; solve [auto with nocore quiet]].

Lemma silently_acquireNetns id : silently (acquireNetns id).
Proof. unfold acquireNetns, Acquire. spares_steps. Qed.
#[export] Hint Resolve silently_acquireNetns : spares.

Lemma silently_releaseNetns nc : silently (releaseNetns nc).
Proof. unfold releaseNetns, Release. spares_steps. Qed.
#[export] Hint Resolve silently_releaseNetns : spares.

Lemma silently_cloneAndAcquire cfg id a b label : silently (cloneAndAcquire cfg id a b label).
Proof. unfold cloneAndAcquire. spares_steps. Qed.
#[export] Hint Resolve silently_cloneAndAcquire : spares.

Lemma silently_boot cfg id d r nc : made id -> silently (bootIntoNetns cfg id d r nc).
Proof. intros Hid. unfold bootIntoNetns. spares_steps. Qed.
#[export] Hint Resolve silently_boot : spares.

Lemma silently_restoreInto cfg id d r a b nc : made id -> silently (restoreIntoNetns cfg id d r a b nc).
Proof. intros Hid. unfold restoreIntoNetns. spares_steps. Qed.
#[export] Hint Resolve silently_restoreInto : spares.

Lemma silently_restore cfg id a b c label keep : made id -> silently (restoreSandboxFromArtifacts cfg id a b c label keep).
Proof. intros Hid. unfold restoreSandboxFromArtifacts. spares_steps. Qed.
#[export] Hint Resolve silently_restore : spares.

Lemma silently_fromUserSnapshot cfg id meta : made id -> silently (createSandboxFromUserSnapshot cfg id meta).
Proof. intros Hid. unfold createSandboxFromUserSnapshot. spares_steps. Qed.
#[export] Hint Resolve silently_fromUserSnapshot : spares.

Lemma silently_createSandbox cfg id : made id -> silently (createSandbox cfg id).
Proof. intros Hid. unfold createSandbox, createSandboxFromSnapshot. spares_steps. Qed.
#[export] Hint Resolve silently_createSandbox : spares.

Lemma silently_waitForExecDrain l t : silently (waitForExecDrain l t).
Proof. unfold waitForExecDrain. spares_steps. Qed.
#[export] Hint Resolve silently_waitForExecDrain : spares.

Lemma silently_dropAgent l : silently (dropAgent l).
Proof. unfold dropAgent. spares_steps. Qed.
#[export] Hint Resolve silently_dropAgent : spares.

Lemma silently_cleanupSandbox l : silently (cleanupSandbox l).
Proof. unfold cleanupSandbox. spares_steps. Qed.
#[export] Hint Resolve silently_cleanupSandbox : spares.

Lemma silently_createUserSnapshot cfg l id n : silently (createUserSnapshotFromSandbox cfg l id n).
Proof. unfold createUserSnapshotFromSandbox. spares_steps. Qed.
#[export] Hint Resolve silently_createUserSnapshot silently_blindly blindly_freely : spares.

(** *** The handlers that neither publish nor take a sandbox *)

Lemma blindly_reply status p : blindly (writeJSON status p).
Proof. by apply spares_sys. Qed.
#[export] Hint Resolve blindly_reply : spares.

Lemma blindly_error status t : blindly (errorReply status t).
Proof. apply blindly_reply. Qed.
#[export] Hint Resolve blindly_error : spares.

Lemma blindly_execOverSSH cfg l req : blindly (execOverSSH cfg l req).
Proof. unfold execOverSSH, runSSHCommand. spares_steps. Qed.
#[export] Hint Resolve blindly_execOverSSH : spares.

Lemma blindly_execOverAgent cfg l req b : blindly (execOverAgent cfg l req b).
Proof. unfold execOverAgent, replyExec. spares_steps. Qed.
#[export] Hint Resolve blindly_execOverAgent : spares.

Lemma blindly_execAdmitted cfg l req : blindly (execAdmitted cfg l req).
Proof. unfold execAdmitted. spares_steps. Qed.
#[export] Hint Resolve blindly_execAdmitted : spares.

Lemma freely_handleExec cfg body : freely (handleExec cfg body).
Proof. unfold handleExec. spares_steps. Qed.

Lemma freely_handleSnapshotCreate cfg body : freely (handleSnapshotCreate cfg body).
Proof. unfold handleSnapshotCreate. spares_steps. Qed.
