(* ===== verification/Plumbing.v ===== *)
(** * The functions between a request and its effects

    Connections to the guest, namespaces and links, the pool, processes that
    are killed: they make, write and remove no file but ip_forward, run no
    command, ask nothing of Firecracker and do not answer. *)

From S2P Require Export Untouched.

Definition plumbing (X : Type) (e : envE X) : Prop :=
  match e with
  | OsMkdirAll _ | OsMkdir _ | OsRemove _ | OsRemoveAll _ | OsOpenTrunc _ | OsRename _ _ => False
  | OsWriteFile p _ => p = "/proc/sys/net/ipv4/ip_forward"%string
  | RunCommand _ _ | StartProcess _ _ _ | HttpDo _ _ _ _ _ | WriteJSON _ _ => False
  | _ => True
  end.

Definition pool_op (X : Type) (m : memE X) : Prop :=
  match m with
  | AddSubnet | PoolEnabled | PoolOnce | PoolRegister _ | PoolAll | PoolRecv _ | PoolSend _ => True
  | _ => False
  end.

Abbreviation plumbs := (spares plumbing pool_op anything).

Create HintDb plumbing discriminated.
#[export] Hint Constants Opaque : plumbing.

Ltac plumbs_steps := repeat spares_step_with ltac:(first [exact I|reflexivity]) ltac:(solve [auto with nocore plumbing]).

Lemma plumbs_killProcessGroup c : plumbs (killProcessGroup c).
Proof. unfold killProcessGroup. plumbs_steps. Qed.

Lemma plumbs_fileExists p : plumbs (fileExists p).
Proof. unfold fileExists. plumbs_steps. Qed.

Lemma plumbs_deleteVeth h v : plumbs (deleteVeth h v).
Proof. unfold deleteVeth. plumbs_steps. Qed.
#[export] Hint Resolve plumbs_killProcessGroup plumbs_fileExists plumbs_deleteVeth : plumbing.

Lemma plumbs_killAndWait pid : plumbs (killAndWait pid).
Proof. unfold killAndWait. plumbs_steps. Qed.

Lemma plumbs_cleanupNetns nc : plumbs (cleanupSandboxNetnsAndRouting nc).
Proof. unfold cleanupSandboxNetnsAndRouting. plumbs_steps. Qed.

Lemma plumbs_setup id n : plumbs (setupSandboxNetnsAndRouting id n).
Proof.
  unfold setupSandboxNetnsAndRouting, newNamedNetns, configureVethAndRoute, withNetns, configureInsideNetns, unlessExist. plumbs_steps.
Qed.
#[export] Hint Resolve plumbs_killAndWait plumbs_cleanupNetns plumbs_setup : plumbing.

Lemma plumbs_acquireNetns id : plumbs (acquireNetns id).
Proof. unfold acquireNetns, Acquire. plumbs_steps. Qed.

Lemma plumbs_releaseNetns nc : plumbs (releaseNetns nc).
Proof. unfold releaseNetns, Release. plumbs_steps. Qed.

Lemma plumbs_Close c : plumbs (Close c).
Proof. unfold Close. plumbs_steps. Qed.

Lemma plumbs_dialAgent p n t : plumbs (dialAgent p n t).
Proof. unfold dialAgent, ReadLine, Close. plumbs_steps. Qed.

Lemma plumbs_Call c r t : plumbs (Call c r t).
Proof. unfold Call, WriteMessage, ReadMessage. plumbs_steps. Qed.
#[export] Hint Resolve plumbs_acquireNetns plumbs_releaseNetns plumbs_Close plumbs_dialAgent plumbs_Call : plumbing.

Lemma plumbs_configureGuest ac nc : plumbs (configureSandboxGuestNetwork ac nc).
Proof. unfold configureSandboxGuestNetwork. plumbs_steps. Qed.

Lemma plumbs_ready p n t d : plumbs (waitForAgentReady p n t d).
Proof. unfold waitForAgentReady. plumbs_steps. Qed.

Lemma plumbs_socketReady p t : plumbs (waitForUnixSocketReady p t).
Proof. unfold waitForUnixSocketReady. plumbs_steps. Qed.
#[export] Hint Resolve plumbs_configureGuest plumbs_ready plumbs_socketReady : plumbing.
