(* ===== verification/Places.v ===== *)
(** * Where the server keeps its files

    The directories of sandboxes, user snapshots, the golden snapshot and
    cgroups; and, function by function, that what the handlers of requests
    make, write, rename and remove is below one of them (or is ip_forward),
    whatever clients and guests say.  The user snapshots are limited to those whose ids are in [ids]. *)

From S2P Require Export Prelude PathFacts Plumbing.

(** ** The places of the server, as lists of path components *)

(** User snapshots among [ids]. *)
Inductive place (cfg : config) (ids : string -> Prop) : list string -> Prop :=
| in_sandbox id rest : made id -> place cfg ids (clean_comps (cfg_WorkDir cfg) ++ "sandboxes"%string :: id :: rest)
| in_user_snapshot id rest : ids id -> place cfg ids (clean_comps (cfg_WorkDir cfg) ++ "user-snapshots"%string :: id :: rest)
| in_golden_snapshot rest : place cfg ids (clean_comps (cfg_WorkDir cfg) ++ "snapshot"%string :: rest)
| in_cgroup id rest : made id -> place cfg ids (clean_comps (cfg_CgroupRoot cfg) ++ id :: rest).

(** An absolute path without . or .. to one of them. *)
Definition ours (cfg : config) (ids : string -> Prop) (p : string) : Prop :=
  exists cs, p = path_of cs /\ Forall (fun s => plain_name s = true) cs /\ place cfg ids cs.

Definition confined (cfg : config) (ids : string -> Prop) (X : Type) (e : envE X) : Prop :=
  match e with
  | OsMkdirAll p | OsMkdir p | OsRemove p | OsRemoveAll p | OsOpenTrunc p => ours cfg ids p
  | OsWriteFile p _ => ours cfg ids p \/ p = "/proc/sys/net/ipv4/ip_forward"%string
  | OsRename a b => ours cfg ids a /\ ours cfg ids b
  | RunCommand name args => name = "cp"%string /\ exists mode src dst, args = [mode; src; dst] /\ ours cfg ids dst
  | StartProcess name args dir =>
      name = "ip"%string /\ ours cfg ids dir
      /\ exists ns rest, args = ["netns"; "exec"; ns; cfg_FirecrackerBin cfg; "--api-sock"; "firecracker.sock"]%string ++ rest
  | _ => True
  end.

Definition none (id : string) : Prop := False.

(** What is stored in a sandbox, and read from it. *)
Definition located (cfg : config) (sb : sandbox) : Prop :=
  ours cfg none (sb_Dir sb) /\ (is_empty (sb_CgroupPath sb) = false -> ours cfg none (sb_CgroupPath sb)).

Definition storing (cfg : config) (X : Type) (m : memE X) : Prop :=
  match m with NewSandbox sb => located cfg sb | _ => True end.

Definition holding (cfg : config) (X : Type) (m : memE X) : X -> Prop :=
  match m in memE X return X -> Prop with
  | LoadSandbox _ => located cfg
  | AddSandboxID | AddSnapshotID => fun n => 0 <= n
  | _ => fun _ => True
  end.

Abbreviation keeps cfg ids := (spares (confined cfg ids) (storing cfg) (holding cfg)).

(** ** Paths *)

Lemma counted_plain c pre n :
  no_slash (String c pre) = true -> c <> "."%char -> 0 <= n -> plain_name (String c pre +:+ itoa n) = true.
Proof.
  intros Hp Hc Hn. unfold plain_name, no_slash in *. rewrite str_forall_app, Hp, itoa_no_sep by done.
  cbn [andb]. rewrite string_app_cons. cbn [is_empty negb andb String.eqb].
  by destruct (Ascii.eqb_spec c "."%char).
Qed.

Lemma made_plain id : made id -> plain_name id = true.
Proof. intros (n & Hn & ->). by apply counted_plain. Qed.

Lemma user_snapshot_plain n : 0 <= n -> plain_name ("us-" +:+ itoa n) = true.
Proof. by apply counted_plain. Qed.

Section paths.
Context (cfg : config).
Context (Hwork : rooted (cfg_WorkDir cfg) = true) (Hcgroup : rooted (cfg_CgroupRoot cfg) = true) (ids : string -> Prop).

Lemma place_snoc cs n : place cfg ids cs -> place cfg ids (cs ++ [n]).
Proof. intros []; rewrite <- app_assoc; by constructor. Qed.

Lemma ours_names p cs :
  rooted p = true -> cs <> [] -> Forall (fun s => plain_name s = true) cs -> place cfg ids (clean_comps p ++ cs) ->
  ours cfg ids (Join (p :: cs)).
Proof.
  intros Hp Hne Hcs Hpl. exists (clean_comps p ++ cs). split; [by apply Join_names|]. split; [|done].
  apply Forall_app. split; [by apply clean_comps_plain|done].
Qed.

Lemma ours_sandbox id : made id -> ours cfg ids (Join [cfg_WorkDir cfg; "sandboxes"%string; id]).
Proof.
  intros Hid. apply ours_names; [done|done| |by apply (in_sandbox cfg ids id [])].
  repeat constructor. by apply made_plain.
Qed.

Lemma ours_cgroup id : made id -> ours cfg ids (Join [cfg_CgroupRoot cfg; id]).
Proof.
  intros Hid. apply ours_names; [done|done| |by apply (in_cgroup cfg ids id [])].
  repeat constructor. by apply made_plain.
Qed.

Lemma ours_golden : ours cfg ids (Join [cfg_WorkDir cfg; "snapshot"%string]).
Proof. apply ours_names; [done|done| |by apply (in_golden_snapshot cfg ids [])]. by repeat constructor. Qed.

Lemma ours_user id : plain_name id = true -> ids id -> ours cfg ids (userSnapshotRootDir (cfg_WorkDir cfg) id).
Proof.
  intros Hid Hin. exists (clean_comps (cfg_WorkDir cfg) ++ ["user-snapshots"%string; id]).
  unfold userSnapshotRootDir, userSnapshotsDir. pose proof (clean_comps_plain _ Hwork) as Hw.
  rewrite (Join_names _ ["user-snapshots"%string]) by (done || by repeat constructor).
  rewrite Join_path_of, <- app_assoc; [|by apply Forall_app; split; [|repeat constructor]|done].
  split; [done|]. split; [|by apply (in_user_snapshot cfg ids id [])]. apply Forall_app. split; [done|]. by repeat constructor.
Qed.

Lemma ours_child d n : ours cfg ids d -> plain_name n = true -> ours cfg ids (Join [d; n]).
Proof.
  intros (cs & -> & Hcs & Hp) Hn. exists (cs ++ [n]). split; [by apply Join_path_of|].
  split; [|by apply place_snoc]. apply Forall_app. split; [done|]. by constructor.
Qed.

Lemma ours_tmp d n x : ours cfg ids d -> plain_name n = true -> plain_name (n +:+ x) = true -> ours cfg ids (Join [d; n] +:+ x).
Proof.
  intros (cs & -> & Hcs & Hp) Hn Hx. exists (cs ++ [n +:+ x]). rewrite Join_path_of by done.
  split; [apply path_of_suffix|]. split; [|by apply place_snoc]. apply Forall_app. split; [done|]. by constructor.
Qed.

Lemma ours_none p : ours cfg none p -> ours cfg ids p.
Proof.
  intros (cs & -> & Hcs & Hp). exists cs. split; [done|]. split; [done|]. destruct Hp; by constructor.
Qed.

End paths.

Create HintDb confine discriminated.
#[export] Hint Constants Opaque : confine.
#[export] Hint Resolve ours_sandbox ours_cgroup ours_golden ours_user ours_child ours_tmp ours_none user_snapshot_plain made_plain made_id : confine.
#[export] Hint Extern 1 (plain_name _ = true) => reflexivity : confine.

Section confine.
Context (cfg : config).
Context (Hwork : rooted (cfg_WorkDir cfg) = true) (Hcgroup : rooted (cfg_CgroupRoot cfg) = true) (ids : string -> Prop).

Lemma keeps_plumbs {A} (p : prog sysE A) : plumbs p -> keeps cfg ids p.
Proof.
  apply spares_weaken; [|by intros X []|done]. intros X e. destruct e; try done. by right.
Qed.

(** An operation is confined, a sandbox located. *)
Ltac confined_side :=
  cbn [confined storing located sb_Dir sb_CgroupPath];
  lazymatch goal with
  | |- True => exact I
  | |- ours _ _ _ => solve [auto with nocore confine]
  | |- ours _ _ _ \/ _ => first [right; reflexivity | left; solve [auto with nocore confine]]
  | |- ours _ _ _ /\ ours _ _ _ => split; solve [auto with nocore confine]
  | |- _ = "cp"%string /\ _ => split; [reflexivity|]; do 3 eexists; split; [reflexivity|solve [auto with nocore confine]]
  | |- _ = "ip"%string /\ _ => split; [reflexivity|]; split; [solve [auto with nocore confine]|do 2 eexists; reflexivity]
  | |- located _ _ => assumption
  | |- _ => assumption
  end.

Ltac keeps_call := first [solve [auto with nocore confine] | apply keeps_plumbs; solve [auto with nocore plumbing]].
Ltac keeps_steps := repeat spares_step_with confined_side keeps_call.

(** *** Requests to Firecracker *)

Lemma keeps_doJSON c m p j : keeps cfg ids (doJSON c m p j).
Proof. unfold doJSON. keeps_steps. Qed.
#[local] Hint Resolve keeps_doJSON : confine.

Lemma keeps_loadRetry c a b r t : keeps cfg ids (loadSnapshotWithRetry c a b r t).
Proof. unfold loadSnapshotWithRetry, loadSnapshot. keeps_steps. Qed.
#[local] Hint Resolve keeps_loadRetry : confine.

(** *** Processes and cgroups *)

Lemma keeps_killCgroup p : (is_empty p = false -> ours cfg none p) -> keeps cfg ids (killCgroup p).
Proof.
  intros Hp. unfold killCgroup. destruct (is_empty (TrimSpace p)) eqn:E; [apply spares_ret|].
  assert (ours cfg none p) by (apply Hp; destruct p; [discriminate E|done]). keeps_steps.
Qed.

Lemma keeps_removeCgroupDir p t : (is_empty p = false -> ours cfg none p) -> keeps cfg ids (removeCgroupDir p t).
Proof.
  intros Hp. unfold removeCgroupDir. destruct (is_empty (TrimSpace p)) eqn:E; [apply spares_ret|].
  assert (ours cfg none p) by (apply Hp; destruct p; [discriminate E|done]). keeps_steps.
Qed.

Lemma keeps_movePid p pid : ours cfg none p -> keeps cfg ids (movePidToCgroup p pid).
Proof. intros Hp. unfold movePidToCgroup. keeps_steps. Qed.

Lemma keeps_abandon pid p : (is_empty p = false -> ours cfg none p) -> keeps cfg ids (abandonVM pid p).
Proof. intros Hp. unfold abandonVM. apply keeps_killCgroup in Hp. keeps_steps. Qed.

Lemma keeps_materialize src dst : ours cfg ids dst -> keeps cfg ids (materializeSandboxRootfs cfg src dst).
Proof. intros Hd. unfold materializeSandboxRootfs, runCmd. keeps_steps. Qed.

Lemma keeps_writeVMConfig p a b n v c : ours cfg none p -> keeps cfg ids (writeVMConfig p cfg a b n v c).
Proof. intros Hp. unfold writeVMConfig. keeps_steps. Qed.

Lemma keeps_openLog p : ours cfg none p -> keeps cfg ids (openSandboxLog p).
Proof. intros Hp. unfold openSandboxLog. keeps_steps. Qed.
#[local] Hint Resolve keeps_movePid keeps_materialize keeps_writeVMConfig keeps_openLog : confine.

Lemma keeps_clone id src dst label : ours cfg none dst -> keeps cfg ids (cloneAndAcquire cfg id src dst label).
Proof. intros Hd. unfold cloneAndAcquire. keeps_steps. Qed.
#[local] Hint Resolve keeps_clone : confine.

(** The cgroup of a new sandbox: none, or a directory of ours. *)
Definition cgroup_ours (p : string) : Prop := is_empty p = false -> ours cfg none p.

Lemma cgroup_none : cgroup_ours EmptyString.
Proof. done. Qed.

Lemma keeps_prepareCgroup id : made id -> spares_val (confined cfg ids) (storing cfg) (holding cfg) (prepareSandboxCgroup cfg id) cgroup_ours.
Proof.
  intros Hid. unfold prepareSandboxCgroup. destruct (negb _); [by apply spares_val_ret|].
  apply spares_val_call; [keeps_steps|]. intros [e|]; apply spares_val_ret; [apply cgroup_none|].
  intros _. auto with confine.
Qed.

Lemma keeps_attachCgroup p pid :
  cgroup_ours p -> spares_val (confined cfg ids) (storing cfg) (holding cfg) (attachSandboxProcessToCgroup p pid) cgroup_ours.
Proof.
  intros Hp. unfold attachSandboxProcessToCgroup. destruct (is_empty p) eqn:E; [by apply spares_val_ret|].
  specialize (Hp E). apply spares_val_call; [keeps_steps|]. intros [e|]; [|by apply spares_val_ret; intros _].
  apply spares_val_call; [keeps_steps|]. intros _. by apply spares_val_ret.
Qed.

Lemma keeps_runtimePaths d :
  ours cfg none d ->
  spares_val (confined cfg ids) (storing cfg) (holding cfg) (prepareSandboxRuntimePaths d) (fun '(_, _, logPath) => ours cfg none logPath).
Proof.
  intros Hd. unfold prepareSandboxRuntimePaths. do 2 (apply spares_val_call; [keeps_steps|intros _]).
  apply spares_val_ret. auto with confine.
Qed.

(** *** The life of a sandbox *)

Ltac keeps_vm :=
  repeat first
    [ lazymatch goal with
      | |- spares _ _ _ (bind (prepareSandboxRuntimePaths _) _) =>
          eapply spares_bind_val; [apply keeps_runtimePaths; assumption|intros [[? ?] ?] ?]
      | |- spares _ _ _ (bind (prepareSandboxCgroup _ _) _) =>
          eapply spares_bind_val; [apply keeps_prepareCgroup; assumption|intros ? ?]
      | |- spares _ _ _ (bind (attachSandboxProcessToCgroup _ _) _) =>
          eapply spares_bind_val; [apply keeps_attachCgroup; assumption|intros ? ?]
      | |- spares _ _ _ (abandonVM _ _) => apply keeps_abandon; assumption
      | |- spares _ _ _ (bind (memory (NewSandbox _)) _) => apply spares_mem_bind; [split; assumption|intros ? _]
      end
    | spares_step_with confined_side keeps_call ].

Lemma keeps_boot id d r nc : made id -> ours cfg none d -> keeps cfg ids (bootIntoNetns cfg id d r nc).
Proof.
  intros Hid Hd. unfold bootIntoNetns. keeps_vm.
Qed.

Lemma keeps_restoreInto id d r a b nc : made id -> ours cfg none d -> keeps cfg ids (restoreIntoNetns cfg id d r a b nc).
Proof.
  intros Hid Hd. unfold restoreIntoNetns. keeps_vm.
Qed.
#[local] Hint Resolve keeps_boot keeps_restoreInto : confine.

Lemma keeps_restore id a b c label keep : made id -> keeps cfg ids (restoreSandboxFromArtifacts cfg id a b c label keep).
Proof. intros Hid. unfold restoreSandboxFromArtifacts. keeps_steps. Qed.
#[local] Hint Resolve keeps_restore : confine.

Lemma keeps_fromUserSnapshot id meta : made id -> keeps cfg ids (createSandboxFromUserSnapshot cfg id meta).
Proof. intros Hid. unfold createSandboxFromUserSnapshot. keeps_steps. Qed.
#[local] Hint Resolve keeps_fromUserSnapshot : confine.

(** *** The golden snapshot *)

Lemma keeps_ensure : keeps cfg ids (ensureSnapshot cfg).
Proof.
  unfold ensureSnapshot, buildSnapshot, takeGoldenSnapshot, writeSnapshotMeta, resetSnapshotDir, validateSnapshotMeta, pauseVM,
    createFullSnapshot, snapshotLayout.
  cbn [sp_Dir sp_BaseDir sp_BaseDisk sp_StateFile sp_MemFile sp_MetaFile]. keeps_steps.
Qed.
#[local] Hint Resolve keeps_ensure : confine.

Lemma keeps_createSandbox id : made id -> keeps cfg ids (createSandbox cfg id).
Proof. intros Hid. unfold createSandbox, createSandboxFromSnapshot. keeps_steps. Qed.
#[local] Hint Resolve keeps_createSandbox : confine.

(** *** User snapshots *)

Lemma keeps_writeMeta meta : plain_name (um_SnapshotID meta) = true -> ids (um_SnapshotID meta) -> keeps cfg ids (writeUserSnapshotMeta cfg meta).
Proof. intros Hid Hin. unfold writeUserSnapshotMeta, userSnapshotMetaPath. keeps_steps. Qed.
#[local] Hint Resolve keeps_writeMeta : confine.

Lemma keeps_dropAgent l : keeps cfg ids (dropAgent l).
Proof. unfold dropAgent. keeps_steps. Qed.
#[local] Hint Resolve keeps_dropAgent : confine.

Lemma keeps_pausedVM fc sb id name dir :
  plain_name id = true -> ids id -> ours cfg ids dir -> keeps cfg ids (snapshotPausedVM cfg fc sb id name dir).
Proof. intros Hid Hin Hd. unfold snapshotPausedVM, createFullSnapshot, resumeVM. keeps_steps. Qed.
#[local] Hint Resolve keeps_pausedVM : confine.

Lemma keeps_createUserSnapshot l id name : plain_name id = true -> ids id -> keeps cfg ids (createUserSnapshotFromSandbox cfg l id name).
Proof. intros Hid Hin. unfold createUserSnapshotFromSandbox, pauseVM, resumeVM. keeps_steps. Qed.

Lemma keeps_loadMeta id : keeps cfg ids (loadUserSnapshotMeta cfg id).
Proof. unfold loadUserSnapshotMeta. keeps_steps. Qed.
#[local] Hint Resolve keeps_createUserSnapshot keeps_loadMeta : confine.

Lemma keeps_loadEntries entries : keeps cfg ids (loadEntries cfg entries).
Proof. induction entries as [|[name isDir] entries IH]; cbn [loadEntries]; keeps_steps; exact IH. Qed.
#[local] Hint Resolve keeps_loadEntries : confine.

(** *** The end of a sandbox *)

Lemma keeps_cleanupSandbox l : keeps cfg ids (cleanupSandbox l).
Proof.
  unfold cleanupSandbox, stopProcess. apply spares_bind; [auto with nocore confine|intros _].
  apply spares_mem_bind; [exact I|]. intros sb [Hdir Hcg].
  apply spares_bind; [keeps_steps|intros _].
  apply spares_bind; [case (is_empty (sb_CgroupPath sb)); [apply spares_ret|by apply keeps_killCgroup]|intros ?].
  apply spares_bind; [keeps_steps|intros ?].
  apply spares_bind; [case (is_empty (sb_CgroupPath sb)); [apply spares_ret|by apply keeps_removeCgroupDir]|intros ?].
  apply spares_mem_bind; [exact I|]. intros sb' [Hdir' Hcg']. keeps_steps.
Qed.

Lemma keeps_drain l t : keeps cfg ids (waitForExecDrain l t).
Proof. unfold waitForExecDrain. keeps_steps. Qed.
#[local] Hint Resolve keeps_cleanupSandbox keeps_drain : confine.

(** *** The requests and the shutdown *)

Lemma keeps_execAdmitted l req : keeps cfg ids (execAdmitted cfg l req).
Proof.
  unfold execAdmitted, execOverSSH, execOverAgent, runSSHCommand, replyExec, errorReply, writeJSON, waitForExecSSH, dialSSH. keeps_steps.
Qed.
#[local] Hint Resolve keeps_execAdmitted : confine.

Ltac keeps_handler :=
  cbn [serve];
  unfold handleCreate, handleExec, handleDestroy, handleSnapshotCreate, handleSnapshotRestore, handleSnapshotList, handleSnapshotDelete,
    listUserSnapshots, errorReply, writeJSON; keeps_steps.

(** The requests that write no user snapshot. *)
Lemma keeps_serve_other r :
  match r with RSnapshotCreate _ | RSnapshotDelete _ => False | _ => True end -> keeps cfg ids (serve cfg r).
Proof. destruct r; try done; intros _; keeps_handler. Qed.

Lemma keeps_handleDelete body :
  (forall raw id, decodeJSON (fun strict => dec_one strict "snapshot_id") EmptyString body = Some raw -> normalizeSnapshotID raw = Ok id -> ids id) ->
  keeps cfg ids (handleSnapshotDelete cfg body).
Proof.
  intros Hids. keeps_handler. apply spares_sys, ours_user; [done|by eapply normalizeSnapshotID_plain|eauto].
Qed.

Lemma keeps_serve r : (forall id, ids id) -> keeps cfg ids (serve cfg r).
Proof.
  intros Hids. destruct r; try (by apply keeps_serve_other); [keeps_handler|by apply keeps_handleDelete].
Qed.

Lemma keeps_shutdown : keeps cfg ids shutdown.
Proof. unfold shutdown, Destroy, destroyAll. keeps_steps. Qed.
End confine.


(** ** Every sandbox is where it should be *)

Definition heap_located (cfg : config) (s : server) : Prop := Forall (located cfg) (s_heap s).

Lemma on_sandbox_located {X} cfg l (f : sandbox -> sandbox * X) s x s' :
  (forall sb, sb_Dir (fst (f sb)) = sb_Dir sb /\ sb_CgroupPath (fst (f sb)) = sb_CgroupPath sb) ->
  heap_located cfg s -> on_sandbox l f s = Some (x, s') ->
  (exists sb, located cfg sb /\ f sb = (fst (f sb), x)) /\ heap_located cfg s'.
Proof.
  intros Hf Hs. unfold on_sandbox. destruct (s_heap s !! l) as [sb|] eqn:Hl; [|done].
  pose proof (proj1 (Forall_lookup _ _) Hs l sb Hl) as Hsb. specialize (Hf sb).
  destruct (f sb) as [sb' y] eqn:E. cbn in Hf. intros [= <- <-]. split; [exists sb; by rewrite E|].
  apply Forall_insert; [done|]. unfold located in *. by destruct Hf as [-> ->].
Qed.

Lemma on_pool_heap {X} (f : netnsPool -> option (X * netnsPool)) s x s' :
  on_pool f s = Some (x, s') -> s_heap s' = s_heap s.
Proof. unfold on_pool. destruct (s_netnsPool s) as [p|]; [|done]. destruct (f p) as [[y p']|]; [|done]. by intros [= _ <-]. Qed.

Lemma on_sandbox_heap {X} cfg l (f : sandbox -> sandbox * X) s x s' :
  (forall sb, sb_Dir (fst (f sb)) = sb_Dir sb /\ sb_CgroupPath (fst (f sb)) = sb_CgroupPath sb) ->
  heap_located cfg s -> on_sandbox l f s = Some (x, s') -> heap_located cfg s'.
Proof. intros Hf Hs H. by apply (on_sandbox_located cfg l f s x s' Hf Hs H). Qed.

Lemma mem_step_located {X} cfg (m : memE X) s x s' :
  storing cfg X m -> mem_step m s = Some (x, s') -> heap_located cfg s -> holding cfg X m x /\ heap_located cfg s'.
Proof.
  intros Hm Hstep Hs. destruct m; cbn in Hm, Hstep |- *; try (by simplify_eq);
    try (split; [done|]; unfold heap_located; by erewrite on_pool_heap by exact Hstep);
    try (split; [done|]; eapply on_sandbox_heap; [|exact Hs|exact Hstep]; intros sb; try by split).
  - simplify_eq. split; [apply Z.mod_pos_bound; lia|done].
  - simplify_eq. split; [apply Z.mod_pos_bound; lia|done].
  - simplify_eq. split; [done|]. apply Forall_app. split; [done|]. by constructor.
  - destruct (on_sandbox_located cfg l (fun sb => (sb, sb)) s x s') as [(sb & Hsb & E) H]; try done. by injection E as <-.
  - destruct (s_heap s !! l) as [sb|] eqn:Hl; [|done]. destruct (sb_agentMu sb); [done|]. simplify_eq.
    split; [done|]. apply Forall_insert; [done|]. exact (proj1 (Forall_lookup _ _) Hs l sb Hl).
  - unfold tryStartExec. by destruct (sb_state sb).
  - unfold finishExec. by destruct (_ >? _).
  - unfold beginDestroy. by destruct (bool_decide _).
Qed.
