(* ===== verification/NetnsNames.v ===== *)
(** * The namespaces that requests name

    The named network namespaces are files of /var/run/netns.  Function by
    function: the names that requests and the shutdown make and delete there
    are those of sandboxes with ids that the server has given, and of the
    entries of the pool, whatever clients and guests say. *)

From S2P Require Export Prelude PathFacts TrimFacts Plumbing.

(** ** Names *)

(** A namespace of the server: the name has no slash. *)
Definition netns_ours (n : string) : Prop :=
  plain_name n = true
  /\ exists id, n = netnsNameForSandbox id /\ (made id \/ id = "snapshot"%string \/ exists i, 1 <= i /\ id = poolEntryID i).

Definition named (nc : netnsConfig) : Prop := netns_ours (nc_NetnsName nc).

Definition name_char (c : ascii) : bool := is_visible c && negb (Ascii.eqb c "/").

Lemma digit_name_char c : is_digit c = true -> name_char c = true.
Proof.
  intros Hc. unfold name_char. apply andb_true_iff. split.
  - revert Hc. unfold is_digit, is_visible, Json.between. rewrite !andb_true_iff, !Z.leb_le. lia.
  - by destruct (Ascii.eqb_spec c "/") as [->|].
Qed.

Lemma itoa_name_char n : 0 <= n -> str_forall name_char (itoa n) = true.
Proof. intros Hn. eapply str_forall_impl; [|by apply itoa_nonneg]. apply digit_name_char. Qed.

Lemma str_forall_substring f n m s : str_forall f s = true -> str_forall f (String.substring n m s) = true.
Proof.
  revert n m. induction s as [|c s IH]; intros [|n] [|m]; cbn; try done; rewrite andb_true_iff; intros [Hc Hs].
  - by rewrite Hc, IH.
  - by apply IH.
  - by apply IH.
Qed.

Lemma netnsName_plain id :
  str_forall name_char id = true -> is_empty id = false -> plain_name (netnsNameForSandbox id) = true.
Proof.
  intros Hid Hne. unfold netnsNameForSandbox.
  rewrite TrimSpace_visible by (eapply str_forall_impl; [|exact Hid]; intros c [? _]%andb_prop; done). rewrite Hne.
  assert (str_forall (fun c => negb (Ascii.eqb c "/")) id = true) as Hs.
  { eapply str_forall_impl; [|exact Hid]. by intros c [_ ?]%andb_prop. }
  unfold plain_name, no_slash. destruct (63 <? _)%nat.
  - unfold take_bytes. rewrite str_forall_substring by (by rewrite str_forall_app, Hs). done.
  - by rewrite str_forall_app, Hs.
Qed.

Lemma made_chars id : made id -> str_forall name_char id = true /\ is_empty id = false.
Proof. intros (n & Hn & ->). by rewrite str_forall_app, itoa_name_char. Qed.

Lemma pool_chars i : 1 <= i -> str_forall name_char (poolEntryID i) = true /\ is_empty (poolEntryID i) = false.
Proof.
  intros Hi. unfold poolEntryID, fmt03d, pad_left. rewrite (proj2 (Z.ltb_ge i 0)) by lia.
  split; [|done]. rewrite !str_forall_app, (itoa_name_char i) by lia. rewrite andb_true_r.
  by destruct (3 - String.length (itoa i))%nat as [|[|[|[|n]]]] eqn:E; [..|lia].
Qed.

Lemma netns_made id : made id -> netns_ours (netnsNameForSandbox id).
Proof. intros H. split; [by apply netnsName_plain; apply made_chars|eauto]. Qed.

Lemma netns_pool i : 1 <= i -> netns_ours (netnsNameForSandbox (poolEntryID i)).
Proof. intros H. split; [by apply netnsName_plain; apply pool_chars|eauto 7]. Qed.

Lemma netns_golden : netns_ours (netnsNameForSandbox "snapshot").
Proof. split; [reflexivity|eauto]. Qed.

(** ** What is asked and what is stored *)

Definition naming (X : Type) (e : envE X) : Prop :=
  match e with NetnsNewNamed n | NetnsDeleteNamed n => netns_ours n | _ => True end.

Definition named_sandbox (sb : sandbox) : Prop := match sb_Netns sb with Some nc => named nc | None => True end.

Definition keeping (X : Type) (m : memE X) : Prop :=
  match m with
  | NewSandbox sb => named_sandbox sb
  | PoolRegister nc | PoolSend nc | SetNetns _ (Some nc) => named nc
  | _ => True
  end.

Definition finding (X : Type) (m : memE X) : X -> Prop :=
  match m in memE X return X -> Prop with
  | LoadSandbox _ => named_sandbox
  | PoolRecv _ => fun r => match r with Some nc => named nc | None => True end
  | PoolAll => Forall named
  | AddSandboxID => fun n => 0 <= n
  | _ => fun _ => True
  end.

Abbreviation names := (spares naming keeping finding).

(** What is known of the value of a function that touches no memory. *)
Lemma names_val (ok' : forall X, envE X -> Prop) {A} (p : prog sysE A) P :
  names p -> only ok' p (returns P) -> spares_val naming keeping finding p P.
Proof.
  unfold only. generalize tt. unfold spares_val, spares. generalize tt. induction p as [a| | |X e k IH]; intros u1 u2 Hp Ho; try done.
  destruct Hp as [H1 H2], Ho as [H3 H4]. split; [exact H1|]. intros x u Hx. apply (IH x u tt); [by apply H2|].
  apply H4. destruct e; [done|by destruct H3].
Qed.

Lemma names_par_val {A B} (p : prog sysE A) (q : prog sysE B) P :
  spares_val naming keeping finding p P -> names q -> spares_val naming keeping finding (par (Sys Pick) p q) (fun x => P (fst x)).
Proof.
  unfold spares_val. revert q. induction p as [a| | |X e k IHp]; intros q Hp Hq.
  - destruct q as [b| | |Y e' k']; try done. apply wp_bind. eapply wp_mono; [|exact Hq]. by intros [] [].
  - by destruct q.
  - by destruct q.
  - induction q as [b| | |Y e' k' IHq]; try done.
    + apply (wp_bind _ _ (Vis e k)). eapply wp_mono; [|exact Hp]. by intros [] [].
    + destruct Hp as [H1 H2]. pose proof Hq as Hq'. destruct Hq' as [H3 H4]. split; [exact I|]. intros [] [] _.
      * split; [exact H1|]. intros x [] Hx. apply IHp; [by apply (H2 x tt)|exact Hq].
      * split; [exact H3|]. intros y [] Hy. by apply IHq, (H4 y tt).
Qed.

(** ** Function by function *)

Create HintDb netns discriminated.
#[export] Hint Constants Opaque : netns.
#[export] Hint Resolve netns_made netns_pool netns_golden : netns.

Ltac named_side :=
  cbn [naming keeping named_sandbox sb_Netns];
  first [exact I | assumption | solve [unfold named in *; auto with nocore netns]].

Ltac head_of t := lazymatch t with ?f _ => head_of f | _ => t end.

(** A function without a lemma of its own is unfolded. *)
Ltac names_call :=
  first
    [ solve [auto with nocore netns]
    | lazymatch goal with |- spares _ _ _ ?p => let f := head_of p in unfold f end ].

Ltac names_steps := repeat spares_step_with named_side names_call.

(** *** Namespaces *)

Definition setup_named (id : string) (r : result netnsConfig) : Prop :=
  match r with Ok nc => nc_NetnsName nc = netnsNameForSandbox id | Err _ => True end.

Lemma configureVeth_named id n h rh :
  calm (configureVethAndRoute (netnsNameForSandbox id) n h rh) (returns (fun p => setup_named id (fst p))).
Proof. unfold configureVethAndRoute, unlessExist. only_steps. Qed.

Lemma setup_returns_named id n : calm (setupSandboxNetnsAndRouting id n) (returns (setup_named id)).
Proof.
  unfold setupSandboxNetnsAndRouting. only_steps.
  eapply only_mono; [apply configureVeth_named|]. intros [[r b]| | |] H; try done. only_steps.
Qed.

Lemma names_setup id n : netns_ours (netnsNameForSandbox id) -> names (setupSandboxNetnsAndRouting id n).
Proof. intros H. unfold setupSandboxNetnsAndRouting. names_steps. Qed.
#[export] Hint Resolve names_setup : netns.

Definition slot_named (r : result netnsConfig) : Prop := match r with Ok nc => named nc | Err _ => True end.

Lemma setup_named_ours id r : netns_ours (netnsNameForSandbox id) -> setup_named id r -> slot_named r.
Proof. intros H. destruct r as [nc|]; [|done]. unfold setup_named, slot_named, named. by intros ->. Qed.

Abbreviation names_giving := (spares_val naming keeping finding).

(** The rest of a program whose last value is known. *)
Lemma spares_val_mem {X A} (m : memE X) (f : X -> prog sysE A) P :
  keeping X m -> (forall x, finding X m x -> names_giving (f x) P) -> names_giving (bind (memory m) f) P.
Proof. intros Hm Hf. split; [done|]. intros x []. apply Hf. Qed.

Lemma acquired_named id : netns_ours (netnsNameForSandbox id) -> names_giving (acquireNetns id) slot_named.
Proof.
  intros H.
  assert (names_giving (let! subnet := memory AddSubnet in setupSandboxNetnsAndRouting id subnet) slot_named) as Hd.
  { apply spares_val_mem; [done|]. intros n _.
    eapply names_val; [by apply names_setup|]. eapply only_mono; [apply setup_returns_named|].
    intros [r| | |]; try done. intros Hr. by apply (setup_named_ours id). }
  unfold acquireNetns, Acquire. apply spares_val_mem; [done|]. intros [|] _; [|exact Hd].
  apply spares_val_mem; [done|]. intros [nc|] Hnc; [by apply spares_val_ret|exact Hd].
Qed.

Lemma names_acquireNetns id : netns_ours (netnsNameForSandbox id) -> names (acquireNetns id).
Proof. intros H. eapply wp_mono; [|by apply acquired_named]. done. Qed.

Lemma names_releaseNetns nc : match nc with Some nc => named nc | None => True end -> names (releaseNetns nc).
Proof. intros H. unfold releaseNetns, Release. destruct nc as [nc|]; [|done]. names_steps. Qed.

Lemma names_cleanupNetns nc : named nc -> names (cleanupSandboxNetnsAndRouting (Some nc)).
Proof. intros H. names_steps. Qed.
#[export] Hint Resolve names_acquireNetns names_releaseNetns names_cleanupNetns : netns.

(** *** The functions of a sandbox *)

Lemma names_dialAgent p n t : names (dialAgent p n t).
Proof. names_steps. Qed.

Lemma names_Call c r t : names (Call c r t).
Proof. names_steps. Qed.
#[export] Hint Resolve names_dialAgent names_Call : netns.

Lemma names_ready p n t d : names (waitForAgentReady p n t d).
Proof. names_steps. Qed.

Lemma names_configureGuest ac nc : names (configureSandboxGuestNetwork ac nc).
Proof. names_steps. Qed.

Lemma names_doJSON c m p j : names (doJSON c m p j).
Proof. names_steps. Qed.

Lemma names_materialize cfg src dst : names (materializeSandboxRootfs cfg src dst).
Proof. names_steps. Qed.

Lemma names_abandonVM pid p : names (abandonVM pid p).
Proof. names_steps. Qed.
#[export] Hint Resolve names_ready names_configureGuest names_doJSON names_materialize names_abandonVM : netns.

Lemma clone_named cfg id src dst label :
  netns_ours (netnsNameForSandbox id) -> names_giving (cloneAndAcquire cfg id src dst label) slot_named.
Proof.
  intros H. unfold cloneAndAcquire. apply wp_bind. eapply wp_mono; [|apply names_par_val; [by apply acquired_named|names_steps]].
  intros [[[nc|e] [c|]]| | |] [] Hr; try done; cbn [bindQ]; cbn in Hr.
  apply spares_val_call; [by apply names_releaseNetns|]. intros _. by apply spares_val_ret.
Qed.

Lemma names_boot cfg id d r nc : named nc -> names (bootIntoNetns cfg id d r nc).
Proof. intros H. unfold bootIntoNetns. names_steps. Qed.

Lemma names_restoreInto cfg id d r a b nc : named nc -> names (restoreIntoNetns cfg id d r a b nc).
Proof. intros H. unfold restoreIntoNetns. names_steps. Qed.
#[export] Hint Resolve names_boot names_restoreInto : netns.

(** With the slot that cloneAndAcquire gives. *)
Lemma names_with_slot cfg id src dst label {A} (f : result netnsConfig -> prog sysE A) :
  netns_ours (netnsNameForSandbox id) -> (forall r, slot_named r -> names (f r)) ->
  names (bind (cloneAndAcquire cfg id src dst label) f).
Proof. intros H. apply spares_bind_val. by apply clone_named. Qed.

Ltac names_life :=
  repeat first
    [ lazymatch goal with
      | |- spares _ _ _ (bind (cloneAndAcquire _ _ _ _ _) _) =>
          apply names_with_slot; [solve [auto with nocore netns]|intros [?|?] ?; cbn [slot_named] in *]
      end
    | spares_step_with named_side names_call ].

Lemma names_restore cfg id a b c label keep : made id -> names (restoreSandboxFromArtifacts cfg id a b c label keep).
Proof. intros H. unfold restoreSandboxFromArtifacts. names_life. Qed.
#[export] Hint Resolve names_restore : netns.

Lemma names_fromUserSnapshot cfg id meta : made id -> names (createSandboxFromUserSnapshot cfg id meta).
Proof. intros H. unfold createSandboxFromUserSnapshot. names_steps. Qed.
#[export] Hint Resolve names_fromUserSnapshot : netns.

Lemma names_takeGolden cfg sp pid : names (takeGoldenSnapshot cfg sp pid).
Proof. unfold takeGoldenSnapshot. names_steps. Qed.
#[export] Hint Resolve names_takeGolden : netns.

Lemma names_build cfg sp : names (buildSnapshot cfg sp).
Proof.
  unfold buildSnapshot. repeat first
    [ lazymatch goal with
      | |- spares _ _ _ (bind (setupSandboxNetnsAndRouting _ _) _) =>
          eapply spares_bind_val;
            [eapply names_val; [apply names_setup, netns_golden|eapply only_mono; [apply setup_returns_named|]]
            |intros [nc|e] Hr; [pose proof (setup_named_ours _ _ netns_golden Hr : named nc)|]]
      end
    | spares_step_with named_side names_call ].
  by intros [r| | |].
Qed.
#[export] Hint Resolve names_build : netns.

Lemma names_createSandbox cfg id : made id -> names (createSandbox cfg id).
Proof. intros H. unfold createSandbox, createSandboxFromSnapshot. names_life. Qed.
#[export] Hint Resolve names_createSandbox : netns.

Lemma names_dropAgent l : names (dropAgent l).
Proof. unfold dropAgent. names_steps. Qed.
#[export] Hint Resolve names_dropAgent : netns.

Lemma names_createUserSnapshot cfg l id name : names (createUserSnapshotFromSandbox cfg l id name).
Proof. unfold createUserSnapshotFromSandbox. names_steps. Qed.
#[export] Hint Resolve names_createUserSnapshot : netns.

Lemma names_cleanupSandbox l : names (cleanupSandbox l).
Proof.
  unfold cleanupSandbox. apply spares_bind; [auto with nocore netns|intros _].
  apply spares_mem_bind; [exact I|]. intros sb _.
  apply spares_bind; [names_steps|intros _].
  apply spares_bind; [case (is_empty (sb_CgroupPath sb)); names_steps|intros cgErr].
  apply spares_bind; [names_steps|intros ?].
  apply spares_bind; [case (is_empty (sb_CgroupPath sb)); names_steps|intros ?].
  apply spares_mem_bind; [exact I|]. intros sb' Hsb'.
  apply spares_bind; [by apply names_releaseNetns|intros _]. names_steps.
Qed.
#[export] Hint Resolve names_cleanupSandbox : netns.

(** *** The requests and the shutdown *)

Lemma names_loadMeta cfg id : names (loadUserSnapshotMeta cfg id).
Proof. names_steps. Qed.
#[export] Hint Resolve names_loadMeta : netns.

Lemma names_loadEntries cfg entries : names (loadEntries cfg entries).
Proof. induction entries as [|[name isDir] entries IH]; cbn [loadEntries]; names_steps; exact IH. Qed.
#[export] Hint Resolve names_loadEntries : netns.

Lemma names_execAdmitted cfg l req : names (execAdmitted cfg l req).
Proof. unfold execAdmitted. names_steps. Qed.
#[export] Hint Resolve names_execAdmitted made_id : netns.

Lemma names_serve cfg r : names (serve cfg r).
Proof. destruct r; cbn [serve]; names_steps. Qed.

Lemma names_drain l t : names (waitForExecDrain l t).
Proof. names_steps. Qed.
#[export] Hint Resolve names_drain : netns.

Lemma names_Destroy : names Destroy.
Proof.
  unfold Destroy. apply spares_mem_bind; [exact I|]. intros all Hall. cbn [finding] in Hall.
  induction Hall as [|nc all Hnc _ IH]; cbn [forRange]; [exact I|].
  apply spares_bind; [|intros [[]|]; [exact I|exact IH]].
  apply spares_bind; [by apply names_cleanupNetns|]. by intros _.
Qed.
#[export] Hint Resolve names_Destroy : netns.

Lemma names_shutdown : names shutdown.
Proof. unfold shutdown, destroyAll. names_steps. Qed.

(** ** Every slot that the server keeps is named *)

Definition all_named (s : server) : Prop :=
  Forall named_sandbox (s_heap s)
  /\ match s_netnsPool s with Some p => Forall named (pool_ch p) /\ Forall named (pool_all p) | None => True end.

Lemma on_sandbox_named {X} l (f : sandbox -> sandbox * X) s x s' :
  (forall sb, named_sandbox sb -> named_sandbox (fst (f sb))) -> all_named s -> on_sandbox l f s = Some (x, s') ->
  (exists sb, named_sandbox sb /\ snd (f sb) = x) /\ all_named s'.
Proof.
  intros Hf [Hs Hp]. unfold on_sandbox. destruct (s_heap s !! l) as [sb|] eqn:Hl; [|done].
  pose proof (proj1 (Forall_lookup _ _) Hs l sb Hl) as Hsb. specialize (Hf sb Hsb).
  destruct (f sb) as [sb' y] eqn:E. intros [= <- <-]. split; [exists sb; by rewrite E|].
  split; [by apply Forall_insert|exact Hp].
Qed.

Lemma on_pool_named {X} (f : netnsPool -> option (X * netnsPool)) (P : X -> Prop) s x s' :
  (forall p y p', Forall named (pool_ch p) -> Forall named (pool_all p) -> f p = Some (y, p') ->
    P y /\ Forall named (pool_ch p') /\ Forall named (pool_all p')) ->
  all_named s -> on_pool f s = Some (x, s') -> P x /\ all_named s'.
Proof.
  intros Hf [Hs Hp]. unfold on_pool. destruct (s_netnsPool s) as [p|] eqn:E; [|done].
  destruct (f p) as [[y p']|] eqn:Ef; [|done]. intros [= <- <-]. destruct Hp as [H1 H2].
  destruct (Hf p y p' H1 H2 Ef) as (HP & H3). split; [done|]. by split.
Qed.

Lemma mem_step_named {X} (m : memE X) s x s' :
  keeping X m -> mem_step m s = Some (x, s') -> all_named s -> finding X m x /\ all_named s'.
Proof.
  intros Hm Hstep Hs. destruct m; cbn in Hm, Hstep |- *;
    try (simplify_eq; split; [try done; by apply Z.mod_pos_bound|exact Hs]);
    try (split; [exact I|]; by eapply on_sandbox_named in Hstep as [_ ?]).
  - simplify_eq. split; [exact I|]. destruct Hs as [Hs Hp]. split; [|exact Hp]. apply Forall_app. split; [done|by constructor].
  - apply on_sandbox_named in Hstep as [(sb & Hsb & <-) Hs']; [|done|done]. by split.
  - destruct (s_heap s !! l) as [sb|] eqn:Hl; [|done]. destruct (sb_agentMu sb); [done|]. simplify_eq. split; [exact I|].
    destruct Hs as [Hs Hp]. split; [|exact Hp]. apply Forall_insert; [done|]. exact (proj1 (Forall_lookup _ _) Hs l sb Hl).
  - split; [exact I|]. apply on_sandbox_named in Hstep as [_ ?]; [done| |done]. intros sb. unfold tryStartExec. by destruct (sb_state sb).
  - split; [exact I|]. apply on_sandbox_named in Hstep as [_ ?]; [done| |done]. intros sb. unfold finishExec. by destruct (_ >? _).
  - split; [exact I|]. apply on_sandbox_named in Hstep as [_ ?]; [done| |done]. intros sb. unfold beginDestroy. by destruct (bool_decide _).
  - refine (on_pool_named _ (fun _ => True) s x s' _ Hs Hstep). by intros p y p' H1 H2 [= <- <-].
  - refine (on_pool_named _ (fun _ => True) s x s' _ Hs Hstep). intros p y p' H1 H2 [= <- <-].
    split_and!; [done|done|]. apply Forall_app. split; [done|by constructor].
  - refine (on_pool_named _ (Forall named) s x s' _ Hs Hstep). by intros p y p' H1 H2 [= <- <-].
  - refine (on_pool_named _ (fun r => match r with Some nc => named nc | None => True end) s x s' _ Hs Hstep).
    intros p y p' H1 H2. destruct (pool_ch p) as [|nc ch] eqn:Ech; intros [= <- <-]; [by rewrite Ech|].
    by apply Forall_cons in H1 as [??].
  - refine (on_pool_named _ (fun _ => True) s x s' _ Hs Hstep). intros p y p' H1 H2.
    destruct (match pool_size p with O => false | S m => length (pool_ch p) <=? m end)%nat; intros [= <- <-]. split_and!; [done| |done]. apply Forall_app. split; [done|by constructor].
Qed.
