(* ===== verification/ClientServer.v ===== *)
(** * The benchmark clients and the server agree on their JSON

    The bodies that the clients send, read by the handlers' decoder; the
    payloads that the handlers answer with, read by the clients. *)

From S2P Require Export WireFacts Handlers BenchFacts.

(** json.NewEncoder(w).Encode and json.Unmarshal. *)
Lemma unmarshal_payload j : int_numbers j -> unmarshal_text (marshal j +:+ NL) = Some (on_wire j).
Proof.
  intros Hj. unfold unmarshal_text, marshal. by rewrite parse_print by (done || by apply text_fuel_enough).
Qed.

Lemma Unmarshal_payload {T} (dec : bool -> json -> T -> option T) zero p :
  int_numbers (payload_json p) -> Unmarshal dec zero (payload_body p) = dec false (on_wire (payload_json p)) zero.
Proof. intros H. unfold Unmarshal, payload_body. by rewrite unmarshal_payload. Qed.

Lemma decodeJSON_marshal {T} (dec : bool -> json -> T -> option T) zero j :
  int_numbers j -> decodeJSON dec zero (marshal j) = dec true (on_wire j) zero.
Proof.
  intros Hj. unfold decodeJSON. rewrite <- (string_app_nil_r (marshal j)).
  by rewrite decode_first_marshal.
Qed.

(** ** Requests *)

Definition texts (l : list (string * string)) : json := JObj (map (fun p => (fst p, JStr (snd p))) l).

Lemma ints_texts l : int_numbers (texts l).
Proof. cbn. rewrite map_map. induction l; constructor; done. Qed.

Lemma texts_id l :
  Forall (fun p => ValidString (fst p) = true /\ ValidString (snd p) = true) l -> on_wire (texts l) = texts l.
Proof.
  intros H. apply on_wire_id. cbn. rewrite map_map. induction H; by constructor.
Qed.

(** A body of the clients in the decoder of a handler. *)
Lemma decodeJSON_jmap {T} (dec : bool -> json -> T -> option T) zero l :
  Forall (fun p => ValidString (fst p) = true /\ ValidString (snd p) = true) l ->
  decodeJSON dec zero (jmap l) = dec true (texts l) zero.
Proof. intros H. change (jmap l) with (marshal (texts l)). rewrite decodeJSON_marshal by apply ints_texts. by rewrite texts_id. Qed.

(** Well-formedness of a payload. *)
Ltac payload_ok := repeat constructor; cbn; eauto with wire.

(** What the clients read from an answer that names a sandbox. *)
Lemma created_read id p :
  ValidString id = true -> p = PCreate id \/ p = PSnapshotRestore id ->
  Unmarshal dec_createResponse (MkCreateResp EmptyString EmptyString) (payload_body p) = Some (MkCreateResp id EmptyString).
Proof.
  intros Hid [->| ->]; (rewrite Unmarshal_payload by payload_ok); (rewrite on_wire_id by payload_ok); done.
Qed.

(** What handleDestroy reads from a request of the clients. *)
Lemma destroyBody_read id :
  ValidString id = true -> decodeJSON (fun strict => dec_one strict "sandbox_id") EmptyString (destroyBody id) = Some id.
Proof. intros Hid. unfold destroyBody. by rewrite decodeJSON_jmap by (repeat constructor; exact Hid). Qed.

(** C32. The server reads from the clients' bodies what the clients mean: the id and
    the command, or the snapshot, with no other field set; and the clients read
    from the server's answers what the server means: the id of the sandbox or
    snapshot, the result of the command, the error.  Texts that are not valid
    UTF-8 are excluded. *)
Theorem client_server_agree id cmd :
  ValidString id = true -> ValidString cmd = true ->
  (decodeJSON dec_execRequest zero_execRequest (jmap [("cmd"%string, cmd); ("sandbox_id"%string, id)])
     = Some (MkExecReq id cmd [] None 0) /\
   decodeJSON (fun strict => dec_one strict "sandbox_id") EmptyString (destroyBody id) = Some id /\
   decodeJSON (fun strict => dec_one strict "snapshot_id") EmptyString (jmap [("snapshot_id"%string, id)]) = Some id /\
   decodeJSON dec_snapshotCreateRequest (MkSnapCreateReq EmptyString EmptyString)
       (jmap [("name"%string, "bench-restore-fixture"%string); ("sandbox_id"%string, id)])
     = Some (MkSnapCreateReq id "bench-restore-fixture")) /\
  (forall p, p = PCreate id \/ p = PSnapshotRestore id ->
     Unmarshal dec_createResponse (MkCreateResp EmptyString EmptyString) (payload_body p) = Some (MkCreateResp id EmptyString)) /\
  Unmarshal dec_snapshotCreateResponse (MkSnapCreateResp EmptyString EmptyString) (payload_body (PSnapshotCreate id))
    = Some (MkSnapCreateResp id EmptyString) /\
  (forall out err code, ValidString out = true -> ValidString err = true -> is_int64 code ->
     Unmarshal dec_execResponse (MkBExecResp EmptyString EmptyString 0 EmptyString) (payload_body (PExec (MkExecResp out err code)))
       = Some (MkBExecResp out err code EmptyString)) /\
  (forall t, ValidString (render t) = true ->
     Unmarshal dec_createResponse (MkCreateResp EmptyString EmptyString) (payload_body (PError t))
       = Some (MkCreateResp EmptyString (render t)) /\
     Unmarshal dec_destroyResponse (MkDestroyResp EmptyString EmptyString) (payload_body (PError t))
       = Some (MkDestroyResp EmptyString (render t))).
Proof.
  intros Hid Hcmd. split; [|split_and!].
  - unfold destroyBody. rewrite !decodeJSON_jmap. { done. } all: by repeat constructor.
  - intros p. by apply created_read.
  - rewrite Unmarshal_payload by payload_ok. by rewrite on_wire_id by payload_ok.
  - intros out err code Ho He Hc. rewrite Unmarshal_payload by payload_ok. rewrite on_wire_id by payload_ok.
    cbn. by rewrite ParseInt_itoa.
  - intros t Ht. rewrite !Unmarshal_payload by payload_ok. by rewrite !on_wire_id by payload_ok.
Qed.

Lemma client_server_agree_witness :
  (ValidString "sb-1" = true /\ ValidString "true" = true) /\
  decodeJSON (fun strict => dec_one strict "sandbox_id") EmptyString (destroyBody "sb-1") = Some "sb-1"%string.
Proof.
  assert (Hid : ValidString "sb-1" = true) by reflexivity. assert (Hc : ValidString "true" = true) by reflexivity.
  split; [split; assumption|].
  destruct (client_server_agree "sb-1" "true" Hid Hc) as [(_ & H & _) _]. exact H.
Defined.
