(* ===== verification/Timed.v ===== *)
(** * The polling loops end

    The loops of the server poll until a deadline and sleep in every round.
    The clock is only assumed not to run backwards and to advance by what is
    slept; [timed p P] says that under this assumption, whatever else the
    environment and the other goroutines answer, [p] ends with an outcome of
    [P].  The logic keeps a lower bound of the time. *)

From S2P Require Export Quiet.

(** ** Clocks *)

(** [clk] is a clock of the environment [eh]. *)
Record clocked {W} (eh : env W) (clk : W -> Z) : Prop := {
  ck_mono : forall X (e : envE X) w, clk w <= clk (snd (eh _ e w));
  ck_now : forall w, clk w <= fst (eh _ Now w) <= clk (snd (eh _ Now w));
  ck_sleep : forall d w, clk w + d <= clk (snd (eh _ (Sleep d) w));
}.

Definition tpre (X : Type) (e : sysE X) (t : Z) : Prop := True.

(** Memory operations may have any answer: other goroutines interfere. *)
Definition tpost (X : Type) (e : sysE X) (t : Z) : X -> Z -> Prop :=
  match e in sysE X return X -> Z -> Prop with
  | Sys e =>
      match e in envE X return X -> Z -> Prop with
      | Now => fun x t' => t <= x /\ t' = x
      | Sleep d => fun _ t' => t' = Z.max t (t + d)
      | _ => fun _ t' => t' = t
      end
  | Mem _ => fun _ t' => t' = t
  end.

(** [p] started at [t] or later ends in [Q]. *)
Definition within {A} (t : Z) (p : prog sysE A) (Q : outcome A -> Z -> Prop) : Prop := wp tpre tpost p Q t.

Definition timed {A} (p : prog sysE A) (P : outcome A -> Prop) : Prop :=
  forall t, within t p (fun o t' => P o /\ t <= t').

Lemma tpost_mono {X} (e : sysE X) t x t' : tpost X e t x t' -> t <= t'.
Proof. destruct e as [X e|X m]; [destruct e|]; cbn; lia. Qed.

Lemma within_mono {A} t (p : prog sysE A) (Q Q' : outcome A -> Z -> Prop) :
  within t p Q -> (forall o t', Q o t' -> Q' o t') -> within t p Q'.
Proof. intros H HQ. by eapply wp_mono. Qed.

(** A timed part in a timed context. *)
Lemma within_bind {A B} t (p : prog sysE A) (f : A -> prog sysE B) (Q : outcome B -> Z -> Prop) :
  within t p (bindQ tpre tpost f Q) -> within t (bind p f) Q.
Proof. apply wp_bind. Qed.

(** Ends with a value or a panic. *)
Definition ends {A} (o : outcome A) : Prop := match o with Done _ | Panicked => True | _ => False end.

Lemma timed_weaken {A} (p : prog sysE A) (P P' : outcome A -> Prop) :
  timed p P -> (forall o, P o -> P' o) -> timed p P'.
Proof. intros H HP t. eapply within_mono; [apply H|]. naive_solver. Qed.

(** ** Rules *)

Lemma timed_ret {A} (a : A) (P : outcome A -> Prop) : P (Done a) -> timed (Ret a) P.
Proof. intros H t. cbn. by split. Qed.

Lemma timed_panic {A} (P : outcome A -> Prop) : P Panicked -> timed (@Panic sysE A) P.
Proof. intros H t. cbn. by split. Qed.

Lemma timed_vis {X A} (e : sysE X) (k : X -> prog sysE A) P : (forall x, timed (k x) P) -> timed (Vis e k) P.
Proof.
  intros H t. split; [done|]. intros x t' Hp%tpost_mono. eapply within_mono; [apply H|]. intros o t''. naive_solver lia.
Qed.

Lemma timed_sys {X A} (e : envE X) (k : X -> prog sysE A) P : (forall x, timed (k x) P) -> timed (bind (sys e) k) P.
Proof. apply timed_vis. Qed.

Lemma timed_mem {X A} (m : memE X) (k : X -> prog sysE A) P : (forall x, timed (k x) P) -> timed (bind (memory m) k) P.
Proof. apply timed_vis. Qed.

Lemma timed_sys_end {X} (e : envE X) (P : outcome X -> Prop) : (forall x, P (Done x)) -> timed (sys e) P.
Proof. intros H. apply timed_vis. intros x. by apply timed_ret. Qed.

Lemma timed_mem_end {X} (m : memE X) (P : outcome X -> Prop) : (forall x, P (Done x)) -> timed (memory m) P.
Proof. intros H. apply timed_vis. intros x. by apply timed_ret. Qed.

Definition tbindQ {A B} (f : A -> prog sysE B) (P : outcome B -> Prop) (o : outcome A) : Prop :=
  match o with
  | Done a => timed (f a) P
  | Panicked => P Panicked
  | OutOfFuel => P OutOfFuel
  | Blocked => P Blocked
  end.

Lemma timed_bind {A B} (p : prog sysE A) (f : A -> prog sysE B) P : timed p (tbindQ f P) -> timed (bind p f) P.
Proof.
  intros H t. apply wp_bind. eapply wp_mono; [|apply H].
  intros [a| | |] t' [Ho Ht]; cbn in *; try by split.
  eapply wp_mono; [|apply Ho]. cbn. intros o t''. naive_solver lia.
Qed.

Lemma timed_total_bind {A B} (p : prog sysE A) (f : A -> prog sysE B) P :
  timed p total -> (forall a, timed (f a) P) -> timed (bind p f) P.
Proof. intros Hp Hf. apply timed_bind. eapply timed_weaken; [exact Hp|]. by intros [] H; cbn in *. Qed.

Lemma timed_defer {A} (p : prog sysE A) d (P : outcome A -> Prop) :
  timed p ends -> timed d total -> (forall o, ends o -> P o) -> timed (defer p d) P.
Proof.
  intros Hp Hd HP t. apply wp_defer. eapply wp_mono; [|apply Hp].
  intros [a| | |] t' [Ho Ht]; cbn in *; try done; (eapply wp_mono; [|apply Hd]).
  all: intros [[]| | |] t'' [H1 H2]; cbn in *; try done; split; [by apply HP|lia].
Qed.

Lemma timed_defer_total {A} (p : prog sysE A) d : timed p total -> timed d total -> timed (defer p d) total.
Proof.
  intros Hp Hd t. apply wp_defer. eapply wp_mono; [|apply Hp].
  intros [a| | |] t' [Ho Ht]; cbn in *; try done; (eapply wp_mono; [|apply Hd]).
  intros [[]| | |] t'' [H1 H2]; cbn in *; try done; split; [done|lia].
Qed.

Lemma timed_deferWith {A L} (l0 : L) (p : prog sysE (A * L)) d :
  timed p total -> (forall l, timed (d l) total) -> timed (deferWith l0 p d) total.
Proof.
  intros Hp Hd t. apply wp_deferWith. eapply wp_mono; [|apply Hp].
  intros [[a l]| | |] t' [Ho Ht]; cbn in *; try done; (eapply wp_mono; [|apply Hd]).
  intros [[]| | |] t'' [H1 H2]; cbn in *; try done; split; [done|lia].
Qed.

Lemma timed_forRange {A R} (l : list A) (body : A -> prog sysE (option R)) rest :
  (forall x, timed (body x) total) -> timed rest total -> timed (forRange l body rest) total.
Proof.
  intros Hb Hr. induction l as [|x l IH]; cbn [forRange]; [done|].
  apply timed_total_bind; [apply Hb|]. intros [v|]; [by apply timed_ret|done].
Qed.

(** The rule of a polling loop: a round that goes on was entered before the
    deadline and lasts at least [step]. *)
Lemma within_poll {X R} (body : X -> prog sysE (X + R)) deadline step n x t (Q : outcome R -> Z -> Prop) :
  0 < step -> (1 <= n)%nat -> deadline - t < (Z.of_nat n - 1) * step ->
  (forall x t', t <= t' -> within t' (body x) (fun o t'' =>
     match o with
     | Done (inl _) => t' <= deadline /\ t' + step <= t''
     | Done (inr r) => Q (Done r) t''
     | _ => False
     end)) ->
  within t (loop n body x) Q.
Proof.
  intros Hstep. revert x t. induction n as [|n IH]; intros x t Hn Hd Hb; [lia|].
  cbn [loop]. apply wp_bind. eapply wp_mono; [|by apply Hb].
  intros [[x'|r]| | |] t' Ho; cbn in *; try done.
  destruct Ho as [H1 H2]. apply IH; [nia|nia|]. intros. apply Hb. lia.
Qed.

(** The rounds given by [polls] are enough. *)
Lemma polls_enough timeout step : 0 < step -> timeout < (Z.of_nat (polls timeout step) - 1) * step.
Proof.
  intros H. unfold polls. pose proof (Z.div_mod timeout step ltac:(lia)). pose proof (Z.mod_pos_bound timeout step H).
  destruct (Z.le_gt_cases 0 (timeout / step)); [rewrite !Nat2Z.inj_succ, Z2Nat.id by lia; nia|].
  assert (Z.to_nat (timeout / step) = 0%nat) as -> by lia. nia.
Qed.

Lemma within_polls {X R} (body : X -> prog sysE (X + R)) timeout step x t (Q : outcome R -> Z -> Prop) :
  0 < step ->
  (forall x t', t <= t' -> within t' (body x) (fun o t'' =>
     match o with
     | Done (inl _) => t' <= t + timeout /\ t' + step <= t''
     | Done (inr r) => Q (Done r) t''
     | _ => False
     end)) ->
  within t (loop (polls timeout step) body x) Q.
Proof.
  intros Hs Hb. apply (within_poll _ (t + timeout) step); [done|unfold polls; lia| |done].
  pose proof (polls_enough timeout step Hs). lia.
Qed.

(** ** Automation *)

Create HintDb timed.

Ltac timed_step :=
  cbv beta iota zeta;
  lazymatch goal with
  | |- timed (Ret _) _ => apply timed_ret
  | |- timed Panic _ => apply timed_panic
  | |- timed (bind (Ret ?a) ?k) _ => change (bind (Ret a) k) with (k a)
  | |- timed (bind (sys _) _) _ => apply timed_sys; intros ?
  | |- timed (bind (memory _) _) _ => apply timed_mem; intros ?
  | |- timed (bind (match ?x with _ => _ end) _) _ => destruct x eqn:?
  | |- timed (bind _ _) _ => first [apply timed_total_bind; [by auto with timed|intros ?] | apply timed_bind]
  | |- timed (sys _) _ => apply timed_sys_end; intros ?
  | |- timed (memory _) _ => apply timed_mem_end; intros ?
  | |- timed (defer _ _) total => apply timed_defer_total
  | |- timed (defer _ _) ends => apply timed_defer; [| |done]
  | |- timed (deferWith _ _ _) total => apply timed_deferWith; [|intros ?]
  | |- timed (forRange _ _ _) total => apply timed_forRange; [intros ?|]
  | |- timed (when ?b _) _ => destruct b eqn:?; cbn [when]
  | |- timed (match ?x with _ => _ end) _ => destruct x eqn:?
  | |- timed _ total => by auto with timed
  | |- timed _ _ => eapply timed_weaken; [by auto with timed|intros [] ?]
  | |- tbindQ _ _ _ => cbn [tbindQ]
  end.

Ltac timed_steps := repeat timed_step; try done.

(** A round of a polling loop: the tracked clock through the operations. *)
Lemma within_now {A} t (k : Z -> prog sysE A) Q :
  (forall now, t <= now -> within now (k now) Q) -> within t (bind (sys Now) k) Q.
Proof. intros H. split; [done|]. intros x t' [Hx ->]. by apply H. Qed.

Lemma within_sleep {A} t d (k : unit -> prog sysE A) Q :
  0 <= d -> (forall t', t + d <= t' -> within t' (k tt) Q) -> within t (bind (sys (Sleep d)) k) Q.
Proof. intros Hd H. split; [done|]. intros [] t' Ht. cbn in Ht. apply H. lia. Qed.

Lemma within_timed {A B} t (p : prog sysE A) (k : A -> prog sysE B) Q :
  timed p total -> (forall a t', t <= t' -> within t' (k a) Q) -> within t (bind p k) Q.
Proof.
  intros Hp H. apply wp_bind. eapply wp_mono; [|apply Hp]. intros [a| | |] t' [Ho Ht]; try done. by apply H.
Qed.

Lemma within_ret {A} t (a : A) (Q : outcome A -> Z -> Prop) : Q (Done a) t -> within t (Ret a) Q.
Proof. done. Qed.

Lemma timed_within {A B} (p : prog sysE A) (k : A -> prog sysE B) P :
  (forall t, within t (bind p k) (fun o t' => P o /\ t <= t')) -> timed (bind p k) P.
Proof. done. Qed.

Lemma timed_sys_total {X} (e : envE X) : timed (sys e) total.
Proof. timed_steps. Qed.
#[export] Hint Resolve timed_sys_total : timed.

Lemma timed_memory_total {X} (m : memE X) : timed (memory m) total.
Proof. timed_steps. Qed.
#[export] Hint Resolve timed_memory_total : timed.

(** Steps of a round whose clock matters. *)
Ltac within_step :=
  cbv beta iota zeta;
  lazymatch goal with
  | |- within _ (bind (sys Now) _) _ => apply within_now; intros ? ?
  | |- within _ (bind (sys (Sleep _)) _) _ => apply within_sleep; [unfold millisecond; lia|intros ? ?]
  | |- within _ (bind (Ret ?a) ?k) _ => change (bind (Ret a) k) with (k a)
  | |- within _ (bind (match ?x with _ => _ end) _) _ => destruct x eqn:?
  | |- within _ (bind _ _) _ => apply within_timed; [by timed_steps|intros ? ? ?]
  | |- within _ (Ret _) _ => apply within_ret
  | |- within _ (match ?x with _ => _ end) _ => destruct x eqn:?
  | |- within _ (loop _ _ _) _ => apply within_polls; [unfold millisecond; lia|intros ? ? ?]
  end.

Ltac within_steps := repeat within_step; repeat (split || done || lia).

(** ** The functions *)

Lemma timed_removeCgroupDir p t : timed (removeCgroupDir p t) total.
Proof.
  unfold removeCgroupDir. destruct (is_empty _); [by timed_steps|]. intros t0. within_steps.
Qed.
#[export] Hint Resolve timed_removeCgroupDir : timed.

Lemma timed_killProcessGroup c : timed (killProcessGroup c) total.
Proof. unfold killProcessGroup. timed_steps. Qed.
#[export] Hint Resolve timed_killProcessGroup : timed.

Lemma timed_killCgroup p : timed (killCgroup p) total.
Proof. unfold killCgroup. timed_steps. Qed.
#[export] Hint Resolve timed_killCgroup : timed.

Lemma timed_movePidToCgroup p pid : timed (movePidToCgroup p pid) total.
Proof. unfold movePidToCgroup. timed_steps. Qed.
#[export] Hint Resolve timed_movePidToCgroup : timed.

Lemma timed_fileExists p : timed (fileExists p) total.
Proof. unfold fileExists. timed_steps. Qed.
#[export] Hint Resolve timed_fileExists : timed.

Lemma timed_deleteVeth h v : timed (deleteVeth h v) total.
Proof. unfold deleteVeth. timed_steps. Qed.
#[export] Hint Resolve timed_deleteVeth : timed.

Lemma timed_cleanupNetns nc : timed (cleanupSandboxNetnsAndRouting nc) total.
Proof. unfold cleanupSandboxNetnsAndRouting. timed_steps. Qed.
#[export] Hint Resolve timed_cleanupNetns : timed.

Lemma timed_newNamedNetns ns : timed (newNamedNetns ns) total.
Proof. unfold newNamedNetns. timed_steps. Qed.
#[export] Hint Resolve timed_newNamedNetns : timed.

Lemma timed_configureInsideNetns n : timed (configureInsideNetns n) total.
Proof. unfold configureInsideNetns, unlessExist. timed_steps. Qed.
#[export] Hint Resolve timed_configureInsideNetns : timed.

Lemma timed_withNetns h n : timed (withNetns h (configureInsideNetns n)) total.
Proof. unfold withNetns. timed_steps. Qed.
#[export] Hint Resolve timed_withNetns : timed.

Lemma timed_configureVeth ns n h rh : timed (configureVethAndRoute ns n h rh) total.
Proof. unfold configureVethAndRoute, unlessExist. timed_steps. Qed.
#[export] Hint Resolve timed_configureVeth : timed.

Lemma timed_setup id n : timed (setupSandboxNetnsAndRouting id n) total.
Proof. unfold setupSandboxNetnsAndRouting. timed_steps. Qed.
#[export] Hint Resolve timed_setup : timed.

Lemma timed_Release nc : timed (Release nc) total.
Proof. unfold Release. timed_steps. Qed.
#[export] Hint Resolve timed_Release : timed.

Lemma timed_Acquire t : timed (Acquire t) total.
Proof. unfold Acquire. timed_steps. Qed.
#[export] Hint Resolve timed_Acquire : timed.

Lemma timed_acquireNetns id : timed (acquireNetns id) total.
Proof. unfold acquireNetns. timed_steps. Qed.
#[export] Hint Resolve timed_acquireNetns : timed.

Lemma timed_releaseNetns nc : timed (releaseNetns nc) total.
Proof. unfold releaseNetns. timed_steps. Qed.
#[export] Hint Resolve timed_releaseNetns : timed.

Lemma timed_runCmd n a : timed (runCmd n a) total.
Proof. unfold runCmd. timed_steps. Qed.
#[export] Hint Resolve timed_runCmd : timed.

Lemma timed_materialize cfg a b : timed (materializeSandboxRootfs cfg a b) total.
Proof. unfold materializeSandboxRootfs. timed_steps. Qed.
#[export] Hint Resolve timed_materialize : timed.

Lemma timed_ReadLine c t : timed (ReadLine c t) total.
Proof. unfold ReadLine. timed_steps. Qed.
#[export] Hint Resolve timed_ReadLine : timed.

Lemma timed_dialAgent p n t : timed (dialAgent p n t) total.
Proof. unfold dialAgent. timed_steps. Qed.
#[export] Hint Resolve timed_dialAgent : timed.

Lemma timed_Close c : timed (Close c) total.
Proof. unfold Close. timed_steps. Qed.
#[export] Hint Resolve timed_Close : timed.

Lemma timed_WriteMessage c m : timed (WriteMessage (fun b => sys (ConnWrite c b)) m) total.
Proof. unfold WriteMessage. timed_steps. Qed.
#[export] Hint Resolve timed_WriteMessage : timed.

Lemma timed_ReadMessage {T} c (dec : bool -> json -> T -> option T) z :
  timed (ReadMessage (fun n => sys (ConnReadFull c n)) dec z) total.
Proof. unfold ReadMessage. timed_steps. Qed.
#[export] Hint Resolve timed_ReadMessage : timed.

Lemma timed_Call c r t : timed (Call c r t) total.
Proof. unfold Call. timed_steps. Qed.
#[export] Hint Resolve timed_Call : timed.

Lemma timed_waitForAgentReady p n t d : timed (waitForAgentReady p n t d) total.
Proof. unfold waitForAgentReady. intros t0. within_steps. Qed.
#[export] Hint Resolve timed_waitForAgentReady : timed.

Lemma timed_doJSON c m p j : timed (doJSON c m p j) total.
Proof. unfold doJSON. timed_steps. Qed.
#[export] Hint Resolve timed_doJSON : timed.

Lemma timed_loadSnapshot c a b r : timed (loadSnapshot c a b r) total.
Proof. unfold loadSnapshot. timed_steps. Qed.
#[export] Hint Resolve timed_loadSnapshot : timed.

Lemma timed_pauseVM c : timed (pauseVM c) total.
Proof. unfold pauseVM. timed_steps. Qed.
#[export] Hint Resolve timed_pauseVM : timed.

Lemma timed_resumeVM c : timed (resumeVM c) total.
Proof. unfold resumeVM. timed_steps. Qed.
#[export] Hint Resolve timed_resumeVM : timed.

Lemma timed_createFullSnapshot c a b : timed (createFullSnapshot c a b) total.
Proof. unfold createFullSnapshot. timed_steps. Qed.
#[export] Hint Resolve timed_createFullSnapshot : timed.

Lemma timed_waitForUnixSocketReady p t : timed (waitForUnixSocketReady p t) total.
Proof. unfold waitForUnixSocketReady. destruct (is_empty _); [by timed_steps|]. intros t0. within_steps. Qed.
#[export] Hint Resolve timed_waitForUnixSocketReady : timed.

Lemma timed_loadSnapshotWithRetry c a b r t : timed (loadSnapshotWithRetry c a b r t) total.
Proof. unfold loadSnapshotWithRetry. intros t0. within_steps. Qed.
#[export] Hint Resolve timed_loadSnapshotWithRetry : timed.

Lemma timed_writeVMConfig p cfg a b n v c : timed (writeVMConfig p cfg a b n v c) total.
Proof. unfold writeVMConfig. timed_steps. Qed.
#[export] Hint Resolve timed_writeVMConfig : timed.

Lemma timed_validateSnapshotMeta cfg sp : timed (validateSnapshotMeta cfg sp) total.
Proof. unfold validateSnapshotMeta. timed_steps. Qed.
#[export] Hint Resolve timed_validateSnapshotMeta : timed.

Lemma timed_writeSnapshotMeta cfg sp : timed (writeSnapshotMeta cfg sp) total.
Proof. unfold writeSnapshotMeta. timed_steps. Qed.
#[export] Hint Resolve timed_writeSnapshotMeta : timed.

Lemma timed_resetSnapshotDir sp : timed (resetSnapshotDir sp) total.
Proof. unfold resetSnapshotDir. timed_steps. Qed.
#[export] Hint Resolve timed_resetSnapshotDir : timed.

Lemma timed_killAndWait pid : timed (killAndWait pid) total.
Proof. unfold killAndWait. timed_steps. Qed.
#[export] Hint Resolve timed_killAndWait : timed.

Lemma timed_takeGoldenSnapshot cfg sp pid : timed (takeGoldenSnapshot cfg sp pid) total.
Proof. unfold takeGoldenSnapshot. timed_steps. Qed.
#[export] Hint Resolve timed_takeGoldenSnapshot : timed.

Lemma timed_buildSnapshot cfg sp : timed (buildSnapshot cfg sp) total.
Proof. unfold buildSnapshot. timed_steps. Qed.
#[export] Hint Resolve timed_buildSnapshot : timed.

Lemma timed_ensureSnapshot cfg : timed (ensureSnapshot cfg) total.
Proof. unfold ensureSnapshot. timed_steps. Qed.
#[export] Hint Resolve timed_ensureSnapshot : timed.

Lemma timed_prepareSandboxRuntimePaths d : timed (prepareSandboxRuntimePaths d) total.
Proof. unfold prepareSandboxRuntimePaths. timed_steps. Qed.
#[export] Hint Resolve timed_prepareSandboxRuntimePaths : timed.

Lemma timed_openSandboxLog p : timed (openSandboxLog p) total.
Proof. unfold openSandboxLog. timed_steps. Qed.
#[export] Hint Resolve timed_openSandboxLog : timed.

Lemma timed_prepareSandboxCgroup cfg id : timed (prepareSandboxCgroup cfg id) total.
Proof. unfold prepareSandboxCgroup. timed_steps. Qed.
#[export] Hint Resolve timed_prepareSandboxCgroup : timed.

Lemma timed_attach p pid : timed (attachSandboxProcessToCgroup p pid) total.
Proof. unfold attachSandboxProcessToCgroup. timed_steps. Qed.
#[export] Hint Resolve timed_attach : timed.

Lemma timed_configureGuest ac nc : timed (configureSandboxGuestNetwork ac nc) total.
Proof. unfold configureSandboxGuestNetwork. timed_steps. Qed.
#[export] Hint Resolve timed_configureGuest : timed.

Lemma timed_abandonVM pid p : timed (abandonVM pid p) total.
Proof. unfold abandonVM. timed_steps. Qed.
#[export] Hint Resolve timed_abandonVM : timed.

Lemma timed_stopProcess p : timed (stopProcess p) total.
Proof. unfold stopProcess. timed_steps. Qed.
#[export] Hint Resolve timed_stopProcess : timed.

(** ** Goroutines *)

(** A later start is no worse. *)
Lemma within_later {A} (p : prog sysE A) (P : outcome A -> Prop) t t' :
  t <= t' -> within t p (fun o _ => P o) -> within t' p (fun o _ => P o).
Proof.
  revert t t'. induction p as [a| | |X e k IH]; intros t t' Ht; try done. intros [_ Hk]. split; [done|].
  intros x t1 Hp. destruct e as [X e|X m].
  - destruct e; cbn in *; try (subst; by eapply IH, Hk).
    + destruct Hp as [H ->]. apply (IH x x); [lia|]. apply Hk. split; [lia|done].
    + subst. apply (IH x (Z.max t (t + d))); [lia|]. by apply Hk.
  - cbn in Hp. subst. by eapply IH, Hk.
Qed.

Lemma timed_within_total {A} t (p : prog sysE A) : timed p total -> within t p (fun o _ => total o).
Proof. intros H. eapply within_mono; [apply H|]. naive_solver. Qed.

Lemma within_par {A B} (p : prog sysE A) (q : prog sysE B) t :
  within t p (fun o _ => total o) -> within t q (fun o _ => total o) ->
  within t (par (Sys Pick) p q) (fun o _ => total o).
Proof.
  revert q t. induction p as [a| | |X e k IHp]; intros q t Hp; try done.
  - intros Hq. destruct q; cbn in *; try done. destruct Hq as [_ Hk]. split; [done|].
    intros x t' Hx. apply wp_bind. eapply wp_mono; [|by apply Hk]. by intros [] ?.
  - revert t Hp. induction q as [b| | |Y e' k' IHq]; intros t Hp Hq; try done.
    + destruct Hp as [_ Hk]. split; [done|]. intros x t' Hx. apply wp_bind.
      eapply wp_mono; [|by apply Hk]. by intros [] ?.
    + cbn. split; [done|]. intros c t0 ->. destruct c; split; try done; intros x t' Hx.
      * apply IHp; [by apply Hp|]. eapply within_later; [by eapply tpost_mono|exact Hq].
      * apply IHq; [|by apply Hq]. eapply within_later; [by eapply tpost_mono|exact Hp].
Qed.

Lemma within_time {A} (p : prog sysE A) (Q : outcome A -> Z -> Prop) t t0 :
  t0 <= t -> within t p Q -> within t p (fun o t' => Q o t' /\ t0 <= t').
Proof.
  revert t. induction p as [a| | |X e k IH]; intros t Ht; try (intros H; split; [exact H|exact Ht]).
  intros [_ Hk]. split; [done|]. intros x t' Hx. apply IH; [|by apply Hk]. apply tpost_mono in Hx. lia.
Qed.

Lemma timed_par {A B} (p : prog sysE A) (q : prog sysE B) :
  timed p total -> timed q total -> timed (par (Sys Pick) p q) total.
Proof. intros Hp Hq t. apply within_time; [lia|]. by apply within_par; apply timed_within_total. Qed.

Lemma timed_clone cfg id a b l : timed (cloneAndAcquire cfg id a b l) total.
Proof.
  unfold cloneAndAcquire. apply timed_total_bind; [|intros [r e]; by timed_steps].
  apply timed_par; by timed_steps.
Qed.
#[export] Hint Resolve timed_clone : timed.

(** ** Sandboxes and snapshots *)

Lemma timed_restoreIntoNetns cfg id d r a m nc : timed (restoreIntoNetns cfg id d r a m nc) total.
Proof. unfold restoreIntoNetns. timed_steps. Qed.
#[export] Hint Resolve timed_restoreIntoNetns : timed.

Lemma timed_restore cfg id d a m l k : timed (restoreSandboxFromArtifacts cfg id d a m l k) total.
Proof. unfold restoreSandboxFromArtifacts. timed_steps. Qed.
#[export] Hint Resolve timed_restore : timed.

Lemma timed_createFromSnapshot cfg id : timed (createSandboxFromSnapshot cfg id) total.
Proof. unfold createSandboxFromSnapshot. timed_steps. Qed.
#[export] Hint Resolve timed_createFromSnapshot : timed.

Lemma timed_createFromUserSnapshot cfg id m : timed (createSandboxFromUserSnapshot cfg id m) total.
Proof. unfold createSandboxFromUserSnapshot. timed_steps. Qed.
#[export] Hint Resolve timed_createFromUserSnapshot : timed.

Lemma timed_bootIntoNetns cfg id d r nc : timed (bootIntoNetns cfg id d r nc) total.
Proof. unfold bootIntoNetns. timed_steps. Qed.
#[export] Hint Resolve timed_bootIntoNetns : timed.

Lemma timed_createSandbox cfg id : timed (createSandbox cfg id) total.
Proof. unfold createSandbox. timed_steps. Qed.
#[export] Hint Resolve timed_createSandbox : timed.

Lemma timed_waitForExecDrain l t : timed (waitForExecDrain l t) total.
Proof. unfold waitForExecDrain. intros t0. within_steps. Qed.
#[export] Hint Resolve timed_waitForExecDrain : timed.

Lemma timed_dropAgent l : timed (dropAgent l) total.
Proof. unfold dropAgent. timed_steps. Qed.
#[export] Hint Resolve timed_dropAgent : timed.

Lemma timed_cleanupSandbox l : timed (cleanupSandbox l) total.
Proof. unfold cleanupSandbox. timed_steps. Qed.
#[export] Hint Resolve timed_cleanupSandbox : timed.

Lemma timed_destroyAll  : timed (destroyAll) total.
Proof. unfold destroyAll. timed_steps. Qed.
#[export] Hint Resolve timed_destroyAll : timed.

Lemma timed_Destroy  : timed (Destroy) total.
Proof. unfold Destroy. timed_steps. Qed.
#[export] Hint Resolve timed_Destroy : timed.

Lemma timed_shutdown  : timed (shutdown) total.
Proof. unfold shutdown. timed_steps. Qed.
#[export] Hint Resolve timed_shutdown : timed.

Lemma timed_initEntry i : timed (initEntry i) total.
Proof. unfold initEntry. timed_steps. Qed.
#[export] Hint Resolve timed_initEntry : timed.

Lemma timed_Init n : timed (Init n) total.
Proof. unfold Init. timed_steps. Qed.
#[export] Hint Resolve timed_Init : timed.

Lemma timed_writeUserSnapshotMeta cfg m : timed (writeUserSnapshotMeta cfg m) total.
Proof. unfold writeUserSnapshotMeta. timed_steps. Qed.
#[export] Hint Resolve timed_writeUserSnapshotMeta : timed.

Lemma timed_loadUserSnapshotMeta cfg id : timed (loadUserSnapshotMeta cfg id) total.
Proof. unfold loadUserSnapshotMeta. timed_steps. Qed.
#[export] Hint Resolve timed_loadUserSnapshotMeta : timed.

Lemma timed_snapshotPausedVM cfg fc sb id n d : timed (snapshotPausedVM cfg fc sb id n d) total.
Proof. unfold snapshotPausedVM. timed_steps. Qed.
#[export] Hint Resolve timed_snapshotPausedVM : timed.

Lemma timed_createUserSnapshot cfg l id n : timed (createUserSnapshotFromSandbox cfg l id n) total.
Proof. unfold createUserSnapshotFromSandbox. timed_steps. Qed.
#[export] Hint Resolve timed_createUserSnapshot : timed.

Lemma timed_loadEntries cfg l : timed (loadEntries cfg l) total.
Proof. induction l as [|[n d] l IH]; cbn [loadEntries]; timed_steps. Qed.
#[export] Hint Resolve timed_loadEntries : timed.

Lemma timed_listUserSnapshots cfg : timed (listUserSnapshots cfg) total.
Proof. unfold listUserSnapshots. timed_steps. Qed.
#[export] Hint Resolve timed_listUserSnapshots : timed.

(** ** The handlers *)

Lemma timed_writeJSON c p : timed (writeJSON c p) total.
Proof. unfold writeJSON. timed_steps. Qed.
#[export] Hint Resolve timed_writeJSON : timed.

Lemma timed_errorReply c p : timed (errorReply c p) total.
Proof. unfold errorReply. timed_steps. Qed.
#[export] Hint Resolve timed_errorReply : timed.

Lemma timed_dialSSH a b t : timed (dialSSH a b t) total.
Proof. unfold dialSSH. timed_steps. Qed.
#[export] Hint Resolve timed_dialSSH : timed.

Lemma timed_waitForSSH a b t d : timed (waitForSSH a b t d) total.
Proof. unfold waitForSSH. intros t0. within_steps. Qed.

Lemma timed_waitForExecSSH a b t d : timed (waitForExecSSH a b t d) total.
Proof. unfold waitForExecSSH. intros t0. within_steps. Qed.
#[export] Hint Resolve timed_waitForExecSSH : timed.

Lemma timed_runSSHCommand s c t : timed (runSSHCommand s c t) total.
Proof. unfold runSSHCommand. timed_steps. Qed.
#[export] Hint Resolve timed_runSSHCommand : timed.

Lemma timed_handleCreate cfg : timed (handleCreate cfg) total.
Proof. unfold handleCreate. timed_steps. Qed.
#[export] Hint Resolve timed_handleCreate : timed.

Lemma timed_execOverSSH cfg l r : timed (execOverSSH cfg l r) total.
Proof. unfold execOverSSH. timed_steps. Qed.
#[export] Hint Resolve timed_execOverSSH : timed.

Lemma timed_execOverAgent cfg l r b : timed (execOverAgent cfg l r b) ends.
Proof. unfold execOverAgent, replyExec. timed_steps. Qed.
#[export] Hint Resolve timed_execOverAgent : timed.

Lemma timed_execAdmitted cfg l r : timed (execAdmitted cfg l r) ends.
Proof. unfold execAdmitted. timed_steps. Qed.
#[export] Hint Resolve timed_execAdmitted : timed.

Lemma timed_handleExec cfg b : timed (handleExec cfg b) ends.
Proof. unfold handleExec. timed_steps. Qed.
#[export] Hint Resolve timed_handleExec : timed.

Lemma timed_handleDestroy b : timed (handleDestroy b) total.
Proof. unfold handleDestroy. timed_steps. Qed.
#[export] Hint Resolve timed_handleDestroy : timed.

Lemma timed_handleSnapshotCreate cfg b : timed (handleSnapshotCreate cfg b) total.
Proof. unfold handleSnapshotCreate. timed_steps. Qed.
#[export] Hint Resolve timed_handleSnapshotCreate : timed.

Lemma timed_handleSnapshotRestore cfg b : timed (handleSnapshotRestore cfg b) total.
Proof. unfold handleSnapshotRestore. timed_steps. Qed.
#[export] Hint Resolve timed_handleSnapshotRestore : timed.

Lemma timed_handleSnapshotList cfg : timed (handleSnapshotList cfg) total.
Proof. unfold handleSnapshotList. timed_steps. Qed.
#[export] Hint Resolve timed_handleSnapshotList : timed.

Lemma timed_handleSnapshotDelete cfg b : timed (handleSnapshotDelete cfg b) total.
Proof. unfold handleSnapshotDelete. timed_steps. Qed.
#[export] Hint Resolve timed_handleSnapshotDelete : timed.

Lemma timed_serve cfg r : timed (serve cfg r) ends.
Proof. unfold serve. destruct r; timed_steps. Qed.
#[export] Hint Resolve timed_serve : timed.

(** ** Soundness: a run under a clock *)

Lemma timed_exec {W A} (eh : env W) clk (p : prog sysE A) (P : outcome A -> Prop) s w :
  clocked eh clk -> timed p P -> fst (exec eh p s w) = Blocked \/ P (fst (exec eh p s w)).
Proof.
  intros Hc Hp.
  destruct (wp_sound tpre tpost (handler eh) (fun sw t => t <= clk (snd sw))) with
    (p := p) (Q := fun o t' => P o /\ clk w <= t') (w := (s, w)) (s := clk w) as [H|(t' & _ & H & _)];
    [|by apply Hp|done|by left|by right].
  intros X [Y e|Y m] [s1 w1] t x [s2 w2] Ht _ Hh; cbn in *.
  - pose proof (ck_mono _ _ Hc Y e w1) as Hm. destruct (eh Y e w1) as [y w3] eqn:He. simplify_eq/=.
    destruct e; try (exists t; split; [done|lia]).
    + pose proof (ck_now _ _ Hc w1) as Hn. rewrite He in Hn. cbn in Hn. exists x. repeat split; lia.
    + pose proof (ck_sleep _ _ Hc d w1) as Hn. rewrite He in Hn. cbn in Hn. exists (Z.max t (t + d)). split; [done|lia].
  - destruct (mem_step m s1) as [[y s3]|] eqn:Hm; [|done]. simplify_eq. by exists t.
Qed.
