(* ===== verification/Threads.v ===== *)
(** * What one goroutine may do to the shared memory

    A request runs concurrently with others, so the answers of its memory
    operations cannot be predicted from its own actions.  This file gives the
    part that does not depend on the others: the [ghost] state of a goroutine
    records what it holds (the agent mutex of a sandbox, an admitted exec,
    entries of the netns pool, sandboxes it has created or taken out of the
    map), [gpre] says what an operation requires it to hold, and [gpost] what
    it holds after.  Interleave.v proves that goroutines that keep to this
    protocol preserve the invariants of the server in any interleaving;
    Conform.v proves that the handlers keep to it. *)

From S2P Require Export Handlers Calls.

Record ghost := MkGhost {
  g_pool : bool;                                          (* saw s.netnsPool != nil *)
  g_known : list loc;                                     (* pointers it has seen *)
  g_lock : option loc;                                    (* agentMu held *)
  g_exec : option loc;                                    (* exec admitted and not finished *)
  g_fresh : list loc;                                     (* sandboxes created, not yet in the map *)
  g_owned : list (loc * option (option netnsConfig));     (* sandboxes taken out of the map; with sb.Netns once read *)
  g_slots : list netnsConfig;                             (* pool entries in hand *)
  g_replies : list (Z * payload);                         (* answers sent, latest first *)
}.

Definition g0 : ghost := MkGhost false [] None None [] [] [] [].

Definition set_g_pool x g := MkGhost x (g_known g) (g_lock g) (g_exec g) (g_fresh g) (g_owned g) (g_slots g) (g_replies g).
Definition set_g_known x g := MkGhost (g_pool g) x (g_lock g) (g_exec g) (g_fresh g) (g_owned g) (g_slots g) (g_replies g).
Definition set_g_lock x g := MkGhost (g_pool g) (g_known g) x (g_exec g) (g_fresh g) (g_owned g) (g_slots g) (g_replies g).
Definition set_g_exec x g := MkGhost (g_pool g) (g_known g) (g_lock g) x (g_fresh g) (g_owned g) (g_slots g) (g_replies g).
Definition set_g_fresh x g := MkGhost (g_pool g) (g_known g) (g_lock g) (g_exec g) x (g_owned g) (g_slots g) (g_replies g).
Definition set_g_owned x g := MkGhost (g_pool g) (g_known g) (g_lock g) (g_exec g) (g_fresh g) x (g_slots g) (g_replies g).
Definition set_g_slots x g := MkGhost (g_pool g) (g_known g) (g_lock g) (g_exec g) (g_fresh g) (g_owned g) x (g_replies g).
Definition set_g_replies x g := MkGhost (g_pool g) (g_known g) (g_lock g) (g_exec g) (g_fresh g) (g_owned g) (g_slots g) x.

(** The entry of the pool in a sandbox's [Netns] field, if it is one. *)
Definition slot_of (nc : option netnsConfig) : list netnsConfig :=
  match nc with Some nc => if nc_Pooled nc then [nc] else [] | None => [] end.

Definition learn (ls : list loc) (g : ghost) : ghost := set_g_known (ls ++ g_known g) g.

(** [l] without the first occurrence of [x]. *)
Fixpoint remove1 {A} `{EqDecision A} (x : A) (l : list A) : list A :=
  match l with
  | [] => []
  | y :: l => if decide (x = y) then l else y :: remove1 x l
  end.

Definition remove_all {A} `{EqDecision A} (xs l : list A) : list A := foldr remove1 l xs.

(** What is known of the field [Netns] of a sandbox this goroutine took. *)
Fixpoint owned_netns (l : loc) (os : list (loc * option (option netnsConfig))) : option (option (option netnsConfig)) :=
  match os with
  | [] => None
  | (l', k) :: os => if bool_decide (l = l') then Some k else owned_netns l os
  end.

Fixpoint set_owned_netns (l : loc) (k : option netnsConfig) (os : list (loc * option (option netnsConfig)))
    : list (loc * option (option netnsConfig)) :=
  match os with
  | [] => []
  | (l', k') :: os => if bool_decide (l = l') then (l', Some k) :: os else (l', k') :: set_owned_netns l k os
  end.

(** ** The protocol *)

Definition gpre (X : Type) (e : sysE X) (g : ghost) : Prop :=
  match e with
  | Sys _ => True
  | Mem m =>
      match m with
      | AddSandboxID | AddSnapshotID | AddSubnet | SandboxesGet _ | PoolEnabled => True
      | SandboxesTake _ | SandboxesSweep => True
      | SandboxesPut _ l => l ∈ g_fresh g
      | NewSandbox sb =>
          sb_state sb = sandboxStateRunning /\ sb_inFlightExec sb = 0 /\ sb_agentMu sb = false
          /\ slot_of (sb_Netns sb) ⊆ g_slots g
      | LoadSandbox l | InFlightExec l => l ∈ g_known g
      | LockAgentMu l => l ∈ g_known g /\ g_lock g = None
      | UnlockAgentMu l => g_lock g = Some l /\ l ∈ g_known g
      | SetAgent l _ => g_lock g = Some l /\ l ∈ g_known g
      | SetNetns l nc => nc = None /\ l ∈ g_known g /\ exists k, owned_netns l (g_owned g) = Some (Some k)
      | TryStartExec l => l ∈ g_known g /\ g_exec g = None
      | FinishExec l => g_exec g = Some l /\ l ∈ g_known g
      | BeginDestroy l | FinishDestroy l => l ∈ g_known g /\ is_Some (owned_netns l (g_owned g))
      | PoolOnce | PoolRegister _ => False
      | PoolAll | PoolRecv _ => g_pool g = true
      | PoolSend nc => g_pool g = true /\ nc ∈ g_slots g
      end
  end.

Definition gsys {X} (e : envE X) (g : ghost) : ghost :=
  match e with
  | WriteJSON status p => set_g_replies ((status, p) :: g_replies g) g
  | _ => g
  end.

(** Reading a sandbox this goroutine took: its slot is now in hand. *)
Definition claim (l : loc) (nc : option netnsConfig) (g : ghost) : ghost :=
  match owned_netns l (g_owned g) with
  | Some None => set_g_owned (set_owned_netns l nc (g_owned g)) (set_g_slots (slot_of nc ++ g_slots g) g)
  | _ => g
  end.

Definition gpost (X : Type) (e : sysE X) (g : ghost) (x : X) (g' : ghost) : Prop :=
  match e in sysE X return X -> Prop with
  | Sys e => fun x => g' = gsys e g
  | Mem m =>
      match m in memE X return X -> Prop with
      | SandboxesGet _ => fun r => g' = learn (match r with Some l => [l] | None => [] end) g
      | SandboxesTake _ => fun r =>
          g' = match r with Some l => learn [l] (set_g_owned ((l, None) :: g_owned g) g) | None => g end
      | SandboxesSweep => fun ls =>
          NoDup ls /\ Forall (fun l => owned_netns l (g_owned g) = None) ls
          /\ g' = learn ls (set_g_owned (map (fun l => (l, None)) ls ++ g_owned g) g)
      | SandboxesPut _ l => fun _ => g' = set_g_fresh (remove1 l (g_fresh g)) g
      | NewSandbox sb => fun l =>
          g' = learn [l] (set_g_fresh (l :: g_fresh g) (set_g_slots (remove_all (slot_of (sb_Netns sb)) (g_slots g)) g))
      | LoadSandbox l => fun sb =>
          (forall k, owned_netns l (g_owned g) = Some (Some k) -> sb_Netns sb = k)
          /\ g' = claim l (sb_Netns sb) g
      | LockAgentMu l => fun _ => g' = set_g_lock (Some l) g
      | UnlockAgentMu _ => fun _ => g' = set_g_lock None g
      | SetNetns l nc => fun _ => g' = set_g_owned (set_owned_netns l nc (g_owned g)) g
      | TryStartExec l => fun r => g' = match r with None => set_g_exec (Some l) g | Some _ => g end
      | FinishExec _ => fun _ => g' = set_g_exec None g
      | PoolEnabled => fun b =>
          (g_pool g = true \/ g_slots g <> [] -> b = true) /\ g' = if b : bool then set_g_pool true g else g
      | PoolRecv _ => fun r =>
          match r with
          | Some nc => nc_Pooled nc = true /\ g' = set_g_slots (nc :: g_slots g) g
          | None => g' = g
          end
      | PoolSend nc => fun _ => g' = set_g_slots (remove1 nc (g_slots g)) g
      | _ => fun _ => g' = g
      end
  end x.

Definition gwp {A} (p : prog sysE A) (Q : outcome A -> ghost -> Prop) (g : ghost) : Prop := wp gpre gpost p Q g.

(** ** Rules *)

Lemma gwp_ret {A} (a : A) (Q : outcome A -> ghost -> Prop) g : Q (Done a) g -> gwp (Ret a) Q g.
Proof. done. Qed.

Lemma gwp_sys {X A} (e : envE X) (k : X -> prog sysE A) (Q : outcome A -> ghost -> Prop) g :
  (forall x, gwp (k x) Q (gsys e g)) -> gwp (bind (sys e) k) Q g.
Proof. intros H. split; [done|]. intros x g' ->. by apply H. Qed.

Lemma gwp_sys_end {X} (e : envE X) (Q : outcome X -> ghost -> Prop) g :
  (forall x, Q (Done x) (gsys e g)) -> gwp (sys e) Q g.
Proof. intros H. split; [done|]. intros x g' ->. by apply H. Qed.

Lemma gwp_mem {X A} (m : memE X) (k : X -> prog sysE A) (Q : outcome A -> ghost -> Prop) g :
  gpre X (Mem m) g -> (forall x g', gpost X (Mem m) g x g' -> gwp (k x) Q g') -> gwp (bind (memory m) k) Q g.
Proof. intros Hp H. by split. Qed.

Lemma gwp_mem_end {X} (m : memE X) (Q : outcome X -> ghost -> Prop) g :
  gpre X (Mem m) g -> (forall x g', gpost X (Mem m) g x g' -> Q (Done x) g') -> gwp (memory m) Q g.
Proof. intros Hp H. by split. Qed.

Definition gbindQ {A B} (f : A -> prog sysE B) (Q : outcome B -> ghost -> Prop) (o : outcome A) (g : ghost) : Prop :=
  match o with
  | Done a => gwp (f a) Q g
  | Panicked => Q Panicked g
  | OutOfFuel => Q OutOfFuel g
  | Blocked => Q Blocked g
  end.

Lemma gwp_mono {A} (p : prog sysE A) (Q Q' : outcome A -> ghost -> Prop) g :
  gwp p Q g -> (forall o g, Q o g -> Q' o g) -> gwp p Q' g.
Proof. intros H HQ. by eapply wp_mono. Qed.

Lemma gwp_bind {A B} (p : prog sysE A) (f : A -> prog sysE B) (Q : outcome B -> ghost -> Prop) g :
  gwp p (gbindQ f Q) g -> gwp (bind p f) Q g.
Proof. intros H. apply wp_bind. eapply wp_mono; [|exact H]. by intros []. Qed.

Definition gdeferQ {A} (d : prog sysE unit) (Q : outcome A -> ghost -> Prop) (o : outcome A) (g : ghost) : Prop :=
  match o with
  | Done a => gwp d (gbindQ (fun _ => Ret a) Q) g
  | Panicked => gwp d (gbindQ (fun _ => Panic) Q) g
  | OutOfFuel => Q OutOfFuel g
  | Blocked => Q Blocked g
  end.

Lemma gwp_defer {A} (p : prog sysE A) d (Q : outcome A -> ghost -> Prop) g :
  gwp p (gdeferQ d Q) g -> gwp (defer p d) Q g.
Proof.
  intros H. apply wp_defer. eapply wp_mono; [|exact H].
  by intros [a| | |] g' Hg; cbn in *; try (eapply wp_mono; [|exact Hg]; intros []).
Qed.

Definition gdeferWithQ {A L} (l0 : L) (d : L -> prog sysE unit) (Q : outcome A -> ghost -> Prop)
    (o : outcome (A * L)) (g : ghost) : Prop :=
  match o with
  | Done (a, l) => gwp (d l) (gbindQ (fun _ => Ret a) Q) g
  | Panicked => gwp (d l0) (gbindQ (fun _ => Panic) Q) g
  | OutOfFuel => Q OutOfFuel g
  | Blocked => Q Blocked g
  end.

Lemma gwp_deferWith {A L} (l0 : L) (p : prog sysE (A * L)) d (Q : outcome A -> ghost -> Prop) g :
  gwp p (gdeferWithQ l0 d Q) g -> gwp (deferWith l0 p d) Q g.
Proof.
  intros H. apply wp_deferWith. eapply wp_mono; [|exact H].
  by intros [[a l]| | |] g' Hg; cbn in *; try (eapply wp_mono; [|exact Hg]; intros []).
Qed.

Lemma gwp_forRange {A R} (I : list A -> ghost -> Prop) (l : list A) (body : A -> prog sysE (option R)) rest
    (Q : outcome R -> ghost -> Prop) g :
  (forall x xs g, I (x :: xs) g ->
     gwp (body x) (fun o g =>
       match o with
       | Done None => I xs g
       | Done (Some v) => Q (Done v) g
       | Panicked => Q Panicked g
       | OutOfFuel => Q OutOfFuel g
       | Blocked => Q Blocked g
       end) g) ->
  (forall g, I [] g -> gwp rest Q g) ->
  I l g -> gwp (forRange l body rest) Q g.
Proof.
  intros Hbody Hrest. revert g. induction l as [|x l IH]; intros g HI; cbn [forRange]; [by apply Hrest|].
  apply gwp_bind. eapply gwp_mono; [by apply Hbody|].
  by intros [[v|]| | |] g' H; simpl; auto.
Qed.

Lemma gwp_loop {X R} (I : X -> ghost -> Prop) (body : X -> prog sysE (X + R)) (Q : outcome R -> ghost -> Prop) n x g :
  (forall x g, I x g ->
     gwp (body x) (fun o g' =>
       match o with
       | Done (inl x') => I x' g'
       | Done (inr r) => Q (Done r) g'
       | Panicked => Q Panicked g'
       | OutOfFuel => Q OutOfFuel g'
       | Blocked => Q Blocked g'
       end) g) ->
  (forall x g, I x g -> Q OutOfFuel g) ->
  I x g -> gwp (loop n body x) Q g.
Proof. intros Hbody Hfuel HI. by eapply wp_loop. Qed.

(** Facts the functions preserve: more may be known, the rest is as it was. *)
Record up (g g' : ghost) : Prop := {
  up_pool : g_pool g = true -> g_pool g' = true;
  up_known : g_known g ⊆ g_known g';
  up_lock : g_lock g' = g_lock g;
  up_exec : g_exec g' = g_exec g;
  up_fresh : g_fresh g' = g_fresh g;
  up_owned : g_owned g' = g_owned g;
  up_slots : g_slots g' = g_slots g;
  up_replies : g_replies g' = g_replies g;
}.

#[export] Instance up_preorder : PreOrder up.
Proof.
  split.
  - intros g. by split.
  - intros g1 g2 g3 [] []. split; intros; auto; try congruence. by etrans.
Qed.

Definition grab (nc : netnsConfig) (g : ghost) : ghost := set_g_slots (slot_of (Some nc) ++ g_slots g) g.
Definition born (l : loc) (g : ghost) : ghost := learn [l] (set_g_fresh (l :: g_fresh g) g).

Lemma quiet_gwp {A} (p : prog sysE A) (P : outcome A -> Prop) (Q : outcome A -> ghost -> Prop) g :
  quiet p P -> (forall o, P o -> Q o g) -> gwp p Q g.
Proof.
  intros Hq HQ. revert Hq. unfold only, gwp. generalize tt as u.
  induction p as [a| | |X e k IH]; intros u H; simpl in *; auto.
  destruct H as [Hpre Hk]. destruct e as [Y e|]; [|done]. split; [done|].
  intros x g' Hg. assert (g' = g) as -> by (destruct e; done). apply (IH x tt), (Hk x tt I).
Qed.

(** The rules for a whole handler: quiet calls are skipped over. *)
Ltac gwp_step :=
  cbv beta iota zeta;
  lazymatch goal with
  | |- gwp (Ret _) _ _ => apply gwp_ret
  | |- gwp Panic _ _ => cbn [gwp wp]
  | |- gwp (bind (Ret ?a) ?k) _ _ => change (bind (Ret a) k) with (k a)
  | |- gwp (bind (sys _) _) _ _ => apply gwp_sys; intros ?; cbn [gsys]
  | |- gwp (bind (memory _) _) _ _ => apply gwp_mem; [|intros ? ? ?]
  | |- gwp (bind (match ?x with _ => _ end) _) _ _ => destruct x eqn:?
  | |- gwp (bind _ _) _ _ => apply gwp_bind
  | |- gwp (sys _) _ _ => apply gwp_sys_end; intros ?; cbn [gsys]
  | |- gwp (memory _) _ _ => apply gwp_mem_end; [|intros ? ? ?]
  | |- gwp (defer _ _) _ _ => apply gwp_defer
  | |- gwp (deferWith _ _ _) _ _ => apply gwp_deferWith
  | |- gwp (when ?b _) _ _ => destruct b eqn:?; cbn [when]
  | |- gwp (match ?x with _ => _ end) _ _ => destruct x eqn:?
  | |- gwp _ _ _ =>
      eapply quiet_gwp; [by auto with quiet|
        intros [] ?; try match goal with H : plain Panicked |- _ => destruct H | H : plain Blocked |- _ => destruct H end]
  | |- gbindQ _ _ _ _ => cbn [gbindQ]
  | |- gdeferQ _ _ _ _ => cbn [gdeferQ]
  | |- gdeferWithQ _ _ _ _ _ => cbn [gdeferWithQ]
  | |- match ?x with _ => _ end => destruct x eqn:?
  end.
