(* ===== verification/Conform.v ===== *)
(** * Every handler keeps to the protocol of Threads.v *)

From S2P Require Export Threads Quiet.

Lemma up_set_pool b g : (g_pool g = true -> b = true) -> up g (set_g_pool b g).
Proof. intros H. by split. Qed.

Lemma up_learn ls g : up g (learn ls g).
Proof. split; try done. cbn. set_solver. Qed.
#[export] Hint Resolve up_learn : manta.

Lemma remove_grab nc g : remove_all (slot_of (Some nc)) (slot_of (Some nc) ++ g_slots g) = g_slots g.
Proof. unfold slot_of. destruct (nc_Pooled nc); [|done]. cbn. by rewrite decide_True. Qed.

(** ** Quiet goroutines *)

Lemma quiet_silent {A} (p : prog sysE A) P : quiet p P -> silent_prog gpre gpost p.
Proof.
  unfold only. generalize tt as u. induction p as [a| | |X e k IH]; intros u H; try done.
  destruct H as [Hpre Hk]. destruct e as [Y e|]; [|done]. split.
  - split; [done|]. intros g x g' Hg. by destruct e.
  - intros x. apply (IH x tt), (Hk x tt I).
Qed.

Lemma quiet_leaf {A} (p : prog sysE A) P o : quiet p P -> leaf p o -> P o.
Proof.
  unfold only. generalize tt as u. induction p as [a| | |X e k IH]; intros u H HL; simpl in *; try by subst.
  destruct H as [Hpre Hk], HL as [x Hx]. apply (IH x tt); [|done]. apply (Hk x tt I).
Qed.

(** ** Slots *)

Lemma acquireNetns_gwp id (Q : outcome (result netnsConfig) -> ghost -> Prop) g :
  (forall g', g_lock g' = g_lock g -> Q OutOfFuel g') ->
  (forall e g', up g g' -> Q (Done (Err e)) g') ->
  (forall nc g', up (grab nc g) g' -> Q (Done (Ok nc)) g') ->
  gwp (acquireNetns id) Q g.
Proof.
  intros HF He Hok.
  assert (forall g', up g g' -> gwp (let! subnet := memory AddSubnet in setupSandboxNetnsAndRouting id subnet) Q g') as Hd.
  { intros g' Hg. apply gwp_mem; [done|]. intros n g'' ->. eapply quiet_gwp; [apply calm_quiet, calm_setup|].
    intros [[nc|e]| | |] H; simpl in H; try done; auto using up_lock.
    apply Hok. unfold grab, slot_of. rewrite H. by destruct g. }
  unfold acquireNetns. apply gwp_mem; [done|]. intros b g' [_ ->]. destruct b; [|by apply Hd].
  unfold Acquire. apply gwp_bind, gwp_mem; [done|]. intros [nc|] g' Hr; cbn in Hr.
  - destruct Hr as [Hp ->]. apply Hok. unfold grab, slot_of. rewrite Hp. by split.
  - subst. by apply Hd, up_set_pool.
Qed.

Lemma releaseNetns_gwp nc (Q : outcome unit -> ghost -> Prop) g :
  slot_of nc ⊆ g_slots g ->
  (forall g', g_lock g' = g_lock g -> Q OutOfFuel g') ->
  (forall g', up (set_g_slots (remove_all (slot_of nc) (g_slots g)) g) g' -> Q (Done tt) g') ->
  gwp (releaseNetns nc) Q g.
Proof.
  intros Hs HF HQ. destruct nc as [nc|]; [|by apply HQ; destruct g].
  unfold releaseNetns, slot_of in *. apply gwp_mem; [done|]. intros b g' [Hb ->].
  destruct (nc_Pooled nc) eqn:Hp.
  - assert (b = true) as ->. { apply Hb. right. intros E. rewrite E in Hs. set_solver. }
    apply gwp_mem_end; [cbn; split; [done|set_solver]|]. intros [] g' ->. apply HQ. by split.
  - rewrite andb_false_r. apply gwp_bind. eapply quiet_gwp; [apply calm_quiet, calm_cleanupNetns|].
    intros [] H; try done; cbn; [apply HQ|apply HF]; by destruct b; split.
Qed.

Lemma cloneAndAcquire_gwp cfg id src dst label (Q : outcome (result netnsConfig) -> ghost -> Prop) g :
  (forall g', g_lock g' = g_lock g -> Q OutOfFuel g') ->
  (forall e g', up g g' -> Q (Done (Err e)) g') ->
  (forall nc g', up (grab nc g) g' -> Q (Done (Ok nc)) g') ->
  gwp (cloneAndAcquire cfg id src dst label) Q g.
Proof.
  intros HF He Hok. unfold cloneAndAcquire. apply gwp_bind.
  set (clone := bind _ _).
  assert (quiet clone (fun o => match o with Done _ => True | _ => False end)) as Hq.
  { unfold clone, materializeSandboxRootfs, runCmd. only_steps. }
  apply wp_par; [by split; [done|intros ? ? ? ->]|by eapply quiet_silent|..].
  1-2: by intros g' HL; apply (quiet_leaf _ _ _ Hq) in HL.
  assert (leaf clone Panicked -> False) as HLp by (intros HL; by apply (quiet_leaf _ _ _ Hq) in HL).
  assert (leaf clone OutOfFuel -> False) as HLf by (intros HL; by apply (quiet_leaf _ _ _ Hq) in HL).
  apply acquireNetns_gwp; [by auto|..].
  - intros e g' Hg. repeat split; try by intros HL; exfalso; auto.
    intros [cerr|] _; cbn [gbindQ]; by apply He.
  - intros nc g' Hg. repeat split; try by intros HL; exfalso; auto.
    intros [cerr|] _; cbn [gbindQ]; [|by apply Hok].
    apply gwp_bind. apply releaseNetns_gwp; [rewrite (up_slots _ _ Hg); set_solver|..].
    { intros g'' Hg''. apply HF. by rewrite Hg'', (up_lock _ _ Hg). }
    intros g'' Hg''. cbn. apply He. etrans; [|exact Hg''].
    rewrite (up_slots _ _ Hg). cbn [grab set_g_slots g_slots]. rewrite remove_grab.
    destruct Hg. by split.
Qed.

(** ** Creating a sandbox *)

Ltac gwp_quiet :=
  repeat gwp_step;
  repeat match goal with H : gpost _ _ _ _ _ |- _ => progress cbn [gpost] in H; subst end.

(** From the slot to the sandbox: on success the slot is in the sandbox, and
    on failure it is still in hand. *)
Lemma restoreIntoNetns_gwp cfg id d r st me nc (Q : outcome (result loc * bool * bool) -> ghost -> Prop) g :
  slot_of (Some nc) ⊆ g_slots g ->
  Q OutOfFuel g ->
  (forall e, Q (Done (Err e, true, true)) g) ->
  (forall l, Q (Done (Ok l, false, false)) (born l (set_g_slots (remove_all (slot_of (Some nc)) (g_slots g)) g))) ->
  gwp (restoreIntoNetns cfg id d r st me nc) Q g.
Proof.
  intros Hs HF He Hok. unfold restoreIntoNetns. gwp_quiet; first [exact HF|apply He|apply Hok|done].
Qed.

Lemma bootIntoNetns_gwp cfg id d r nc (Q : outcome (result loc * bool * bool) -> ghost -> Prop) g :
  slot_of (Some nc) ⊆ g_slots g ->
  Q OutOfFuel g ->
  (forall e b, Q (Done (Err e, true, b)) g) ->
  (forall l, Q (Done (Ok l, false, false)) (born l (set_g_slots (remove_all (slot_of (Some nc)) (g_slots g)) g))) ->
  gwp (bootIntoNetns cfg id d r nc) Q g.
Proof.
  intros Hs HF He Hok. unfold bootIntoNetns. gwp_quiet; first [exact HF|apply He|apply Hok|done].
Qed.

Lemma up_drop nc g g' : up (grab nc g) g' -> up g (set_g_slots (remove_all (slot_of (Some nc)) (g_slots g')) g').
Proof. intros H. rewrite (up_slots _ _ H). cbn [grab set_g_slots g_slots]. rewrite remove_grab. destruct H. by split. Qed.

Lemma up_born l nc g g' :
  up (grab nc g) g' -> up (born l g) (born l (set_g_slots (remove_all (slot_of (Some nc)) (g_slots g')) g')).
Proof.
  intros H. apply up_drop in H as []. split; cbn in *; try done; try congruence. set_solver.
Qed.

(** A restore either leaves the slot count alone or has made a sandbox. *)
Lemma restoreSandbox_gwp cfg id src st me label keep (Q : outcome (result loc) -> ghost -> Prop) g :
  (forall g', g_lock g' = g_lock g -> Q OutOfFuel g') ->
  (forall e g', up g g' -> Q (Done (Err e)) g') ->
  (forall l g', up (born l g) g' -> Q (Done (Ok l)) g') ->
  gwp (restoreSandboxFromArtifacts cfg id src st me label keep) Q g.
Proof.
  intros HF He Hok. unfold restoreSandboxFromArtifacts.
  apply gwp_sys. intros [err|]; [by apply He|]. cbn [gsys].
  apply gwp_deferWith, gwp_bind, cloneAndAcquire_gwp; [by auto|..].
  - intros e g' Hg. gwp_quiet; by apply He.
  - intros nc g' Hg. cbn [gbindQ]. apply gwp_deferWith, restoreIntoNetns_gwp.
    + rewrite (up_slots _ _ Hg). set_solver.
    + apply HF, (up_lock _ _ Hg).
    + intros e. cbn [gdeferWithQ when]. apply releaseNetns_gwp.
      * rewrite (up_slots _ _ Hg). set_solver.
      * intros g'' Hg''. apply HF. by rewrite Hg'', (up_lock _ _ Hg).
      * intros g'' Hg''. gwp_quiet; apply He; (etrans; [by eapply up_drop|done]).
    + intros l. cbn [gdeferWithQ when andb]. gwp_quiet; by apply Hok, up_born.
Qed.

Lemma createFromUserSnapshot_gwp cfg id meta (Q : outcome (result loc) -> ghost -> Prop) g :
  (forall g', g_lock g' = g_lock g -> Q OutOfFuel g') ->
  (forall e g', up g g' -> Q (Done (Err e)) g') ->
  (forall l g', up (born l g) g' -> Q (Done (Ok l)) g') ->
  gwp (createSandboxFromUserSnapshot cfg id meta) Q g.
Proof.
  intros HF He Hok. unfold createSandboxFromUserSnapshot.
  apply (gwp_forRange (fun _ g' => g' = g)); [|by intros ? ->; apply restoreSandbox_gwp|done].
  intros p ps ? ->. gwp_quiet; [done|by apply He|by apply HF].
Qed.

(** What a failed create leaves: with snapshots disabled a slot may be lost. *)
Definition failed_create (cfg : config) (g g' : ghost) : Prop :=
  up g g' \/ cfg_EnableSnapshots cfg = false /\ exists nc, up (grab nc g) g'.

Lemma createSandbox_gwp cfg id (Q : outcome (result loc) -> ghost -> Prop) g :
  (forall g', g_lock g' = g_lock g -> Q OutOfFuel g') ->
  (forall e g', failed_create cfg g g' -> Q (Done (Err e)) g') ->
  (forall l g', up (born l g) g' -> Q (Done (Ok l)) g') ->
  gwp (createSandbox cfg id) Q g.
Proof.
  intros HF He Hok. unfold createSandbox. destruct (cfg_EnableSnapshots cfg) eqn:Hsnap.
  - unfold createSandboxFromSnapshot. apply gwp_bind. eapply quiet_gwp; [apply quiet_ensureSnapshot|].
    intros [[sp|e]| | |] H; try done; [|by apply He; left|by apply HF].
    apply restoreSandbox_gwp; [done| |done]. intros e g' Hg. apply He. by left.
  - apply gwp_sys. intros [err|]; [by apply He; left|]. cbn [gsys].
    apply gwp_deferWith, gwp_bind, cloneAndAcquire_gwp; [by auto|..].
    + intros e g' Hg. gwp_quiet; apply He; by left.
    + intros nc g' Hg. cbn [gbindQ].
      apply gwp_deferWith, bootIntoNetns_gwp.
      * rewrite (up_slots _ _ Hg). set_solver.
      * apply HF, (up_lock _ _ Hg).
      * intros e [|]; cbn [gdeferWithQ when].
        -- apply releaseNetns_gwp; [rewrite (up_slots _ _ Hg); set_solver|..].
           ++ intros g'' Hg''. apply HF. by rewrite Hg'', (up_lock _ _ Hg).
           ++ intros g'' Hg''. gwp_quiet; apply He; left; (etrans; [by eapply up_drop|done]).
        -- gwp_quiet; apply He; right; eauto.
      * intros l. cbn [gdeferWithQ when]. gwp_quiet; by apply Hok, up_born.
Qed.

(** ** The end of a sandbox *)

Lemma claim_other l nc g : owned_netns l (g_owned g) <> Some None -> claim l nc g = g.
Proof. unfold claim. by destruct (owned_netns _ _) as [[]|]. Qed.

Lemma dropAgent_gwp l (Q : outcome unit -> ghost -> Prop) g :
  l ∈ g_known g -> g_lock g = None ->
  (forall sb, (forall k, owned_netns l (g_owned g) = Some (Some k) -> sb_Netns sb = k) ->
     Q (Done tt) (claim l (sb_Netns sb) g)) ->
  gwp (dropAgent l) Q g.
Proof.
  intros Hl Hlock HQ. unfold dropAgent, Close.
  apply gwp_mem; [done|]. intros [] g' ->. apply gwp_mem; [done|]. intros sb g' [Hk ->].
  assert (set_g_lock None (claim l (sb_Netns sb) (set_g_lock (Some l) g)) = claim l (sb_Netns sb) g) as Heq.
  { destruct g. unfold claim. cbn in *. subst. by destruct (owned_netns _ _) as [[]|]. }
  assert (g_lock (claim l (sb_Netns sb) (set_g_lock (Some l) g)) = Some l
    /\ g_known (claim l (sb_Netns sb) (set_g_lock (Some l) g)) = g_known g) as [Hg1 Hg2].
  { unfold claim. cbn. by destruct (owned_netns _ _) as [[]|]. }
  assert (forall g1, g1 = claim l (sb_Netns sb) (set_g_lock (Some l) g) -> gwp (memory (UnlockAgentMu l)) Q g1) as Hend.
  { intros g1 ->. apply gwp_mem_end; [cbn; by rewrite Hg1, Hg2|]. intros [] g' ->. rewrite Heq. by apply HQ. }
  destruct (sb_Agent sb) as [ac|]; apply gwp_bind; [|by apply gwp_ret, Hend].
  gwp_quiet; [cbn; by rewrite Hg1, Hg2..|]. rewrite Heq. repeat match goal with x : unit |- _ => destruct x end. by apply HQ.
Qed.

Lemma waitForExecDrain_gwp l t (Q : outcome bool -> ghost -> Prop) g :
  l ∈ g_known g -> Q OutOfFuel g -> (forall b, Q (Done b) g) -> gwp (waitForExecDrain l t) Q g.
Proof.
  intros Hl HF HQ. unfold waitForExecDrain. apply gwp_sys. intros start. cbn [gsys].
  apply (gwp_loop (fun _ g' => g' = g)); [|by intros ? ? ->|done].
  intros [] ? ->. by gwp_quiet.
Qed.

(** After a cleanup the goroutine holds what it held before, except that the
    sandbox's [Netns] is nil. *)
Record cleaned (l : loc) (g g' : ghost) : Prop := {
  cl_up : up (set_g_owned (g_owned g') g) g';
  cl_netns : is_Some (owned_netns l (g_owned g'));
  cl_other : forall l', l' <> l -> owned_netns l' (g_owned g') = owned_netns l' (g_owned g);
}.

Lemma owned_set l l' k os :
  owned_netns l' (set_owned_netns l k os) =
  if bool_decide (l' = l) then ((fun _ => Some k) <$> owned_netns l os) else owned_netns l' os.
Proof.
  induction os as [|[l1 k1] os IH]; cbn; [by case_bool_decide|].
  repeat (case_bool_decide; subst; cbn); try done; rewrite IH; by case_bool_decide.
Qed.

Lemma cleanupSandbox_gwp l (Q : outcome (option error) -> ghost -> Prop) g :
  l ∈ g_known g -> g_lock g = None -> owned_netns l (g_owned g) = Some None ->
  (forall g', g_lock g' = None -> Q OutOfFuel g') ->
  (forall r g', cleaned l g g' -> Q (Done r) g') ->
  gwp (cleanupSandbox l) Q g.
Proof.
  intros Hl Hlock Ho HF HQ. unfold cleanupSandbox.
  apply gwp_bind, dropAgent_gwp; [done|done|]. intros sb _. cbn [gbindQ].
  set (nc := sb_Netns sb). set (g1 := claim l nc g).
  assert (g1 = set_g_owned (set_owned_netns l nc (g_owned g)) (set_g_slots (slot_of nc ++ g_slots g) g)) as Hg1.
  { unfold g1, claim. by rewrite Ho. }
  assert (owned_netns l (g_owned g1) = Some (Some nc)) as Ho1.
  { rewrite Hg1. cbn. rewrite owned_set, bool_decide_eq_true_2, Ho by done. done. }
  assert (forall nc', claim l nc' g1 = g1) as Hclaim by (intros; apply claim_other; by rewrite Ho1).
  apply gwp_mem; [by rewrite Hg1|]. intros sb1 g' [_ ->]. rewrite Hclaim.
  assert (forall g', g_lock g' = g_lock g1 -> Q OutOfFuel g') as HF1.
  { intros g' Hg'. apply HF. by rewrite Hg', Hg1. }
  assert (forall procErrs cgErr, gwp (
     let! sb := memory (LoadSandbox l) in releaseNetns (sb_Netns sb) ;;; memory (SetNetns l None) ;;;
     let! dirErr := sys (OsRemoveAll (sb_Dir sb)) in
     Ret (joinErrs (errEntry "kill cgroup: " cgErr ++ procErrs ++ errEntry "remove sandbox dir: " dirErr))) Q g1) as Hend.
  { intros pe ce. apply gwp_mem; [by rewrite Hg1|]. intros sb2 g' [Hk ->]. rewrite Hclaim, (Hk _ Ho1).
    apply gwp_bind, releaseNetns_gwp; [rewrite Hg1; set_solver|done|].
    intros g2 Hg2. cbn [gbindQ]. apply gwp_mem.
    { cbn. rewrite (up_owned _ _ Hg2). cbn. rewrite Ho1. split; [done|]. split; [|eauto].
      apply (up_known _ _ Hg2). by rewrite Hg1. }
    intros [] g3 ->. apply gwp_sys. intros dirErr. apply gwp_ret, HQ.
    assert (g_slots g2 = g_slots g) as Hs2.
    { rewrite (up_slots _ _ Hg2), Hg1. cbn. destruct nc as [c|]; [apply (remove_grab c g)|done]. }
    rewrite Hg1 in Hg2. destruct Hg2 as [H1 H2 H3 H4 H5 H6 H7 H8].
    cbn in H1, H2, H3, H4, H5, H6, H8. split; cbn; [split; cbn; congruence || auto|..].
    - rewrite H6, !owned_set, bool_decide_eq_true_2, Ho by done. by eexists.
    - intros l' Hl'. rewrite H6, !owned_set. by rewrite bool_decide_eq_false_2. }
  assert (Q OutOfFuel g1) by by apply HF1.
  repeat first [apply Hend | gwp_step]; done.
Qed.

(** ** Handlers *)

(** What holds when the goroutine of a request ends: it holds no mutex; unless
    it ran out of polling rounds it holds no admitted exec; it has answered
    once when it returns, and not at all when it panics. *)
Definition finished (cfg : config) (o : outcome unit) (g : ghost) : Prop :=
  g_lock g = None /\
  match o with
  | Done _ => g_exec g = None /\ g_fresh g = [] /\ length (g_replies g) = 1%nat
              /\ (cfg_EnableSnapshots cfg = true -> g_slots g = [])
  | Panicked => g_exec g = None /\ g_replies g = [] /\ g_slots g = []
  | OutOfFuel => True
  | Blocked => False
  end.

Lemma errorReply_gwp status t (Q : outcome unit -> ghost -> Prop) g :
  Q (Done tt) (set_g_replies ((status, PError t) :: g_replies g) g) -> gwp (errorReply status t) Q g.
Proof. intros H. apply gwp_sys_end. by intros []. Qed.

Lemma writeJSON_gwp status p (Q : outcome unit -> ghost -> Prop) g :
  Q (Done tt) (set_g_replies ((status, p) :: g_replies g) g) -> gwp (writeJSON status p) Q g.
Proof. intros H. apply gwp_sys_end. by intros []. Qed.

(** A reply from a goroutine that holds nothing. *)
Lemma finished_reply cfg r g : up g0 g -> finished cfg (Done tt) (set_g_replies (r :: g_replies g) g).
Proof. intros [_ _ H1 H2 H3 _ H4 H5]. split; [done|]. cbn in *. rewrite H2, H3, H4, H5. done. Qed.
#[export] Hint Resolve finished_reply : manta.

(** A sandbox that was created is published and the request answered. *)
Lemma publish_gwp cfg l (p : string -> payload) g :
  up (born l g0) g ->
  gwp (let! sb := memory (LoadSandbox l) in memory (SandboxesPut (sb_ID sb) l) ;;; writeJSON 200 (p (sb_ID sb)))
    (finished cfg) g.
Proof.
  intros H. assert (l ∈ g_known g) as Hl by (apply (up_known _ _ H); cbn; set_solver).
  apply gwp_mem; [done|]. intros sb g' [_ ->].
  rewrite claim_other by (rewrite (up_owned _ _ H); done).
  apply gwp_mem; [cbn; rewrite (up_fresh _ _ H); cbn; set_solver|]. intros [] g' ->.
  apply writeJSON_gwp. destruct H as [_ _ H1 H2 H3 _ H4 H5]. split; [done|]. cbn in *.
  rewrite H2, H3, H4, H5. cbn. by rewrite decide_True.
Qed.

Lemma handleCreate_gwp cfg : gwp (handleCreate cfg) (finished cfg) g0.
Proof.
  unfold handleCreate. apply gwp_mem; [done|]. intros n g ->.
  apply gwp_bind, createSandbox_gwp.
  - intros g' Hg'. by split.
  - intros e g' [Hg|(Hs & nc & Hg)]; cbn [gbindQ]; apply errorReply_gwp; [by apply finished_reply|].
    destruct Hg as [_ _ H1 H2 H3 _ H4 H5]. split; [done|]. cbn in *. rewrite H2, H3, H5, Hs. done.
  - intros l g' Hg. by apply publish_gwp.
Qed.

Lemma handleSnapshotRestore_gwp cfg body : gwp (handleSnapshotRestore cfg body) (finished cfg) g0.
Proof.
  unfold handleSnapshotRestore. repeat case_match; try by apply errorReply_gwp, finished_reply.
  apply gwp_bind. eapply quiet_gwp; [apply calm_quiet, calm_loadUserSnapshotMeta|].
  intros [[meta|e]| | |] H1; try done; cbn [gbindQ]; [|by apply errorReply_gwp, finished_reply].
  destruct (checkLineage cfg meta); [by apply errorReply_gwp, finished_reply|].
  apply gwp_mem; [done|]. intros n g ->. apply gwp_bind, createFromUserSnapshot_gwp.
  - intros g' Hg'. by split.
  - intros e' g' Hg. by apply errorReply_gwp, finished_reply.
  - intros l g' Hg. by apply publish_gwp.
Qed.

Lemma handleSnapshotList_gwp cfg : gwp (handleSnapshotList cfg) (finished cfg) g0.
Proof.
  unfold handleSnapshotList. apply gwp_bind. eapply quiet_gwp; [apply calm_quiet, calm_listUserSnapshots|].
  intros [[items|e]| | |] H; try done; [by apply writeJSON_gwp, finished_reply|by apply errorReply_gwp, finished_reply].
Qed.

Lemma handleSnapshotDelete_gwp cfg body : gwp (handleSnapshotDelete cfg body) (finished cfg) g0.
Proof.
  unfold handleSnapshotDelete. repeat case_match; try by apply errorReply_gwp, finished_reply.
  apply gwp_sys. intros [e|]; [by apply errorReply_gwp, finished_reply|by apply writeJSON_gwp, finished_reply].
Qed.

Lemma createUserSnapshot_gwp cfg l id n (Q : outcome (result userSnapshotMeta) -> ghost -> Prop) g :
  l ∈ g_known g -> g_lock g = None -> owned_netns l (g_owned g) = None ->
  (forall r, Q (Done r) g) -> Q OutOfFuel g ->
  gwp (createUserSnapshotFromSandbox cfg l id n) Q g.
Proof.
  intros Hl Hlock Ho HQ HF. unfold createUserSnapshotFromSandbox.
  apply gwp_bind, dropAgent_gwp; [done|done|]. intros sb _. cbn [gbindQ].
  rewrite claim_other by (by rewrite Ho). apply gwp_mem; [done|]. intros sb' g' [_ ->].
  rewrite claim_other by (by rewrite Ho). gwp_quiet; first [apply HQ|exact HF].
Qed.

Lemma handleSnapshotCreate_gwp cfg body : gwp (handleSnapshotCreate cfg body) (finished cfg) g0.
Proof.
  unfold handleSnapshotCreate. repeat case_match; try by apply errorReply_gwp, finished_reply.
  apply gwp_mem; [done|]. intros [l|] g ->; [|by apply errorReply_gwp, finished_reply, up_learn].
  apply gwp_mem; [done|]. intros k g' ->. apply gwp_bind, createUserSnapshot_gwp; [cbn; set_solver|done|done| |by split].
  intros [m|e]; [by apply writeJSON_gwp, finished_reply, up_learn|by apply errorReply_gwp, finished_reply, up_learn].
Qed.

(** ** Exec *)

Section exec.
Context (cfg : config) (l : loc) (req : execRequest).
Context (Q : outcome unit -> ghost -> Prop) (g : ghost).
Context (Hl : l ∈ g_known g) (Hlock : g_lock g = None) (Ho : owned_netns l (g_owned g) = None).
Context (HQ : forall r, Q (Done tt) (set_g_replies (r :: g_replies g) g)) (HP : Q Panicked g).
Context (HF : forall g', g_lock g' = None -> Q OutOfFuel g').

Lemma execOverSSH_gwp : gwp (execOverSSH cfg l req) Q g.
Proof.
  unfold execOverSSH, errorReply, writeJSON. apply gwp_mem; [done|]. intros sb g' [_ ->].
  rewrite claim_other by (by rewrite Ho).
  gwp_quiet; repeat match goal with x : unit |- _ => destruct x end; first [apply HQ|by apply HF].
Qed.

Lemma replyExec_gwp resp (Q' : outcome unit -> ghost -> Prop) g' :
  (forall r, Q' (Done tt) (set_g_replies (r :: g_replies g') g')) -> Q' Panicked g' -> gwp (replyExec resp) Q' g'.
Proof. intros H1 H2. unfold replyExec. destruct (rs_Exec resp); [by apply writeJSON_gwp|done]. Qed.

(** While the mutex is held the ghost state is this one. *)
Let gl : ghost := set_g_lock (Some l) g.

Lemma SetAgent_gwp {A} a (k : unit -> prog sysE A) (Q' : outcome A -> ghost -> Prop) :
  gwp (k tt) Q' gl -> gwp (bind (memory (SetAgent l a)) k) Q' gl.
Proof. intros H. apply gwp_mem; [done|]. by intros [] g' ->. Qed.

Lemma execOverAgent_gwp useShell : gwp (execOverAgent cfg l req useShell) Q g.
Proof.
  unfold execOverAgent. apply gwp_mem; [done|]. intros [] g' ->. fold gl.
  set (unlock := memory (UnlockAgentMu l)).
  assert (forall r, gdeferQ unlock Q (Done tt) (set_g_replies (r :: g_replies gl) gl)) as Hdone.
  { intros r. cbn [gdeferQ]. apply gwp_mem_end; [done|]. intros [] g' ->. cbn.
    specialize (HQ r). destruct g. cbn in *. by subst. }
  assert (gdeferQ unlock Q Panicked gl) as Hpanic.
  { cbn [gdeferQ]. apply gwp_mem_end; [done|]. intros [] g' ->. cbn. destruct g. cbn in *. by subst. }
  apply gwp_defer. apply gwp_mem; [done|]. intros sb g' [_ ->]. rewrite claim_other by (by cbn; rewrite Ho).
  assert (forall t, gwp (errorReply 500 t) (gdeferQ unlock Q) gl) as Herr by (intros t; by apply errorReply_gwp).
  assert (forall resp, gwp (replyExec resp) (gdeferQ unlock Q) gl) as Hok
    by (intros resp; apply replyExec_gwp; [exact Hdone|exact Hpanic]).
  assert (forall {A} (p : prog sysE A) (k : A -> prog sysE unit), quiet p total ->
    (forall a, gwp (k a) (gdeferQ unlock Q) gl) -> gwp (bind p k) (gdeferQ unlock Q) gl) as Hquiet.
  { intros A p k Hp Hk. apply gwp_bind. eapply quiet_gwp; [exact Hp|]. intros [a| | |] H; [apply Hk|destruct H..]. }
  assert (forall ac, gwp (
      try! resp := Call ac (execRPC cfg req useShell) (cfg_AgentCallTimeout cfg) catch err =>
        Close ac ;;; memory (SetAgent l None) ;;;
        try! newAC := dialAgent (sb_VsockPath sb) (cfg_AgentPort cfg) (cfg_AgentDialTimeout cfg) catch derr =>
          errorReply 500 ([Lit "agent dial failed: "] ++ err_text derr ++ [Lit " (original error: "] ++ err_text err ++ [Lit ")"]) in
        memory (SetAgent l (Some newAC)) ;;;
        try! resp := Call newAC (execRPC cfg req useShell) (cfg_AgentCallTimeout cfg) catch err =>
          errorReply 500 ([Lit "agent exec failed: "] ++ err_text err) in
        replyExec resp
      in replyExec resp) (gdeferQ unlock Q) gl) as Hcall.
  { intros ac. apply Hquiet; [apply calm_quiet, calm_Call_total|]. intros [resp|e]; [apply Hok|].
    apply gwp_sys. intros x. apply SetAgent_gwp. apply Hquiet; [apply calm_quiet, calm_dialAgent_total|].
    intros [ac'|e']; [|apply Herr]. apply SetAgent_gwp. apply Hquiet; [apply calm_quiet, calm_Call_total|].
    intros [resp|e']; [apply Hok|apply Herr]. }
  destruct (sb_Agent sb) as [ac|]; [apply Hcall|].
  apply gwp_bind, gwp_bind. eapply quiet_gwp; [apply calm_quiet, calm_dialAgent_total|].
  intros [[ac|e]| | |] H; [| |destruct H..]; cbn [gbindQ]; [|apply Herr]. apply SetAgent_gwp, Hcall.
Qed.

Lemma execAdmitted_gwp : gwp (execAdmitted cfg l req) Q g.
Proof.
  assert (forall s t, gwp (errorReply s t) Q g) as Herr by (intros; apply errorReply_gwp, HQ).
  unfold execAdmitted. destruct (chooseShell req) as [msg|useShell]; [apply Herr|].
  cbv zeta. destruct (bool_decide _).
  - destruct (negb useShell); [apply Herr|apply execOverSSH_gwp].
  - destruct (_ || _); [apply execOverAgent_gwp|apply Herr].
Qed.
End exec.

Lemma handleExec_gwp cfg body : gwp (handleExec cfg body) (finished cfg) g0.
Proof.
  unfold handleExec.
  destruct (decodeJSON _ _ _) as [req|]; [|by apply errorReply_gwp, finished_reply].
  destruct (is_empty _); [by apply errorReply_gwp, finished_reply|].
  apply gwp_mem; [done|]. intros [l|] g ->; [|by apply errorReply_gwp, finished_reply, up_learn].
  apply gwp_mem; [cbn; split; [set_solver|done]|].
  intros [e|] g ->; [by apply errorReply_gwp, finished_reply, up_learn|].
  apply gwp_defer, execAdmitted_gwp; try done.
  - cbn. set_solver.
  - intros r. apply gwp_mem_end; [cbn; split; [done|set_solver]|]. intros [] g' ->. done.
  - apply gwp_mem_end; [cbn; split; [done|set_solver]|]. by intros [] g' ->.
Qed.

(** ** Destroy *)

(** A goroutine that has let go of everything but sandboxes it took. *)
Definition released (g : ghost) : Prop :=
  g_lock g = None /\ g_exec g = None /\ g_fresh g = [] /\ g_slots g = [] /\ g_replies g = [].

Lemma released_reply cfg r g : released g -> finished cfg (Done tt) (set_g_replies (r :: g_replies g) g).
Proof. intros (H1 & H2 & H3 & H4 & H5). split; [done|]. cbn. by rewrite H5. Qed.

Lemma cleaned_released l g g' : released g -> cleaned l g g' -> released g'.
Proof.
  intros (H1 & H2 & H3 & H4 & H5) [[_ _ G1 G2 G3 _ G4 G5] _ _]. cbn in *. unfold released. by rewrite G1, G2, G3, G4, G5.
Qed.

Lemma drain_gwp {A} l (k : unit -> prog sysE A) (Q : outcome A -> ghost -> Prop) g :
  l ∈ g_known g -> Q OutOfFuel g -> gwp (k tt) Q g ->
  gwp (let! drained := waitForExecDrain l destroyExecDrainTimeout in
       when (negb drained) (memory (InFlightExec l) ;;; Ret tt) ;;; k tt) Q g.
Proof.
  intros Hl HF Hk. apply gwp_bind, waitForExecDrain_gwp; [done|done|]. intros [|]; cbn [gbindQ negb when].
  - exact Hk.
  - apply gwp_bind, gwp_mem; [done|]. intros n g' ->. exact Hk.
Qed.

Lemma handleDestroy_gwp cfg body : gwp (handleDestroy body) (finished cfg) g0.
Proof.
  unfold handleDestroy.
  destruct (decodeJSON _ _ _) as [id|]; [|by apply errorReply_gwp, finished_reply].
  destruct (is_empty _); [by apply errorReply_gwp, finished_reply|].
  apply gwp_mem; [done|]. intros [l|] g ->; [|by apply errorReply_gwp, finished_reply].
  set (g1 := learn _ _).
  assert (l ∈ g_known g1 /\ owned_netns l (g_owned g1) = Some None) as [Hl Ho].
  { split; cbn; [set_solver|]. by rewrite bool_decide_eq_true_2. }
  apply gwp_mem; [cbn [gpre]; by rewrite Ho|]. intros first g ->.
  destruct (negb first); [by apply errorReply_gwp, released_reply|].
  apply gwp_defer.
  assert (forall g, g_lock g = None -> finished cfg OutOfFuel g) as HF by (by intros; split).
  apply (drain_gwp l (fun _ => do! cleanupSandbox l catch err => errorReply 500 (err_text err) in writeJSON 200 (PStatus "ok")));
    [done|by apply HF|].
  apply gwp_bind, cleanupSandbox_gwp; [done|done|done|done|]. intros r g' Hg'.
  assert (forall s p, gdeferQ (memory (FinishDestroy l)) (finished cfg) (Done tt) (set_g_replies ((s, p) :: g_replies g') g')) as Hfin.
  { intros s p. cbn [gdeferQ]. apply gwp_mem_end.
    - cbn. split; [|apply Hg']. apply (up_known _ _ (cl_up _ _ _ Hg')). done.
    - intros [] g'' ->. apply released_reply. apply (cleaned_released l g1); [by repeat split|exact Hg']. }
  destruct r; [by apply errorReply_gwp|by apply writeJSON_gwp].
Qed.

(** The shutdown goes through every sandbox of the map. *)
Lemma destroyAll_gwp b0 : gwp destroyAll (fun o g => g_lock g = None /\ plain o) (set_g_pool b0 g0).
Proof.
  unfold destroyAll. apply gwp_mem; [done|]. intros ls g (Hnd & _ & ->).
  set (I := fun (ls : list loc) g => released g /\ NoDup ls
    /\ forall l, l ∈ ls -> l ∈ g_known g /\ owned_netns l (g_owned g) = Some None).
  apply (gwp_forRange I).
  - intros l ls' g' (Hrel & Hnd' & Hall). apply NoDup_cons in Hnd' as [Hnin Hnd'].
    destruct (Hall l) as [Hl Ho]; [set_solver|].
    assert (g_lock g' = None) as Hlock by apply Hrel.
    apply gwp_mem; [cbn [gpre]; rewrite Ho; split; [exact Hl|by eexists]|]. intros b g'' ->.
    set (body := fun _ : unit => _). set (Q := fun o : outcome (option unit) => _).
    assert (gwp (body tt) Q g') as Hclean.
    { apply gwp_bind, cleanupSandbox_gwp; [done|done|done|done|]. intros r g2 Hg2.
      assert (g_known g' ⊆ g_known g2) as Hsub by apply (up_known _ _ (cl_up _ _ _ Hg2)).
      apply gwp_mem; [cbn; split; [by apply Hsub|apply Hg2]|]. intros [] g3 ->. apply gwp_ret.
      split; [by apply (cleaned_released l g')|]. split; [done|].
      intros l' Hl'. destruct (Hall l') as [H1 H2]; [set_solver|]. split; [by apply Hsub|].
      rewrite (cl_other _ _ _ Hg2); [done|]. by intros ->. }
    apply gwp_bind. destruct b; cbn [when]; [|exact Hclean].
    apply gwp_bind, waitForExecDrain_gwp; [done|done|].
    intros [|]; cbn [gbindQ negb when]; [exact Hclean|].
    apply gwp_mem; [exact Hl|]. intros n g'' ->. exact Hclean.
  - intros g' H. apply gwp_ret. by split; [apply H|].
  - split; [done|]. split; [done|]. intros l Hl. cbn. split; [set_solver|].
    rewrite app_nil_r. clear -Hl. induction ls as [|l' ls IH]; [set_solver|].
    cbn. case_bool_decide; [done|]. apply IH. set_solver.
Qed.

(** ** Every request and the shutdown *)

Lemma shutdown_gwp : gwp shutdown (fun o g => g_lock g = None /\ plain o) g0.
Proof.
  unfold shutdown. apply gwp_mem; [done|]. intros b g [_ ->].
  destruct b; cbn [when]; apply gwp_bind; [|exact (destroyAll_gwp false)].
  unfold Destroy. apply gwp_mem; [done|]. intros all g ->.
  apply (gwp_forRange (fun _ g => g = set_g_pool true g0)); [|by intros g ->; apply (destroyAll_gwp true)|done].
  intros nc ncs g ->. apply gwp_bind. eapply quiet_gwp; [apply calm_quiet, calm_cleanupNetns|]. by intros [].
Qed.

Lemma serve_conforms cfg r : gwp (serve cfg r) (finished cfg) g0.
Proof.
  destruct r; cbn [serve].
  - apply handleCreate_gwp.
  - apply handleExec_gwp.
  - apply handleDestroy_gwp.
  - apply handleSnapshotCreate_gwp.
  - apply handleSnapshotRestore_gwp.
  - apply handleSnapshotList_gwp.
  - apply handleSnapshotDelete_gwp.
  - by apply writeJSON_gwp, finished_reply.
Qed.
