(* ===== verification/Interleave.v ===== *)
(** * Requests in any interleaving

    A configuration is the list of the goroutines of the server, one per
    request that has arrived (or for the shutdown), and the shared memory.
    Any goroutine may perform its next operation; the environment may give any
    answer; new requests arrive at any time. *)

From S2P Require Export Conform.

(** [th_req] is [None] for the shutdown; [th_replies] are the answers sent on
    the connection of the request, latest first. *)
Record thread := MkThread {
  th_req : option route;
  th_prog : prog sysE unit;
  th_replies : list (Z * payload);
}.

Record conf := MkConf { c_threads : list thread; c_server : server }.

Inductive cstep (cfg : config) : conf -> conf -> Prop :=
| step_request ts s r : cstep cfg (MkConf ts s) (MkConf (ts ++ [MkThread (Some r) (serve cfg r) []]) s)
| step_shutdown ts s : cstep cfg (MkConf ts s) (MkConf (ts ++ [MkThread None shutdown []]) s)
| step_env ts s i r (X : Type) (e : envE X) k rs x :
    ts !! i = Some (MkThread r (Vis (Sys e) k) rs) ->
    cstep cfg (MkConf ts s) (MkConf (<[i := MkThread r (k x) (sent e ++ rs)]> ts) s)
| step_mem ts s i r (X : Type) (m : memE X) k rs x s' :
    ts !! i = Some (MkThread r (Vis (Mem m) k) rs) -> mem_step m s = Some (x, s') ->
    cstep cfg (MkConf ts s) (MkConf (<[i := MkThread r (k x) rs]> ts) s').

(** A server that main has just started: no sandbox yet, and the pool as Init
    leaves it. *)
Definition initial (s : server) : Prop :=
  s_sandboxes s = ∅ /\ s_heap s = [] /\
  match s_netnsPool s with
  | Some p => pool_ch p = pool_all p /\ NoDup (pool_all p) /\ length (pool_all p) = pool_size p
              /\ Forall (fun nc => nc_Pooled nc = true) (pool_all p)
  | None => True
  end.

Definition reachable (cfg : config) (s0 : server) (c : conf) : Prop := rtc (cstep cfg) (MkConf [] s0) c.

(** ** What the goroutines hold, together *)

Definition locks (gs : list ghost) : list loc := omap g_lock gs.
Definition execs (gs : list ghost) : list loc := omap g_exec gs.
Definition known (gs : list ghost) : list loc := gs ≫= g_known.
Definition fresh (gs : list ghost) : list loc := gs ≫= g_fresh.
Definition owned (gs : list ghost) : list loc := gs ≫= fun g => (g_owned g).*1.
Definition in_hand (gs : list ghost) : list netnsConfig := gs ≫= g_slots.

(** Taken sandboxes whose slot is still in the sandbox. *)
Definition g_intact (g : ghost) : list loc :=
  omap (fun p => match p.2 with None => Some p.1 | Some _ => None end) (g_owned g).
Definition intact (gs : list ghost) : list loc := gs ≫= g_intact.

(** ** The state of the server as a whole *)

Definition published (s : server) : list loc := (map_to_list (s_sandboxes s)).*2.
Definition live (s : server) (gs : list ghost) : list loc := published s ++ fresh gs ++ owned gs.

Definition pool_chan (s : server) : list netnsConfig :=
  match s_netnsPool s with Some p => pool_ch p | None => [] end.
Definition pool_entries (s : server) : list netnsConfig :=
  match s_netnsPool s with Some p => pool_all p | None => [] end.

Definition slot_at (h : list sandbox) (l : loc) : list netnsConfig :=
  match h !! l with Some sb => slot_of (sb_Netns sb) | None => [] end.
Definition slots_at (h : list sandbox) (ls : list loc) : list netnsConfig := ls ≫= slot_at h.

(** Where the entries of the pool are: in the channel, in sandboxes that are
    published or about to be or not yet cleaned up, or in hand. *)
Definition ledger (s : server) (gs : list ghost) : list netnsConfig :=
  pool_chan s ++ slots_at (s_heap s) (published s ++ fresh gs ++ intact gs) ++ in_hand gs.

Definition occurrences (l : loc) (ls : list loc) : nat := length (filter (fun l' => l' = l) ls).

Record good (s : server) (gs : list ghost) : Prop := {
  gd_known : Forall (fun l => (l < length (s_heap s))%nat) (known gs ++ locks gs ++ execs gs);
  gd_live : NoDup (live s gs);
  gd_live_known : Forall (fun l => (l < length (s_heap s))%nat) (live s gs);
  gd_locks : NoDup (locks gs);
  gd_agentMu : forall l sb, s_heap s !! l = Some sb -> sb_agentMu sb = true <-> l ∈ locks gs;
  gd_inFlight : forall l sb, s_heap s !! l = Some sb -> sb_inFlightExec sb = Z.of_nat (occurrences l (execs gs));
  gd_running : forall l sb, s_heap s !! l = Some sb -> l ∈ published s ++ fresh gs -> sb_state sb = sandboxStateRunning;
  gd_claimed : forall g l k sb, g ∈ gs -> owned_netns l (g_owned g) = Some (Some k) -> s_heap s !! l = Some sb -> sb_Netns sb = k;
  gd_ledger : ledger s gs ⊆+ pool_entries s;
  gd_entries : NoDup (pool_entries s) /\ Forall (fun nc => nc_Pooled nc = true) (pool_entries s);
  gd_size : forall p, s_netnsPool s = Some p -> (length (pool_all p) <= pool_size p)%nat;
  gd_pool : forall g, g ∈ gs -> g_pool g = true -> is_Some (s_netnsPool s);
}.

(** The order of the goroutines does not matter. *)
Lemma good_perm s gs gs' : gs ≡ₚ gs' -> good s gs -> good s gs'.
Proof.
  intros Hp [].
  assert (known gs ≡ₚ known gs') as E1 by (unfold known; by rewrite Hp).
  assert (locks gs ≡ₚ locks gs') as E2 by (unfold locks; by rewrite Hp).
  assert (execs gs ≡ₚ execs gs') as E3 by (unfold execs; by rewrite Hp).
  assert (fresh gs ≡ₚ fresh gs') as E4 by (unfold fresh; by rewrite Hp).
  assert (owned gs ≡ₚ owned gs') as E5 by (unfold owned; by rewrite Hp).
  assert (in_hand gs ≡ₚ in_hand gs') as E6 by (unfold in_hand; by rewrite Hp).
  assert (intact gs ≡ₚ intact gs') as E7 by (unfold intact; by rewrite Hp).
  assert (live s gs ≡ₚ live s gs') as E8 by (unfold live; by rewrite E4, E5).
  split; try done.
  - by rewrite <- E1, <- E2, <- E3.
  - by rewrite <- E8.
  - by rewrite <- E8.
  - by rewrite <- E2.
  - intros l sb Hl. rewrite (gd_agentMu0 l sb Hl). by rewrite E2.
  - intros l sb Hl. rewrite (gd_inFlight0 l sb Hl). unfold occurrences. by rewrite E3.
  - intros l sb Hl. rewrite <- E4. by apply gd_running0.
  - intros g l k sb Hg. rewrite <- Hp in Hg. by apply gd_claimed0.
  - unfold ledger, slots_at in *. by rewrite <- E4, <- E6, <- E7.
  - intros g Hg. rewrite <- Hp in Hg. by apply gd_pool0.
Qed.

(** ** One memory operation *)

Lemma slots_at_ext h h' ls : (forall l, l ∈ ls -> slot_at h l = slot_at h' l) -> slots_at h ls = slots_at h' ls.
Proof.
  unfold slots_at. induction ls as [|l ls IH]; intros H; [done|]. cbn.
  rewrite (H l), IH; [done| |]; set_solver.
Qed.

Lemma lookup_upd (h : list sandbox) l l' sb sb1 :
  <[l := sb]> h !! l' = Some sb1 -> (l' = l /\ sb1 = sb) \/ (l' <> l /\ h !! l' = Some sb1).
Proof.
  intros H. destruct (decide (l' = l)) as [->|Hn].
  - left. split; [done|]. apply list_lookup_insert_Some in H as [(_ & -> & _)|[[] _]]; done.
  - right. split; [done|]. by rewrite list_lookup_insert_ne in H by done.
Qed.

Lemma slot_at_upd (h : list sandbox) l sb sb' l' :
  h !! l = Some sb -> sb_Netns sb' = sb_Netns sb -> slot_at (<[l := sb']> h) l' = slot_at h l'.
Proof.
  intros Hl Hn. unfold slot_at. destruct (decide (l' = l)) as [->|Hne].
  - rewrite list_lookup_insert_eq by (by eapply lookup_lt_Some). by rewrite Hl, Hn.
  - by rewrite list_lookup_insert_ne.
Qed.

(** An update of a sandbox that keeps its [Netns], by a goroutine whose
    holdings other than mutex and exec stay. *)
Lemma good_touch s l sb sb' g g' gs :
  good s (g :: gs) -> s_heap s !! l = Some sb -> sb_Netns sb' = sb_Netns sb ->
  g_pool g' = g_pool g -> g_known g' = g_known g -> g_fresh g' = g_fresh g ->
  g_owned g' = g_owned g -> g_slots g' = g_slots g ->
  (sb_state sb' = sb_state sb \/ l ∉ published s ++ fresh (g :: gs)) ->
  NoDup (locks (g' :: gs)) ->
  (forall l', l' ∈ locks (g' :: gs) ++ execs (g' :: gs) -> (l' < length (s_heap s))%nat) ->
  (sb_agentMu sb' = true <-> l ∈ locks (g' :: gs)) ->
  (forall l', l' <> l -> l' ∈ locks (g' :: gs) <-> l' ∈ locks (g :: gs)) ->
  sb_inFlightExec sb' = Z.of_nat (occurrences l (execs (g' :: gs))) ->
  (forall l', l' <> l -> occurrences l' (execs (g' :: gs)) = occurrences l' (execs (g :: gs))) ->
  good (upd_heap (<[l := sb']>) s) (g' :: gs).
Proof.
  intros [] Hl Hnet E1 E2 E3 E4 E5 Hst Hnd Hval Hmu Hmu' Hin Hin'.
  assert (known (g' :: gs) = known (g :: gs)) as Ek by (unfold known; cbn; by rewrite E2).
  assert (fresh (g' :: gs) = fresh (g :: gs)) as Ef by (unfold fresh; cbn; by rewrite E3).
  assert (owned (g' :: gs) = owned (g :: gs)) as Eo by (unfold owned; cbn; by rewrite E4).
  assert (intact (g' :: gs) = intact (g :: gs)) as Ei by (unfold intact, g_intact; cbn; by rewrite E4).
  assert (in_hand (g' :: gs) = in_hand (g :: gs)) as Eh by (unfold in_hand; cbn; by rewrite E5).
  assert (live (upd_heap (<[l := sb']>) s) (g' :: gs) = live s (g :: gs)) as El by (unfold live; by rewrite Ef, Eo).
  split; cbn [upd_heap s_heap]; rewrite ?length_insert, ?El, ?Ef, ?Ek; try done.
  - apply Forall_app in gd_known0 as [H1 _]. apply Forall_app. split; [done|]. by apply Forall_forall.
  - intros l' sb1 H. apply lookup_upd in H as [[-> ->]|[Hn H]]; [done|]. rewrite Hmu' by done. by apply gd_agentMu0.
  - intros l' sb1 H. apply lookup_upd in H as [[-> ->]|[Hn H]]; [done|]. rewrite Hin' by done. by apply gd_inFlight0.
  - intros l' sb1 H Hpub. apply lookup_upd in H as [[-> ->]|[Hn H]]; [|by eapply gd_running0].
    destruct Hst as [->|[]]; [|done]. by eapply gd_running0.
  - intros g1 l' k sb1 Hg Ho H. apply elem_of_cons in Hg.
    assert (exists g2, g2 ∈ g :: gs /\ owned_netns l' (g_owned g2) = Some (Some k)) as (g2 & Hg2 & Ho2).
    { destruct Hg as [->|Hg]; [exists g; rewrite <- E4; set_solver|exists g1; set_solver]. }
    apply lookup_upd in H as [[-> ->]|[Hn H]]; [rewrite Hnet|]; by eapply gd_claimed0.
  - unfold ledger in *. cbn [pool_chan upd_heap s_netnsPool s_heap]. rewrite Ef, Ei, Eh.
    rewrite (slots_at_ext _ (s_heap s)); [done|]. intros l' _. by eapply slot_at_upd.
  - intros g1 Hg Hp. apply elem_of_cons in Hg as [->|Hg]; [apply (gd_pool0 g); [set_solver|congruence]|].
    apply (gd_pool0 g1); [set_solver|done].
Qed.

Lemma on_sandbox_inv {X} l (f : sandbox -> sandbox * X) s x s' :
  on_sandbox l f s = Some (x, s') ->
  exists sb, s_heap s !! l = Some sb /\ x = snd (f sb) /\ s' = upd_heap (<[l := fst (f sb)]>) s.
Proof.
  unfold on_sandbox. intros H. destruct (s_heap s !! l) as [sb|]; [|done]. exists sb.
  destruct (f sb) as [sb' y]. by simplify_eq.
Qed.

Definition preserved {X} (m : memE X) : Prop :=
  forall s g gs x s', good s (g :: gs) -> gpre X (Mem m) g -> mem_step m s = Some (x, s') ->
  exists g', gpost X (Mem m) g x g' /\ good s' (g' :: gs).

(** Operations on the counters only. *)
Lemma good_same s s' gs :
  s_sandboxes s' = s_sandboxes s -> s_heap s' = s_heap s -> s_netnsPool s' = s_netnsPool s -> good s gs -> good s' gs.
Proof.
  intros E1 E2 E3 []. split; unfold live, ledger, published, pool_chan, pool_entries in *; rewrite ?E1, ?E2, ?E3 in *; done.
Qed.

Lemma known_lookup s g gs l : good s (g :: gs) -> l ∈ g_known g -> (l < length (s_heap s))%nat.
Proof.
  intros [] Hl. rewrite Forall_forall in gd_known0. apply gd_known0. unfold known. cbn. set_solver.
Qed.

Lemma locks_valid s gs l : good s gs -> l ∈ locks gs ++ execs gs -> (l < length (s_heap s))%nat.
Proof. intros [] Hl. rewrite Forall_forall in gd_known0. apply gd_known0. set_solver. Qed.

(** Knowing more pointers. *)
Lemma good_learn s ls g gs :
  good s (g :: gs) -> Forall (fun l => (l < length (s_heap s))%nat) ls -> good s (learn ls g :: gs).
Proof.
  intros [] Hls. split; try done.
  - unfold known in *. cbn in *. rewrite !Forall_app in *. tauto.
  - intros g1 l k sb Hg. apply elem_of_cons in Hg as [->|Hg]; [exact (gd_claimed0 g l k sb ltac:(set_solver))|].
    exact (gd_claimed0 g1 l k sb ltac:(set_solver)).
  - intros g1 Hg. apply elem_of_cons in Hg as [->|Hg]; [exact (gd_pool0 g ltac:(set_solver))|].
    exact (gd_pool0 g1 ltac:(set_solver)).
Qed.

Lemma SandboxesGet_preserved id : preserved (SandboxesGet id).
Proof.
  intros s g gs x s' Hg _ [= <- <-]. eexists. split; [done|]. apply good_learn; [done|].
  destruct (s_sandboxes s !! id) as [l|] eqn:E; [|done]. apply Forall_singleton.
  destruct Hg. rewrite Forall_forall in gd_live_known0. apply gd_live_known0.
  unfold live, published. apply elem_of_app. left. apply list_elem_of_fmap. exists (id, l). split; [done|].
  by apply elem_of_map_to_list.
Qed.

(** The side conditions of [good_touch] that the operation leaves as they
    were. *)
Ltac frame_of Hg Hl :=
  first [ done | by left | apply (gd_locks _ _ Hg) | apply (gd_agentMu _ _ Hg _ _ Hl)
        | apply (gd_inFlight _ _ Hg _ _ Hl)
        | intros ? ?; by apply (locks_valid _ _ _ Hg) | by apply NoDup_cons; split; [|apply (gd_locks _ _ Hg)] ].

Lemma occurrences_cons l l' ls : occurrences l (l' :: ls) = ((if decide (l' = l) then 1 else 0) + occurrences l ls)%nat.
Proof. unfold occurrences. rewrite filter_cons. by case_decide. Qed.

Lemma LockAgentMu_preserved l : preserved (LockAgentMu l).
Proof.
  intros s g gs x s' Hg [Hk Hn] Hm. cbn in Hm.
  destruct (s_heap s !! l) as [sb|] eqn:Hl; [|done]. destruct (sb_agentMu sb) eqn:Hmu; [done|]. simplify_eq.
  eexists. split; [done|].
  assert (l ∉ locks (g :: gs)) as Hnl.
  { intros H. apply (gd_agentMu _ _ Hg l sb Hl) in H. congruence. }
  assert (locks (set_g_lock (Some l) g :: gs) = l :: locks (g :: gs)) as E by (unfold locks; cbn; by rewrite Hn).
  apply (good_touch s l sb _ g _ gs Hg Hl); rewrite ?E; try frame_of Hg Hl.
  - intros l' Hl'. apply elem_of_cons in Hl' as [->|Hl']; [by eapply known_lookup|by eapply locks_valid].
  - split; [set_solver|done].
  - intros l' Hne. set_solver.
Qed.

Lemma UnlockAgentMu_preserved l : preserved (UnlockAgentMu l).
Proof.
  intros s g gs x s' Hg [Hlock Hk] Hm. apply on_sandbox_inv in Hm as (sb & Hl & -> & ->).
  eexists. split; [done|].
  assert (locks (g :: gs) = l :: locks gs) as E by (unfold locks; cbn; by rewrite Hlock).
  assert (locks (set_g_lock None g :: gs) = locks gs) as E' by done.
  pose proof (gd_locks _ _ Hg) as Hnd. rewrite E in Hnd. apply NoDup_cons in Hnd as [Hnl Hnd].
  apply (good_touch s l sb _ g _ gs Hg Hl); rewrite ?E, ?E'; try frame_of Hg Hl.
  - intros l' Hl'. eapply locks_valid; [exact Hg|]. rewrite E. set_solver.
  - intros l' Hne. set_solver.
Qed.

Lemma SetAgent_preserved l a : preserved (SetAgent l a).
Proof.
  intros s g gs x s' Hg [Hlock Hk] Hm. apply on_sandbox_inv in Hm as (sb & Hl & -> & ->).
  exists g. split; [done|].
  apply (good_touch s l sb _ g _ gs Hg Hl); try frame_of Hg Hl.
Qed.

Lemma TryStartExec_preserved l : preserved (TryStartExec l).
Proof.
  intros s g gs x s' Hg [Hk Hn] Hm. apply on_sandbox_inv in Hm as (sb & Hl & -> & ->).
  unfold tryStartExec. case_bool_decide as Hst; cbn; eexists; (split; [done|]).
  - assert (execs (set_g_exec (Some l) g :: gs) = l :: execs (g :: gs)) as E by (unfold execs; cbn; by rewrite Hn).
    apply (good_touch s l sb _ g _ gs Hg Hl); rewrite ?E; try frame_of Hg Hl.
    + intros l' Hl'. apply elem_of_app in Hl' as [Hl'|Hl']; [eapply locks_valid; [done|set_solver]|].
      apply elem_of_cons in Hl' as [->|Hl']; [by eapply known_lookup|eapply locks_valid; [done|set_solver]].
    + rewrite occurrences_cons, decide_True by done. cbn [sb_inFlightExec set_lifecycle]. rewrite (gd_inFlight _ _ Hg l sb Hl). lia.
    + intros l' Hne. rewrite occurrences_cons, decide_False by done. done.
  - apply (good_touch s l sb _ g _ gs Hg Hl); try frame_of Hg Hl.
Qed.

Lemma FinishExec_preserved l : preserved (FinishExec l).
Proof.
  intros s g gs x s' Hg [Hexec Hk] Hm. apply on_sandbox_inv in Hm as (sb & Hl & -> & ->).
  eexists. split; [done|].
  assert (execs (g :: gs) = l :: execs gs) as E by (unfold execs; cbn; by rewrite Hexec).
  assert (execs (set_g_exec None g :: gs) = execs gs) as E' by done.
  pose proof (gd_inFlight _ _ Hg l sb Hl) as Hin. rewrite E, occurrences_cons, decide_True in Hin by done.
  unfold finishExec. rewrite (proj2 (Z.gtb_lt _ _)) by lia. cbn.
  apply (good_touch s l sb _ g _ gs Hg Hl); rewrite ?E, ?E'; try frame_of Hg Hl.
  - intros l' Hl'. eapply locks_valid; [exact Hg|]. rewrite E. set_solver.
  - cbn [sb_inFlightExec set_lifecycle]. lia.
  - intros l' Hne. by rewrite occurrences_cons, decide_False.
Qed.

(** Ownership of a taken sandbox. *)

Lemma owned_netns_elem l os k : owned_netns l os = Some k -> l ∈ os.*1.
Proof.
  induction os as [|[l' k'] os IH]; cbn; [done|]. case_bool_decide; subst; set_solver.
Qed.

Lemma live_owned s g gs l : good s (g :: gs) -> l ∈ (g_owned g).*1 -> l ∉ published s ++ fresh (g :: gs).
Proof.
  intros [_ Hnd] Hl Hin. unfold live, owned in Hnd. rewrite app_assoc in Hnd.
  apply NoDup_app in Hnd as (_ & Hdisj & _). apply (Hdisj l Hin). cbn. set_solver.
Qed.

Lemma owned_touch {X} (m : memE X) l (f : sandbox -> sandbox) s g gs s' :
  good s (g :: gs) -> is_Some (owned_netns l (g_owned g)) ->
  (forall sb, sb_Netns (f sb) = sb_Netns sb /\ sb_agentMu (f sb) = sb_agentMu sb /\ sb_inFlightExec (f sb) = sb_inFlightExec sb) ->
  (exists sb, s_heap s !! l = Some sb /\ s' = upd_heap (<[l := f sb]>) s) ->
  good s' (g :: gs).
Proof.
  intros Hg [k Ho] Hf (sb & Hl & ->). destruct (Hf sb) as (E1 & E2 & E3).
  apply (good_touch s l sb _ g _ gs Hg Hl); rewrite ?E2, ?E3; try frame_of Hg Hl.
  right. by eapply live_owned, owned_netns_elem.
Qed.

Lemma BeginDestroy_preserved l : preserved (BeginDestroy l).
Proof.
  intros s g gs x s' Hg [_ Ho] Hm. apply on_sandbox_inv in Hm as (sb & Hl & -> & ->).
  exists g. split; [done|]. eapply (owned_touch (BeginDestroy l) l (fun sb => fst (beginDestroy sb))); eauto.
  intros sb'. unfold beginDestroy. by case_bool_decide.
Qed.

Lemma FinishDestroy_preserved l : preserved (FinishDestroy l).
Proof.
  intros s g gs x s' Hg [_ Ho] Hm. apply on_sandbox_inv in Hm as (sb & Hl & -> & ->).
  exists g. split; [done|]. by eapply (owned_touch (FinishDestroy l) l finishDestroy); eauto.
Qed.

Lemma upd_heap_id s l sb : s_heap s !! l = Some sb -> upd_heap (<[l := sb]>) s = s.
Proof. intros H. destruct s. unfold upd_heap. cbn in *. by rewrite list_insert_id. Qed.

Lemma InFlightExec_preserved l : preserved (InFlightExec l).
Proof.
  intros s g gs x s' Hg _ Hm. apply on_sandbox_inv in Hm as (sb & Hl & -> & ->).
  exists g. split; [done|]. cbn. by rewrite upd_heap_id.
Qed.

(** ** The map of sandboxes *)

Lemma published_put s id l ls :
  exists ls', published (upd_sandboxes (<[id := l]>) s) ++ ls' ++ ls ≡ₚ l :: published s ++ ls.
Proof.
  unfold published. cbn [upd_sandboxes s_sandboxes].
  destruct (s_sandboxes s !! id) as [l0|] eqn:E.
  - exists [l0]. rewrite <- insert_delete_eq, map_to_list_insert by apply lookup_delete_eq.
    rewrite <- (map_to_list_delete (s_sandboxes s) id l0 E). cbn. solve_Permutation.
  - exists []. rewrite map_to_list_insert by done. done.
Qed.

Lemma NoDup_sub {A} (l k : list A) : l ⊆+ k -> NoDup k -> NoDup l.
Proof. intros [k' ->]%submseteq_Permutation Hn. by apply NoDup_app in Hn as [? _]. Qed.

Lemma Forall_sub {A} (P : A -> Prop) l k : l ⊆+ k -> Forall P k -> Forall P l.
Proof. intros [k' ->]%submseteq_Permutation Hf. by apply Forall_app in Hf as [? _]. Qed.

Definition same_pool (s s' : server) : Prop :=
  match s_netnsPool s, s_netnsPool s' with
  | Some p, Some p' => pool_all p' = pool_all p /\ pool_size p' = pool_size p
  | None, None => True
  | _, _ => False
  end.

(** Sandboxes and slots move between the server and one goroutine; none is
    made. *)
Lemma good_moves s s' g g' gs :
  good s (g :: gs) -> s_heap s' = s_heap s -> same_pool s s' ->
  g_lock g' = g_lock g -> g_exec g' = g_exec g ->
  (g_pool g' = true -> is_Some (s_netnsPool s)) ->
  (forall l, l ∈ g_known g' -> (l < length (s_heap s))%nat) ->
  live s' (g' :: gs) ⊆+ live s (g :: gs) ->
  published s' ++ fresh (g' :: gs) ⊆ published s ++ fresh (g :: gs) ->
  (forall l k sb, owned_netns l (g_owned g') = Some (Some k) -> s_heap s !! l = Some sb -> sb_Netns sb = k) ->
  ledger s' (g' :: gs) ⊆+ ledger s (g :: gs) ->
  good s' (g' :: gs).
Proof.
  intros [] Eh Hpool El Ee Hp Hk Hlive Hpub Hclaim Hled.
  assert (locks (g' :: gs) = locks (g :: gs)) as E1 by (unfold locks; cbn; by rewrite El).
  assert (execs (g' :: gs) = execs (g :: gs)) as E2 by (unfold execs; cbn; by rewrite Ee).
  assert (pool_entries s' = pool_entries s) as E3.
  { unfold same_pool, pool_entries in *. destruct (s_netnsPool s), (s_netnsPool s'); try done. by destruct Hpool. }
  split; rewrite ?E1, ?E2, ?E3, ?Eh; try done.
  - rewrite Forall_app in *. destruct gd_known0 as [H1 H2]. split; [|done].
    rewrite Forall_forall in *. unfold known in *. cbn in *. intros l Hl.
    apply elem_of_app in Hl as [Hl|Hl]; [by apply Hk|]. apply H1. set_solver.
  - by eapply NoDup_sub.
  - by eapply Forall_sub.
  - intros l sb Hl Hin. eapply gd_running0; [done|]. by apply Hpub.
  - intros g1 l k sb Hg. apply elem_of_cons in Hg as [->|Hg]; [apply Hclaim|]. apply (gd_claimed0 g1). set_solver.
  - by etrans.
  - intros p Hp'. unfold same_pool in Hpool. rewrite Hp' in Hpool. destruct (s_netnsPool s) as [p0|] eqn:E; [|done].
    destruct Hpool as [-> ->]. by apply gd_size0.
  - assert (is_Some (s_netnsPool s) -> is_Some (s_netnsPool s')) as Hsome.
    { unfold same_pool in Hpool. destruct (s_netnsPool s), (s_netnsPool s'); done. }
    intros g1 Hg Hg'. apply Hsome. apply elem_of_cons in Hg as [->|Hg]; [by apply Hp|].
    exact (gd_pool0 g1 ltac:(set_solver) Hg').
Qed.

Lemma same_pool_refl s s' : s_netnsPool s' = s_netnsPool s -> same_pool s s'.
Proof. unfold same_pool. intros ->. by destruct (s_netnsPool s). Qed.

Lemma slots_at_app h l k : slots_at h (l ++ k) = slots_at h l ++ slots_at h k.
Proof. unfold slots_at. apply bind_app. Qed.

Lemma slots_at_cons h l k : slots_at h (l :: k) = slot_at h l ++ slots_at h k.
Proof. done. Qed.

#[export] Instance slots_at_perm h : Proper (Permutation ==> Permutation) (slots_at h).
Proof. intros l k H. unfold slots_at. by rewrite H. Qed.

Lemma remove1_perm {A} `{EqDecision A} (x : A) l : x ∈ l -> l ≡ₚ x :: remove1 x l.
Proof.
  induction l as [|y l IH]; [set_solver|]. intros H. cbn. case_decide; subst; [done|].
  apply elem_of_cons in H as [->|H]; [done|]. rewrite (IH H) at 1. solve_Permutation.
Qed.

Lemma pool_of s g gs : good s (g :: gs) -> g_pool g = true -> is_Some (s_netnsPool s).
Proof. intros [] H. apply (gd_pool0 g); [set_solver|done]. Qed.

Lemma claims_of s g gs l k sb :
  good s (g :: gs) -> owned_netns l (g_owned g) = Some (Some k) -> s_heap s !! l = Some sb -> sb_Netns sb = k.
Proof. intros []. apply (gd_claimed0 g). set_solver. Qed.

Lemma sub_drop {A} (ls l k : list A) : l ++ k ⊆+ l ++ ls ++ k.
Proof. apply submseteq_app; [done|]. apply submseteq_inserts_l. done. Qed.

Lemma SandboxesPut_preserved id l : preserved (SandboxesPut id l).
Proof.
  intros s g gs x s' Hg Hl [= <- <-]. cbn in Hl.
  set (g' := set_g_fresh (remove1 l (g_fresh g)) g). exists g'. split; [done|].
  assert (fresh (g :: gs) ≡ₚ l :: fresh (g' :: gs)) as Ef.
  { unfold fresh. cbn. by rewrite (remove1_perm l (g_fresh g)) at 1. }
  assert (forall ls, exists ls', published (upd_sandboxes (<[id := l]>) s) ++ ls' ++ fresh (g' :: gs) ++ ls
    ≡ₚ published s ++ fresh (g :: gs) ++ ls) as Hput.
  { intros ls. destruct (published_put s id l (fresh (g' :: gs) ++ ls)) as [ls' Hp]. exists ls'.
    rewrite Hp, Ef. solve_Permutation. }
  apply (good_moves s _ g); try done.
  - by apply same_pool_refl.
  - by apply (pool_of s g gs).
  - intros l'. by apply (known_lookup s g gs).
  - destruct (Hput (owned (g :: gs))) as [ls' Hp]. unfold live.
    change (owned (g' :: gs)) with (owned (g :: gs)). rewrite <- Hp. apply sub_drop.
  - destruct (Hput []) as [ls' Hp]. rewrite !app_nil_r in Hp. intros l' Hl'. rewrite <- Hp. set_solver.
  - intros l' k sb. by apply (claims_of s g gs).
  - destruct (Hput (intact (g :: gs))) as [ls' Hp]. unfold ledger.
    apply submseteq_app; [done|]. apply submseteq_app; [|done].
    change (intact (g' :: gs)) with (intact (g :: gs)). cbn [upd_sandboxes s_heap].
    rewrite <- Hp, !slots_at_app. apply sub_drop.
Qed.

Lemma published_take s id l :
  s_sandboxes s !! id = Some l -> published s ≡ₚ l :: published (upd_sandboxes (delete id) s).
Proof. intros H. unfold published. cbn. by rewrite <- (map_to_list_delete _ _ _ H). Qed.

Lemma live_valid s gs l : good s gs -> l ∈ live s gs -> (l < length (s_heap s))%nat.
Proof. intros [] H. rewrite Forall_forall in gd_live_known0. by apply gd_live_known0. Qed.

Lemma SandboxesTake_preserved id : preserved (SandboxesTake id).
Proof.
  intros s g gs x s' Hg _ [= <- <-]. destruct (s_sandboxes s !! id) as [l|] eqn:E.
  - pose proof (published_take s id l E) as Hp.
    set (g' := learn [l] (set_g_owned ((l, None) :: g_owned g) g)). exists g'. split; [done|].
    assert (l ∈ live s (g :: gs)) as Hlive by (unfold live; rewrite Hp; set_solver).
    apply (good_moves s _ g); try done.
    + by apply same_pool_refl.
    + by apply (pool_of s g gs).
    + intros l' Hl'. cbn in Hl'. apply elem_of_cons in Hl' as [->|Hl']; [by eapply live_valid|by eapply known_lookup].
    + unfold live. change (owned (g' :: gs)) with (l :: owned (g :: gs)).
      change (fresh (g' :: gs)) with (fresh (g :: gs)). rewrite Hp. apply Permutation_submseteq. solve_Permutation.
    + change (fresh (g' :: gs)) with (fresh (g :: gs)). rewrite Hp. set_solver.
    + intros l' k sb Ho. cbn in Ho. case_bool_decide; [done|]. by apply (claims_of s g gs).
    + unfold ledger. change (intact (g' :: gs)) with (l :: intact (g :: gs)).
      change (fresh (g' :: gs)) with (fresh (g :: gs)). cbn [upd_sandboxes s_heap].
      apply submseteq_app; [done|]. apply submseteq_app; [|done]. rewrite Hp.
      apply Permutation_submseteq, slots_at_perm. solve_Permutation.
  - exists g. split; [done|]. cbv beta iota. unfold upd_sandboxes. rewrite delete_id by done. by destruct s.
Qed.

Lemma owned_netns_notin l os : l ∉ os.*1 -> owned_netns l os = None.
Proof. intros H. destruct (owned_netns l os) eqn:E; [|done]. by apply owned_netns_elem in E. Qed.

Lemma SandboxesSweep_preserved : preserved SandboxesSweep.
Proof.
  intros s g gs x s' Hg _ [= <- <-]. change ((map_to_list (s_sandboxes s)).*2) with (published s).
  pose proof (gd_live _ _ Hg) as Hnd. unfold live in Hnd.
  set (ls := published s). set (g' := learn ls (set_g_owned (map (fun l => (l, None)) ls ++ g_owned g) g)).
  assert ((map (fun l => (l, None)) ls ++ g_owned g).*1 = ls ++ (g_owned g).*1) as Hfst.
  { rewrite fmap_app. f_equal. clear. induction ls; cbn; [done|by f_equal]. }
  assert (intact (g' :: gs) = ls ++ intact (g :: gs)) as Ei.
  { unfold intact, g_intact. cbn. rewrite omap_app, <- app_assoc. f_equal. clear. induction ls; cbn; [done|by f_equal]. }
  assert (owned (g' :: gs) = ls ++ owned (g :: gs)) as Eo.
  { unfold owned. cbn. rewrite Hfst. by rewrite <- app_assoc. }
  exists g'. split; [split; [|split; [|done]]|].
  - by apply NoDup_app in Hnd as [? _].
  - apply Forall_forall. intros l Hl. apply owned_netns_notin. intros Ho.
    apply NoDup_app in Hnd as (_ & Hd & _). apply (Hd l Hl). unfold owned. cbn. set_solver.
  - apply (good_moves s _ g); try done.
    + by apply same_pool_refl.
    + by apply (pool_of s g gs).
    + intros l Hl. cbn in Hl. apply elem_of_app in Hl as [Hl|Hl]; [|by eapply known_lookup].
      eapply live_valid; [done|]. unfold live. set_solver.
    + unfold live. rewrite Eo. unfold published. cbn. rewrite map_to_list_empty. cbn.
      apply Permutation_submseteq. change (fresh (g' :: gs)) with (fresh (g :: gs)). unfold ls. solve_Permutation.
    + change (fresh (g' :: gs)) with (fresh (g :: gs)). unfold published. cbn. rewrite map_to_list_empty. set_solver.
    + intros l k sb Ho. cbn in Ho. apply (claims_of s g gs); [done|].
      clear -Ho. induction ls as [|l' ls IH]; cbn in Ho; [done|]. case_bool_decide; [done|]. auto.
    + unfold ledger. rewrite Ei. cbn [upd_sandboxes s_heap]. change (fresh (g' :: gs)) with (fresh (g :: gs)).
      apply submseteq_app; [done|]. apply submseteq_app; [|done].
      apply Permutation_submseteq, slots_at_perm. unfold published at 1. cbn. rewrite map_to_list_empty. cbn.
      unfold ls. solve_Permutation.
Qed.

(** ** Sandboxes and their slots *)

Lemma remove_all_perm nc l : slot_of nc ⊆ l -> l ≡ₚ slot_of nc ++ remove_all (slot_of nc) l.
Proof.
  destruct nc as [nc|]; [|done]. unfold slot_of. destruct (nc_Pooled nc); [|done].
  intros H. cbn. apply remove1_perm. set_solver.
Qed.

Lemma slot_at_app_old (h : list sandbox) sb l : (l < length h)%nat -> slot_at (h ++ [sb]) l = slot_at h l.
Proof. intros H. unfold slot_at. by rewrite lookup_app_l. Qed.

Lemma lookup_snoc_inv (h : list sandbox) sb l sb' :
  (h ++ [sb]) !! l = Some sb' -> (l = length h /\ sb' = sb) \/ h !! l = Some sb'.
Proof.
  intros H. apply lookup_app_Some in H as [H|[Hl H]]; [by right|].
  apply list_lookup_singleton_Some in H as [E ->]. left. split; [lia|done].
Qed.

Lemma occurrences_zero l ls : l ∉ ls -> occurrences l ls = 0%nat.
Proof.
  unfold occurrences. induction ls as [|x ls IH]; intros H; [done|]. rewrite filter_cons.
  case_decide; [subst; set_solver|]. apply IH. set_solver.
Qed.

(** A goroutine that has put its slot [nc] into a new sandbox [l]. *)
Definition newborn (l : loc) (nc : option netnsConfig) (g : ghost) : ghost :=
  learn [l] (set_g_fresh (l :: g_fresh g) (set_g_slots (remove_all (slot_of nc) (g_slots g)) g)).

Lemma newborn_live s sb l nc g gs :
  live (upd_heap (fun h => h ++ [sb]) s) (newborn l nc g :: gs) ≡ₚ l :: live s (g :: gs).
Proof.
  unfold live. change (fresh (newborn l nc g :: gs)) with (l :: fresh (g :: gs)).
  change (owned (newborn l nc g :: gs)) with (owned (g :: gs)). cbn. solve_Permutation.
Qed.

Lemma intact_owned gs l : l ∈ intact gs -> l ∈ owned gs.
Proof.
  unfold intact, owned. rewrite !list_elem_of_bind. intros (g1 & H1 & H2). exists g1. split; [|done].
  unfold g_intact in H1. apply list_elem_of_omap in H1 as ([l1 [k|]] & H3 & [= ->]).
  apply list_elem_of_fmap. by exists (l, None).
Qed.

Lemma owned_by g l k gs : g ∈ gs -> owned_netns l (g_owned g) = Some k -> l ∈ owned gs.
Proof.
  intros Hg Ho. apply owned_netns_elem in Ho. unfold owned. rewrite list_elem_of_bind. by exists g.
Qed.

(** The slot moves from the hand into the sandbox. *)
Lemma newborn_ledger s sb g gs :
  good s (g :: gs) -> slot_of (sb_Netns sb) ⊆ g_slots g ->
  ledger (upd_heap (fun h => h ++ [sb]) s) (newborn (length (s_heap s)) (sb_Netns sb) g :: gs) ≡ₚ ledger s (g :: gs).
Proof.
  intros Hg Hslot. set (l := length (s_heap s)). set (g' := newborn _ _ g). unfold ledger. cbn [upd_heap s_heap].
  change (fresh (g' :: gs)) with (l :: fresh (g :: gs)). change (intact (g' :: gs)) with (intact (g :: gs)).
  change (published (upd_heap (fun h => h ++ [sb]) s)) with (published s).
  change (pool_chan (upd_heap (fun h => h ++ [sb]) s)) with (pool_chan s).
  assert (slot_at (s_heap s ++ [sb]) l = slot_of (sb_Netns sb)) as Hnew.
  { unfold slot_at, l. by rewrite lookup_app_r, Nat.sub_diag. }
  assert (in_hand (g :: gs) ≡ₚ slot_of (sb_Netns sb) ++ in_hand (g' :: gs)) as ->.
  { unfold in_hand. cbn. by rewrite (remove_all_perm (sb_Netns sb) (g_slots g) Hslot) at 1; rewrite <- app_assoc. }
  cbn [app]. rewrite <- (Permutation_middle (published s)), slots_at_cons, Hnew.
  rewrite (slots_at_ext _ (s_heap s)); [solve_Permutation|].
  intros l' Hl'. apply slot_at_app_old. apply (live_valid s _ l' Hg). unfold live.
  pose proof (intact_owned (g :: gs) l'). rewrite !elem_of_app in *. naive_solver.
Qed.

Lemma NewSandbox_preserved sb : preserved (NewSandbox sb).
Proof.
  intros s g gs x s' Hg (Hst & Hin & Hmu & Hslot) [= <- <-].
  set (l := length (s_heap s)). set (g' := newborn l (sb_Netns sb) g). exists g'. split; [done|].
  pose proof (newborn_live s sb l (sb_Netns sb) g gs : live _ (g' :: gs) ≡ₚ _) as Hlive.
  pose proof (newborn_ledger s sb g gs Hg Hslot : ledger _ (g' :: gs) ≡ₚ _) as Hledger.
  assert (forall l', l' ∈ live s (g :: gs) -> (l' < l)%nat) as Hold by (intros l'; by apply live_valid).
  assert (forall l', l' ∈ locks (g :: gs) ++ execs (g :: gs) -> (l' < l)%nat) as Hold' by (intros l'; by apply locks_valid).
  destruct Hg. split; cbn [upd_heap s_heap s_netnsPool]; rewrite ?length_app; cbn [length]; fold l.
  - change (locks (g' :: gs)) with (locks (g :: gs)). change (execs (g' :: gs)) with (execs (g :: gs)).
    change (known (g' :: gs)) with (l :: known (g :: gs)). cbn [app]. apply Forall_cons. split; [lia|].
    eapply Forall_impl; [exact gd_known0|]. cbn. unfold l. lia.
  - rewrite Hlive. apply NoDup_cons. split; [|done]. intros H. apply Hold in H. lia.
  - rewrite Hlive. apply Forall_cons. split; [lia|]. eapply Forall_impl; [exact gd_live_known0|]. cbn. unfold l. lia.
  - done.
  - change (locks (g' :: gs)) with (locks (g :: gs)). intros l' sb' H.
    apply lookup_snoc_inv in H as [[-> ->]|H]; [|by apply gd_agentMu0]. rewrite Hmu. split; [done|].
    intros H. assert (l < l)%nat by (apply Hold'; set_solver). lia.
  - change (execs (g' :: gs)) with (execs (g :: gs)). intros l' sb' H.
    apply lookup_snoc_inv in H as [[-> ->]|H]; [|by apply gd_inFlight0]. rewrite Hin, occurrences_zero; [done|].
    intros H. assert (l < l)%nat by (apply Hold'; set_solver). lia.
  - change (fresh (g' :: gs)) with (l :: fresh (g :: gs)). intros l' sb' H Hin'.
    apply lookup_snoc_inv in H as [[-> ->]|H]; [done|]. eapply gd_running0; [done|].
    apply lookup_lt_Some in H. fold l in H. unfold published in *. cbn in Hin'. rewrite elem_of_app, elem_of_cons in Hin'.
    rewrite elem_of_app. destruct Hin' as [|[->|]]; [by left|lia|by right].
  - intros g1 l' k sb' Hg1 Ho H.
    assert (exists g2, g2 ∈ g :: gs /\ owned_netns l' (g_owned g2) = Some (Some k)) as (g2 & Hg2 & Ho2).
    { apply elem_of_cons in Hg1 as [->|Hg1]; [exists g|exists g1]; (split; [apply elem_of_cons; auto|exact Ho]). }
    apply lookup_snoc_inv in H as [[-> ->]|H]; [|exact (gd_claimed0 g2 l' k sb' Hg2 Ho2 H)].
    assert (l < l)%nat; [|lia]. apply Hold. unfold live. apply (owned_by _ _ _ _ Hg2) in Ho2. rewrite !elem_of_app. auto.
  - rewrite Hledger. exact gd_ledger0.
  - done.
  - done.
  - intros g1 [->|Hg1]%elem_of_cons; [apply (gd_pool0 g)|apply (gd_pool0 g1)]; apply elem_of_cons; auto.
Qed.

(** Reading a sandbox: a slot that was in the sandbox is now in hand. *)
Lemma claim_intact l nc g gs :
  owned_netns l (g_owned g) = Some None ->
  intact (g :: gs) ≡ₚ l :: intact (claim l nc g :: gs)
  /\ owned (claim l nc g :: gs) = owned (g :: gs)
  /\ in_hand (claim l nc g :: gs) = slot_of nc ++ in_hand (g :: gs)
  /\ fresh (claim l nc g :: gs) = fresh (g :: gs)
  /\ forall l', owned_netns l' (g_owned (claim l nc g)) =
       if bool_decide (l' = l) then Some (Some nc) else owned_netns l' (g_owned g).
Proof.
  intros Ho. unfold claim. rewrite Ho. repeat split.
  - unfold intact, g_intact. cbn. rewrite app_comm_cons. apply Permutation_app_tail.
    clear -Ho. induction (g_owned g) as [|[l' k'] os IH]; cbn in *; [done|].
    case_bool_decide as E; cbn; [by simplify_eq|]. specialize (IH Ho).
    destruct k'; cbn; [done|]. rewrite IH. solve_Permutation.
  - unfold owned. cbn. f_equal. clear. induction (g_owned g) as [|[l' k'] os IH]; cbn; [done|].
    case_bool_decide; cbn; [done|by f_equal].
  - unfold in_hand. cbn. by rewrite app_assoc.
  - intros l'. cbn. rewrite owned_set, Ho. done.
Qed.

Lemma LoadSandbox_preserved l : preserved (LoadSandbox l).
Proof.
  intros s g gs x s' Hg Hk Hm. apply on_sandbox_inv in Hm as (sb & Hl & -> & ->). cbn [fst snd].
  rewrite upd_heap_id by done. exists (claim l (sb_Netns sb) g). split.
  { split; [|done]. intros k Ho. by eapply (claims_of s g gs). }
  destruct (decide (owned_netns l (g_owned g) = Some None)) as [Ho|Ho]; [|by rewrite claim_other].
  destruct (claim_intact l (sb_Netns sb) g gs Ho) as (E1 & E2 & E3 & E4 & E5).
  apply (good_moves s _ g); try done; try (unfold claim; rewrite Ho; done).
  - by apply same_pool_refl.
  - unfold claim. rewrite Ho. by apply (pool_of s g gs).
  - unfold claim. rewrite Ho. intros l'. by apply (known_lookup s g gs).
  - unfold live. by rewrite E2, E4.
  - intros l' k sb'. rewrite E5. case_bool_decide; [|by apply (claims_of s g gs)].
    subst. intros [= <-] H. by simplify_eq.
  - apply Permutation_submseteq. unfold ledger. rewrite E1, E3, E4.
    rewrite !(app_assoc (published s)), <- Permutation_middle, slots_at_cons.
    assert (slot_at (s_heap s) l = slot_of (sb_Netns sb)) as -> by (unfold slot_at; by rewrite Hl).
    solve_Permutation.
Qed.

Lemma claimed_not_held l k s g gs :
  good s (g :: gs) -> owned_netns l (g_owned g) = Some (Some k) ->
  l ∉ published s ++ fresh (g :: gs) ++ intact (g :: gs)
  /\ forall g1, g1 ∈ gs -> owned_netns l (g_owned g1) = None.
Proof.
  intros Hg Ho. pose proof (owned_netns_elem _ _ _ Ho) as Hl.
  pose proof (gd_live _ _ Hg) as Hnd. unfold live in Hnd. rewrite app_assoc in Hnd.
  apply NoDup_app in Hnd as (_ & Hd & Hnd). unfold owned in Hnd, Hd. cbn in Hnd, Hd.
  apply NoDup_app in Hnd as (Hnd1 & Hd1 & _).
  assert (forall g1, g1 ∈ gs -> l ∉ (g_owned g1).*1) as Hgs.
  { intros g1 Hg1 H. apply (Hd1 l Hl). apply list_elem_of_bind. by exists g1. }
  split.
  - rewrite app_assoc. intros H. apply elem_of_app in H as [H|H]; [by eapply Hd; [exact H|set_solver]|].
    unfold intact in H. cbn in H. apply elem_of_app in H as [H|H].
    + clear -H Ho Hnd1. unfold g_intact in H. induction (g_owned g) as [|[l' k'] os IH]; cbn in *; [set_solver|].
      apply NoDup_cons in Hnd1 as [Hn Hnd1]. case_bool_decide; subst; simplify_eq; cbn in H.
      * apply Hn. apply list_elem_of_omap in H as ([l1 [|]] & H1 & [= ->]). apply list_elem_of_fmap. by exists (l', None).
      * destruct k'; cbn in H; [by apply IH|]. apply elem_of_cons in H as [->|H]; [done|by apply IH].
    + apply list_elem_of_bind in H as (g1 & H & Hg1). apply (Hgs g1 Hg1).
      apply list_elem_of_omap in H as ([l1 [|]] & H1 & [= ->]). apply list_elem_of_fmap. by exists (l, None).
  - intros g1 Hg1. by apply owned_netns_notin, Hgs.
Qed.

Lemma SetNetns_preserved l nc : preserved (SetNetns l nc).
Proof.
  intros s g gs x s' Hg (-> & Hk & k & Ho) Hm. apply on_sandbox_inv in Hm as (sb & Hl & -> & ->). cbn [fst snd].
  set (g' := set_g_owned (set_owned_netns l None (g_owned g)) g). exists g'. split; [done|].
  destruct (claimed_not_held l k s g gs Hg Ho) as [Hnot Hothers].
  assert (forall l', owned_netns l' (g_owned g') = if bool_decide (l' = l) then Some (Some None) else owned_netns l' (g_owned g)) as Eo.
  { intros l'. cbn. by rewrite owned_set, Ho. }
  assert (owned (g' :: gs) = owned (g :: gs)) as Eow.
  { unfold owned. cbn. f_equal. clear. induction (g_owned g) as [|[l' k'] os IH]; cbn; [done|].
    case_bool_decide; cbn; [done|by f_equal]. }
  assert (intact (g' :: gs) = intact (g :: gs)) as Ei.
  { unfold intact, g_intact. cbn. f_equal. clear -Ho. induction (g_owned g) as [|[l' k'] os IH]; cbn in *; [done|].
    case_bool_decide as E; cbn; [by simplify_eq|]. specialize (IH Ho). destruct k'; cbn; [done|by f_equal]. }
  pose proof Hg as []. split; cbn [upd_heap s_heap s_netnsPool]; rewrite ?length_insert; try done.
  - unfold live. rewrite Eow. done.
  - unfold live. rewrite Eow. done.
  - intros l' sb1 H. apply lookup_upd in H as [[-> ->]|[Hn H]]; [by apply (gd_agentMu0 l sb)|by apply gd_agentMu0].
  - intros l' sb1 H. apply lookup_upd in H as [[-> ->]|[Hn H]]; [by apply (gd_inFlight0 l sb)|by apply gd_inFlight0].
  - intros l' sb1 H Hp. apply lookup_upd in H as [[-> ->]|[Hn H]]; [by apply (gd_running0 l sb)|by eapply gd_running0].
  - intros g1 l' k1 sb1 Hg1 Ho1 H. apply elem_of_cons in Hg1 as [->|Hg1].
    + rewrite Eo in Ho1. apply lookup_upd in H as [[-> ->]|[Hn H]].
      * rewrite bool_decide_eq_true_2 in Ho1 by done. by simplify_eq.
      * rewrite bool_decide_eq_false_2 in Ho1 by done. exact (gd_claimed0 g l' k1 sb1 ltac:(set_solver) Ho1 H).
    + apply lookup_upd in H as [[-> ->]|[Hn H]]; [by rewrite (Hothers g1 Hg1) in Ho1|].
      exact (gd_claimed0 g1 l' k1 sb1 ltac:(set_solver) Ho1 H).
  - unfold ledger in *. cbn [upd_heap s_heap]. rewrite Ei.
    change (fresh (g' :: gs)) with (fresh (g :: gs)). change (in_hand (g' :: gs)) with (in_hand (g :: gs)).
    change (published (upd_heap _ s)) with (published s). change (pool_chan (upd_heap _ s)) with (pool_chan s).
    rewrite (slots_at_ext _ (s_heap s)); [done|]. intros l' Hl'. unfold slot_at.
    rewrite list_lookup_insert_ne; [done|]. intros ->. done.
  - intros g1 Hg1. apply elem_of_cons in Hg1 as [->|Hg1]; [exact (gd_pool0 g ltac:(set_solver))|].
    exact (gd_pool0 g1 ltac:(set_solver)).
Qed.

(** ** The pool *)

Lemma in_hand_pool s g gs nc : good s (g :: gs) -> nc ∈ ledger s (g :: gs) -> nc ∈ pool_entries s.
Proof. intros [] H. by eapply elem_of_submseteq. Qed.

Lemma PoolEnabled_preserved : preserved PoolEnabled.
Proof.
  intros s g gs x s' Hg _ [= <- <-].
  assert (g_pool g = true \/ g_slots g <> [] -> is_Some (s_netnsPool s)) as Hp.
  { intros [H|H]; [by eapply pool_of|]. destruct (g_slots g) as [|nc ncs] eqn:E; [done|].
    assert (nc ∈ pool_entries s) as Hin.
    { eapply in_hand_pool; [done|]. unfold ledger, in_hand. rewrite !elem_of_app. right. right. cbn. rewrite E. set_solver. }
    unfold pool_entries in Hin. destruct (s_netnsPool s); [by eexists|set_solver]. }
  eexists. split; [split; [|done]|].
  - intros H. apply bool_decide_eq_true. by apply Hp.
  - case_bool_decide as Hs; [|done]. apply (good_moves s _ g); try done.
    + by apply same_pool_refl.
    + intros l. by apply (known_lookup s g gs).
    + intros l k sb. by apply (claims_of s g gs).
Qed.

Lemma on_pool_inv {X} (f : netnsPool -> option (X * netnsPool)) s x s' :
  on_pool f s = Some (x, s') -> exists p p', s_netnsPool s = Some p /\ f p = Some (x, p') /\ s' = upd_pool p' s.
Proof.
  unfold on_pool. intros H. destruct (s_netnsPool s) as [p|]; [|done]. exists p.
  destruct (f p) as [[y p']|] eqn:E; simplify_eq. eauto.
Qed.

Lemma PoolAll_preserved : preserved PoolAll.
Proof.
  intros s g gs x s' Hg _ Hm. apply on_pool_inv in Hm as (p & p' & Hp & [= <- <-] & ->).
  exists g. split; [done|]. destruct s. cbn in *. by subst.
Qed.

Lemma PoolRecv_preserved t : preserved (PoolRecv t).
Proof.
  intros s g gs x s' Hg Hpool Hm. apply on_pool_inv in Hm as (p & p' & Hp & Hf & ->).
  destruct (pool_ch p) as [|nc ch] eqn:Hch; simplify_eq.
  - exists g. split; [done|]. destruct s. cbn in *. by subst.
  - assert (pool_chan s = nc :: ch) as Hc by (unfold pool_chan; by rewrite Hp).
    exists (set_g_slots (nc :: g_slots g) g). split.
    + split; [|done]. destruct (gd_entries _ _ Hg) as [_ Hall]. rewrite Forall_forall in Hall. apply Hall.
      eapply in_hand_pool; [done|]. unfold ledger. rewrite Hc. set_solver.
    + apply (good_moves s _ g); try done.
      * unfold same_pool. rewrite Hp. done.
      * intros l. by apply (known_lookup s g gs).
      * intros l k sb. by apply (claims_of s g gs).
      * apply Permutation_submseteq. unfold ledger. rewrite Hc.
        change (pool_chan (upd_pool _ s)) with ch.
        change (in_hand (set_g_slots (nc :: g_slots g) g :: gs)) with (nc :: in_hand (g :: gs)).
        cbn [upd_pool s_heap]. change (published (upd_pool _ s)) with (published s).
        change (fresh (set_g_slots _ g :: gs)) with (fresh (g :: gs)).
        change (intact (set_g_slots _ g :: gs)) with (intact (g :: gs)). solve_Permutation.
Qed.

Lemma PoolSend_preserved nc : preserved (PoolSend nc).
Proof.
  intros s g gs x s' Hg [Hpool Hin] Hm. apply on_pool_inv in Hm as (p & p' & Hp & Hf & ->).
  destruct (_ <? _)%nat; simplify_eq.
  set (g' := set_g_slots (remove1 nc (g_slots g)) g). exists g'. split; [done|].
  assert (pool_chan s = pool_ch p) as Hc by (unfold pool_chan; by rewrite Hp).
  apply (good_moves s _ g); try done.
  - unfold same_pool. rewrite Hp. done.
  - intros l. by apply (known_lookup s g gs).
  - intros l k sb. by apply (claims_of s g gs).
  - apply Permutation_submseteq. unfold ledger. rewrite Hc.
    change (pool_chan (upd_pool _ s)) with (pool_ch p ++ [nc]).
    assert (in_hand (g :: gs) ≡ₚ nc :: in_hand (g' :: gs)) as ->.
    { unfold in_hand. cbn. by rewrite (remove1_perm nc (g_slots g)) at 1. }
    cbn [upd_pool s_heap]. change (published (upd_pool _ s)) with (published s).
    change (fresh (g' :: gs)) with (fresh (g :: gs)). change (intact (g' :: gs)) with (intact (g :: gs)).
    solve_Permutation.
Qed.

(** Every memory operation. *)
Lemma mem_preserved {X} (m : memE X) : preserved m.
Proof.
  destruct m.
  - intros s g gs x s' Hg _ [= <- <-]. exists g. split; [done|]. by eapply good_same; [..|exact Hg].
  - intros s g gs x s' Hg _ [= <- <-]. exists g. split; [done|]. by eapply good_same; [..|exact Hg].
  - intros s g gs x s' Hg _ [= <- <-]. exists g. split; [done|]. by eapply good_same; [..|exact Hg].
  - apply SandboxesGet_preserved.
  - apply SandboxesPut_preserved.
  - apply SandboxesTake_preserved.
  - apply SandboxesSweep_preserved.
  - apply NewSandbox_preserved.
  - apply LoadSandbox_preserved.
  - apply LockAgentMu_preserved.
  - apply UnlockAgentMu_preserved.
  - apply SetAgent_preserved.
  - apply SetNetns_preserved.
  - apply TryStartExec_preserved.
  - apply FinishExec_preserved.
  - apply BeginDestroy_preserved.
  - apply InFlightExec_preserved.
  - apply FinishDestroy_preserved.
  - apply PoolEnabled_preserved.
  - by intros s g gs x s' _ [].
  - by intros s g gs x s' _ [].
  - apply PoolAll_preserved.
  - apply PoolRecv_preserved.
  - apply PoolSend_preserved.
Qed.

Definition is_lock {X} (m : memE X) : bool := match m with LockAgentMu _ => true | _ => false end.

(** No operation but the lock of a mutex can block. *)
Lemma mem_progress {X} (m : memE X) s g gs :
  good s (g :: gs) -> gpre X (Mem m) g -> is_lock m = false ->
  is_Some (mem_step m s).
Proof.
  intros Hg Hpre Hlock.
  assert (forall {Y} l (f : sandbox -> sandbox * Y), l ∈ g_known g -> is_Some (on_sandbox l f s)) as Hon.
  { intros Y l f Hl. apply (known_lookup s g gs) in Hl; [|done]. apply lookup_lt_is_Some in Hl as [sb Hl].
    unfold on_sandbox. rewrite Hl. destruct (f sb). by eexists. }
  destruct m; first [eexists; reflexivity | by apply Hon | by apply Hon, Hpre | by destruct Hpre | done | idtac].
  - destruct (pool_of s g gs Hg Hpre) as [p Hp]. cbn. unfold on_pool. rewrite Hp. by eexists.
  - destruct (pool_of s g gs Hg Hpre) as [p Hp]. cbn. unfold on_pool. rewrite Hp. destruct (pool_ch p); by eexists.
  - destruct Hpre as [Hpre Hin]. destruct (pool_of s g gs Hg Hpre) as [p Hp].
    rewrite (PoolSend_step p); [by eexists|done|].
    pose proof (submseteq_length _ _ (gd_ledger _ _ Hg)) as Hlen.
    pose proof (gd_size _ _ Hg p Hp) as Hsize. unfold ledger, pool_chan, pool_entries in Hlen. rewrite Hp in Hlen.
    rewrite !length_app in Hlen. unfold in_hand in Hlen. cbn in Hlen. rewrite length_app in Hlen.
    destruct (g_slots g); [set_solver|]. cbn in Hlen. lia.
Qed.

(** ** Every reachable configuration *)

(** What is known of a goroutine with ghost state [g]. *)
Definition ends (cfg : config) (r : option route) (o : outcome unit) (g : ghost) : Prop :=
  match r with
  | Some _ => finished cfg o g
  | None => g_lock g = None /\ plain o
  end.

Definition follows (cfg : config) (th : thread) (g : ghost) : Prop :=
  gwp (th_prog th) (ends cfg (th_req th)) g /\ (is_Some (th_req th) -> th_replies th = g_replies g).

Definition invariant (cfg : config) (c : conf) : Prop :=
  exists gs, Forall2 (follows cfg) (c_threads c) gs /\ good (c_server c) gs.

Lemma good_initial s : initial s -> good s [].
Proof.
  intros (Hm & Hh & Hp).
  assert (published s = []) as Epub by (unfold published; rewrite Hm; by rewrite map_to_list_empty).
  split; try done; unfold live, ledger; rewrite ?Epub; cbn; try done; try (by constructor).
  1-3: by intros l sb; rewrite Hh.
  - by intros g l k sb ?%not_elem_of_nil.
  - rewrite app_nil_r. unfold pool_chan, pool_entries. destruct (s_netnsPool s); [|done]. by destruct Hp as [-> _].
  - unfold pool_entries. destruct (s_netnsPool s); [|by split; constructor]. by destruct Hp as (_ & ? & _ & ?).
  - intros p E. rewrite E in Hp. destruct Hp as (_ & _ & -> & _). done.
  - by intros g ?%not_elem_of_nil.
Qed.

Lemma good_spawn s gs : good s gs -> good s (gs ++ [g0]).
Proof.
  intros Hg. apply (good_perm s (g0 :: gs)); [by rewrite Permutation_app_comm|]. destruct Hg. split; try done.
  - intros g l k sb Hg. apply elem_of_cons in Hg as [->|Hg]; [done|]. by apply (gd_claimed0 g).
  - intros g Hg. apply elem_of_cons in Hg as [->|Hg]; [done|]. by apply (gd_pool0 g).
Qed.

(** A step of the goroutine with ghost state [g]. *)
Lemma invariant_thread cfg ts s gs i th th' s' :
  Forall2 (follows cfg) ts gs -> good s gs -> ts !! i = Some th ->
  (forall g gs', good s (g :: gs') -> follows cfg th g -> exists g', follows cfg th' g' /\ good s' (g' :: gs')) ->
  invariant cfg (MkConf (<[i := th']> ts) s').
Proof.
  intros Hall Hg Hi Hstep. destruct (Forall2_lookup_l _ _ _ _ _ Hall Hi) as (g & Hgi & Hf).
  destruct (list_elem_of_split_length _ _ _ Hgi) as (gs1 & gs2 & -> & ->).
  destruct (Hstep g (gs1 ++ gs2)) as (g' & Hf' & Hg'); [|done|].
  - eapply good_perm; [|exact Hg]. solve_Permutation.
  - exists (gs1 ++ g' :: gs2). split.
    + replace (gs1 ++ g' :: gs2) with (<[length gs1 := g']> (gs1 ++ g :: gs2)); [by apply Forall2_insert|].
      rewrite <- (Nat.add_0_r (length gs1)) at 1. by rewrite insert_app_r.
    + eapply good_perm; [|exact Hg']. solve_Permutation.
Qed.

Lemma gpost_replies {X} (m : memE X) g x g' : gpost X (Mem m) g x g' -> g_replies g' = g_replies g.
Proof.
  destruct m; cbn; intros H; repeat case_match; destruct_and?; subst; try done;
    unfold claim; by destruct (owned_netns _ _) as [[]|].
Qed.

Lemma invariant_step cfg c c' : invariant cfg c -> cstep cfg c c' -> invariant cfg c'.
Proof.
  intros (gs & Hall & Hg) Hstep. destruct Hstep as [ts s r|ts s|ts s i r X e k rs x Hi|ts s i r X m k rs x s' Hi Hm]; cbn in *.
  - exists (gs ++ [g0]). split; [|by apply good_spawn]. apply Forall2_app; [done|]. constructor; [|constructor].
    split; [apply serve_conforms|done].
  - exists (gs ++ [g0]). split; [|by apply good_spawn]. apply Forall2_app; [done|]. constructor; [|constructor].
    split; [apply shutdown_gwp|by intros [? [=]]].
  - eapply invariant_thread; [done|done|done|]. intros g gs' Hg' [[_ Hk] Hrs]. cbn in *.
    exists (gsys e g). split; [split; [by apply (Hk x)|]|].
    + intros Hr. cbn. rewrite (Hrs Hr). by destruct e.
    + assert (gsys e g = g \/ exists p, gsys e g = set_g_replies p g) as [->|[p ->]] by (destruct e; eauto); [done|].
      clear -Hg'. destruct Hg'. split; try done.
      * intros g1 l k sb Hg1. apply elem_of_cons in Hg1 as [->|Hg1]; [exact (gd_claimed0 g l k sb ltac:(set_solver))|].
        exact (gd_claimed0 g1 l k sb ltac:(set_solver)).
      * intros g1 Hg1. apply elem_of_cons in Hg1 as [->|Hg1]; [exact (gd_pool0 g ltac:(set_solver))|].
        exact (gd_pool0 g1 ltac:(set_solver)).
  - eapply invariant_thread; [done|done|done|]. intros g gs' Hg' [[Hpre Hk] Hrs]. cbn in Hpre, Hk, Hrs.
    destruct (mem_preserved m _ _ _ _ _ Hg' Hpre Hm) as (g' & Hpost & Hg'').
    exists g'. split; [|done]. split; [by apply (Hk x)|]. intros Hr. cbn. rewrite (Hrs Hr).
    symmetry. by eapply gpost_replies.
Qed.

Lemma invariant_reachable cfg s0 c : initial s0 -> reachable cfg s0 c -> invariant cfg c.
Proof.
  intros Hi Hr. assert (invariant cfg (MkConf [] s0)) as H0.
  { exists []. split; [constructor|by apply good_initial]. }
  induction Hr as [|c1 c2 c3 H _ IH]; [done|]. by apply IH, (invariant_step cfg c1).
Qed.
