(* ===== verification/Sample.v ===== *)
(** * Concrete environments for the witnesses

    [happy] answers every operation with success; its state is the clock.
    The other environments change the answer to a few operations. *)

From S2P Require Export Interleave Timed.

(** Every call advances the clock by one nanosecond, [Sleep d] by [d] when
    it is positive. *)
Definition happy (X : Type) (e : envE X) (w : Z) : X * Z :=
  match e in envE X return X * Z with
  | OsMkdirAll _ | OsMkdir _ | OsRemove _ | OsRemoveAll _ | OsStat _ => (None, w + 1)
  | OsWriteFile _ _ | OsRename _ _ | OsOpenTrunc _ => (None, w + 1)
  | OsReadFile _ => (Ok EmptyString, w + 1)
  | OsReadDir _ => (Ok [], w + 1)
  | OsCloseFile _ => (tt, w + 1)
  | OsOpen _ => (Ok 11, w + 1)
  | FileReadAll _ => (Ok "base image"%string, w + 1)
  | FileClose _ => (tt, w + 1)
  | OsGetenv _ => (EmptyString, w + 1)
  | OsGetwd => (Ok "/srv/manta"%string, w + 1)
  | OsGeteuid => (0, w + 1)
  | LookPath _ => (None, w + 1)
  | RunCommand _ _ => (EmptyString, EmptyString, None, w + 1)
  | StartProcess _ _ _ => (Ok 4242, w + 1)
  | KillGroup _ | KillProcess _ => (None, w + 1)
  | WaitProcess _ _ => (Some None, w + 1)
  | ReapProcess _ => (tt, w + 1)
  | Now => (w, w + 1)
  | Sleep d => (tt, w + Z.max 0 d)
  | Pick => (Z.even w, w + 1)
  | DialUnix _ _ => (Ok 9, w + 1)
  | ConnWrite _ _ => (None, w + 1)
  | ConnReadFull _ n => (Ok (String.concat EmptyString (repeat "0"%string n)), w + 1)
  | ConnReadLine _ _ => (Some (Ok "OK 1"), w + 1)
  | ConnSetDeadline _ _ => (tt, w + 1)
  | ConnClose _ => (None, w + 1)
  | HttpDo _ _ _ _ _ => (Ok (204, EmptyString), w + 1)
  | LockOSThread | UnlockOSThread => (tt, w + 1)
  | NetnsGet => (Ok 3, w + 1)
  | NetnsNewNamed _ => (Ok 4, w + 1)
  | NetnsSet _ | NetnsDeleteNamed _ => (None, w + 1)
  | NetnsClose _ | NlDeleteHandle _ => (tt, w + 1)
  | NlNewHandle => (Ok 5, w + 1)
  | NlLinkByName _ _ => (Ok 6, w + 1)
  | NlLinkAdd _ _ | NlLinkDel _ _ | NlLinkSetNsFd _ _ _ | NlAddrAdd _ _ _ | NlLinkSetUp _ _ => (None, w + 1)
  | NlParseAddr s => (Ok s, w + 1)
  | NlRouteReplace _ _ _ _ | NlRouteDel _ _ => (None, w + 1)
  | SshParseKey _ => (None, w + 1)
  | SshDial _ _ _ => (Ok 7, w + 1)
  | SshNewSession _ => (Ok 8, w + 1)
  | SshStart _ _ => (None, w + 1)
  | SshRun _ _ => (None, w + 1)
  | SshWait _ _ => (Some None, w + 1)
  | SshKill _ | SshCloseSession _ | SshCloseClient _ => (tt, w + 1)
  | SshOutput _ => (EmptyString, EmptyString, w + 1)
  | WriteJSON _ _ => (tt, w + 1)
  end.

Lemma happy_clocked : clocked happy (fun w => w).
Proof. split; [intros X [] w; cbn; lia|cbn; lia|cbn; lia]. Qed.

(** An error whose chain holds [n]. *)
Definition sysErr (n : errno) : error := MkError [Lit "system error"] [n].

(** A server just started, without a pool. *)
Definition fresh_server : server := MkServer 0 0 0 ∅ [] None.

(** Addresses cannot be assigned. *)
Definition noAddrAdd (X : Type) (e : envE X) (w : Z) : X * Z :=
  match e in envE X return X * Z with
  | NlAddrAdd _ _ _ => (Some (sysErr EBUSY), w + 1)
  | e => happy _ e w
  end.

(** A guest that answers every request with [resp]. *)
Definition answering (resp : Response) (X : Type) (e : envE X) (w : Z) : X * Z :=
  match e in envE X return X * Z with
  | ConnReadFull _ n =>
      let raw := marshal (enc_Response resp) in
      (Ok (if (n =? 4)%nat then PutUint32 (len raw) else raw), w + 1)
  | e => happy _ e w
  end.

Lemma answering_clocked resp : clocked (answering resp) (fun w => w).
Proof. split; [intros X [] w; cbn; lia|cbn; lia|cbn; lia]. Qed.

(** Nobody listens on any socket. *)
Definition deaf (X : Type) (e : envE X) (w : Z) : X * Z :=
  match e in envE X return X * Z with
  | DialUnix _ _ => (Err (sysErr ECONNREFUSED), w + 1)
  | e => happy _ e w
  end.

Lemma deaf_clocked : clocked deaf (fun w => w).
Proof. split; [intros X [] w; cbn; lia|cbn; lia|cbn; lia]. Qed.

Definition okResponse : Response := MkResponse true EmptyString None (Some (MkExecResponse 0 "hi" EmptyString false)) None.

Definition sample_cfg : config :=
  MkConfig ":8080" "/k/vmlinux" "/k/rootfs.ext4" "base-1" "auto" "/k/id" "firecracker" "eth0" "/w" "/sys/fs/cgroup/manta"
    false 2 false false false "agent" 7777 (2 * second) (1 * second) (30 * second) 1048576
    (1 * second) (1 * second) (1 * second) (30 * second) "console=ttyS0" 256 1.

(** The same with cgroups. *)
Definition cgroup_cfg : config :=
  MkConfig ":8080" "/k/vmlinux" "/k/rootfs.ext4" "base-1" "auto" "/k/id" "firecracker" "eth0" "/w" "/sys/fs/cgroup/manta"
    true 2 false false false "agent" 7777 (2 * second) (1 * second) (30 * second) 1048576
    (1 * second) (1 * second) (1 * second) (30 * second) "console=ttyS0" 256 1.

(** The same with the golden snapshot enabled. *)
Definition snapshot_cfg : config :=
  MkConfig ":8080" "/k/vmlinux" "/k/rootfs.ext4" "base-1" "auto" "/k/id" "firecracker" "eth0" "/w" "/sys/fs/cgroup/manta"
    false 2 true false false "agent" 7777 (2 * second) (1 * second) (30 * second) 1048576
    (1 * second) (1 * second) (1 * second) (30 * second) "console=ttyS0" 256 1.

(** ** An executable scheduler *)

Definition put_thread (i : nat) (th : thread) (s : server) (c : conf) : conf :=
  MkConf (<[i := th]> (c_threads c)) s.

(** Goroutine [i] performs its next operation, if it can. *)
Definition sched_step {W} (eh : env W) (i : nat) (c : conf) (w : W) : conf * W :=
  match c_threads c !! i with
  | Some (MkThread r (@Vis _ _ X e k) rs) =>
      match e in sysE X return (X -> prog sysE unit) -> conf * W with
      | Sys e => fun k =>
          let '(x, w') := eh _ e w in (put_thread i (MkThread r (k x) (sent e ++ rs)) (c_server c) c, w')
      | Mem m => fun k =>
          match mem_step m (c_server c) with
          | Some (x, s') => (put_thread i (MkThread r (k x) rs) s' c, w)
          | None => (c, w)
          end
      end k
  | _ => (c, w)
  end.

(** Goroutine [i] runs for [n] operations. *)
Fixpoint sched {W} (eh : env W) (i n : nat) (c : conf) (w : W) : conf * W :=
  match n with
  | O => (c, w)
  | S n => let '(c', w') := sched_step eh i c w in sched eh i n c' w'
  end.

Definition arrive (cfg : config) (r : route) (c : conf) : conf :=
  MkConf (c_threads c ++ [MkThread (Some r) (serve cfg r) []]) (c_server c).

Lemma sched_step_sound {W} cfg (eh : env W) i c w : rtc (cstep cfg) c (fst (sched_step eh i c w)).
Proof.
  unfold sched_step. destruct (c_threads c !! i) as [[r p rs]|] eqn:E; [|done].
  destruct p as [| | |X e k]; try done. destruct c as [ts s]. destruct e as [X e|X m]; cbn in *.
  - destruct (eh X e w) as [x w']. apply rtc_once. by apply (step_env cfg ts s i r X e k rs x).
  - destruct (mem_step m s) as [[x s']|] eqn:Em; [|done]. apply rtc_once. by eapply step_mem.
Qed.

Lemma sched_sound {W} cfg (eh : env W) i n c w : rtc (cstep cfg) c (fst (sched eh i n c w)).
Proof.
  revert c w. induction n as [|n IH]; intros c w; cbn; [done|].
  pose proof (sched_step_sound cfg eh i c w). destruct (sched_step eh i c w) as [c' w']. by etrans.
Qed.

Lemma arrive_sound cfg r c : rtc (cstep cfg) c (arrive cfg r c).
Proof. destruct c. apply rtc_once, step_request. Qed.

(** Request [r] arrives at [c] and runs for [n] operations. *)
Definition arrive_and_run {W} (eh : env W) (cfg : config) (r : route) (n : nat) (cw : conf * W) : conf * W :=
  sched eh (length (c_threads (fst cw))) n (arrive cfg r (fst cw)) (snd cw).

Lemma arrive_and_run_sound {W} (eh : env W) cfg r n cw s0 :
  reachable cfg s0 (fst cw) -> reachable cfg s0 (fst (arrive_and_run eh cfg r n cw)).
Proof.
  unfold reachable. intros H. etrans; [exact H|]. etrans; [apply arrive_sound|]. apply sched_sound.
Qed.
