(* ===== verification/Web.v ===== *)
(** * The benchmark clients against the server

    The server is joined to a client over HTTP: a request is routed, its
    handler runs to the end, and the payload it sends is what the client
    reads, unless the answer comes after the timeout of the client or the
    request never reaches the server.  The server implements the interface that
    the clients rely on (BenchFacts.v), with no assumption about the host and
    the guests, and with an account of the sandboxes that are lost to the
    client that way. *)

From S2P Require Export TrimFacts Addr Untouched ClientServer.
From S2P Require Import Sample.

(** ** The server behind HTTP *)

(** An environment that keeps the answers sent. *)
Definition recording {W} (eh : env W) : env (W * list (Z * payload)) := fun X e wr =>
  let '(x, w') := eh X e (fst wr) in (x, (w', snd wr ++ sent e)).

(** What net/http makes of a handler: a handler that has not answered leaves
    an empty 200; after a panic, and when the handler never ends, the client
    gets an error. *)
Definition answer (o : outcome unit) (replies : list (Z * payload)) : result (Z * result string) :=
  match o, replies with
  | Done _, (status, p) :: _ => Ok (status, Ok (payload_body p))
  | Done _, [] => Ok (200, Ok EmptyString)
  | _, _ => Err (errorf [Lit "EOF"])
  end.

(** What becomes of a request of a client whose http.Client has a Timeout: its
    answer arrives in time; or the client gives up and the handler still runs
    to its end; or the client gives up before the server has the request. *)
Inductive delivery := InTime | TooLate | NotDelivered.

Definition clientError : error := errorf [Lit "context deadline exceeded (Client.Timeout exceeded while awaiting headers)"].

(** The sandboxes that these answers name. *)
Definition namedIDs (rs : list (Z * payload)) : list string :=
  rs ≫= fun a => match snd a with PCreate id | PSnapshotRestore id => [id] | _ => [] end.

(** The sandbox that this request would destroy. *)
Definition doomedIDs (r : route) : list string :=
  match r with
  | RDestroy body =>
      match decodeJSON (fun strict => dec_one strict "sandbox_id") EmptyString body with Some id => [id] | None => [] end
  | _ => []
  end.

Fixpoint strip (base url : string) : option string :=
  match base, url with
  | EmptyString, _ => Some url
  | String a base, String b url => if Ascii.eqb a b then strip base url else None
  | _, _ => None
  end.

Lemma strip_app base p : strip base (base +:+ p) = Some p.
Proof. induction base as [|a base IH]; [done|]. rewrite string_app_cons. cbn [strip]. by rewrite Ascii.eqb_refl. Qed.

Section web.
Context {W : Type} (eh : env W) (cfg : config) (base : string) (net : route -> server * W -> delivery).

(** The handler runs to the end. *)
Definition handled (r : route) (st : server * W) : result (Z * result string) * list (Z * payload) * (server * W) :=
  let '(o, (s', (w', rs))) := exec (recording eh) (serve cfg r) (fst st) (snd st, []) in (answer o rs, rs, (s', w')).

(** The server, its host, and the ids of the sandboxes that the client was not
    told of or could not have destroyed. *)
Definition web_state : Type := server * W * list string.

Definition request (r : route) (st : web_state) : result (Z * result string) * web_state :=
  match net r (fst st) with
  | InTime => let '(a, _, sw) := handled r (fst st) in (a, (sw, snd st))
  | TooLate => let '(_, rs, sw) := handled r (fst st) in (Err clientError, (sw, namedIDs rs ++ snd st))
  | NotDelivered => (Err clientError, (fst st, doomedIDs r ++ snd st))
  end.

(** What the clients do not ask for is not answered. *)
Definition web : env_of benchE web_state := fun X e =>
  match e in benchE Y return web_state -> Y * web_state with
  | BNow => fun st => let '(t, w') := eh _ Now (snd (fst st)) in (t, (fst (fst st), w', snd st))
  | ClientDo method url body => fun st =>
      match strip base url with
      | Some path =>
          match routeOf method path body with
          | Some r => request r st
          | None => (Err (errorf [Lit "no route"]), st)
          end
      | None => (Err (errorf [Lit "no such host"]), st)
      end
  end.

(** ** What the requests do to the map of sandboxes *)

Definition heap_made (s : server) : Prop := Forall (fun sb => made (sb_ID sb)) (s_heap s).

(** The map is [M], and the answers sent so far are [rs]. *)
Definition mapped (M : gmap string loc) (rs : list (Z * payload)) (s : server) (wr : W * list (Z * payload)) : Prop :=
  s_sandboxes s = M /\ heap_made s /\ snd wr = rs.

(** The map is [M], whatever is answered. *)
Definition mapped_any (M : gmap string loc) (s : server) (wr : W * list (Z * payload)) : Prop :=
  s_sandboxes s = M /\ heap_made s.

Lemma heap_made_upd s l sb sb' :
  heap_made s -> s_heap s !! l = Some sb -> sb_ID sb' = sb_ID sb -> heap_made (upd_heap (<[l := sb']>) s).
Proof.
  intros H Hl Hid. apply Forall_insert; [exact H|]. rewrite Hid. exact (proj1 (Forall_lookup _ _) H l sb Hl).
Qed.

Lemma on_sandbox_made {X} l (f : sandbox -> sandbox * X) s x s' :
  (forall sb, sb_ID (fst (f sb)) = sb_ID sb) -> on_sandbox l f s = Some (x, s') -> heap_made s ->
  s_sandboxes s' = s_sandboxes s /\ heap_made s'.
Proof.
  unfold on_sandbox. intros Hf H Hm. destruct (s_heap s !! l) as [sb|] eqn:Hl; [|done].
  destruct (f sb) as [sb' y] eqn:Ef. simplify_eq. split; [done|].
  eapply heap_made_upd; [done..|]. by rewrite <- (Hf sb), Ef.
Qed.

Lemma on_pool_made {X} (f : netnsPool -> option (X * netnsPool)) s x s' :
  on_pool f s = Some (x, s') -> heap_made s -> s_sandboxes s' = s_sandboxes s /\ heap_made s'.
Proof.
  unfold on_pool. intros H Hm. destruct (s_netnsPool s) as [p|]; [|done]. destruct (f p) as [[y p']|]; [|done].
  by simplify_eq.
Qed.

Lemma harmless_made X (m : memE X) s x s' :
  harmless m -> mem_step m s = Some (x, s') -> heap_made s -> s_sandboxes s' = s_sandboxes s /\ heap_made s'.
Proof.
  intros Hm H Hs. destruct m; try done; cbn in H; try (by simplify_eq);
    try (by eapply on_pool_made); try (eapply on_sandbox_made; [|exact H|exact Hs]; try done).
  - simplify_eq. split; [done|]. apply Forall_app. split; [done|]. by constructor.
  - destruct (s_heap s !! l) as [sb|] eqn:Hl; [|done]. destruct (sb_agentMu sb); [done|]. simplify_eq.
    split; [done|]. by eapply heap_made_upd.
  - intros sb. unfold tryStartExec. by destruct (sb_state sb).
  - intros sb. cbn. unfold finishExec. by destruct (_ >? _).
  - intros sb. unfold beginDestroy. by destruct (bool_decide _).
Qed.

Lemma silently_mapped {A} (p : prog sysE A) M rs s wr :
  silently p -> mapped M rs s wr ->
  let '(_, (s', wr')) := exec (recording eh) p s wr in mapped M rs s' wr'.
Proof.
  apply spares_exec.
  - intros X m s1 wr1 x s1' Hm%mapless_harmless Hstep (HM & Hh & Hr). destruct (harmless_made X m s1 x s1' Hm Hstep Hh) as [E Hh'].
    split; [done|]. by split; [congruence|].
  - intros X e s1 [w1 rs1] He (HM & Hh & Hr). split_and!; [done..|]. unfold recording. cbn in *.
    destruct (eh X e w1) as [x w']. cbn. rewrite Hr. destruct e; try done; by rewrite app_nil_r.
Qed.

Lemma freely_mapped {A} (p : prog sysE A) M s wr :
  freely p -> mapped_any M s wr ->
  let '(_, (s', wr')) := exec (recording eh) p s wr in mapped_any M s' wr'.
Proof.
  apply spares_exec; [|done]. intros X m s1 wr1 x s1' Hm Hstep (HM & Hh).
  destruct (harmless_made X m s1 x s1' Hm Hstep Hh) as [E Hh']. split; [done|]. by split; [congruence|].
Qed.
(** ** The effect of each request *)

(** What a request that may publish a sandbox leaves: the map unchanged and at
    most an error sent, or one more sandbox and its id sent. *)
Definition refused (rs : list (Z * payload)) : Prop := rs = [] \/ exists status t, 300 <= status /\ rs = [(status, PError t)].

Definition published_one (reply : string -> payload) (M : gmap string loc) (o : outcome unit) (s : server) (wr : W * list (Z * payload)) : Prop :=
  heap_made s /\
  ((s_sandboxes s = M /\ refused (snd wr)) \/
   (exists id l, made id /\ o = Done tt /\ s_sandboxes s = <[id := l]> M /\ snd wr = [(200, reply id)])).

Lemma unpublished reply M o rs s wr : mapped M rs s wr -> refused rs -> published_one reply M o s wr.
Proof. intros (HM & Hh & Hr) Hrs. split; [done|]. left. by rewrite Hr. Qed.

Lemma error_sent M status t s wr :
  mapped M [] s wr -> let '(_, (s', wr')) := exec (recording eh) (errorReply status t) s wr in mapped M [(status, PError t)] s' wr'.
Proof.
  intros (HM & Hh & Hr). unfold errorReply, writeJSON, exec. cbn. unfold recording. destruct (eh _ _ _) as [x w'].
  split_and!; [done..|]. cbn in *. by rewrite Hr.
Qed.

Lemma error_refuses reply M status t s wr :
  300 <= status -> mapped M [] s wr ->
  let '(o, (s', wr')) := exec (recording eh) (errorReply status t) s wr in published_one reply M o s' wr'.
Proof.
  intros Hs Hm. pose proof (error_sent M status t s wr Hm) as H.
  destruct (exec _ _ _ _) as [o [s' wr']]. eapply unpublished; [exact H|]. right. by exists status, t.
Qed.

(** A program that is silent and then [f]. *)
Lemma silently_then {A B} (p : prog sysE A) (f : A -> prog sysE B) M s wr (Q : outcome B -> server -> W * list (Z * payload) -> Prop) :
  silently p -> mapped M [] s wr ->
  (forall o s wr, mapped M [] s wr -> Q o s wr) ->
  (forall a s wr, mapped M [] s wr -> let '(o, (s', wr')) := exec (recording eh) (f a) s wr in Q o s' wr') ->
  let '(o, (s', wr')) := exec (recording eh) (bind p f) s wr in Q o s' wr'.
Proof.
  intros Hp Hm HQ Hf. rewrite exec_bind. pose proof (silently_mapped p M [] s wr Hp Hm) as H.
  destruct (exec _ p s wr) as [[a| | |] [s' wr']]; [by apply Hf|by apply HQ..].
Qed.

Lemma publishes reply M l s wr :
  mapped M [] s wr ->
  let '(o, (s', wr')) := exec (recording eh)
    (let! sb := memory (LoadSandbox l) in memory (SandboxesPut (sb_ID sb) l) ;;; writeJSON 200 (reply (sb_ID sb))) s wr in
  published_one reply M o s' wr'.
Proof.
  intros Hm. pose proof Hm as (HM & Hh & Hr). unfold exec. cbn. unfold on_sandbox.
  destruct (s_heap s !! l) as [sb|] eqn:Hl; cbn; [|eapply unpublished; [exact Hm|by left]].
  unfold recording. destruct (eh _ _ _) as [x w']. cbn.
  assert (upd_heap (<[l:=sb]>) s = s) as ->.
  { destruct s. unfold upd_heap. cbn in *. by rewrite list_insert_id. }
  split; [exact Hh|]. right. exists (sb_ID sb), l. split; [exact (proj1 (Forall_lookup _ _) Hh l sb Hl)|].
  split; [by destruct x|]. split; [by rewrite <- HM|]. cbn in Hr. by rewrite Hr.
Qed.

(** The common end of handleCreate and handleSnapshotRestore. *)
Lemma creates reply (create : string -> prog sysE (result loc)) M s wr :
  (forall id, made id -> silently (create id)) -> mapped M [] s wr ->
  let '(o, (s', wr')) := exec (recording eh)
    (let! n := memory AddSandboxID in
     try! l := create ("sb-" +:+ itoa n) catch err => errorReply 500 (err_text err) in
     let! sb := memory (LoadSandbox l) in memory (SandboxesPut (sb_ID sb) l) ;;; writeJSON 200 (reply (sb_ID sb))) s wr in
  published_one reply M o s' wr'.
Proof.
  intros Hc (HM & Hh & Hr). erewrite exec_mem by reflexivity.
  apply (silently_then _ _ M); [apply Hc, made_id, Z.mod_pos_bound; lia|done|intros o1 s1 wr1 H; eapply unpublished; [exact H|by left]|].
  intros [l|err] s1 wr1 H; [by apply publishes|by apply error_refuses].
Qed.

Lemma handleCreate_effect M s wr :
  mapped M [] s wr ->
  let '(o, (s', wr')) := exec (recording eh) (handleCreate cfg) s wr in published_one PCreate M o s' wr'.
Proof. apply (creates PCreate). intros id. apply silently_createSandbox. Qed.

Lemma handleSnapshotRestore_effect body M s wr :
  mapped M [] s wr ->
  let '(o, (s', wr')) := exec (recording eh) (handleSnapshotRestore cfg body) s wr in published_one PSnapshotRestore M o s' wr'.
Proof.
  intros Hm. unfold handleSnapshotRestore. destruct (decodeJSON _ _ _) as [raw|]; [|by apply error_refuses].
  destruct (normalizeSnapshotID raw) as [id|err]; [|by apply error_refuses].
  apply (silently_then _ _ M); [apply silently_plain; auto with quiet|done|intros o1 s1 wr1 H; eapply unpublished; [exact H|by left]|].
  intros [meta|err] s1 wr1 H; [|by apply error_refuses].
  destruct (checkLineage cfg meta); [by apply error_refuses|].
  apply (creates PSnapshotRestore (fun id => createSandboxFromUserSnapshot cfg id meta)); [|done].
  intros id'. apply silently_fromUserSnapshot.
Qed.

(** A destroy takes the sandbox out of the map, whatever happens next. *)
Lemma handleDestroy_effect body id M s wr :
  decodeJSON (fun strict => dec_one strict "sandbox_id") EmptyString body = Some id -> is_empty (TrimSpace id) = false ->
  mapped_any M s wr ->
  let '(_, (s', wr')) := exec (recording eh) (handleDestroy body) s wr in mapped_any (delete id M) s' wr'.
Proof.
  intros Hb Hid (HM & Hh). unfold handleDestroy. rewrite Hb, Hid. cbv iota.
  erewrite exec_mem by reflexivity. apply freely_mapped; [|split; [cbn; by rewrite HM|done]].
  destruct (s_sandboxes s !! id); spares_steps.
Qed.

(** ** The server implements the interface of the clients *)

Lemma itoa_visible n : 0 <= n -> str_forall is_visible (itoa n) = true.
Proof.
  intros Hn. apply (str_forall_impl is_digit); [|by apply itoa_nonneg].
  intros c. unfold is_digit, is_visible, Json.between. rewrite !andb_true_iff, !Z.leb_le. lia.
Qed.

Lemma made_visible id : made id -> str_forall is_visible id = true.
Proof. intros (n & Hn & ->). by rewrite str_forall_app, itoa_visible. Qed.

Lemma made_valid id : made id -> ValidString id = true.
Proof.
  intros H. apply ascii7_valid, (str_forall_impl is_visible); [|by apply made_visible].
  intros c. unfold is_ascii7, is_visible, Json.between. rewrite andb_true_iff, !Z.leb_le, Z.ltb_lt. lia.
Qed.

Lemma made_nonBlank id : made id -> is_empty (TrimSpace id) = false.
Proof. intros H. rewrite TrimSpace_visible by (by apply made_visible). by destruct H as (n & _ & ->). Qed.

Lemma web_route method p body r st :
  routeOf method p body = Some r -> web _ (ClientDo method (base +:+ p) body) st = request r st.
Proof. intros Hr. unfold web. by rewrite strip_app, Hr. Qed.

Lemma handled_exec r st a rs st' :
  handled r st = (a, rs, st') ->
  exists o, exec (recording eh) (serve cfg r) (fst st) (snd st, []) = (o, (fst st', (snd st', rs))) /\ a = answer o rs.
Proof.
  unfold handled. destruct (exec _ _ _ _) as [o [s' [w' rs']]]. intros [= <- <- <-]. by exists o.
Qed.

Lemma refused_nothing usable o rs : refused rs -> grantedID usable (answer o rs) = None.
Proof.
  intros [->|(status & t & Hs & ->)]; [by destruct o|]. unfold grantedID, answer. destruct o; try done. cbn [accepted].
  by rewrite orb_comm, (proj2 (Z.geb_le status 300)) by lia.
Qed.

(** The sandboxes of the server are among [ids] and those of the account,
    which is empty where every answer is in time. *)
Definition accounted (ids : list string) (st : web_state) : Prop :=
  (forall id, is_Some (s_sandboxes (fst (fst st)) !! id) -> id ∈ ids ++ snd st)
  /\ heap_made (fst (fst st)) /\ ((forall r sw, net r sw = InTime) -> snd st = []).

Definition one_sandbox (id : string) (st : web_state) : Prop := accounted [id] st /\ made id.

Lemma lost_account ids ids' (sw sw' : server * W) lost more r :
  accounted ids (sw, lost) -> net r sw <> InTime -> heap_made (fst sw') ->
  (forall id, is_Some (s_sandboxes (fst sw') !! id) -> is_Some (s_sandboxes (fst sw) !! id) \/ id ∈ ids' ++ more) ->
  (forall id, id ∈ ids -> is_Some (s_sandboxes (fst sw') !! id) -> id ∈ ids' ++ more) ->
  accounted ids' (sw', more ++ lost).
Proof.
  intros (Hin & _ & _) Hnet Hh Hm Hids. split; [|split; [done|intros Hall; by destruct Hnet]]. cbn [fst snd] in *.
  intros id Hid. rewrite app_assoc, elem_of_app. destruct (Hm id Hid) as [H|H]; [|by left].
  apply Hin, elem_of_app in H as [H|H]; [left; by apply Hids|by right].
Qed.

Lemma acquired usable reply r st a st' :
  (forall id, made id -> usable id = true) -> (forall id, reply id = PCreate id \/ reply id = PSnapshotRestore id) ->
  (forall M s wr, mapped M [] s wr -> let '(o, (s', wr')) := exec (recording eh) (serve cfg r) s wr in published_one reply M o s' wr') ->
  doomedIDs r = [] -> accounted [] st -> request r st = (a, st') ->
  match grantedID usable a with Some id => one_sandbox id st' | None => accounted [] st' end.
Proof.
  intros Hus Hrep Hr Hdoom Hst. destruct st as [sw lost]. unfold request. cbn [fst snd].
  pose proof Hst as (Hin & Hh & Hall). cbn [fst snd] in *.
  destruct (handled r sw) as [[a0 rs] sw'] eqn:Eh. apply handled_exec in Eh as (o & He & ->).
  specialize (Hr (s_sandboxes (fst sw)) (fst sw) (snd sw, [])). rewrite He in Hr.
  destruct Hr as (Hh' & Hpub); [by split_and!|]. cbn [snd] in Hpub.
  assert (forall id, namedIDs [(200, reply id)] = [id]) as Hnamed by (intros id; by destruct (Hrep id) as [-> | ->]).
  destruct (net r sw) eqn:Hnet.
  - intros [= <- <-]. destruct Hpub as [(HM' & Href)|(id & l & Hid & -> & HM' & ->)].
    + rewrite refused_nothing by done. split; [|by split]. cbn [fst snd]. by rewrite HM'.
    + unfold grantedID, answer. cbn [accepted]. change ((200 <? 200) || (200 >=? 300)) with false. cbv iota.
      rewrite (created_read id) by (by apply made_valid || apply Hrep). cbn [cr_Error cr_SandboxID is_empty negb orb].
      rewrite (Hus id Hid). cbn [negb]. split; [|done]. split; [|by split]. cbn [fst snd]. rewrite HM'.
      intros id' Hid'. destruct (decide (id' = id)) as [->|Hne]; [by left|]. rewrite lookup_insert_ne in Hid' by done.
      right. by apply Hin.
  - intros [= <- <-]. cbn [grantedID accepted]. apply (lost_account [] [] sw sw' lost (namedIDs rs) r); [done|by rewrite Hnet|done| |].
    + intros id Hid. destruct Hpub as [(HM' & _)|(id' & l & Hid' & _ & HM' & ->)]; rewrite HM' in Hid; [by left|].
      rewrite Hnamed. destruct (decide (id = id')) as [->|Hne]; [right; by left|].
      left. by rewrite lookup_insert_ne in Hid by done.
    + by intros id ?%not_elem_of_nil.
  - intros [= <- <-]. rewrite Hdoom. cbn [grantedID accepted app]. exact Hst.
Qed.

Definition web_post (X : Type) (e : benchE X) (st : web_state) (x : X) (st' : web_state) : Prop := web _ e st = (x, st').

Lemma acquiring_post usable p body st a st' :
  (forall id, made id -> usable id = true) -> acquiring p -> accounted [] st ->
  web_post _ (ClientDo "POST" (base +:+ p) body) st a st' ->
  match grantedID usable a with Some id => one_sandbox id st' | None => accounted [] st' end.
Proof.
  intros Hus Hp Hst. unfold web_post. apply elem_of_cons in Hp as [->|Hp%list_elem_of_singleton]; [|subst p].
  - rewrite (web_route _ _ _ RCreate) by done. apply (acquired usable PCreate); [done|by left| |done|done].
    intros M s wr. apply handleCreate_effect.
  - rewrite (web_route _ _ _ (RSnapshotRestore body)) by done. apply (acquired usable PSnapshotRestore); [done|by right| |done|done].
    intros M s wr. apply handleSnapshotRestore_effect.
Qed.

(** A request that takes [ids'] out of the map, and nothing into it. *)
Lemma other_request r ids ids' st a st' :
  (forall s wr, heap_made s -> let '(_, (s', _)) := exec (recording eh) (serve cfg r) s wr in
     heap_made s' /\ forall id, is_Some (s_sandboxes s' !! id) -> is_Some (s_sandboxes s !! id) /\ (id ∈ ids -> id ∈ ids')) ->
  (forall id, id ∈ ids -> id ∈ ids' ++ doomedIDs r) ->
  accounted ids st -> request r st = (a, st') -> accounted ids' st'.
Proof.
  intros Hr Hdoom Hst. destruct st as [sw lost]. unfold request. cbn [fst snd].
  destruct (handled r sw) as [[a0 rs] sw'] eqn:Eh. apply handled_exec in Eh as (o & He & ->).
  pose proof Hst as (Hin & Hh & Hall). cbn [fst snd] in *.
  specialize (Hr (fst sw) (snd sw, []) Hh). rewrite He in Hr. destruct Hr as [Hh' Hm].
  destruct (net r sw) eqn:Hnet; intros [= <- <-].
  - split; [|by split]. cbn [fst snd]. intros id Hid. destruct (Hm id Hid) as [Hs Hi].
    apply Hin, elem_of_app in Hs as [Hs|Hs]; apply elem_of_app; [left; by apply Hi|by right].
  - apply (lost_account ids ids' sw sw' lost (namedIDs rs) r); [done|by rewrite Hnet|done| |].
    + intros id Hid. left. by apply Hm.
    + intros id Hid Hs. apply elem_of_app. left. by apply (Hm id Hs).
  - apply (lost_account ids ids' sw sw lost (doomedIDs r) r); [done|by rewrite Hnet|done|by left|].
    intros id Hid _. by apply Hdoom.
Qed.

Lemma other_post p body st a st' id :
  other p -> one_sandbox id st -> web_post _ (ClientDo "POST" (base +:+ p) body) st a st' -> one_sandbox id st'.
Proof.
  intros Hp [Hst Hid]. unfold web_post.
  assert (forall r, freely (serve cfg r) -> request r st = (a, st') -> one_sandbox id st') as H.
  { intros r Hf Hreq. split; [|done]. apply (other_request r [id] [id] st a st'); [|set_solver|done|done].
    intros s wr Hh. pose proof (freely_mapped _ (s_sandboxes s) s wr Hf (conj eq_refl Hh)) as Hm.
    destruct (exec _ _ _ _) as [o [s' wr']]. destruct Hm as [HM' Hh']. split; [done|]. intros id'. by rewrite HM'. }
  apply elem_of_cons in Hp as [->|Hp%list_elem_of_singleton]; [|subst p].
  - rewrite (web_route _ _ _ (RExec body)) by done. apply H, freely_handleExec.
  - rewrite (web_route _ _ _ (RSnapshotCreate body)) by done. apply H, freely_handleSnapshotCreate.
Qed.

Lemma destroy_post st a st' id :
  one_sandbox id st -> web_post _ (ClientDo "POST" (base +:+ "/destroy") (destroyBody id)) st a st' -> accounted [] st'.
Proof.
  intros [Hst Hid]. unfold web_post. rewrite (web_route _ _ _ (RDestroy (destroyBody id))) by done.
  pose proof (destroyBody_read id (made_valid id Hid)) as Hread.
  apply (other_request (RDestroy (destroyBody id)) [id] []); [| |done].
  - intros s wr Hh. pose proof (handleDestroy_effect (destroyBody id) id (s_sandboxes s) s wr Hread (made_nonBlank id Hid) (conj eq_refl Hh)) as Hm.
    change (serve cfg (RDestroy (destroyBody id))) with (handleDestroy (destroyBody id)).
    destruct (exec _ _ _ _) as [o [s' wr']]. destruct Hm as [HM' Hh']. split; [done|]. intros id'. rewrite HM'.
    intros [l [Hne Hl]%lookup_delete_Some]. split; [by exists l|]. by intros ->%list_elem_of_singleton.
  - intros id' ->%list_elem_of_singleton. unfold doomedIDs. rewrite Hread. by left.
Qed.

Lemma web_service usable : (forall id, made id -> usable id = true) -> service base usable web_post.
Proof.
  intros Hus. refine (Build_service _ base usable web_post (accounted []) one_sandbox _ _ other_post destroy_post).
  - intros st x st'. unfold web_post, web. destruct (eh _ Now (snd (fst st))) as [t w']. intros [= <- <-]. by split; [|intros id]; intros H.
  - intros p body st a st' Hp Hst. by apply acquiring_post.
Defined.
End web.

(** ** The clients against the server *)

Lemma made_nonEmpty id : made id -> nonEmpty id = true.
Proof. by intros (n & _ & ->). Qed.

Lemma made_usable id : made id -> nonBlank id = true.
Proof. intros H. unfold nonBlank. by rewrite made_nonBlank. Qed.

#[export] Instance bench_service {W} (eh : env W) cfg base net : service base nonEmpty (web_post eh cfg base net) :=
  web_service eh cfg base net nonEmpty made_nonEmpty.

#[export] Instance bench_restore_service {W} (eh : env W) cfg base net : service base nonBlank (web_post eh cfg base net) :=
  web_service eh cfg base net nonBlank made_usable.

(** C11. Whatever the host, Firecracker and the guests do, and whichever
    requests of the client are delivered or answered too late for its timeout:
    a benchmark client that runs against an empty server ends, and every
    sandbox that is then left in the server's map is one whose create or
    restore was answered too late, or whose destroy was not delivered.  When all
    requests are answered in time, no sandbox is left.  (For a request whose
    answer is too late, the handler runs to its end before the next request.)
    The client is the program of Bench.v or BenchRestore.v, the server that of
    Handlers.v, joined by the text of their requests and answers. *)
Theorem clients_leave_only_lost {W} (eh : env W) cfg net validURL endpoint base cmd mutationCmd sanityCmd want iterations warmup s w :
  base = TrimRightSlash endpoint -> validURLs validURL base ->
  s_sandboxes s = ∅ -> heap_made s ->
  let left_behind (s' : server) (lost : list string) :=
    (forall id, is_Some (s_sandboxes s' !! id) -> id ∈ lost) /\ ((forall r sw, net r sw = InTime) -> s_sandboxes s' = ∅) in
  (forall o s' w' lost, env_run (web eh cfg base net) (Bench.main validURL endpoint cmd iterations warmup) (s, w, []) = (o, (s', w', lost)) ->
     ended iterations o /\ left_behind s' lost) /\
  (forall o s' w' lost,
     env_run (web eh cfg base net) (BenchRestore.main validURL endpoint mutationCmd sanityCmd want iterations warmup) (s, w, []) = (o, (s', w', lost)) ->
     (ended iterations o \/ o = Done None) /\ left_behind s' lost).
Proof.
  intros Hb Hv Hs Hh left_behind.
  assert (accounted net [] (s, w, [])) as H0.
  { split; [|by split]. cbn [fst snd]. rewrite Hs. by intros id [? ?%lookup_empty_Some]. }
  assert (forall s' w' lost, accounted net [] (s', w', lost) -> left_behind s' lost) as Hend.
  { intros s' w' lost (Hin & _ & Hall). split; [exact Hin|]. intros Ht. specialize (Hall Ht). cbn [fst snd] in *. subst lost.
    apply map_eq. intros id. rewrite lookup_empty. destruct (s_sandboxes s' !! id) as [l|] eqn:E; [|done].
    by destruct (not_elem_of_nil id (Hin id (mk_is_Some _ _ E))). }
  split; intros o s' w' lost Hrun.
  - pose proof (wp_env_run (web eh cfg base net) _ _ (s, w, [])
      (cwp_main base (web_post eh cfg base net) validURL Hv endpoint cmd iterations warmup (s, w, []) Hb H0)) as Hw.
    rewrite Hrun in Hw. destruct Hw as [He Hi]. split; [exact He|]. exact (Hend s' w' lost Hi).
  - pose proof (wp_env_run (web eh cfg base net) _ _ (s, w, [])
      (cwp_restore_main base (web_post eh cfg base net) validURL Hv endpoint mutationCmd sanityCmd want iterations warmup (s, w, []) Hb H0)) as Hw.
    rewrite Hrun in Hw. destruct Hw as [He Hi]. split; [exact He|]. exact (Hend s' w' lost Hi).
Qed.

(** ** Witness: a timeout on the clock of the host *)

(** http.Client{Timeout: timeout}, where it is positive. *)
Definition within {W} (eh : env W) (cfg : config) (clk : W -> Z) (timeout : Z) (r : route) (sw : server * W) : delivery :=
  if timeout <=? 0 then InTime
  else if clk (snd (snd (handled eh cfg r sw))) - clk (snd sw) <? timeout then InTime else TooLate.

(** A host on which a process takes a minute and a half to start. *)
Definition slow_host : env Z := fun X e w =>
  match e in envE X return X * Z with
  | StartProcess n args d => (Ok 4242, w + 90 * second)
  | e => answering okResponse _ e w
  end.

Lemma triple_eta {A B C D} (p : A * (B * C * D)) : p = (fst p, (fst (fst (snd p)), snd (fst (snd p)), snd (snd p))).
Proof. by destruct p as [a [[b c] d]]. Qed.

(** Two measured runs with the default timeout of 90 s. *)
#[local] Notation bench_on eh := (env_run (web eh sample_cfg "http://h" (within eh sample_cfg (fun w => w) (90 * second)))
  (Bench.main (fun _ => true) "http://h/" "true" 2 0) (fresh_server, 0, [])).

(** On a fast host two sandboxes are created and none is left; on the slow one
    both are left, and the client reports no result. *)
Lemma clients_leave_only_lost_witness :
  (s_nextSandboxID (fst (fst (snd (bench_on (answering okResponse))))) = 2
   /\ is_Some (match fst (bench_on (answering okResponse)) with Done r => r | _ => None end)
   /\ forall id, is_Some (s_sandboxes (fst (fst (snd (bench_on (answering okResponse))))) !! id) -> id ∈ ([] : list string))
  /\ (fst (bench_on slow_host) = Done None
      /\ map fst (map_to_list (s_sandboxes (fst (fst (snd (bench_on slow_host)))))) ≡ₚ ["sb-1"; "sb-2"]%string
      /\ forall id, is_Some (s_sandboxes (fst (fst (snd (bench_on slow_host)))) !! id) -> id ∈ ["sb-2"; "sb-1"]%string).
Proof.
  assert (Hb : "http://h"%string = TrimRightSlash "http://h/") by reflexivity.
  assert (Hv : validURLs (fun _ => true) "http://h") by (repeat constructor).
  assert (Hs : s_sandboxes fresh_server = ∅) by reflexivity. assert (Hh : heap_made fresh_server) by constructor.
  assert (forall eh lost, snd (snd (bench_on eh)) = lost ->
    forall id, is_Some (s_sandboxes (fst (fst (snd (bench_on eh)))) !! id) -> id ∈ lost) as H.
  { intros eh lost Hl id Hid.
    destruct (clients_leave_only_lost eh sample_cfg (within eh sample_cfg (fun w => w) (90 * second)) (fun _ => true) "http://h/" "http://h" "true"
      EmptyString EmptyString EmptyString 2 0 fresh_server 0 Hb Hv Hs Hh) as [H _].
    destruct (H _ _ _ _ (triple_eta (bench_on eh))) as [_ [Hin _]]. rewrite <- Hl. exact (Hin id Hid). }
  split; [split; [vm_compute; reflexivity|split]|split; [|split]].
  - vm_compute. eexists. reflexivity.
  - apply (H (answering okResponse) []). vm_compute. reflexivity.
  - vm_compute. reflexivity.
  - vm_compute. apply Permutation_refl.
  - apply (H slow_host). vm_compute. reflexivity.
Defined.
