(* ===== verification/NetnsFacts.v ===== *)
(** * Theorems about the networking of sandboxes (Netns.v) *)

From S2P Require Import Prelude Netns Sample.

(** ** Addresses *)

Lemma dotted_parse a b z d :
  0 <= a <= 255 -> 0 <= b <= 255 -> 0 <= z -> 0 <= d <= 255 ->
  ParseIP4 (dotted a b z d) = if z <=? 255 then Some (a, b, z, d) else None.
Proof.
  intros. rewrite ParseIP4_dotted, !parse_octet_itoa by lia.
  rewrite (proj2 (Z.leb_le a 255)), (proj2 (Z.leb_le b 255)), (proj2 (Z.leb_le d 255)) by lia.
  by destruct (z <=? 255).
Qed.

(** The texts netns.go formats, as dotted addresses. *)
Lemma vethHostIP_dotted n : vethHostIPOf n = dotted 10 200 n 1.
Proof. unfold vethHostIPOf, dotted. by autorewrite with manta. Qed.
Lemma vethNSIP_dotted n : vethNSIPOf n = dotted 10 200 n 2.
Proof. unfold vethNSIPOf, dotted. by autorewrite with manta. Qed.
Lemma hostIP_dotted n : hostIPOf n = dotted 172 16 n 1.
Proof. unfold hostIPOf, dotted. by autorewrite with manta. Qed.
Lemma guestIP_dotted n : guestIPOf n = dotted 172 16 n 2.
Proof. unfold guestIPOf, dotted. by autorewrite with manta. Qed.

Lemma vethHostIP_range n : 0 <= n -> is_Some (ParseIP4 (vethHostIPOf n)) -> n <= 255.
Proof.
  intros Hn. rewrite vethHostIP_dotted, dotted_parse by lia.
  destruct (Z.leb_spec n 255); [done|]. by intros [? ?].
Qed.

Lemma no_slash_dotted a b z d :
  0 <= a -> 0 <= b -> 0 <= z -> 0 <= d -> str_forall (fun c => negb (Ascii.eqb c "/")) (dotted a b z d) = true.
Proof.
  intros. unfold dotted.
  rewrite str_forall_app, itoa_no_sep by (lia || done). simpl.
  rewrite str_forall_app, itoa_no_sep by (lia || done). simpl.
  rewrite str_forall_app, itoa_no_sep by (lia || done). simpl.
  by apply itoa_no_sep.
Qed.

Lemma subnetCIDR_parse n :
  0 <= n -> ParseCIDR4 (subnetCIDROf n) = if n <=? 255 then Some ((172, 16, n, 0), 30) else None.
Proof.
  intros Hn. unfold ParseCIDR4.
  assert (subnetCIDROf n = dotted 172 16 n 0 +:+ String "/" "30") as ->.
  { unfold subnetCIDROf, dotted. by autorewrite with manta. }
  rewrite split_on_app by (by apply no_slash_dotted).
  rewrite split_on_last by done. rewrite dotted_parse by lia. by destruct (n <=? 255).
Qed.

(** ** Resources of setupSandboxNetnsAndRouting *)

(** Locked threads, open namespace descriptors, open netlink handles. *)
Record held := MkHeld { h_locks : Z; h_ns : Z; h_nl : Z }.

Definition held_add (l n k : Z) (t : held) : held := MkHeld (h_locks t + l) (h_ns t + n) (h_nl t + k).

Definition held_obs (X : Type) (e : envE X) : X -> held -> held :=
  match e in envE X return X -> held -> held with
  | LockOSThread => fun _ => held_add 1 0 0
  | UnlockOSThread => fun _ => held_add (-1) 0 0
  | NetnsGet => fun r => held_add 0 (if is_ok r then 1 else 0) 0
  | NetnsNewNamed _ => fun r => held_add 0 (if is_ok r then 1 else 0) 0
  | NetnsClose _ => fun _ => held_add 0 (-1) 0
  | NlNewHandle => fun r => held_add 0 0 (if is_ok r then 1 else 0)
  | NlDeleteHandle _ => fun _ => held_add 0 0 (-1)
  | _ => fun _ t => t
  end.

Lemma held_add_add a b c a' b' c' t :
  held_add a b c (held_add a' b' c' t) = held_add (a' + a) (b' + b) (c' + c) t.
Proof. unfold held_add. simpl. f_equal; lia. Qed.

Lemma held_add_0 t : held_add 0 0 0 t = t.
Proof. unfold held_add. rewrite !Z.add_0_r. by destruct t. Qed.

(** What setupSandboxNetnsAndRouting returns. *)
Definition setup_result (id : string) (subnet : Z) (o : outcome (result netnsConfig)) : Prop :=
  match o with
  | Done (Ok nc) => nc = netnsConfigOf (netnsNameForSandbox id) subnet /\ is_Some (ParseIP4 (vethHostIPOf subnet))
  | Done (Err _) => True
  | _ => False
  end.

Section held.
Let hwp {A} := @swp held (fun _ _ _ _ => True) (envObs held_obs) A.

Ltac held_done :=
  repeat first
    [ progress cbn [envObs held_obs is_ok swp_bindQ swp_deferQ swp_deferWithQ when]
    | swp_step ];
  rewrite ?held_add_add, ?held_add_0; try done.

Lemma configureInsideNetns_held subnet Q s t :
  (forall r, (r = None -> is_Some (ParseIP4 (vethHostIPOf subnet))) -> Q (Done r) s t) ->
  hwp (configureInsideNetns subnet) Q s t.
Proof. intros H. unfold configureInsideNetns, unlessExist, hwp. held_done; by apply H. Qed.

Lemma withNetns_held target p (P : option error -> Prop) Q s t :
  (forall R t, (forall r, P r -> R (Done r) s t) -> hwp p R s t) ->
  (forall r, (r = None -> P r) -> Q (Done r) s t) ->
  hwp (withNetns target p) Q s t.
Proof.
  unfold hwp. intros Hp H. unfold withNetns. held_done; try by apply H.
  apply Hp. intros r Hr. held_done. by apply H.
Qed.

Lemma configureVeth_held ns subnet nsHandle rootHandle Q s t :
  (forall e b, Q (Done (Err e, b)) s t) ->
  (is_Some (ParseIP4 (vethHostIPOf subnet)) -> Q (Done (Ok (netnsConfigOf ns subnet), false)) s t) ->
  hwp (configureVethAndRoute ns subnet nsHandle rootHandle) Q s t.
Proof.
  unfold hwp. intros He Hok. unfold configureVethAndRoute, unlessExist. held_done.
  all: apply (withNetns_held _ _ (fun r => r = None -> is_Some (ParseIP4 (vethHostIPOf subnet))));
    [intros R t' HR; by apply configureInsideNetns_held|].
  all: intros r Hr; held_done; auto.
Qed.

Lemma setup_held id subnet s t :
  hwp (setupSandboxNetnsAndRouting id subnet)
    (fun o s' t' => setup_result id subnet o /\ s' = s /\ t' = t) s t.
Proof.
  unfold hwp, setupSandboxNetnsAndRouting, newNamedNetns. held_done.
  apply configureVeth_held; [intros e [] | intros Hp]; unfold deleteVeth; held_done.
Qed.
End held.

(** C34. Whatever the kernel answers, setupSandboxNetnsAndRouting returns, with
    every thread it locked unlocked, every namespace descriptor and netlink
    handle it opened closed, and server memory untouched; when it succeeds the
    configuration is the one of its subnet. *)
Theorem setup_releases_handles {W} (eh : env W) id subnet s w t :
  let '(o, (s', _, t')) := exec_watched (envObs held_obs) eh (setupSandboxNetnsAndRouting id subnet) s w t in
  setup_result id subnet o /\ s' = s /\ t' = t.
Proof. apply (swp_watched (envObs held_obs) eh _ _ s w t (setup_held id subnet s t)). Qed.

(** Subnets above 255 have no valid addresses. *)
Lemma setup_range (Q : outcome (result netnsConfig) -> server -> held -> Prop) id subnet s t :
  255 < subnet -> (forall e, Q (Done (Err e)) s t) ->
  swp (fun _ _ _ _ => True) (envObs held_obs) (setupSandboxNetnsAndRouting id subnet) Q s t.
Proof.
  intros Hn HQ. eapply swp_mono; [|apply setup_held].
  intros [[nc|e]| | |] s' t'; simpl; intros (Hr & -> & ->); try done.
  destruct Hr as [_ Hp]. apply vethHostIP_range in Hp; lia.
Qed.

(** The pool has no free slot, or there is no pool. *)
Definition pool_drained (s : server) : Prop :=
  match s_netnsPool s with Some p => pool_ch p = [] | None => True end.

(** What acquireNetns does once the pool is drained. *)
Lemma acquire_drained {T} (allowed : forall X, envE X -> T -> X -> Prop) obs id Q s t :
  pool_drained s ->
  (let n := uint32 (s_nextSubnet s + 1) in
   swp allowed (envObs obs) (setupSandboxNetnsAndRouting id n) Q
     (MkServer (s_nextSandboxID s) (s_nextSnapshotID s) n (s_sandboxes s) (s_heap s) (s_netnsPool s)) t) ->
  swp allowed (envObs obs) (acquireNetns id) Q s t.
Proof.
  unfold pool_drained, acquireNetns, Acquire. intros Hd H.
  eapply swp_mem; [reflexivity|]. destruct (s_netnsPool s) as [p|] eqn:Hp.
  - apply swp_bind. eapply swp_mem; [by cbn; unfold on_pool; rewrite Hp, Hd|].
    cbv beta iota zeta. eapply swp_mem; [reflexivity|]. exact H.
  - eapply swp_mem; [reflexivity|]. cbn. by rewrite Hp.
Qed.

(** C38. The counter of on-demand subnets is never reused: once 255 of them
    have been handed out, and until the uint32 counter wraps around, every
    create or restore that finds the pool drained fails, whatever the kernel
    answers. *)
Theorem acquire_exhausted {W} (eh : env W) id s w :
  pool_drained s -> 255 <= s_nextSubnet s < 2 ^ 32 - 1 ->
  let '(o, (s', _)) := exec eh (acquireNetns id) s w in
  (exists e, o = Done (Err e)) /\ s_nextSubnet s' = s_nextSubnet s + 1.
Proof.
  intros Hd Hn.
  apply (swp_exec_only (fun _ _ _ _ => True) (envObs held_obs) eh _
    (fun o s' => (exists e, o = Done (Err e)) /\ s_nextSubnet s' = s_nextSubnet s + 1) s w (MkHeld 0 0 0)); [done|].
  apply acquire_drained; [done|]. cbv zeta. rewrite uint32_id by lia.
  apply setup_range; [lia|]. eauto.
Qed.

(** ** The pool *)

Lemma cleanup_held nc (Q : outcome (option error) -> server -> held -> Prop) s t :
  (forall r, Q (Done r) s t) ->
  swp (fun _ _ _ _ => True) (envObs held_obs) (cleanupSandboxNetnsAndRouting nc) Q s t.
Proof.
  intros H. unfold cleanupSandboxNetnsAndRouting, deleteVeth.
  repeat first [ progress cbn [envObs held_obs is_ok] | swp_step ];
    rewrite ?held_add_add, ?held_add_0; done.
Qed.

(** The entry of the pool that owns subnet [i]. *)
Definition poolEntry (i : Z) : netnsConfig := pooled (netnsConfigOf (netnsNameForSandbox (poolEntryID i)) i) i.

Lemma initEntry_held size es i (Q : outcome (option error) -> server -> held -> Prop) s0 t :
  let s := upd_pool (MkPool size es es true) s0 in
  (length es < size)%nat ->
  (forall e, Q (Done (Some e)) s t) ->
  Q (Done None) (upd_pool (MkPool size (es ++ [poolEntry i]) (es ++ [poolEntry i]) true) s0) t ->
  swp (fun _ _ _ _ => True) (envObs held_obs) (initEntry i) Q s t.
Proof.
  intros s Hlen He Hok. unfold initEntry. apply swp_bind, cleanup_held. intros r. cbn [swp_bindQ].
  apply swp_bind. eapply swp_mono; [|apply setup_held].
  intros [[nc|e]| | |] s' t'; cbn [setup_result swp_bindQ]; intros (Hr & -> & ->); try done; [|apply He].
  destruct Hr as [-> _]. cbv zeta.
  eapply swp_mem; [reflexivity|].
  eapply swp_mem; [by apply (PoolSend_step (MkPool size es (es ++ [poolEntry i]) true))|].
  exact Hok.
Qed.

Lemma poolIndices_split size done i rest :
  poolIndices size = done ++ i :: rest -> (length done < size)%nat /\ done = poolIndices (length done)
    /\ done ++ [i] = poolIndices (S (length done)).
Proof.
  unfold poolIndices. intros H.
  assert (size = length done + S (length rest))%nat as Hs.
  { apply (f_equal length) in H. rewrite length_map, length_seq, length_app in H. simpl in H. lia. }
  rewrite Hs, seq_app, map_app in H. apply app_inj_1 in H as [H1 H2]; [|by rewrite length_map, length_seq].
  simpl in H2. injection H2 as H2 _. rewrite seq_S, map_app. simpl. rewrite H1, H2. split; [lia|done].
Qed.

(** [s0] with a pool that holds the entries of subnets 1 to [k]. *)
Definition filled (size k : nat) (s0 : server) : server :=
  let es := map poolEntry (poolIndices k) in upd_pool (MkPool size es es true) s0.

Definition init_result (size : nat) (s0 : server) (o : outcome (option error)) (s : server) : Prop :=
  exists k, s = filled size k s0
    /\ match o with
       | Done None => k = size
       | Done (Some _) => (k < size)%nat
       | _ => False
       end.

Lemma Init_held size s t :
  with_pool (newNetnsPool size) s ->
  swp (fun _ _ _ _ => True) (envObs held_obs) (Init size) (fun o s' _ => init_result size s o s') s t.
Proof.
  intros Hp. unfold Init. eapply swp_mem; [by cbn; unfold on_pool; rewrite Hp|]. simpl negb. cbv iota.
  eapply (swp_forRange _ _ (fun xs s' _ => exists done, poolIndices size = done ++ xs /\
    let es := map poolEntry done in s' = upd_pool (MkPool size es es true) s)).
  - intros i xs s1 t1 (done & Hd & ->). destruct (poolIndices_split _ _ _ _ Hd) as (Hl & Hd' & Hd'').
    apply swp_bind. eapply initEntry_held; [by rewrite length_map| |].
    + intros e. cbn. exists (length done). unfold filled. by rewrite <- Hd'.
    + cbn. exists (done ++ [i]). split; [by rewrite <- app_assoc|]. by rewrite map_app.
  - intros s1 t1 (done & Hd & ->). apply swp_ret. exists size. unfold filled. rewrite app_nil_r in Hd. by rewrite Hd.
  - by exists [].
Qed.

(** C37. Init on a new pool of [size] entries, whatever the kernel answers:
    the channel and the list of all entries both hold the entries of subnets
    1, 2, ... in order; all [size] of them when Init succeeds, fewer when it
    fails.  It never blocks on the channel. *)
Theorem Init_fills_pool {W} (eh : env W) size s w :
  with_pool (newNetnsPool size) s ->
  let '(o, (s', _)) := exec eh (Init size) s w in
  init_result size s o s'.
Proof.
  intros Hp. apply (swp_exec_only (fun _ _ _ _ => True) (envObs held_obs) eh (Init size) (init_result size s) s w (MkHeld 0 0 0)); [done|].
  by apply Init_held.
Qed.

(** A free entry is handed out at once, oldest first, without asking the
    kernel for anything; giving it back appends it to the channel, again
    without a kernel call. *)
Theorem acquire_release_pool {W} (eh : env W) id s w p nc ch :
  s_netnsPool s = Some p -> pool_ch p = nc :: ch -> (length (pool_ch p) <= pool_size p)%nat ->
  nc_Pooled nc = true ->
  exists s1 s2,
    exec eh (acquireNetns id) s w = (Done (Ok nc), (s1, w))
    /\ exec eh (releaseNetns (Some nc)) s1 w = (Done tt, (s2, w))
    /\ s_nextSubnet s1 = s_nextSubnet s
    /\ s_netnsPool s1 = Some (MkPool (pool_size p) ch (pool_all p) (pool_once p))
    /\ s_netnsPool s2 = Some (MkPool (pool_size p) (ch ++ [nc]) (pool_all p) (pool_once p)).
Proof.
  intros Hp Hch Hlen Hpl.
  exists (upd_pool (MkPool (pool_size p) ch (pool_all p) (pool_once p)) s),
    (upd_pool (MkPool (pool_size p) (ch ++ [nc]) (pool_all p) (pool_once p)) s).
  split; [|split; [|done]].
  - unfold acquireNetns. erewrite exec_mem by reflexivity. rewrite Hp. cbn [bool_decide].
    unfold exec. cbn. unfold on_pool. by rewrite Hp, Hch.
  - unfold releaseNetns. erewrite exec_mem by reflexivity. cbn [s_netnsPool upd_pool].
    rewrite Hpl. cbn [Release andb]. rewrite bool_decide_eq_true_2 by eauto. cbn [andb].
    apply exec_mem_end. rewrite (PoolSend_step (MkPool (pool_size p) ch (pool_all p) (pool_once p)));
      [done|done|]. rewrite Hch in Hlen. simpl in *. lia.
Qed.

(** ** The namespace that is left behind *)

(** What becomes of the named namespace: it is made, the thread moves between
    namespaces, addresses are assigned, the deletion of the name is asked. *)
Inductive nsStep :=
| NsMade (name : string)
| NsMoved (ok : bool)
| NsAddressed (ok : bool)
| NsDeleted (name : string).

Definition ns_obs (X : Type) (e : envE X) : X -> list nsStep -> list nsStep :=
  match e in envE X return X -> list nsStep -> list nsStep with
  | NetnsNewNamed n => fun r t => if is_ok r then t ++ [NsMade n] else t
  | NetnsSet _ => fun r t => t ++ [NsMoved (bool_decide (r = None))]
  | NlAddrAdd _ _ _ => fun r t => t ++ [NsAddressed (bool_decide (r = None))]
  | NetnsDeleteNamed n => fun _ t => t ++ [NsDeleted n]
  | _ => fun _ t => t
  end.

Definition keeps_name (x : nsStep) : Prop := match x with NsDeleted _ => False | _ => True end.

(** From the assignment of the address of the host end. *)
Definition addressed (ns : string) (t : list nsStep) : Prop :=
  exists ok rest, t = [NsMade ns; NsMoved true; NsAddressed ok] ++ rest /\ Forall keeps_name rest.

Definition ns_fate (ns : string) (o : outcome (result netnsConfig)) (t : list nsStep) : Prop :=
  match o with
  | Done (Ok _) => addressed ns t
  | Done (Err _) =>
      t = [] \/ t = [NsMade ns; NsMoved true; NsDeleted ns] \/ t = [NsMade ns; NsMoved false] \/ addressed ns t
  | _ => False
  end.

Section fate.
Let nwp {A} := @swp (list nsStep) (fun _ _ _ _ => True) (envObs ns_obs) A.

Ltac fate_steps :=
  repeat first
    [ progress cbn [envObs ns_obs is_ok swp_bindQ swp_deferQ swp_deferWithQ when]
    | swp_step ];
  rewrite ?bool_decide_eq_true_2, ?bool_decide_eq_false_2 by done.

Lemma keeps_name_snoc rest x : Forall keeps_name rest -> keeps_name x -> Forall keeps_name (rest ++ [x]).
Proof. intros H Hx. apply Forall_app. by repeat constructor. Qed.

(** Some more steps, none of which deletes the name. *)
Definition more (t t' : list nsStep) : Prop := exists rest, t' = t ++ rest /\ Forall keeps_name rest.

Lemma more_refl t : more t t.
Proof. exists []. by rewrite app_nil_r. Qed.

Lemma more_snoc t t' x : more t t' -> keeps_name x -> more t (t' ++ [x]).
Proof. intros (rest & -> & H) Hx. exists (rest ++ [x]). rewrite app_assoc. split; [done|by apply keeps_name_snoc]. Qed.

Definition toAddress (ns : string) (ok : bool) : list nsStep := [NsMade ns; NsMoved true; NsAddressed ok].

Lemma more_addressed ns ok t : more (toAddress ns ok) t -> addressed ns t.
Proof. intros (rest & -> & H). by exists ok, rest. Qed.

Lemma more_moved ns ok b : more (toAddress ns ok) [NsMade ns; NsMoved true; NsAddressed ok; NsMoved b].
Proof. exists [NsMoved b]. by repeat constructor. Qed.

Lemma configureInsideNetns_fate subnet Q s t0 t :
  more t0 t -> (forall r t', more t0 t' -> Q (Done r) s t') -> nwp (configureInsideNetns subnet) Q s t.
Proof.
  intros Ht HQ. unfold configureInsideNetns, unlessExist, nwp. fate_steps; apply HQ; by repeat (apply more_snoc; [|exact I]).
Qed.

Lemma configureVeth_fate ns subnet nsHandle rootHandle Q s :
  (forall e b, Q (Done (Err e, b)) s [NsMade ns; NsMoved true; NsDeleted ns]) ->
  (forall r t, addressed ns t -> Q (Done r) s t) ->
  nwp (configureVethAndRoute ns subnet nsHandle rootHandle) Q s [NsMade ns; NsMoved true].
Proof.
  intros Hdel Hadd. unfold nwp, configureVethAndRoute, withNetns, unlessExist. fate_steps.
  all: first [apply Hdel | cbn [app] | idtac].
  all: lazymatch goal with
    | |- swp _ _ _ _ _ [_; _; NsAddressed ?ok; _] =>
        eapply (configureInsideNetns_fate _ _ _ (toAddress ns ok)); [apply more_moved|]; intros r t Hm; fate_steps
    | _ => idtac
    end.
  all: apply Hadd; first [eapply more_addressed; by repeat (apply more_snoc; [|exact I])
    | eexists _, _; by split; [reflexivity|repeat constructor]].
Qed.

Lemma setup_fate id subnet s :
  nwp (setupSandboxNetnsAndRouting id subnet) (fun o _ t => ns_fate (netnsNameForSandbox id) o t) s [].
Proof.
  unfold nwp, setupSandboxNetnsAndRouting, newNamedNetns. fate_steps; try (by left); try (by right; right; left); try (by right; left).
  apply configureVeth_fate; [intros e [] | intros [[nc|e] []] t Ht]; unfold deleteVeth; fate_steps;
    first [exact Ht | by right; left | by right; right; right].
Qed.
End fate.

(** C40. What becomes of the namespace that setupSandboxNetnsAndRouting makes,
    whatever the kernel answers: it is kept when the function succeeds; when
    it fails, either none was made, or the deletion of the name is asked and
    that ends it, or the name is left behind.  It is left behind exactly when
    the thread could not move back after the creation, or when the failure
    comes after the address of the host end was being assigned; a kernel that
    assigns no addresses is an example of the latter. *)
Theorem setup_leaves_netns {W} (eh : env W) id subnet s w :
  (let '(o, (_, _, t)) := exec_watched (envObs ns_obs) eh (setupSandboxNetnsAndRouting id subnet) s w [] in
   ns_fate (netnsNameForSandbox id) o t)
  /\ (let '(o, (_, _, t)) := exec_watched (envObs ns_obs) noAddrAdd (setupSandboxNetnsAndRouting "sb-1" 1) fresh_server 0 [] in
      (exists e, o = Done (Err e)) /\ t = toAddress "manta-sb-1" false).
Proof.
  split; [apply (swp_watched (envObs ns_obs) eh _ _ s w [] (setup_fate id subnet s))|].
  vm_compute. split; [by eexists|done].
Qed.

(** ** Addresses of distinct subnets *)

Lemma fmt03d_value n : 0 <= n <= 255 -> digits_value 0 (fmt03d n) = Some n.
Proof.
  intros Hn.
  assert (forallb (fun k => bool_decide (digits_value 0 (fmt03d (Z.of_nat k)) = Some (Z.of_nat k))) (seq 0 256) = true) as H
    by (vm_compute; reflexivity).
  rewrite forallb_forall in H. specialize (H (Z.to_nat n)). rewrite Z2Nat.id in H by lia.
  eapply bool_decide_eq_true, H, in_seq. lia.
Qed.

Lemma vethHost_inj m n : 0 <= m <= 255 -> 0 <= n <= 255 -> vethHostOf m = vethHostOf n -> m = n.
Proof.
  intros Hm Hn H. apply string_app_inj_l in H. apply (f_equal (digits_value 0)) in H.
  rewrite !fmt03d_value in H by done. congruence.
Qed.

(** For a subnet between 0 and 255 the addresses setup assigns are valid
    and in place: the two ends of the veth pair are .1 and .2 of
    10.200.n.0/30, the tap and the guest .1 and .2 of 172.16.n.0/30, the
    network routed to the sandbox; and two subnets share no address and no
    veth name. *)
Theorem subnet_addresses n m :
  0 <= n <= 255 -> 0 <= m <= 255 ->
  let c := netnsConfigOf EmptyString n in
  ParseIP4 (nc_VethHostIP c) = Some (10, 200, n, 1)
  /\ ParseIP4 (nc_VethNSIP c) = Some (10, 200, n, 2)
  /\ ParseIP4 (nc_HostIP c) = Some (172, 16, n, 1)
  /\ ParseIP4 (nc_GuestIP c) = Some (172, 16, n, 2)
  /\ ParseCIDR4 (nc_SubnetCIDR c) = Some ((172, 16, n, 0), 30)
  /\ (nc_VethHost c = vethHostOf m -> n = m)
  /\ (nc_GuestIP c = guestIPOf m -> n = m).
Proof.
  intros Hn Hm. cbn [netnsConfigOf nc_VethHostIP nc_VethNSIP nc_HostIP nc_GuestIP nc_SubnetCIDR nc_VethHost].
  assert ((n <=? 255) = true) as E by (apply Z.leb_le; lia).
  assert ((m <=? 255) = true) as E' by (apply Z.leb_le; lia).
  rewrite vethHostIP_dotted, vethNSIP_dotted, hostIP_dotted, !guestIP_dotted, !dotted_parse, subnetCIDR_parse, E by lia.
  repeat split; [by apply vethHost_inj|].
  intros H. apply (f_equal ParseIP4) in H. rewrite !dotted_parse, E, E' in H by lia. congruence.
Qed.

(** ** Witnesses *)

Lemma acquire_exhausted_witness :
  let s := MkServer 0 0 255 ∅ [] None in
  let '(o, (s', _)) := exec happy (acquireNetns "sb-9") s 0 in
  (exists e, o = Done (Err e)) /\ s_nextSubnet s' = 256.
Proof. apply (acquire_exhausted happy "sb-9" (MkServer 0 0 255 ∅ [] None) 0); [exact I|]. simpl. lia. Defined.

Lemma Init_fills_pool_witness :
  let '(o, (s', _)) := exec happy (Init 3) (MkServer 0 0 0 ∅ [] (Some (newNetnsPool 3))) 0 in
  init_result 3 (MkServer 0 0 0 ∅ [] (Some (newNetnsPool 3))) o s'.
Proof. apply (Init_fills_pool happy 3 (MkServer 0 0 0 ∅ [] (Some (newNetnsPool 3))) 0). reflexivity. Defined.

Lemma acquire_release_pool_witness :
  let es := map poolEntry (poolIndices 2) in
  exists s1 s2,
    exec happy (acquireNetns "sb-1") (MkServer 0 0 0 ∅ [] (Some (MkPool 2 es es true))) 0 = (Done (Ok (poolEntry 1)), (s1, 0))
    /\ exec happy (releaseNetns (Some (poolEntry 1))) s1 0 = (Done tt, (s2, 0))
    /\ s_nextSubnet s1 = 0
    /\ s_netnsPool s1 = Some (MkPool 2 [poolEntry 2] es true)
    /\ s_netnsPool s2 = Some (MkPool 2 [poolEntry 2; poolEntry 1] es true).
Proof.
  intros es. apply (acquire_release_pool happy "sb-1" (MkServer 0 0 0 ∅ [] (Some (MkPool 2 es es true))) 0
    (MkPool 2 es es true) (poolEntry 1) [poolEntry 2]); try reflexivity.
Defined.

Lemma subnet_addresses_witness :
  ParseIP4 "10.200.7.1" = Some (10, 200, 7, 1) /\ (vethHostOf 7 = vethHostOf 8 -> 7 = 8).
Proof.
  split; [apply (subnet_addresses 7 8); lia|]. apply (subnet_addresses 7 8); lia.
Defined.
