(* ===== verification/Fallback.v ===== *)
(** * The fallback of the pool (netns_alloc.go, netns_pool.go)

    The on-demand subnets are counted from 1, and so are the subnets of the
    pool.  This file follows the pool from its Init, over the acquisitions that
    drain it, to the first on-demand one, in a kernel that is known only by
    what it refuses. *)

From S2P Require Import Prelude Netns Sample NetnsFacts.

(** ** What is known of the links of the root namespace *)

Record links := MkLinks {
  lk_pairs : list (string * string);   (* the host ends of the veth pairs that are there, with the
                                          namespace made last when the pair was made *)
  lk_ns : string;                      (* the namespace made last *)
  lk_looked : option (string * Z);     (* the last lookup of a link by name *)
  lk_away : bool;                      (* the thread may have left the root namespace *)
  lk_orig : option Z;                  (* an open descriptor of the root namespace *)
  lk_root : list Z;                    (* the netlink handles that were made in the root namespace *)
}.

Definition with_pairs (ps : list (string * string)) (k : links) : links :=
  MkLinks ps (lk_ns k) (lk_looked k) (lk_away k) (lk_orig k) (lk_root k).

(** The link [l] of the handle [h] leaves the root namespace: the one just
    looked up, or else any. *)
Definition drop_link (h l : Z) (k : links) : links :=
  with_pairs
    (if bool_decide (h ∈ lk_root k) then
       match lk_looked k with
       | Some (n, l') => if l =? l' then filter (fun p => p.1 <> n) (lk_pairs k) else []
       | None => []
       end
     else []) k.

(** What an operation and its answer leave of this; all that might be gone is
    taken as gone. *)
Definition link_obs (X : Type) (e : envE X) : X -> links -> links :=
  match e in envE X return X -> links -> links with
  | NetnsGet => fun r k =>
      match r with
      | Ok o => MkLinks (lk_pairs k) (lk_ns k) (lk_looked k) (lk_away k) (if lk_away k then lk_orig k else Some o) (lk_root k)
      | Err _ => k
      end
  | NetnsNewNamed n => fun _ k => MkLinks (lk_pairs k) n (lk_looked k) true (lk_orig k) (lk_root k)
  | NetnsSet ns => fun r k =>
      match r with
      | None => MkLinks (lk_pairs k) (lk_ns k) (lk_looked k) (negb (bool_decide (lk_orig k = Some ns))) (lk_orig k) (lk_root k)
      | Some _ => k
      end
  | NetnsClose ns => fun _ k =>
      MkLinks (lk_pairs k) (lk_ns k) (lk_looked k) (lk_away k)
        (if bool_decide (lk_orig k = Some ns) then None else lk_orig k) (lk_root k)
  | NetnsDeleteNamed n => fun _ k => with_pairs (filter (fun p => p.2 <> n) (lk_pairs k)) k
  | NlNewHandle => fun r k =>
      match r with
      | Ok h => MkLinks (lk_pairs k) (lk_ns k) (lk_looked k) (lk_away k) (lk_orig k)
                  (if lk_away k then filter (fun x => x <> h) (lk_root k) else h :: lk_root k)
      | Err _ => k
      end
  | NlDeleteHandle h => fun _ k =>
      MkLinks (lk_pairs k) (lk_ns k) (lk_looked k) (lk_away k) (lk_orig k) (filter (fun x => x <> h) (lk_root k))
  | NlLinkByName _ n => fun r k =>
      MkLinks (lk_pairs k) (lk_ns k) (match r with Ok l => Some (n, l) | Err _ => None end) (lk_away k) (lk_orig k) (lk_root k)
  | NlLinkAdd h (NlVeth a _) => fun r k =>
      match r with
      | None => if bool_decide (h ∈ lk_root k) then with_pairs ((a, lk_ns k) :: lk_pairs k) k else k
      | Some _ => k
      end
  | NlLinkDel h l => fun _ k => drop_link h l k
  | NlLinkSetNsFd h l _ => fun _ k => drop_link h l k
  | RunCommand _ _ => fun _ k => with_pairs [] k
  | StartProcess _ _ _ => fun _ k => with_pairs [] k
  | _ => fun _ k => k
  end.

(** What the kernel refuses and what it does not: a second link of the same
    name; and a thread may go back to where it came from. *)
Definition link_law (X : Type) (e : envE X) (k : links) : X -> Prop :=
  match e in envE X return X -> Prop with
  | NlLinkAdd h (NlVeth a _) => fun r => h ∈ lk_root k -> a ∈ map fst (lk_pairs k) -> r <> None
  | NetnsSet ns => fun r => lk_orig k = Some ns -> r = None
  | _ => fun _ => True
  end.

(** A kernel of which this is true: [R w k] says that in the state [w] at least
    the links [k] are there. *)
Record link_kernel {W} (eh : env W) (R : W -> links -> Prop) : Prop := {
  lk_refuses X (e : envE X) w k : R w k -> link_law X e k (fst (eh X e w));
  lk_keeps X (e : envE X) w k : R w k -> R (snd (eh X e w)) (link_obs X e (fst (eh X e w)) k);
}.

(** Nothing is known to be there; the thread is in the root namespace. *)
Definition no_links : links := MkLinks [] EmptyString None false None [].

Abbreviation lwp := (swp link_law (envObs link_obs)).

(** ** The functions *)

(** At home, with the pairs [P]. *)
Definition home (P : list (string * string)) (k : links) : Prop := lk_away k = false /\ P ⊆ lk_pairs k.

Ltac link_steps :=
  repeat first
    [ progress cbn [envObs link_obs drop_link with_pairs swp_bindQ swp_deferQ swp_deferWithQ when lk_away lk_orig lk_pairs lk_ns lk_root lk_looked]
    | swp_step ].

Lemma newNamedNetns_links n P Q s k :
  home P k ->
  (forall e k', Q (Done (Err e)) s k') ->
  (forall h k', home P k' -> lk_ns k' = n -> Q (Done (Ok h)) s k') ->
  lwp (newNamedNetns n) Q s k.
Proof.
  destruct k as [ps ns looked away orig root]. intros [Ha HP] He Hok. cbn in Ha, HP. subst away.
  unfold newNamedNetns. link_steps; try by apply He.
  all: rewrite ?bool_decide_eq_true_2 by done; try apply Hok; try done.
Qed.

(** The namespace of the thread and the pairs are as before. *)
Definition in_place (k k' : links) : Prop :=
  lk_away k' = lk_away k /\ lk_pairs k' = lk_pairs k /\ lk_orig k' = lk_orig k.

Lemma configureInside_links subnet Q s k :
  (forall r k', in_place k k' -> Q (Done r) s k') -> lwp (configureInsideNetns subnet) Q s k.
Proof.
  destruct k as [ps ns looked away orig root]. intros HQ. unfold configureInsideNetns, unlessExist.
  link_steps; by apply HQ.
Qed.

Lemma withNetns_links target subnet P Q s k :
  home P k -> (forall r k', home P k' -> Q (Done r) s k') -> lwp (withNetns target (configureInsideNetns subnet)) Q s k.
Proof.
  destruct k as [ps ns looked away orig root]. intros [Ha HP] HQ. cbn in Ha, HP. subst away.
  unfold withNetns. link_steps; try by apply HQ.
  apply configureInside_links. intros r [ps' ns' looked' away' orig' root'] (_ & Hp & Ho). cbn [lk_pairs lk_orig] in Hp, Ho. subst ps' orig'.
  cbn [swp_deferQ]. apply swp_bind, swp_sys. intros [e|] Hl; [by specialize (Hl eq_refl)|].
  link_steps. apply HQ. split; [|done]. cbn [lk_away]. by rewrite bool_decide_eq_true_2.
Qed.

(** The names of the pairs are not that of the peer. *)
Definition no_peer (P : list (string * string)) : Prop := Forall (fun p => p.1 <> "veth0"%string) P.

Lemma kept_filter (P ps : list (string * string)) (f : string * string -> Prop) `{!forall x, Decision (f x)} :
  P ⊆ ps -> Forall f P -> P ⊆ filter f ps.
Proof. intros HP Hf x Hx. apply list_elem_of_filter. split; [|by apply HP]. by apply (proj1 (Forall_forall _ _) Hf). Qed.

Lemma configureVeth_links ns subnet nsHandle h P Q s k :
  home P k -> no_peer P -> h ∈ lk_root k ->
  (forall e b k', Q (Done (Err e, b)) s k') ->
  (forall k', home P k' -> Q (Done (Ok (netnsConfigOf ns subnet), false)) s k') ->
  lwp (configureVethAndRoute ns subnet nsHandle h) Q s k.
Proof.
  destruct k as [ps ns0 looked away orig root]. intros [Ha HP] Hn Hh He Hok. cbn in Ha, HP, Hh. subst away.
  assert (P ⊆ filter (fun p => p.1 <> "veth0"%string) ps) as HP' by by apply kept_filter.
  unfold configureVethAndRoute, unlessExist. link_steps; try by apply He.
  all: rewrite Z.eqb_refl, (bool_decide_eq_true_2 (h ∈ root)) in * by done.
  all: apply (withNetns_links _ _ P); [by split|]; intros r k' Hk; link_steps; by first [apply He|apply Hok].
Qed.

(** Where it succeeds, its pair is there; and it fails where the pair was there. *)
Lemma setup_links id subnet P (Q : outcome (result netnsConfig) -> server -> links -> Prop) s k :
  let ns := netnsNameForSandbox id in
  home P k -> no_peer P -> vethHostOf subnet <> "veth0"%string ->
  (forall e k', Q (Done (Err e)) s k') ->
  (forall k', vethHostOf subnet ∉ map fst P -> home ((vethHostOf subnet, ns) :: P) k' -> Q (Done (Ok (netnsConfigOf ns subnet))) s k') ->
  lwp (setupSandboxNetnsAndRouting id subnet) Q s k.
Proof.
  intros ns Hk Hn Hv He Hok. unfold setupSandboxNetnsAndRouting. fold ns. apply swp_bind, (newNamedNetns_links _ P); [done|link_steps; apply He|].
  intros nsHandle [ps ns0 looked away orig root] [Ha HP] Ens. cbn in Ha, HP, Ens. subst away ns0. cbn [swp_bindQ].
  apply swp_defer, swp_sys. intros [h|e] _; [|link_steps; apply He].
  apply swp_defer, swp_sys. cbn [envObs link_obs lk_away lk_root lk_pairs lk_ns lk_looked lk_orig].
  intros [e|] Hlaw; [link_steps; apply He|]. cbn [link_law lk_root lk_pairs] in Hlaw.
  rewrite bool_decide_eq_true_2 by by left. cbn [with_pairs lk_away lk_root lk_pairs lk_ns lk_looked lk_orig].
  assert (vethHostOf subnet ∉ map fst P) as Hfresh.
  { intros Hin. apply Hlaw; [by left| |done]. apply list_elem_of_fmap in Hin as (x & -> & Hx). apply list_elem_of_fmap. eauto. }
  apply swp_deferWith, (configureVeth_links _ _ _ _ ((vethHostOf subnet, ns) :: P)).
  - split; [done|]. cbn [lk_pairs]. intros x [->|Hx]%elem_of_cons; [by left|]. right. by apply HP.
  - by constructor.
  - by left.
  - intros e b [ps' ns' looked' away' orig' root']. destruct b; unfold deleteVeth; link_steps; apply He.
  - intros [ps' ns' looked' away' orig' root'] Hk'. link_steps. by apply Hok.
Qed.

(** Taking apart another entry. *)
Lemma cleanup_links nc P (Q : outcome (option error) -> server -> links -> Prop) s k :
  home P k -> Forall (fun p => p.1 <> nc_VethHost nc) P -> Forall (fun p => p.2 <> nc_NetnsName nc) P ->
  (forall r k', home P k' -> Q (Done r) s k') ->
  lwp (cleanupSandboxNetnsAndRouting (Some nc)) Q s k.
Proof.
  destruct k as [ps ns looked away orig root]. intros [Ha HP] H1 H2 HQ. cbn in Ha, HP. subst away.
  unfold cleanupSandboxNetnsAndRouting, deleteVeth. link_steps.
  all: rewrite ?Z.eqb_refl, ?bool_decide_eq_true_2 by by left.
  all: apply HQ; split; [done|]; cbn [lk_pairs]; repeat (apply kept_filter; [|done]); done.
Qed.

(** ** The pool *)

Definition poolPair (i : Z) : string * string := (vethHostOf i, netnsNameForSandbox (poolEntryID i)).

Lemma fmt03d_inj m n : 0 <= m <= 255 -> 0 <= n <= 255 -> fmt03d m = fmt03d n -> m = n.
Proof. intros Hm Hn H. apply (f_equal (digits_value 0)) in H. rewrite !fmt03d_value in H by done. congruence. Qed.

Lemma pool_names n : 0 <= n <= 255 ->
  netnsNameForSandbox (poolEntryID n) = "manta-pool-" +:+ fmt03d n /\ vethHostOf n <> "veth0"%string.
Proof.
  intros Hn.
  assert (forallb (fun k => let n := Z.of_nat k in
    String.eqb (netnsNameForSandbox (poolEntryID n)) ("manta-pool-" +:+ fmt03d n) && negb (String.eqb (vethHostOf n) "veth0")) (seq 0 256) = true)
    as H by (vm_compute; reflexivity).
  rewrite forallb_forall in H. specialize (H (Z.to_nat n)). rewrite Z2Nat.id in H by lia. cbv zeta in H.
  destruct (andb_prop _ _ (H ltac:(apply in_seq; lia))) as [H1%String.eqb_eq H2]. split; [done|].
  apply negb_true_iff, String.eqb_neq in H2. done.
Qed.

Lemma poolPair_other i j : 0 <= i <= 255 -> 0 <= j <= 255 -> i <> j ->
  (poolPair i).1 <> vethHostOf j /\ (poolPair i).2 <> netnsNameForSandbox (poolEntryID j).
Proof.
  intros Hi Hj Hne. split; cbn [poolPair fst snd]; [by intros ?%vethHost_inj|].
  destruct (pool_names i Hi) as [-> _], (pool_names j Hj) as [-> _]. intros H%string_app_inj_l. by apply fmt03d_inj in H.
Qed.

(** The pairs of the first [k] entries. *)
Definition poolPairs (k : nat) : list (string * string) := map poolPair (poolIndices k).

Lemma elem_of_poolIndices i k : i ∈ poolIndices k <-> 1 <= i <= Z.of_nat k.
Proof.
  unfold poolIndices. rewrite list_elem_of_fmap. split.
  - intros (n & -> & Hn%elem_of_seq). lia.
  - intros Hi. exists (Z.to_nat (i - 1)). split; [lia|]. apply elem_of_seq. lia.
Qed.

Lemma poolPairs_forall (f : string * string -> Prop) k :
  (forall i, 1 <= i <= Z.of_nat k -> f (poolPair i)) -> Forall f (poolPairs k).
Proof. intros H. apply Forall_map, Forall_forall. intros i Hi%elem_of_poolIndices. by apply H. Qed.

Lemma poolPairs_no_peer k : (k <= 255)%nat -> no_peer (poolPairs k).
Proof. intros Hk. apply poolPairs_forall. intros i Hi. apply pool_names. lia. Qed.

Lemma initEntry_links size k (Q : outcome (option error) -> server -> links -> Prop) s0 t :
  let es := map poolEntry (poolIndices k) in let es' := map poolEntry (poolIndices (S k)) in
  (k < size <= 255)%nat -> home (poolPairs k) t ->
  (forall e s t, Q (Done (Some e)) s t) ->
  (forall t, home (poolPairs (S k)) t -> Q (Done None) (upd_pool (MkPool size es' es' true) s0) t) ->
  lwp (initEntry (Z.of_nat k + 1)) Q (upd_pool (MkPool size es es true) s0) t.
Proof.
  intros es es' Hk Ht He Hok. unfold initEntry. apply swp_bind, (cleanup_links _ (poolPairs k)); [done|..].
  - apply poolPairs_forall. intros i Hi. apply poolPair_other; lia.
  - apply poolPairs_forall. intros i Hi. apply poolPair_other; lia.
  - intros r t1 Ht1. cbn [swp_bindQ]. clear r. apply swp_bind, (setup_links _ _ (poolPairs k)); [done|by apply poolPairs_no_peer; lia|apply pool_names; lia| |].
    { intros e t2. cbn [swp_bindQ]. apply swp_ret, He. }
    intros t2 _ [Ha HP]. cbn [swp_bindQ].
    assert (es' = es ++ [poolEntry (Z.of_nat k + 1)]) as Ees.
    { unfold es, es', poolIndices. rewrite seq_S, !map_app. done. }
    eapply swp_mem; [reflexivity|]. eapply swp_mem.
    { apply (PoolSend_step (MkPool size es es' true)); [by rewrite Ees|]. cbn. unfold es. rewrite length_map. unfold poolIndices. rewrite length_map, length_seq. lia. }
    apply swp_ret. cbn [pool_size pool_ch pool_all pool_once]. cbn [envObs]. change (pooled _ _) with (poolEntry (Z.of_nat k + 1)). rewrite <- Ees. apply Hok. split; [done|].
    intros x Hx. apply HP. unfold poolPairs, poolIndices in Hx. rewrite seq_S, !map_app in Hx.
    apply elem_of_app in Hx as [Hx| ->%list_elem_of_singleton]; [by right|by left].
Qed.

Lemma Init_links size s k :
  (size <= 255)%nat -> with_pool (newNetnsPool size) s -> home [] k ->
  lwp (Init size) (fun o s' k' => match o with
    | Done None => s' = filled size size s /\ home (poolPairs size) k'
    | Done (Some _) => True
    | _ => False
    end) s k.
Proof.
  intros Hsize Hp Hk. unfold Init. eapply swp_mem; [by cbn; unfold on_pool; rewrite Hp|]. cbn [negb pool_once newNetnsPool]. cbv iota.
  eapply (swp_forRange _ _ (fun xs s' k' => exists n, poolIndices size = poolIndices n ++ xs /\ s' = filled size n s /\ home (poolPairs n) k')).
  - intros i xs s1 k1 (n & Hd & -> & Hk1). destruct (poolIndices_split _ _ _ _ Hd) as (Hl & _ & Hd').
    unfold poolIndices in Hl at 1. rewrite length_map, length_seq in Hl.
    assert (poolIndices n ++ [i] = poolIndices (S n)) as Hi by (rewrite Hd'; f_equal; unfold poolIndices; by rewrite length_map, length_seq).
    assert (i = Z.of_nat n + 1) as ->.
    { unfold poolIndices in Hi. rewrite seq_S, map_app in Hi. apply app_inj_1 in Hi as [_ Hi]; [by injection Hi|done]. }
    apply swp_bind. apply (initEntry_links size n); [lia|done|by intros; cbn|]. intros k2 Hk2. cbn [swp_bindQ]. apply swp_ret.
    exists (S n). split; [by rewrite <- Hi, <- app_assoc|]. by split.
  - intros s1 k1 (n & Hd & -> & Hk1). apply swp_ret.
    assert (n = size) as ->; [|by split].
    rewrite app_nil_r in Hd. apply (f_equal length) in Hd. unfold poolIndices in Hd. rewrite !length_map, !length_seq in Hd. done.
  - by exists 0%nat.
Qed.

(** One acquisition for each of [ids]. *)
Fixpoint acquireAll (ids : list string) : prog sysE (list (result netnsConfig)) :=
  match ids with
  | [] => Ret []
  | id :: ids => let! r := acquireNetns id in let! rs := acquireAll ids in Ret (r :: rs)
  end.

(** The acquisitions that drain the pool, and the next one. *)
Lemma acquireAll_links size ch all ids id s k :
  s_netnsPool s = Some (MkPool size ch all true) -> length ids = length ch ->
  0 <= s_nextSubnet s < Z.of_nat size -> (size <= 255)%nat -> home (poolPairs size) k ->
  lwp (acquireAll (ids ++ [id])) (fun o _ _ => exists e, o = Done (map Ok ch ++ [Err e])) s k.
Proof.
  intros Hp Hlen Hn Hsize Hk. revert ids s Hp Hlen Hn. induction ch as [|nc ch IH]; intros ids s Hp Hlen Hn.
  - destruct ids; [|done]. cbn [app acquireAll map].
    apply swp_bind, acquire_drained; [unfold pool_drained; by rewrite Hp|]. cbv zeta. rewrite uint32_id by lia.
    apply (setup_links _ _ (poolPairs size)); [done|by apply poolPairs_no_peer|apply pool_names; lia| |].
    + intros e k'. cbn [swp_bindQ]. apply swp_ret. by exists e.
    + intros k' Hfresh _. destruct Hfresh. unfold poolPairs. rewrite map_map. apply list_elem_of_fmap.
      exists (s_nextSubnet s + 1). split; [done|]. apply elem_of_poolIndices. lia.
  - destruct ids as [|id' ids]; [done|]. cbn [app acquireAll map]. unfold acquireNetns, Acquire.
    apply swp_bind. eapply swp_mem; [reflexivity|]. rewrite Hp, bool_decide_eq_true_2 by eauto.
    apply swp_bind. eapply swp_mem; [by cbn; unfold on_pool; rewrite Hp|]. apply swp_ret. cbn [swp_bindQ]. apply swp_ret. cbn [swp_bindQ envObs].
    apply swp_bind. eapply swp_mono; [|apply (IH ids); [done|by injection Hlen|done]].
    intros o s' k' [e ->]. cbn [swp_bindQ]. apply swp_ret. by exists e.
Qed.

(** C39. The first on-demand acquisition fails.  In a kernel that refuses a
    second link of the same name and forgets no link that nobody deletes: once
    Init has filled a pool of 1 to 255 entries, the first acquisitions take the
    entries in order, and the next one, which falls back on a subnet counted
    from 1 like those of the pool, fails; as it does whenever fewer subnets
    than the pool has entries have been used on demand. *)
Theorem pool_fallback_collides {W} (eh : env W) (R : W -> links -> Prop) size ids id s w :
  link_kernel eh R -> R w no_links ->
  (1 <= size <= 255)%nat -> length ids = size -> s_netnsPool s = Some (newNetnsPool size) -> 0 <= s_nextSubnet s < Z.of_nat size ->
  match exec eh (Init size) s w with
  | (Done None, (s1, w1)) =>
      exists e, fst (exec eh (acquireAll (ids ++ [id])) s1 w1) = Done (map (fun i => Ok (poolEntry i)) (poolIndices size) ++ [Err e])
  | (Done (Some _), _) => True
  | _ => False
  end.
Proof.
  intros [Hrefuse Hkeep] Hw Hsize Hids Hp Hn.
  pose proof (fun A p Q s w k Hr => swp_exec R link_law (envObs link_obs) eh (A := A) p Q s w k
    (fun X e w k HR => conj (Hrefuse X e w k HR) (Hkeep X e w k HR)) (fun _ _ _ _ _ HR => HR) Hr) as Hrun.
  pose proof (Hrun _ _ _ s w no_links Hw (Init_links size s no_links ltac:(lia) Hp (conj eq_refl (list_subseteq_nil _)))) as HI.
  rewrite (exec_watched_exec (envObs link_obs) eh (Init size) s w no_links).
  destruct (exec_watched _ _ (Init size) _ _ _) as [o [[s1 w1] k1]]. destruct HI as [Hw1 HI]. cbn [fst snd].
  destruct o as [[e|]| | |]; try done. destruct HI as [-> Hk1].
  pose proof (Hrun _ _ _ (filled size size s) w1 k1 Hw1
    (acquireAll_links size (map poolEntry (poolIndices size)) (map poolEntry (poolIndices size)) ids id (filled size size s) k1 eq_refl
      ltac:(unfold poolIndices; by rewrite !length_map, length_seq) Hn ltac:(lia) Hk1)) as HA.
  rewrite (exec_watched_exec (envObs link_obs) eh (acquireAll (ids ++ [id])) _ w1 k1).
  destruct (exec_watched _ _ (acquireAll _) _ _ _) as [o [[s2 w2] k2]]. destruct HA as [_ [e ->]]. cbn [fst]. exists e. by rewrite map_map.
Qed.

(** ** Witness: a pool of two entries in a kernel that keeps such an account *)

Definition keeper : env (Z * links) := fun X e w =>
  let x := match e in envE X return X with
    | NlLinkAdd h (NlVeth a _) =>
        if bool_decide (h ∈ lk_root (snd w)) && bool_decide (a ∈ map fst (lk_pairs (snd w))) then Some (sysErr EEXIST) else None
    | e => fst (happy _ e (fst w))
    end in
  (x, (fst w + 1, link_obs X e x (snd w))).

Lemma keeper_kernel : link_kernel keeper (fun w k => snd w = k).
Proof.
  split; [|by intros X e w k <-]. intros X e w k <-. unfold keeper. cbn [fst]. destruct e; try done.
  destruct l as [a p|t]; [|done]. cbn [link_law]. intros Hh Ha. by rewrite !bool_decide_eq_true_2.
Qed.

Definition poolServer : server := MkServer 0 0 0 ∅ [] (Some (newNetnsPool 2)).

Lemma pool_fallback_collides_witness :
  exists s1 w1, exec keeper (Init 2) poolServer (0, no_links) = (Done None, (s1, w1))
  /\ exists e, fst (exec keeper (acquireAll ["sb-1"; "sb-2"; "sb-3"]) s1 w1) = Done [Ok (poolEntry 1); Ok (poolEntry 2); Err e].
Proof.
  pose proof (pool_fallback_collides keeper (fun w k => snd w = k) 2 ["sb-1"; "sb-2"]%string "sb-3" poolServer (0, no_links)
    keeper_kernel eq_refl ltac:(lia) eq_refl eq_refl ltac:(cbn; lia)) as H.
  assert (match fst (exec keeper (Init 2) poolServer (0, no_links)) with Done None => true | _ => false end = true) as Ho
    by (vm_compute; reflexivity).
  destruct (exec keeper (Init 2) poolServer (0, no_links)) as [o [s1 w1]]. cbn [fst] in Ho.
  destruct o as [[e|]| | |]; try discriminate Ho. exists s1, w1. split; [reflexivity|]. exact H.
Defined.
