(* ===== verification/Concurrency.v ===== *)
(** * Properties of the server under any interleaving of requests *)

From S2P Require Import Prelude Interleave NetnsFacts Sample.

(** ** Facts about one goroutine of a reachable configuration *)

Definition ended (th : thread) : Prop :=
  match th_prog th with Ret _ | Panic => True | _ => False end.

Definition unfinished (th : thread) : Prop :=
  match th_prog th with Vis _ _ => True | _ => False end.

(** The next operation of the goroutine can be performed. *)
Definition can_step (s : server) (th : thread) : Prop :=
  match th_prog th with
  | Vis (Sys _) _ => True
  | Vis (Mem m) _ => is_Some (mem_step m s)
  | _ => False
  end.

Lemma follows_unlocked cfg th g : follows cfg th g -> ~ unfinished th -> g_lock g = None.
Proof.
  intros [Hw _] Hu. unfold unfinished in Hu. destruct th as [[r|] [[]| | |X e k] rs]; cbn in *; try done; by destruct Hw.
Qed.

Lemma follows_done cfg th g :
  follows cfg th g -> ended th -> is_Some (th_req th) -> g_lock g = None /\ g_exec g = None.
Proof.
  intros [Hw _] He [r Hr]. unfold ended in He. destruct th as [r' [[]| | |X e k] rs]; cbn in *; subst; try done.
  - by destruct Hw as [? (? & ? & ? & ?)].
  - by destruct Hw as [? (? & ?)].
Qed.

(** A goroutine that holds a mutex can go on. *)
Lemma holder_steps cfg s th g gs l :
  good s (g :: gs) -> follows cfg th g -> g_lock g = Some l -> can_step s th.
Proof.
  intros Hg Hf Hl. assert (~ ~ unfinished th) as Hu.
  { intros H. apply (follows_unlocked cfg th g) in H; [|done]. congruence. }
  destruct Hf as [Hw _]. unfold unfinished, can_step in *. destruct (th_prog th) as [a| | |X e k]; [exfalso; tauto..|].
  destruct e as [X e|X m]; [done|]. destruct Hw as [Hpre _].
  apply (mem_progress m s g gs Hg Hpre). destruct m; try done. destruct Hpre as [_ Hn]. congruence.
Qed.

Lemma good_pick s gs g : good s gs -> g ∈ gs -> exists gs', good s (g :: gs').
Proof.
  intros Hg Hin. apply list_elem_of_split in Hin as (gs1 & gs2 & ->). exists (gs1 ++ gs2).
  eapply good_perm; [|exact Hg]. solve_Permutation.
Qed.

(** ** Properties *)

(** C1. The entries of the netns pool are never shared: in any interleaving of
    any requests (and of the shutdown), whatever the kernel, Firecracker and
    the guests answer, an entry is in the channel at most once, belongs to at
    most one published sandbox, and never both; and no entry is made up. *)
Theorem pool_entries_exclusive cfg s0 c :
  initial s0 -> reachable cfg s0 c ->
  let s := c_server c in
  NoDup (pool_chan s ++ slots_at (s_heap s) (published s))
  /\ pool_chan s ++ slots_at (s_heap s) (published s) ⊆ pool_entries s.
Proof.
  intros Hi Hr. destruct (invariant_reachable cfg s0 c Hi Hr) as (gs & _ & Hg). cbv zeta.
  assert (pool_chan (c_server c) ++ slots_at (s_heap (c_server c)) (published (c_server c)) ⊆+ pool_entries (c_server c)) as Hs.
  { etrans; [|apply (gd_ledger _ _ Hg)]. unfold ledger. rewrite !slots_at_app, <- app_assoc, app_assoc.
    apply submseteq_inserts_r. done. }
  split.
  - eapply NoDup_sub; [exact Hs|]. apply (gd_entries _ _ Hg).
  - intros nc Hnc. by eapply elem_of_submseteq.
Qed.

(** C15. A sandbox that a request can find in the map is running: closing and
    closed sandboxes are never published, so a destroy that finds its sandbox
    always wins it. *)
Theorem published_running cfg s0 c id l :
  initial s0 -> reachable cfg s0 c -> s_sandboxes (c_server c) !! id = Some l ->
  exists sb, s_heap (c_server c) !! l = Some sb /\ sb_state sb = sandboxStateRunning
    /\ snd (beginDestroy sb) = true.
Proof.
  intros Hi Hr Hid. destruct (invariant_reachable cfg s0 c Hi Hr) as (gs & _ & Hg).
  assert (l ∈ published (c_server c)) as Hp.
  { unfold published. apply list_elem_of_fmap. exists (id, l). split; [done|]. by apply elem_of_map_to_list. }
  assert (l < length (s_heap (c_server c)))%nat as Hlt.
  { eapply live_valid; [exact Hg|]. unfold live. set_solver. }
  apply lookup_lt_is_Some in Hlt as [sb Hl]. exists sb. split; [done|].
  assert (sb_state sb = sandboxStateRunning) as Hs by (eapply (gd_running _ _ Hg); [done|set_solver]).
  split; [done|]. by apply beginDestroy_running.
Qed.

(** C3. The server never deadlocks: whenever some goroutine has an operation
    left, some goroutine can perform its next operation.  In particular a
    release of a pool entry never blocks, and a goroutine that waits for the
    agent mutex of a sandbox waits for one that can go on. *)
Theorem no_deadlock cfg s0 c :
  initial s0 -> reachable cfg s0 c ->
  (exists th, th ∈ c_threads c /\ unfinished th) ->
  exists th, th ∈ c_threads c /\ can_step (c_server c) th.
Proof.
  intros Hi Hr (th & Hin & Hu). destruct (invariant_reachable cfg s0 c Hi Hr) as (gs & Hall & Hg).
  apply list_elem_of_lookup in Hin as [i Hith].
  destruct (Forall2_lookup_l _ _ _ _ _ Hall Hith) as (g & Hgi & [Hw Hrs]).
  unfold unfinished in Hu. destruct (th_prog th) as [| | |X e k] eqn:Ep; try done.
  destruct e as [X e|X m].
  { exists th. split; [by eapply list_elem_of_lookup_2|]. unfold can_step. by rewrite Ep. }
  destruct Hw as [Hpre _].
  destruct (good_pick _ _ g Hg) as [gs' Hg']; [by eapply list_elem_of_lookup_2|].
  destruct (is_lock m) eqn:El.
  - destruct m; try done. destruct Hpre as [Hk _]. apply (known_lookup _ _ _ _ Hg') in Hk.
    apply lookup_lt_is_Some in Hk as [sb Hl]. destruct (sb_agentMu sb) eqn:Emu.
    + apply (gd_agentMu _ _ Hg l sb Hl) in Emu. unfold locks in Emu.
      apply list_elem_of_omap in Emu as (g2 & Hin2 & Hlock).
      apply list_elem_of_lookup in Hin2 as [j Hj]. destruct (Forall2_lookup_r _ _ _ _ _ Hall Hj) as (th2 & Hth2 & Hf2).
      exists th2. split; [by eapply list_elem_of_lookup_2|].
      destruct (good_pick _ _ g2 Hg) as [gs2 Hg2]; [by eapply list_elem_of_lookup_2|].
      by eapply holder_steps.
    + exists th. split; [by eapply list_elem_of_lookup_2|]. unfold can_step. rewrite Ep. cbn. rewrite Hl, Emu. by eexists.
  - exists th. split; [by eapply list_elem_of_lookup_2|]. unfold can_step. rewrite Ep.
    by apply (mem_progress m _ g gs').
Qed.

(** C16. Once every request has returned (or panicked), no sandbox is left with
    its agent mutex locked or with an exec counted as running, whichever way
    the requests interleaved and failed. *)
Theorem quiescent_sandboxes cfg s0 c l sb :
  initial s0 -> reachable cfg s0 c ->
  (forall th, th ∈ c_threads c -> is_Some (th_req th) /\ ended th) ->
  s_heap (c_server c) !! l = Some sb ->
  sb_agentMu sb = false /\ sb_inFlightExec sb = 0.
Proof.
  intros Hi Hr Hend Hl. destruct (invariant_reachable cfg s0 c Hi Hr) as (gs & Hall & Hg).
  assert (forall g, g ∈ gs -> g_lock g = None /\ g_exec g = None) as Hnone.
  { intros g Hin. apply list_elem_of_lookup in Hin as [i Hgi].
    destruct (Forall2_lookup_r _ _ _ _ _ Hall Hgi) as (th & Hth & Hf).
    destruct (Hend th) as [H1 H2]; [by eapply list_elem_of_lookup_2|]. by eapply follows_done. }
  split.
  - destruct (sb_agentMu sb) eqn:E; [|done]. apply (gd_agentMu _ _ Hg l sb Hl) in E.
    apply list_elem_of_omap in E as (g & Hin & Hlock). destruct (Hnone g Hin). congruence.
  - rewrite (gd_inFlight _ _ Hg l sb Hl), occurrences_zero; [done|]. intros H.
    apply list_elem_of_omap in H as (g & Hin & Hexec). destruct (Hnone g Hin). congruence.
Qed.

(** Every request is answered exactly once: when its handler has returned
    one answer has been sent, and when it panicked (net/http then closes the
    connection) none. *)
Theorem answered_once cfg s0 c i r p rs :
  initial s0 -> reachable cfg s0 c -> c_threads c !! i = Some (MkThread (Some r) p rs) ->
  match p with
  | Ret _ => exists status body, rs = [(status, body)]
  | Panic => rs = []
  | _ => True
  end.
Proof.
  intros Hi Hr Hth. destruct (invariant_reachable cfg s0 c Hi Hr) as (gs & Hall & _).
  destruct (Forall2_lookup_l _ _ _ _ _ Hall Hth) as (g & _ & [Hw Hrs]). cbn in Hw, Hrs.
  specialize (Hrs ltac:(by eexists)). subst rs. destruct p as [[]| | |]; try done.
  - destruct Hw as [_ (_ & _ & Hlen & _)]. destruct (g_replies g) as [|[st b] [|]]; try done. by exists st, b.
  - by destruct Hw as [_ (_ & ? & _)].
Qed.

(** ** Witnesses *)

(** A pool of two entries. *)
Definition sample_server : server :=
  let es := map poolEntry (poolIndices 2) in MkServer 0 0 0 ∅ [] (Some (MkPool 2 es es true)).

Lemma sample_initial : initial sample_server.
Proof.
  split; [done|]. split; [done|]. cbn. split; [done|]. split; [|split; [done|]].
  - apply (bool_decide_unpack _). vm_compute. done.
  - by repeat constructor.
Qed.

(** A create that succeeds, an exec, a refused request, and a create that is
    under way. *)
Definition sample_run : conf * Z :=
  arrive_and_run (answering okResponse) sample_cfg RCreate 12
    (arrive_and_run (answering okResponse) sample_cfg (RExec "nonsense") 5
      (arrive_and_run (answering okResponse) sample_cfg RCreate 200 (MkConf [] sample_server, 0))).

Lemma sample_reachable : reachable sample_cfg sample_server (fst sample_run).
Proof. do 3 apply arrive_and_run_sound. apply rtc_refl. Qed.

(** A create and an exec, both answered. *)
Definition finished_run : conf * Z :=
  arrive_and_run (answering okResponse) sample_cfg
    (RExec (marshal (JObj [("sandbox_id"%string, JStr "sb-1"); ("argv"%string, JArr [JStr "true"])]))) 60
    (arrive_and_run (answering okResponse) sample_cfg RCreate 200 (MkConf [] sample_server, 0)).

Lemma finished_reachable : reachable sample_cfg sample_server (fst finished_run).
Proof. do 2 apply arrive_and_run_sound. apply rtc_refl. Qed.

Lemma pool_entries_exclusive_witness :
  let s := c_server (fst sample_run) in
  NoDup (pool_chan s ++ slots_at (s_heap s) (published s))
  /\ pool_chan s ++ slots_at (s_heap s) (published s) ⊆ pool_entries s.
Proof. exact (pool_entries_exclusive sample_cfg sample_server (fst sample_run) sample_initial sample_reachable). Defined.

Lemma published_running_witness :
  exists sb, s_heap (c_server (fst sample_run)) !! 0%nat = Some sb /\ sb_state sb = sandboxStateRunning
    /\ snd (beginDestroy sb) = true.
Proof.
  assert (s_sandboxes (c_server (fst sample_run)) !! "sb-1"%string = Some 0%nat) as H by (vm_compute; reflexivity).
  exact (published_running sample_cfg sample_server (fst sample_run) "sb-1" 0 sample_initial sample_reachable H).
Defined.

(** What a goroutine has come to, and whether it serves a request. *)
Definition status (th : thread) : bool * nat :=
  (match th_req th with Some _ => true | None => false end,
   match th_prog th with Ret _ => 0%nat | Panic => 1%nat | NoFuel => 2%nat | Vis _ _ => 3%nat end).

Lemma status_lookup ths i b n : map status ths !! i = Some (b, n) -> exists th, ths !! i = Some th /\ status th = (b, n).
Proof. intros H. apply list_lookup_fmap_Some in H as (th & -> & H). by exists th. Qed.

Lemma no_deadlock_witness : exists th, th ∈ c_threads (fst sample_run) /\ can_step (c_server (fst sample_run)) th.
Proof.
  refine (no_deadlock sample_cfg sample_server (fst sample_run) sample_initial sample_reachable _).
  assert (map status (c_threads (fst sample_run)) !! 2%nat = Some (true, 3%nat)) as H by (vm_compute; reflexivity).
  apply status_lookup in H as (th & Hth & H). exists th. split; [exact (list_elem_of_lookup_2 _ _ _ Hth)|].
  unfold unfinished, status in *. destruct (th_prog th); [discriminate H..|exact I].
Defined.

Lemma all_ended ths :
  forallb (fun th => fst (status th) && (snd (status th) <=? 1)%nat) ths = true ->
  forall th, th ∈ ths -> is_Some (th_req th) /\ ended th.
Proof.
  intros Hall th H. rewrite forallb_forall in Hall. apply list_elem_of_In, Hall in H.
  unfold status, ended in *. destruct (th_req th); [|done].
  split; [by eexists|]. by destruct (th_prog th).
Qed.

Lemma finished_all th : th ∈ c_threads (fst finished_run) -> is_Some (th_req th) /\ ended th.
Proof. apply all_ended. vm_compute. reflexivity. Qed.

Lemma quiescent_sandboxes_witness : exists sb,
  s_heap (c_server (fst finished_run)) !! 0%nat = Some sb /\ sb_agentMu sb = false /\ sb_inFlightExec sb = 0.
Proof.
  destruct (s_heap (c_server (fst finished_run)) !! 0%nat) as [sb|] eqn:E; [|vm_compute in E; discriminate E].
  exists sb. split; [reflexivity|].
  exact (quiescent_sandboxes sample_cfg sample_server (fst finished_run) 0 sb sample_initial finished_reachable finished_all E).
Defined.

Lemma answered_once_witness : exists th status body,
  c_threads (fst finished_run) !! 1%nat = Some th /\ th_replies th = [(status, body)].
Proof.
  assert (map status (c_threads (fst finished_run)) !! 1%nat = Some (true, 0%nat)) as H by (vm_compute; reflexivity).
  apply status_lookup in H as ([[r|] [a| | |X e k] rs] & Hth & H); try discriminate H.
  destruct (answered_once sample_cfg sample_server (fst finished_run) 1 r (Ret a) rs sample_initial finished_reachable Hth)
    as (st & b & Hrs).
  exists (MkThread (Some r) (Ret a) rs), st, b. split; [exact Hth|exact Hrs].
Defined.
