(* ===== verification/Linear.v ===== *)
(** * The API is linearizable

    The abstract specification of the server is a registry: a map from ids to
    sandboxes, on which a create or a restore puts, a destroy takes and an
    exec or a snapshot looks up, one at a time.  In any interleaving the
    requests behave as if each acted on the registry in one step: the history
    of the map operations of all goroutines is a sequential history of the
    registry, and the answer of each request is the one that its own step in
    this history calls for. *)

From S2P Require Import Prelude Watch Interleave Untouched Sample Concurrency.

(** ** The registry *)

Inductive event :=
| EPut (id : string) (l : loc)
| ETake (id : string) (found : option loc)
| EGet (id : string) (found : option loc)
| ESweep (all : list loc).

#[export] Instance event_eq_dec : EqDecision event.
Proof. solve_decision. Defined.

(** One step; [None] when the answer is not the one of the registry. *)
Definition registry (M : gmap string loc) (e : event) : option (gmap string loc) :=
  match e with
  | EPut id l => Some (<[id := l]> M)
  | ETake id found => if bool_decide (found = M !! id) then Some (delete id M) else None
  | EGet id found => if bool_decide (found = M !! id) then Some M else None
  | ESweep all => if bool_decide (all = (map_to_list M).*2) then Some ∅ else None
  end.

Definition replay (M : gmap string loc) (es : list event) : option (gmap string loc) :=
  foldl (fun o e => M ← o; registry M e) (Some M) es.

Lemma replay_snoc M es e : replay M (es ++ [e]) = M' ← replay M es; registry M' e.
Proof. unfold replay. by rewrite foldl_app. Qed.

(** ** Histories *)

Definition events {X} (m : memE X) : X -> list event :=
  match m in memE X return X -> list event with
  | SandboxesPut id l => fun _ => [EPut id l]
  | SandboxesTake id => fun found => [ETake id found]
  | SandboxesGet id => fun found => [EGet id found]
  | SandboxesSweep => fun all => [ESweep all]
  | _ => fun _ => []
  end.

(** The steps of Interleave.v, with the map operations performed so far and
    the goroutines that performed them. *)
Inductive history (cfg : config) (s0 : server) : conf -> list (nat * event) -> Prop :=
| history_start : history cfg s0 (MkConf [] s0) []
| history_request ts s h r :
    history cfg s0 (MkConf ts s) h -> history cfg s0 (MkConf (ts ++ [MkThread (Some r) (serve cfg r) []]) s) h
| history_shutdown ts s h :
    history cfg s0 (MkConf ts s) h -> history cfg s0 (MkConf (ts ++ [MkThread None shutdown []]) s) h
| history_env ts s h i r (X : Type) (e : envE X) k rs x :
    history cfg s0 (MkConf ts s) h -> ts !! i = Some (MkThread r (Vis (Sys e) k) rs) ->
    history cfg s0 (MkConf (<[i := MkThread r (k x) (sent e ++ rs)]> ts) s) h
| history_mem ts s h i r (X : Type) (m : memE X) k rs x s' :
    history cfg s0 (MkConf ts s) h -> ts !! i = Some (MkThread r (Vis (Mem m) k) rs) -> mem_step m s = Some (x, s') ->
    history cfg s0 (MkConf (<[i := MkThread r (k x) rs]> ts) s') (h ++ map (pair i) (events m x)).

Lemma reachable_history cfg s0 c : reachable cfg s0 c -> exists h, history cfg s0 c h.
Proof.
  unfold reachable. revert c. apply (rtc_ind_r (fun c => exists h, history cfg s0 c h)); [eexists; by constructor|].
  intros c c' Hr Hs [h IH]. destruct Hs; eexists; [by constructor|by constructor|by eapply history_env|by eapply history_mem].
Qed.

Lemma history_reachable cfg s0 c h : history cfg s0 c h -> reachable cfg s0 c.
Proof.
  unfold reachable. induction 1 as [|ts s h r Hh IH|ts s h Hh IH|ts s h i r X e k rs x Hh IH Hi|ts s h i r X m k rs x s' Hh IH Hi Hm];
    [done|eapply rtc_r; [exact IH|]..].
  - constructor.
  - constructor.
  - by constructor.
  - by eapply step_mem.
Qed.

(** The events of goroutine [i]. *)
Definition mine (i : nat) (h : list (nat * event)) : list event := (filter (fun p => p.1 = i) h).*2.

Lemma mine_app i h h' : mine i (h ++ h') = mine i h ++ mine i h'.
Proof. unfold mine. by rewrite filter_app, fmap_app. Qed.

Lemma mine_own i es : mine i (map (pair i) es) = es.
Proof.
  unfold mine. induction es as [|e es IH]; [done|]. rewrite map_cons, filter_cons_True by done. cbn. by rewrite IH.
Qed.

Lemma mine_other i j es : i <> j -> mine i (map (pair j) es) = [].
Proof.
  intros Hn. unfold mine. induction es as [|e es IH]; [done|]. rewrite map_cons, filter_cons_False by (cbn; congruence). done.
Qed.

(** The history is one of the registry. *)
Lemma on_sandbox_map {X} l (f : sandbox -> sandbox * X) s x s' :
  on_sandbox l f s = Some (x, s') -> s_sandboxes s = s_sandboxes s'.
Proof. unfold on_sandbox. destruct (s_heap s !! l) as [sb|]; [|done]. destruct (f sb). by intros [= _ <-]. Qed.

Lemma on_pool_map {X} (f : netnsPool -> option (X * netnsPool)) s x s' :
  on_pool f s = Some (x, s') -> s_sandboxes s = s_sandboxes s'.
Proof. unfold on_pool. destruct (s_netnsPool s) as [p|]; [|done]. destruct (f p) as [[y p']|]; [|done]. by intros [= _ <-]. Qed.

Lemma registry_step {X} (m : memE X) s x s' :
  mem_step m s = Some (x, s') -> replay (s_sandboxes s) (events m x) = Some (s_sandboxes s').
Proof.
  intros H. destruct m; cbn in H |- *; try (by simplify_eq);
    try (f_equal; first [by eapply on_sandbox_map|by eapply on_pool_map]).
  all: try (simplify_eq; by rewrite bool_decide_eq_true_2).
  destruct (s_heap s !! l) as [sb|]; [|done]. destruct (sb_agentMu sb); [done|]. by simplify_eq.
Qed.

Lemma foldl_registry_None es : foldl (fun o e => M ← o; registry M e) None es = None.
Proof. by induction es. Qed.

Lemma replay_app M es es' : replay M (es ++ es') = M' ← replay M es; replay M' es'.
Proof.
  unfold replay. rewrite foldl_app. destruct (foldl _ _ es) as [M'|]; [done|]. apply foldl_registry_None.
Qed.

Lemma map_snd_pair (i : nat) (es : list event) : (map (pair i) es).*2 = es.
Proof. induction es as [|e es IH]; [done|]. cbn. by rewrite IH. Qed.

Lemma history_replays cfg s0 c h :
  history cfg s0 c h -> replay (s_sandboxes s0) h.*2 = Some (s_sandboxes (c_server c)).
Proof.
  induction 1 as [| | | |ts s h i r X m k rs x s' Hh IH Hi Hm]; try done.
  rewrite fmap_app, map_snd_pair, replay_app, IH. cbn. by apply registry_step.
Qed.

(** ** What one goroutine does to the registry

    [lg p P st]: from the events and answers [st] of the goroutine so far, [p]
    returns only with [P], whatever its operations answer. *)

Definition account : Type := list event * list (Z * payload).

(** What is known of the answer of a memory operation. *)
Definition answers {X} (m : memE X) : X -> Prop :=
  match m in memE X return X -> Prop with AddSandboxID => fun n => 0 <= n | _ => fun _ => True end.

Lemma mem_step_answers {X} (m : memE X) s x s' : mem_step m s = Some (x, s') -> answers m x.
Proof. destruct m; try done. cbn. intros [= <- _]. apply Z.mod_pos_bound. lia. Qed.

Definition lpost (X : Type) (e : sysE X) (st : account) (x : X) (st' : account) : Prop :=
  match e in sysE X return X -> Prop with
  | Sys e => fun _ => st' = (fst st, sent e ++ snd st)
  | Mem m => fun x => answers m x /\ st' = (fst st ++ events m x, snd st)
  end x.

Abbreviation lg := (ewp lpost).

Lemma lg_sys {X A} (e : envE X) (k : X -> prog sysE A) P es rs :
  (forall x, lg (k x) P (es, sent e ++ rs)) -> lg (bind (sys e) k) P (es, rs).
Proof. intros H. split; [done|]. intros x st' ->. apply H. Qed.

Lemma lg_mem {X A} (m : memE X) (k : X -> prog sysE A) P es rs :
  (forall x, answers m x -> lg (k x) P (es ++ events m x, rs)) -> lg (bind (memory m) k) P (es, rs).
Proof. intros H. split; [done|]. intros x st' [Hx ->]. by apply H. Qed.

Lemma lg_last_sys {X} (e : envE X) (P : X -> account -> Prop) es rs :
  (forall x, P x (es, sent e ++ rs)) -> lg (sys e) P (es, rs).
Proof. intros H. split; [done|]. intros x st' ->. apply H. Qed.

Lemma lg_last_mem {X} (m : memE X) (P : X -> account -> Prop) es rs :
  (forall x, P x (es ++ events m x, rs)) -> lg (memory m) P (es, rs).
Proof. intros H. split; [done|]. intros x st' [_ ->]. apply H. Qed.

(** A function that neither looks at the map nor answers leaves no trace. *)
Lemma mapless_events X (m : memE X) x : mapless m -> events m x = [].
Proof. by destruct m. Qed.

Lemma silent_sent X (e : envE X) : not_reply X e -> sent e = [].
Proof. by destruct e. Qed.

Lemma lg_silently {A} (p : prog sysE A) (P : A -> account -> Prop) st :
  silently p -> (forall a, P a st) -> lg p P st.
Proof.
  intros Hp. apply ewp_leaves. revert Hp. apply spares_leaves; [|done].
  intros X [Y e|Y m] [es rs] x st' Hpre Hst; cbn in Hst, Hpre.
  - by rewrite Hst, silent_sent.
  - destruct Hst as [_ ->]. by rewrite mapless_events, app_nil_r.
Qed.

Lemma lg_call {A B} (p : prog sysE A) (f : A -> prog sysE B) P st :
  silently p -> (forall a, lg (f a) P st) -> lg (bind p f) P st.
Proof. intros Hp Hf. by apply ewp_bind, lg_silently. Qed.

Ltac lg_step :=
  cbv beta iota zeta;
  lazymatch goal with
  | |- ewp _ (Ret _) _ _ => apply ewp_ret
  | |- ewp _ Panic _ _ => exact I
  | |- ewp _ (bind (Ret ?a) ?k) _ _ => change (bind (Ret a) k) with (k a)
  | |- ewp _ (bind (sys _) _) _ (_, _) => apply lg_sys; intros ?; cbn [sent app]
  | |- ewp _ (bind (memory _) _) _ (_, _) => apply lg_mem; intros ? ?; cbn [events answers] in *; rewrite ?app_nil_r
  | |- ewp _ (bind (match ?x with _ => _ end) _) _ _ => destruct x eqn:?
  | |- ewp _ (bind _ _) _ _ => first [apply lg_call; [solve [spares_steps]|intros ?] | apply ewp_bind]
  | |- ewp _ (defer _ _) _ _ => apply ewp_defer
  | |- ewp _ (when ?b _) _ _ => destruct b eqn:?; cbn [when]
  | |- ewp _ (match ?x with _ => _ end) _ _ => destruct x eqn:?
  | |- ewp _ (sys _) _ (_, _) => apply lg_last_sys; intros ?; cbn [sent app]
  | |- ewp _ (memory _) _ (_, _) => apply lg_last_mem; intros ?; cbn [events]; rewrite ?app_nil_r
  end.

Ltac lg_steps := repeat lg_step.

(** ** What each request owes *)

(** The one answer of a request. *)
Definition replied (rs : list (Z * payload)) (P : Z -> payload -> Prop) : Prop := exists status p, rs = [(status, p)] /\ P status p.

Definition refusal (status : Z) (p : payload) : Prop := 400 <= status /\ exists t, p = PError t.

(** A request that finds its sandbox, or answers 404. *)
Definition looked_up (found : option loc) (status : Z) (p : payload) : Prop :=
  (status = 404 <-> found = None) /\ (status = 200 \/ refusal status p).

(** The sandbox that the body of a request names. *)
Definition named (id : string) : option string := if is_empty (TrimSpace id) then None else Some id.
Definition execTarget (body : string) : option string :=
  req ← decodeJSON dec_execRequest zero_execRequest body; named (eq_SandboxID req).
Definition snapshotTarget (body : string) : option string :=
  req ← decodeJSON dec_snapshotCreateRequest (MkSnapCreateReq EmptyString EmptyString) body; named (scq_SandboxID req).
Definition destroyTarget (body : string) : option string :=
  id ← decodeJSON (fun strict => dec_one strict "sandbox_id") EmptyString body; named id.

(** The step of the registry that a request is, and its answer. *)
Definition lookup_of (mk : string -> option loc -> event) (target : option string) (es : list event) (rs : list (Z * payload)) : Prop :=
  match target with
  | None => es = [] /\ replied rs (fun status p => status = 400 /\ refusal status p)
  | Some id => exists found, es = [mk id found] /\ replied rs (looked_up found)
  end.

Definition put_of (reply : string -> payload) (es : list event) (rs : list (Z * payload)) : Prop :=
  (exists id l, es = [EPut id l] /\ rs = [(200, reply id)]) \/ (es = [] /\ replied rs refusal).

Definition serves (r : option route) (es : list event) (rs : list (Z * payload)) : Prop :=
  match r with
  | None => (exists all, es = [ESweep all]) /\ rs = []
  | Some RCreate => put_of PCreate es rs
  | Some (RSnapshotRestore _) => put_of PSnapshotRestore es rs
  | Some (RExec body) => lookup_of EGet (execTarget body) es rs
  | Some (RSnapshotCreate body) => lookup_of EGet (snapshotTarget body) es rs
  | Some (RDestroy body) => lookup_of ETake (destroyTarget body) es rs
  | Some (RSnapshotList | RSnapshotDelete _ | RHealthz) => es = [] /\ replied rs (fun status p => status = 200 \/ refusal status p)
  end.

(** ** Every handler does what it owes *)

Lemma refusal_error status t : 400 <= status -> refusal status (PError t).
Proof. split; [done|by eexists]. Qed.
#[local] Hint Resolve refusal_error : core.

Lemma found_ok l p : looked_up (Some l) 200 p.
Proof. split; [done|by left]. Qed.

Lemma found_refused l status t : 400 <= status -> status <> 404 -> looked_up (Some l) status (PError t).
Proof. intros H Hn. split; [done|right; auto]. Qed.

Lemma not_found t : looked_up None 404 (PError t).
Proof. split; [done|right; apply refusal_error; lia]. Qed.

(** An answer and the end. *)
Ltac answered :=
  cbn [fst snd app]; repeat (split; [reflexivity|]); do 2 eexists; split; [reflexivity|];
  cbv beta; lazymatch goal with
  | |- looked_up None _ _ => apply not_found
  | |- looked_up (Some _) 200 _ => apply found_ok
  | |- looked_up (Some _) _ _ => apply found_refused; lia
  | |- _ \/ _ => first [left; reflexivity | right; apply refusal_error; lia]
  | |- _ /\ _ => split; [reflexivity|apply refusal_error; lia]
  | |- refusal _ _ => apply refusal_error; lia
  end.

(** What follows a look-up that has found its sandbox. *)
Definition concluded (es : list event) (l : loc) (_ : unit) (st : account) : Prop :=
  fst st = es /\ replied (snd st) (looked_up (Some l)).

Lemma lg_execOverSSH cfg l req es l0 : lg (execOverSSH cfg l req) (concluded es l0) (es, []).
Proof. unfold execOverSSH, runSSHCommand, errorReply, writeJSON, concluded. lg_steps; answered. Qed.

Lemma lg_execOverAgent cfg l req b es l0 : lg (execOverAgent cfg l req b) (concluded es l0) (es, []).
Proof. unfold execOverAgent, replyExec, errorReply, writeJSON, concluded. lg_steps; answered. Qed.

Lemma lg_execAdmitted cfg l req es l0 : lg (execAdmitted cfg l req) (concluded es l0) (es, []).
Proof.
  unfold execAdmitted. repeat (case_match; try apply lg_execOverSSH; try apply lg_execOverAgent);
    unfold errorReply, writeJSON, concluded; lg_steps; answered.
Qed.

Lemma lg_handleExec cfg body :
  lg (handleExec cfg body) (fun _ st => serves (Some (RExec body)) (fst st) (snd st)) ([], []).
Proof.
  unfold handleExec, serves, lookup_of, execTarget, named, errorReply, writeJSON.
  destruct (decodeJSON _ _ _) as [req|]; cbn [mbind option_bind]; [|lg_steps; answered].
  destruct (is_empty _); [lg_steps; answered|]. apply lg_mem. intros [l|] _; cbn [events app]; [|lg_steps; exists None; answered].
  apply lg_mem. intros [err|] _; cbn [events app]; [lg_steps; exists (Some l); answered|].
  apply ewp_defer. eapply ewp_mono; [apply (lg_execAdmitted cfg l req [EGet (eq_SandboxID req) (Some l)] l)|].
  intros [] [es rs] [Hes Hrs]. cbn [fst snd] in *. subst es. lg_steps. by exists (Some l).
Qed.

Lemma lg_handleDestroy body :
  lg (handleDestroy body) (fun _ st => serves (Some (RDestroy body)) (fst st) (snd st)) ([], []).
Proof.
  unfold handleDestroy, serves, lookup_of, destroyTarget, named, errorReply, writeJSON.
  destruct (decodeJSON _ _ _) as [id|]; cbn [mbind option_bind]; [|lg_steps; answered].
  destruct (is_empty _); [lg_steps; answered|]. apply lg_mem. intros [l|] _; cbn [events app]; [|lg_steps; exists None; answered].
  lg_steps; exists (Some l); answered.
Qed.

Lemma lg_handleSnapshotCreate cfg body :
  lg (handleSnapshotCreate cfg body) (fun _ st => serves (Some (RSnapshotCreate body)) (fst st) (snd st)) ([], []).
Proof.
  unfold handleSnapshotCreate, serves, lookup_of, snapshotTarget, named, errorReply, writeJSON.
  destruct (decodeJSON _ _ _) as [req|]; cbn [mbind option_bind]; [|lg_steps; answered].
  destruct (is_empty _); [lg_steps; answered|]. apply lg_mem. intros [l|] _; cbn [events app]; [|lg_steps; exists None; answered].
  lg_steps; exists (Some l); answered.
Qed.

(** The requests that do not look at the map. *)

Lemma lg_handleSnapshotList cfg :
  lg (handleSnapshotList cfg) (fun _ st => serves (Some RSnapshotList) (fst st) (snd st)) ([], []).
Proof.
  unfold handleSnapshotList, serves, errorReply, writeJSON. lg_steps; answered.
Qed.

Lemma lg_handleSnapshotDelete cfg body :
  lg (handleSnapshotDelete cfg body) (fun _ st => serves (Some (RSnapshotDelete body)) (fst st) (snd st)) ([], []).
Proof. unfold handleSnapshotDelete, serves, errorReply, writeJSON. lg_steps; answered. Qed.

(** The end of a create and of a restore. *)
Definition publish (reply : string -> payload) (r : result loc) : prog sysE unit :=
  match r with
  | Ok l => let! sb := memory (LoadSandbox l) in memory (SandboxesPut (sb_ID sb) l) ;;; writeJSON 200 (reply (sb_ID sb))
  | Err err => errorReply 500 (err_text err)
  end.

Lemma lg_publish reply r : lg (publish reply r) (fun _ st => put_of reply (fst st) (snd st)) ([], []).
Proof.
  unfold publish, put_of, errorReply, writeJSON. lg_steps; [left; by do 2 eexists|right; answered].
Qed.

Lemma lg_handleCreate cfg :
  lg (handleCreate cfg) (fun _ st => serves (Some RCreate) (fst st) (snd st)) ([], []).
Proof.
  unfold handleCreate, serves. apply lg_mem. intros n Hn. cbn [events answers app] in *.
  apply lg_call; [by apply silently_createSandbox, made_id|]. intros r. apply (lg_publish PCreate r).
Qed.

Lemma lg_handleSnapshotRestore cfg body :
  lg (handleSnapshotRestore cfg body) (fun _ st => serves (Some (RSnapshotRestore body)) (fst st) (snd st)) ([], []).
Proof.
  unfold handleSnapshotRestore, serves, errorReply, writeJSON. destruct (decodeJSON _ _ _) as [raw|]; [|lg_steps; right; answered].
  destruct (normalizeSnapshotID raw) as [id|err]; [|lg_steps; right; answered].
  apply lg_call; [spares_steps|]. intros [meta|err]; [|lg_steps; right; answered].
  destruct (checkLineage cfg meta) as [msg|]; [lg_steps; right; answered|].
  apply lg_mem. intros n Hn. cbn [events answers app] in *.
  apply lg_call; [by apply silently_fromUserSnapshot, made_id|]. intros r. apply (lg_publish PSnapshotRestore r).
Qed.

(** ** The shutdown *)

Lemma lg_shutdown : lg shutdown (fun _ st => serves None (fst st) (snd st)) ([], []).
Proof.
  unfold shutdown. apply lg_mem. intros b _. cbn [events app].
  apply lg_call; [unfold Destroy; spares_steps|]. intros _. unfold destroyAll. apply lg_mem. intros all _. cbn [events app].
  apply lg_silently; [spares_steps|]. intros []. split; [by exists all|done].
Qed.

Lemma lg_serve cfg r : lg (serve cfg r) (fun _ st => serves (Some r) (fst st) (snd st)) ([], []).
Proof.
  destruct r; cbn [serve];
    [apply lg_handleCreate|apply lg_handleExec|apply lg_handleDestroy|apply lg_handleSnapshotCreate|apply lg_handleSnapshotRestore
    |apply lg_handleSnapshotList|apply lg_handleSnapshotDelete|].
  unfold writeJSON. apply lg_last_sys. intros _. cbn [serves]. answered.
Qed.

(** ** All goroutines together *)

(** Goroutine [i] has yet to do what it owes. *)
Definition on_course (h : list (nat * event)) (i : nat) (th : thread) : Prop :=
  lg (th_prog th) (fun _ st => serves (th_req th) (fst st) (snd st)) (mine i h, th_replies th).

Lemma on_course_new cfg h i r : mine i h = [] -> on_course h i (MkThread r (match r with Some r => serve cfg r | None => shutdown end) []).
Proof. unfold on_course. cbn. intros ->. destruct r; [apply lg_serve|apply lg_shutdown]. Qed.

Lemma mine_none n h : Forall (fun p : nat * event => (p.1 < n)%nat) h -> mine n h = [].
Proof.
  unfold mine. induction 1 as [|[j e] h Hj Hh IH]; [done|]. cbn in Hj. rewrite filter_cons_False by (cbn; lia). done.
Qed.

Definition all_on_course (ts : list thread) (h : list (nat * event)) : Prop :=
  Forall (fun p => (p.1 < length ts)%nat) h /\ forall i th, ts !! i = Some th -> on_course h i th.

Lemma all_on_course_new cfg ts h r :
  all_on_course ts h ->
  all_on_course (ts ++ [MkThread r (match r with Some r => serve cfg r | None => shutdown end) []]) h.
Proof.
  intros [Hh Ht]. split.
  - eapply Forall_impl; [exact Hh|]. intros p Hp. rewrite length_app. cbn beta in *. cbn [length]. lia.
  - intros i th Hi. apply lookup_app_Some in Hi as [Hi|[Hlen Hi]]; [by apply Ht|].
    destruct (i - length ts)%nat as [|n] eqn:En; [|done]. cbn in Hi. injection Hi as <-.
    assert (i = length ts) as -> by lia. by apply on_course_new, mine_none.
Qed.

(** A step of goroutine [i], with the events [es]. *)
Lemma all_on_course_step ts h i th th' es :
  all_on_course ts h -> ts !! i = Some th -> (on_course h i th -> on_course (h ++ map (pair i) es) i th') ->
  all_on_course (<[i := th']> ts) (h ++ map (pair i) es).
Proof.
  intros [Hh Ht] Hi Hstep. pose proof (lookup_lt_Some _ _ _ Hi) as Hlt. split.
  - rewrite length_insert. apply Forall_app. split; [done|]. apply Forall_forall. intros p (e & -> & _)%list_elem_of_fmap. done.
  - intros j th1 Hj. destruct (decide (j = i)) as [->|Hn].
    + rewrite list_lookup_insert_eq in Hj by done. simplify_eq. apply Hstep. by apply Ht.
    + rewrite list_lookup_insert_ne in Hj by done. unfold on_course. rewrite mine_app, (mine_other j i) by done.
      rewrite app_nil_r. by apply Ht.
Qed.

Lemma history_on_course cfg s0 c h : history cfg s0 c h -> all_on_course (c_threads c) h.
Proof.
  induction 1 as [|ts s h r Hh IH|ts s h Hh IH|ts s h i r X e k rs x Hh IH Hi|ts s h i r X m k rs x s' Hh IH Hi Hm]; cbn in *.
  - by split.
  - exact (all_on_course_new cfg ts h (Some r) IH).
  - exact (all_on_course_new cfg ts h None IH).
  - rewrite <- (app_nil_r h). apply (all_on_course_step _ _ _ _ _ [] IH Hi). intros [_ Hk].
    unfold on_course. cbn [map]. rewrite app_nil_r. by apply Hk.
  - apply (all_on_course_step _ _ _ _ _ _ IH Hi). intros [_ Hk].
    unfold on_course. rewrite mine_app, mine_own. apply Hk. split; [by eapply mem_step_answers|done].
Qed.

(** C4. The API is linearizable: the operations on the map of sandboxes of
    all the requests of an execution, in the order in which they were
    performed, are an execution of the registry, which ends in the map of the
    server; and every request that has returned performed the one operation of
    the registry that its route calls for, on the sandbox that its body names,
    and answered as this operation answered: a create or a restore put the
    sandbox that it reports, or failed; a destroy took its sandbox, an exec or
    a snapshot looked it up, and each answered 404 exactly when the registry
    had none. *)
Theorem api_linearizable cfg s0 c :
  reachable cfg s0 c -> exists h,
    history cfg s0 c h
    /\ replay (s_sandboxes s0) h.*2 = Some (s_sandboxes (c_server c))
    /\ forall i r rs, c_threads c !! i = Some (MkThread r (Ret tt) rs) -> serves r (mine i h) rs.
Proof.
  intros [h Hh]%reachable_history. exists h. split; [done|]. split; [by eapply history_replays|].
  intros i r rs Hi. apply history_on_course in Hh as [_ Ht]. exact (Ht i _ Hi).
Qed.

(** A create and an exec that have both been answered. *)
Lemma api_linearizable_witness : exists h r rs,
  replay ∅ h.*2 = Some (s_sandboxes (c_server (fst finished_run)))
  /\ c_threads (fst finished_run) !! 1%nat = Some (MkThread r (Ret tt) rs) /\ serves r (mine 1 h) rs.
Proof.
  destruct (api_linearizable sample_cfg sample_server (fst finished_run) finished_reachable) as (h & _ & Hm & Hs).
  assert (map status (c_threads (fst finished_run)) !! 1%nat = Some (true, 0%nat)) as H by (vm_compute; reflexivity).
  apply status_lookup in H as ([r [[]| | |X e k] rs] & Hth & H); try (destruct r; discriminate H).
  exists h, r, rs. split; [exact Hm|]. split; [exact Hth|]. exact (Hs 1%nat r rs Hth).
Defined.
