(* ===== verification/Confine.v ===== *)
(** * What requests may do to the host's files and programs

    Whatever the clients send, whatever the files that the server reads back
    say, and in any interleaving: what the handlers of requests and the
    shutdown make, write, rename and remove is below the server's own
    directories (and ip_forward, and the named network namespaces of the
    server), and the programs they run are cp and Firecracker.  The start is
    not a request: it sets sysctls and firewall rules and makes the probes of
    the preflight. *)

From S2P Require Import Prelude Places NetnsNames Interleave Sample NetnsFacts Concurrency.

(** ** All goroutines together *)

(** What every program and every memory operation keep to, all goroutines
    keep to in any interleaving. *)
Section together.
Context (cfg : config) (ok : forall X, envE X -> Prop) (okM : forall X, memE X -> Prop) (ansM : forall X, memE X -> X -> Prop).
Context (I : server -> Prop).
Context (I_serve : forall r, spares ok okM ansM (serve cfg r)) (I_shutdown : spares ok okM ansM shutdown).
Context (I_mem : forall X (m : memE X) s x s', okM X m -> mem_step m s = Some (x, s') -> I s -> ansM X m x /\ I s').

Definition together (c : conf) : Prop := Forall (fun th => spares ok okM ansM (th_prog th)) (c_threads c) /\ I (c_server c).

Lemma together_step c c' : together c -> cstep cfg c c' -> together c'.
Proof.
  intros [Ht Hs] Hstep. destruct Hstep as [ts s r|ts s|ts s i r X e k rs x Hi|ts s i r X m k rs x s' Hi Hm]; cbn in *.
  - split; [|done]. apply Forall_app. split; [done|]. constructor; [apply I_serve|done].
  - split; [|done]. apply Forall_app. split; [done|]. constructor; [apply I_shutdown|done].
  - split; [|done]. apply Forall_insert; [done|]. pose proof (proj1 (Forall_lookup _ _) Ht i _ Hi) as Hk.
    apply spares_vis in Hk as [_ Hk]. by apply Hk.
  - pose proof (proj1 (Forall_lookup _ _) Ht i _ Hi) as Hk. apply spares_vis in Hk as [Hpre Hk].
    destruct (I_mem X m s x s' Hpre Hm Hs) as [Hx Hs'].
    split; [|done]. apply Forall_insert; [done|]. by apply Hk.
Qed.

Lemma together_reachable s0 c : I s0 -> reachable cfg s0 c -> together c.
Proof.
  intros Hs Hr. assert (together (MkConf [] s0)) as H0 by (by split).
  induction Hr as [|c1 c2 c3 H _ IH]; [done|]. by apply IH, (together_step c1).
Qed.

(** So what a goroutine does next is allowed. *)
Lemma next_allowed s0 c i r (X : Type) (e : envE X) k rs :
  I s0 -> reachable cfg s0 c -> c_threads c !! i = Some (MkThread r (Vis (Sys e) k) rs) -> ok X e.
Proof.
  intros H0 Hr Hi. destruct (together_reachable s0 c H0 Hr) as [Ht _].
  pose proof (proj1 (Forall_lookup _ _) Ht i _ Hi) as Hk. by apply spares_vis in Hk as [Hk _].
Qed.
End together.

(** Any user snapshot. *)
Definition any (id : string) : Prop := True.

(** The entries of the pool are those that Init makes (Start.v: what the start
    leaves). *)
Definition pool_made (s : server) : Prop :=
  match s_netnsPool s with
  | Some p => Forall (fun nc => exists i, 1 <= i /\ nc = poolEntry i) (pool_all p)
  | None => True
  end.

Lemma pool_made_named s : initial s -> pool_made s -> all_named s.
Proof.
  unfold pool_made. intros (_ & Hh & Hp) Hm. split; [by rewrite Hh|]. destruct (s_netnsPool s) as [p|]; [|done].
  destruct Hp as (-> & _). split; (eapply Forall_impl; [exact Hm|]); intros nc (i & Hi & ->); by apply netns_pool.
Qed.

(** C8. Requests and the shutdown stay in the server's own places.  For
    absolute work and cgroup directories, from a server that has just started:
    in any interleaving of any requests and the shutdown, with any bodies, and
    whatever the files that are read back and the guests say, the next
    operation of every goroutine is confined.  A path that it makes, writes,
    renames, truncates or removes is the directory of a sandbox or of a user
    snapshot, the golden snapshot, the cgroup of a sandbox, or something below
    one of these (no component of the path is . or .. ), except that
    /proc/sys/net/ipv4/ip_forward is written too.  A named network namespace
    that it makes or deletes has a plain name: that of a sandbox with an id
    that the server has given, of a pool entry or of the golden snapshot.  The
    only command it runs is cp to a path of the first kind, and the only
    program it starts is Firecracker, by ip netns exec, in such a directory.
    (The start of the server, with its sysctls, firewall rules and probes, is
    not a request.) *)
Theorem requests_confined cfg s0 c i r (X : Type) (e : envE X) k rs :
  rooted (cfg_WorkDir cfg) = true -> rooted (cfg_CgroupRoot cfg) = true ->
  initial s0 -> pool_made s0 -> reachable cfg s0 c -> c_threads c !! i = Some (MkThread r (Vis (Sys e) k) rs) ->
  confined cfg any X e /\ naming X e.
Proof.
  intros Hw Hc H0 Hp Hr Hi. split.
  - eapply (next_allowed cfg (confined cfg any) (storing cfg) (holding cfg) (heap_located cfg)); try exact Hr; try exact Hi.
    + intros r'. by apply keeps_serve.
    + by apply keeps_shutdown.
    + intros Y m s x s'. apply mem_step_located.
    + destruct H0 as (_ & Hh & _). unfold heap_located. by rewrite Hh.
  - eapply (next_allowed cfg naming keeping finding all_named); try exact Hr; try exact Hi.
    + intros r'. apply names_serve.
    + apply names_shutdown.
    + intros Y m s x s'. apply mem_step_named.
    + by apply pool_made_named.
Qed.

(** ** Witness *)

(** The directory or the namespace that a goroutine is about to make. *)
Definition makes (th : thread) : option (string + string) :=
  match th_prog th with
  | Vis (Sys (OsMkdirAll p)) _ => Some (inl p)
  | Vis (Sys (NetnsNewNamed n)) _ => Some (inr n)
  | _ => None
  end.

Lemma makes_dir th p : makes th = Some (inl p) -> exists r k rs, th = MkThread r (Vis (Sys (OsMkdirAll p)) k) rs.
Proof.
  unfold makes. destruct th as [r [| | |X [X' e|X' m] k] rs]; cbn; try done. destruct e; try done. intros [= ->]. by exists r, k, rs.
Qed.

Lemma makes_netns th n : makes th = Some (inr n) -> exists r k rs, th = MkThread r (Vis (Sys (NetnsNewNamed n)) k) rs.
Proof.
  unfold makes. destruct th as [r [| | |X [X' e|X' m] k] rs]; cbn; try done. destruct e; try done. intros [= ->]. by exists r, k, rs.
Qed.

Lemma makes_lookup (c : conf) i d :
  map makes (c_threads c) !! i = Some (Some d) -> exists th, c_threads c !! i = Some th /\ makes th = Some d.
Proof. intros (th & Hm & Hth)%list_lookup_fmap_Some. by exists th. Qed.

Lemma sample_pool_made : pool_made sample_server.
Proof. unfold pool_made. cbn. repeat constructor; eexists; (split; [|reflexivity]); lia. Qed.

(** Three creates: two have taken the entries of the pool, and the third has
    done [n] operations. *)
Definition third_create (n : nat) : conf * Z :=
  arrive_and_run (answering okResponse) sample_cfg RCreate n
    (arrive_and_run (answering okResponse) sample_cfg RCreate 200
      (arrive_and_run (answering okResponse) sample_cfg RCreate 200 (MkConf [] sample_server, 0))).

Lemma third_create_reachable n : reachable sample_cfg sample_server (fst (third_create n)).
Proof. unfold third_create. apply arrive_and_run_sound, arrive_and_run_sound, arrive_and_run_sound, rtc_refl. Qed.

Lemma requests_confined_witness :
  (exists th, c_threads (fst (third_create 1)) !! 2%nat = Some th /\ makes th = Some (inl "/w/sandboxes/sb-3"%string))
  /\ ours sample_cfg any "/w/sandboxes/sb-3"
  /\ (exists th, c_threads (fst (third_create 9)) !! 2%nat = Some th /\ makes th = Some (inr "manta-sb-3"%string))
  /\ netns_ours "manta-sb-3".
Proof.
  assert (map makes (c_threads (fst (third_create 1))) !! 2%nat = Some (Some (inl "/w/sandboxes/sb-3"%string))) as Hd
    by (vm_compute; reflexivity).
  assert (map makes (c_threads (fst (third_create 9))) !! 2%nat = Some (Some (inr "manta-sb-3"%string))) as Hn
    by (vm_compute; reflexivity).
  apply makes_lookup in Hd as (th & Hth & Hm). apply makes_lookup in Hn as (th' & Hth' & Hm').
  split; [exact (ex_intro _ th (conj Hth Hm))|]. split; [|split; [exact (ex_intro _ th' (conj Hth' Hm'))|]].
  - apply makes_dir in Hm as (r & k & rs & ->).
    exact (proj1 (requests_confined sample_cfg sample_server (fst (third_create 1)) 2 r _ _ k rs eq_refl eq_refl
      sample_initial sample_pool_made (third_create_reachable 1) Hth)).
  - apply makes_netns in Hm' as (r & k & rs & ->).
    exact (proj2 (requests_confined sample_cfg sample_server (fst (third_create 9)) 2 r _ _ k rs eq_refl eq_refl
      sample_initial sample_pool_made (third_create_reachable 9) Hth')).
Defined.
