(* ===== verification/Lifetimes.v ===== *)
(** * What a create, a restore and a destroy do to the host

    An observer follows the process groups that a run has started and sent no
    SIGKILL, the directories it has made and not asked to be removed, the
    cgroups it has made and not removed, and the pool entries it has taken and
    not given back; the theorems say what is left when a create or a restore
    returns, whatever went wrong on the way; and that every request ends when
    the clock advances. *)

From S2P Require Import Prelude Sample Concurrency.

(** ** Processes, directories, slots *)

Record host := MkHost {
  h_started : bool;                (* some process was started *)
  h_running : list Z;              (* process groups started, and sent no SIGKILL *)
  h_dirs : list string;            (* made with os.MkdirAll, not given to os.RemoveAll *)
  h_cgroups : list string;         (* made with os.Mkdir, not removed with os.Remove *)
  h_slots : list netnsConfig;      (* pool entries taken and not given back *)
}.

Definition nothing : host := MkHost false [] [] [] [].

Definition host_obs (X : Type) (e : sysE X) : X -> host -> host :=
  match e in sysE X return X -> host -> host with
  | Sys e =>
      match e in envE X return X -> host -> host with
      | StartProcess _ _ _ => fun r h =>
          match r with Ok pid => MkHost true (pid :: h_running h) (h_dirs h) (h_cgroups h) (h_slots h) | Err _ => h end
      | KillGroup pid => fun _ h =>
          MkHost (h_started h) (filter (fun p => p <> pid) (h_running h)) (h_dirs h) (h_cgroups h) (h_slots h)
      | OsMkdirAll d => fun r h =>
          match r with None => MkHost (h_started h) (h_running h) (d :: h_dirs h) (h_cgroups h) (h_slots h) | Some _ => h end
      | OsRemoveAll d => fun _ h =>
          MkHost (h_started h) (h_running h) (filter (fun p => p <> d) (h_dirs h)) (h_cgroups h) (h_slots h)
      | OsMkdir d => fun r h =>
          match r with None => MkHost (h_started h) (h_running h) (h_dirs h) (d :: h_cgroups h) (h_slots h) | Some _ => h end
      | OsRemove d => fun r h =>
          match r with
          | None => MkHost (h_started h) (h_running h) (h_dirs h) (filter (fun p => p <> d) (h_cgroups h)) (h_slots h)
          | Some _ => h
          end
      | _ => fun _ h => h
      end
  | Mem m =>
      match m in memE X return X -> host -> host with
      | PoolRecv _ => fun r h =>
          match r with Some nc => MkHost (h_started h) (h_running h) (h_dirs h) (h_cgroups h) (nc :: h_slots h) | None => h end
      | PoolSend nc => fun _ h => MkHost (h_started h) (h_running h) (h_dirs h) (h_cgroups h) (remove1 nc (h_slots h))
      | _ => fun _ h => h
      end
  end.

(** The entries of the channel are pool entries, and fit. *)
Definition pool_ok (s : server) : Prop :=
  match s_netnsPool s with
  | Some p => (length (pool_ch p) <= pool_size p)%nat /\ Forall (fun nc => nc_Pooled nc = true) (pool_ch p)
  | None => True
  end.

(** [s] differs from [s0] in its counters and in the order of the channel
    only, once the entries of [h] are put back. *)
Definition kept (s0 s : server) (slots : list netnsConfig) : Prop :=
  s_sandboxes s = s_sandboxes s0 /\
  match s_netnsPool s0, s_netnsPool s with
  | None, None => slots = []
  | Some p0, Some p => pool_size p = pool_size p0 /\ pool_all p = pool_all p0 /\ pool_ch p ++ slots ≡ₚ pool_ch p0
  | _, _ => False
  end.

(** Some entry is free. *)
Definition pool_free (s : server) : Prop :=
  match s_netnsPool s with Some p => pool_ch p <> [] | None => False end.

(** The stage of a create: its memory, and what it holds. *)
Definition stage (s0 : server) (slots : list netnsConfig) (dirs cgs : list string) (started : bool) (running : list Z)
    (s : server) (h : host) : Prop :=
  kept s0 s slots /\ s_heap s = s_heap s0 /\ h = MkHost started running dirs cgs slots.

Abbreviation hwp := (swp (fun _ _ _ _ => True) host_obs).

Lemma hwp_calm {A} (p : prog sysE A) (P : outcome A -> Prop) (Q : outcome A -> server -> host -> Prop) s h :
  calm p P -> (forall o, P o -> Q o s h) -> hwp p Q s h.
Proof. intros Hp HP. by apply (swp_only basic _ _ _ P); [|by intros X []|]. Qed.

(** A calm function that is called for its value. *)
Lemma hwp_call {A B} (p : prog sysE A) (f : A -> prog sysE B) Q s h :
  calm p plain -> Q OutOfFuel s h -> (forall a, hwp (f a) Q s h) -> hwp (bind p f) Q s h.
Proof. intros Hp HF Hf. apply swp_bind. eapply hwp_calm; [exact Hp|]. by intros [] H; cbn. Qed.

Lemma calm_silent {A} (p : prog sysE A) P : calm p P -> silent_prog sys_pre (sys_post (fun _ _ _ _ => True) host_obs) p.
Proof.
  unfold only. generalize tt. induction p as [a| | |X e k IH]; intros u Hp; try done.
  destruct Hp as [Hok Hk]. destruct e as [X e|]; [|done]. split; [|intros x; apply (IH x u (Hk x u I))].
  split; [done|]. intros [s h] x [s' h'] [_ E]. assert (host_obs X (Sys e) x h = h) as Eh by (by destruct e).
  cbn [fst snd] in E. by rewrite Eh in E.
Qed.

(** A calm goroutine next to [p]. *)
Lemma hwp_par {A B} (p : prog sysE A) (q : prog sysE B) Q s h :
  calm q total ->
  hwp p (fun o s h => match o with
    | Done a => forall b, Q (Done (a, b)) s h
    | Panicked => Q Panicked s h
    | OutOfFuel => Q OutOfFuel s h
    | Blocked => Q Blocked s h
    end) s h ->
  hwp (par (Sys Pick) p q) Q s h.
Proof.
  intros Hq Hp. assert (forall o, leaf q o -> total o) as HL by (intros o; by apply quiet_leaf, calm_quiet).
  apply wp_par; [|by eapply calm_silent|intros s' H; by apply HL in H|intros s' H; by apply HL in H|].
  - split; [done|]. by intros [s1 h1] x [s2 h2] [_ [= -> ->]].
  - eapply wp_mono; [|exact Hp]. intros [a| | |] [s' h'] H; cbn in *; try done.
    repeat split; try (intros H1; by apply HL in H1). intros b _. apply H.
Qed.

Ltac hwp_step :=
  cbv beta iota zeta;
  lazymatch goal with
  | |- swp _ _ (bind (Ret _) _) _ _ _ => swp_step
  | |- swp _ _ (bind (match _ with _ => _ end) _) _ _ _ => swp_step
  | |- swp _ _ (bind (sys _) _) _ _ _ => apply swp_sys; intros ? _; cbn [host_obs]
  | |- swp _ _ (bind _ _) _ _ _ => first [apply hwp_call; [by auto with quiet|try done|intros ?] | apply swp_bind]
  | |- _ => swp_step
  end.

(** ** The stages *)

Section stages.
Context (s0 : server) (Hok : pool_ok s0).

Lemma stage_onDemand id dirs (Q : outcome (result netnsConfig) -> server -> host -> Prop) s h :
  stage s0 [] dirs [] false [] s h ->
  (forall s' h', Q OutOfFuel s' h') ->
  (forall r s' h', stage s0 (match r with Ok nc => slot_of (Some nc) | Err _ => [] end) dirs [] false [] s' h' ->
     Q (Done r) s' h') ->
  hwp (let! subnet := memory AddSubnet in setupSandboxNetnsAndRouting id subnet) Q s h.
Proof.
  intros (Hk & Hh & ->) HF HQ. eapply swp_mem; [reflexivity|]. eapply hwp_calm; [apply calm_setup|].
  intros [[nc|e]| | |] H; cbn in H; try done; apply HQ; cbn [slot_of]; rewrite ?H; done.
Qed.

(** A free entry is taken rather than a namespace built. *)
Definition from_pool (r : result netnsConfig) : Prop :=
  match r with Ok nc => pool_free s0 -> nc_Pooled nc = true | Err _ => True end.

Lemma stage_acquire id dirs (Q : outcome (result netnsConfig) -> server -> host -> Prop) s h :
  stage s0 [] dirs [] false [] s h ->
  (forall s' h', Q OutOfFuel s' h') ->
  (forall r s' h', stage s0 (match r with Ok nc => slot_of (Some nc) | Err _ => [] end) dirs [] false [] s' h' ->
     from_pool r -> Q (Done r) s' h') ->
  hwp (acquireNetns id) Q s h.
Proof.
  intros Hst HF HQ. unfold acquireNetns, Acquire. pose proof Hok as Hok'. unfold pool_ok in Hok'.
  eapply swp_mem; [reflexivity|]. destruct Hst as ((Hm & Hp) & Hh & ->). cbn [host_obs].
  destruct (s_netnsPool s0) as [p0|] eqn:E0, (s_netnsPool s) as [p|] eqn:E; try done.
  - rewrite bool_decide_eq_true_2 by eauto. destruct Hp as (Hsz & Hall & Hch), Hok' as [Hlen Hf].
    rewrite app_nil_r in Hch. apply swp_bind. destruct (pool_ch p) as [|nc ch] eqn:Ech.
    + eapply swp_mem; [by cbn; unfold on_pool; rewrite E, Ech|]. apply swp_ret. cbn [swp_bindQ host_obs].
      apply (stage_onDemand id dirs); [|done|].
      * split; [|done]. split; [done|]. cbn. rewrite E0, Ech, app_nil_r. done.
      * intros r s' h' Hst'. apply HQ; [done|]. destruct r; [|done]. unfold from_pool, pool_free. rewrite E0.
        apply Permutation_nil_l in Hch. by rewrite <- Hch.
    + eapply swp_mem; [by cbn; unfold on_pool; rewrite E, Ech|]. apply swp_ret. cbn [swp_bindQ host_obs].
      apply swp_ret. apply HQ. cbn [slot_of].
      assert (nc_Pooled nc = true) as -> by (rewrite Forall_forall in Hf; apply Hf; rewrite <- Hch; by left).
      { split; [|done]. split; [done|]. cbn. rewrite E0. repeat split; try done. rewrite <- Hch. solve_Permutation. }
      intros _. rewrite Forall_forall in Hf. apply Hf. rewrite <- Hch. by left.
  - rewrite bool_decide_eq_false_2 by (intros [? ?]; congruence).
    apply (stage_onDemand id dirs); [|done|].
    + split; [|done]. split; [done|]. by rewrite E0, E.
    + intros r s' h' Hst'. apply HQ; [done|]. destruct r; [|done]. unfold from_pool, pool_free. by rewrite E0.
Qed.

(** Giving the slot back. *)
Lemma stage_release nc dirs cgs st run (Q : outcome unit -> server -> host -> Prop) s h :
  stage s0 (slot_of (Some nc)) dirs cgs st run s h ->
  (forall s' h', Q OutOfFuel s' h') ->
  (forall s' h', stage s0 [] dirs cgs st run s' h' -> Q (Done tt) s' h') ->
  hwp (releaseNetns (Some nc)) Q s h.
Proof.
  intros ((Hm & Hp) & Hh & ->) HF HQ. unfold releaseNetns. pose proof Hok as Hok'. unfold pool_ok in Hok'.
  eapply swp_mem; [reflexivity|]. cbn [host_obs slot_of] in *.
  assert (nc_Pooled nc = false -> hwp (cleanupSandboxNetnsAndRouting (Some nc) ;;; Ret tt) Q s (MkHost st run dirs cgs [])) as Hun.
  { intros Hn. apply hwp_call; [by auto with quiet|done|]. intros _. apply swp_ret, HQ. split; [|done].
    split; [done|]. by rewrite Hn in Hp. }
  destruct (s_netnsPool s0) as [p0|] eqn:E0, (s_netnsPool s) as [p|] eqn:E; try done.
  - rewrite bool_decide_eq_true_2 by eauto. destruct (nc_Pooled nc) eqn:En; [|by apply Hun]. cbn [andb].
    destruct Hp as (Hsz & Hall & Hch), Hok' as [Hlen Hf].
    assert (length (pool_ch p) < pool_size p)%nat as Hl.
    { rewrite Hsz. rewrite <- Hch, length_app in Hlen. cbn in Hlen. lia. }
    unfold Release. eapply swp_mem_end; [by apply PoolSend_step|]. apply HQ. cbn. rewrite decide_True by done.
    split; [|done]. split; [done|]. cbn. rewrite E0, app_nil_r. done.
  - rewrite bool_decide_eq_false_2 by (intros [? ?]; congruence). cbn [andb]. destruct (nc_Pooled nc); [done|]. by apply Hun.
Qed.

Lemma stage_clone cfg id a b l dirs (Q : outcome (result netnsConfig) -> server -> host -> Prop) s h :
  stage s0 [] dirs [] false [] s h ->
  (forall s' h', Q OutOfFuel s' h') ->
  (forall r s' h', stage s0 (match r with Ok nc => slot_of (Some nc) | Err _ => [] end) dirs [] false [] s' h' ->
     from_pool r -> Q (Done r) s' h') ->
  hwp (cloneAndAcquire cfg id a b l) Q s h.
Proof.
  intros Hst HF HQ. unfold cloneAndAcquire. apply swp_bind, hwp_par; [unfold materializeSandboxRootfs, runCmd; by only_steps|].
  apply (stage_acquire id dirs); [done|by cbn|]. intros r s' h' Hst' Hr ce. cbn [swp_bindQ].
  destruct ce as [ce|], r as [nc|e]; try (by apply swp_ret, HQ).
  apply swp_bind. apply (stage_release nc dirs [] false []); [done|by cbn|]. intros s2 h2 Hst2. cbn [swp_bindQ].
  by apply swp_ret, HQ.
Qed.

Lemma stage_abandon pid cg slots dirs cgs (Q : outcome unit -> server -> host -> Prop) s h :
  stage s0 slots dirs cgs true [pid] s h ->
  (forall s' h', Q OutOfFuel s' h') ->
  (forall s' h', stage s0 slots dirs cgs true [] s' h' -> Q (Done tt) s' h') ->
  hwp (abandonVM pid cg) Q s h.
Proof.
  intros (Hk & Hh & ->) HF HQ. unfold abandonVM, killProcessGroup.
  assert (stage s0 slots dirs cgs true [] s (host_obs _ (Sys (KillGroup pid)) None (MkHost true [pid] dirs cgs slots))) as Hst.
  { split; [done|]. split; [done|]. cbn. rewrite decide_False by tauto. done. }
  cbn [host_obs h_started h_running h_dirs h_cgroups h_slots] in Hst.
  repeat (hwp_step; cbn [h_started h_running h_dirs h_cgroups h_slots]); try done; by apply HQ.
Qed.

(** The cgroup of a sandbox, which may be there or not. *)
Definition cgroup_left (cfg : config) (id : string) (cgs : list string) : Prop :=
  cgs = [] \/ (cfg_EnableCgroups cfg = true /\ cgs = [Join [cfg_CgroupRoot cfg; id]]).

(** It is there if the sandbox has its path. *)
Definition cgroup_kept (cfg : config) (id path : string) (cgs : list string) : Prop :=
  cgroup_left cfg id cgs /\ (path = EmptyString \/ (path = Join [cfg_CgroupRoot cfg; id] /\ cgs = [path])).

Lemma kept_left cfg id path cgs : cgroup_kept cfg id path cgs -> cgroup_left cfg id cgs.
Proof. by intros []. Qed.

Lemma hwp_prepareCgroup cfg id (Q : outcome string -> server -> host -> Prop) s st run dirs slots :
  (forall path cgs, cgroup_kept cfg id path cgs -> Q (Done path) s (MkHost st run dirs cgs slots)) ->
  hwp (prepareSandboxCgroup cfg id) Q s (MkHost st run dirs [] slots).
Proof.
  intros HQ. unfold prepareSandboxCgroup. destruct (cfg_EnableCgroups cfg) eqn:E; cbn [negb].
  - apply swp_sys. intros [e|] _; apply swp_ret, HQ; (split; [|by auto]); [by left|by right].
  - apply swp_ret, HQ. split; by left.
Qed.

(** The sockets that are removed are no cgroups. *)
Lemma hwp_runtimePaths d (Q : outcome (string * string * string) -> server -> host -> Prop) s st run dirs slots :
  (forall r, Q (Done r) s (MkHost st run dirs [] slots)) ->
  hwp (prepareSandboxRuntimePaths d) Q s (MkHost st run dirs [] slots).
Proof.
  intros HQ. unfold prepareSandboxRuntimePaths. apply swp_sys. intros [e1|] _; apply swp_sys; intros [e2|] _; apply swp_ret, HQ.
Qed.

Lemma hwp_attach cfg id path cgs pid (Q : outcome string -> server -> host -> Prop) s st run dirs slots :
  cgroup_kept cfg id path cgs ->
  (forall s' h', Q OutOfFuel s' h') ->
  (forall path' cgs', cgroup_kept cfg id path' cgs' -> Q (Done path') s (MkHost st run dirs cgs' slots)) ->
  hwp (attachSandboxProcessToCgroup path pid) Q s (MkHost st run dirs cgs slots).
Proof.
  intros [Hl Hp] HF HQ. unfold attachSandboxProcessToCgroup. destruct (is_empty path) eqn:E.
  { apply swp_ret, HQ. split; [done|by left]. }
  destruct Hp as [->|[-> ->]]; [done|]. apply hwp_call; [by auto with quiet|by cbn|]. intros [e|].
  - apply swp_sys. intros [e'|] _; apply swp_ret, HQ; (split; [|by left]); [done|]. cbn. rewrite decide_False by tauto. by left.
  - apply swp_ret, HQ. split; [done|by right].
Qed.

(** The sandbox that a create or a restore brings up. *)
Record brought_up (cfg : config) (id sbDir : string) (nc : netnsConfig) (dirs : list string) (l : loc) (s : server) (h : host)
    (sb : sandbox) (pid : Z) : Prop := {
  bu_kept : kept s0 s (slot_of (Some nc));
  bu_heap : s_heap s = s_heap s0 ++ [sb];
  bu_loc : l = length (s_heap s0);
  bu_host : exists cgs, h = MkHost true [pid] dirs cgs (slot_of (Some nc)) /\ cgroup_kept cfg id (sb_CgroupPath sb) cgs;
  bu_id : sb_ID sb = id;
  bu_dir : sb_Dir sb = sbDir;
  bu_process : sb_Process sb = Some pid;
  bu_netns : sb_Netns sb = Some nc;
  bu_address : (sb_Subnet sb, sb_TapDevice sb, sb_HostIP sb, sb_GuestIP sb) = (nc_Subnet nc, nc_TapName nc, nc_HostIP nc, nc_GuestIP nc);
  bu_agent : is_Some (sb_Agent sb);
  bu_idle : (sb_state sb, sb_inFlightExec sb, sb_agentMu sb) = (sandboxStateRunning, 0, false);
}.

(** What restoreIntoNetns and bootIntoNetns come to; [lost] is whether the
    failure has taken the slot apart. *)
Definition into_netns (cfg : config) (id sbDir : string) (nc : netnsConfig) (dirs : list string) (boot : bool)
    (o : outcome (result loc * bool * bool)) (s : server) (h : host) : Prop :=
  match o with
  | Done (Ok l, cleanupDir, cleanupNet) =>
      cleanupDir = false /\ cleanupNet = false /\ exists sb pid, brought_up cfg id sbDir nc dirs l s h sb pid
  | Done (Err _, cleanupDir, cleanupNet) =>
      cleanupDir = true /\ (exists started cgs, cleanupNet = negb (boot && started)
        /\ cgroup_left cfg id cgs /\ stage s0 (slot_of (Some nc)) dirs cgs started [] s h)
  | OutOfFuel => True
  | _ => False
  end.

Ltac split_stage := split; [eassumption|split; [eassumption|reflexivity]].

Ltac into_step :=
  first
    [ lazymatch goal with |- swp _ _ (bind (abandonVM _ _) _) _ _ _ =>
        apply swp_bind; eapply stage_abandon; [by split_stage|done|intros ? ? (? & ? & ->); cbn [swp_bindQ]] end
    | lazymatch goal with |- swp _ _ (bind (prepareSandboxRuntimePaths _) _) _ _ _ => apply swp_bind, hwp_runtimePaths; intros [[? ?] ?]; cbn [swp_bindQ] end
    | lazymatch goal with |- swp _ _ (bind (prepareSandboxCgroup _ _) _) _ _ _ =>
        apply swp_bind, hwp_prepareCgroup; intros ? ? ?; cbn [swp_bindQ] end
    | lazymatch goal with |- swp _ _ (bind (attachSandboxProcessToCgroup _ _) _) _ _ _ =>
        apply swp_bind; eapply hwp_attach; [eassumption|done|intros ? ? ?; cbn [swp_bindQ]] end
    | lazymatch goal with |- swp _ _ (bind (memory (NewSandbox _)) _) _ _ _ => eapply swp_mem; [reflexivity|] end
    | hwp_step ];
  cbn [h_started h_running h_dirs h_cgroups h_slots host_obs].

(** Closes a goal at the end of a path. *)
Ltac into_done :=
  first
    [ done
    | split; [reflexivity|]; first
        [ exists false; eexists; split; [reflexivity|split; [|by split_stage]]; first [by left | by eapply kept_left]
        | exists true; eexists; split; [reflexivity|split; [|by split_stage]]; first [by left | by eapply kept_left]
        | split; [reflexivity|]; eexists _, _; split; cbn;
            [eassumption|by f_equal|by f_equal|by eexists|reflexivity|reflexivity|reflexivity|reflexivity
            |reflexivity|by eexists|reflexivity] ] ].

Lemma restore_into cfg id sbDir rootfs st mem nc dirs s h :
  stage s0 (slot_of (Some nc)) dirs [] false [] s h ->
  hwp (restoreIntoNetns cfg id sbDir rootfs st mem nc) (into_netns cfg id sbDir nc dirs false) s h.
Proof.
  intros (Hk & Hh & ->). unfold restoreIntoNetns.
  repeat into_step; into_done.
Qed.


(** The outcome of a create or of a restore that was given the directory
    [sbDir]; [boot] as above, [keep] is KeepFailedSandboxes. *)
Definition brought_up_or_undone (cfg : config) (id sbDir : string) (boot keep : bool) (o : outcome (result loc)) (s : server) (h : host) : Prop :=
  match o with
  | Done (Ok l) => exists sb pid nc, brought_up cfg id sbDir nc [sbDir] l s h sb pid
  | Done (Err _) =>
      s_heap s = s_heap s0 /\ h_running h = []
      /\ (if keep then h_dirs h = [] \/ h_dirs h = [sbDir] else h_dirs h = []) /\ cgroup_left cfg id (h_cgroups h)
      /\ kept s0 s (h_slots h)
      /\ (boot && h_started h = false -> h_slots h = [])
      /\ (boot && h_started h = true -> pool_free s0 -> h_slots h <> [])
  | OutOfFuel => True
  | _ => False
  end.

Lemma remove_dir (sbDir : string) : filter (fun p => p <> sbDir) [sbDir] = [].
Proof. cbn. rewrite decide_False by tauto. done. Qed.

(** The frame that createSandbox and restoreSandboxFromArtifacts share. *)
Lemma stage_create id sbDir a b label boot keep cfg (into : netnsConfig -> prog sysE (result loc * bool * bool)) s h
    (removeDir : bool -> prog sysE unit) :
  stage s0 [] [sbDir] [] false [] s h ->
  (forall nc s h, stage s0 (slot_of (Some nc)) [sbDir] [] false [] s h -> hwp (into nc) (into_netns cfg id sbDir nc [sbDir] boot) s h) ->
  (forall c, removeDir c = when (c && negb keep) (sys (OsRemoveAll sbDir) ;;; Ret tt)) ->
  hwp (deferWith true (
      try! nc := cloneAndAcquire cfg id a b label catch err => Ret (Err err, true) in
      deferWith true (into nc) (fun cleanupNet => when cleanupNet (releaseNetns (Some nc)))) removeDir)
    (brought_up_or_undone cfg id sbDir boot keep) s h.
Proof.
  intros Hst Hinto Hrm. apply swp_deferWith, swp_bind. apply (stage_clone cfg id a b label [sbDir]); [done|done|].
  assert (forall slots cgs st e s h, stage s0 slots [sbDir] cgs st [] s h -> cgroup_left cfg id cgs ->
    (boot && st = false -> slots = []) -> (boot && st = true -> pool_free s0 -> slots <> []) ->
    swp_deferWithQ (fun _ _ _ _ => True) host_obs true removeDir (brought_up_or_undone cfg id sbDir boot keep)
      (Done (@Err loc e, true)) s h) as Hfail.
  { intros slots cgs st e s1 h1 (Hk & Hh & ->) Hcg H1 H2. cbn [swp_deferWithQ]. rewrite Hrm.
    destruct keep; cbn [negb andb when].
    - repeat hwp_step. split; [exact Hh|]. split; [done|]. split; [by right|]. split; [exact Hcg|]. split; [exact Hk|]. by split.
    - repeat (hwp_step; cbn [host_obs h_started h_running h_dirs h_cgroups h_slots]). rewrite remove_dir.
      split; [exact Hh|]. do 2 (split; [done|]). split; [exact Hcg|]. split; [exact Hk|]. by split. }
  intros r s1 h1 Hst1 Hr. cbn [swp_bindQ]. destruct r as [nc|e].
  2:{ apply swp_ret. apply (Hfail [] [] false); [done|by left|done|]. by rewrite andb_false_r. }
  apply swp_deferWith. eapply swp_mono; [|by apply Hinto].
  intros [[[[l|e] cd] cn]| | |] s2 h2 Ho; cbn [into_netns swp_deferWithQ] in *; try done.
  - destruct Ho as (-> & -> & sb & pid & Hb). cbn [when]. apply swp_ret. cbn [swp_bindQ]. apply swp_ret.
    cbn [swp_deferWithQ]. rewrite Hrm. cbn [andb when]. apply swp_ret. cbn [swp_bindQ]. apply swp_ret. by exists sb, pid, nc.
  - destruct Ho as (-> & st & cgs & -> & Hcg & Hst2). destruct (boot && st) eqn:Eb; cbn [negb when].
    + apply swp_ret. cbn [swp_bindQ]. apply swp_ret. apply (Hfail _ cgs st e _ _ Hst2 Hcg); [congruence|].
      intros _ Hf. cbn [slot_of]. by rewrite (Hr Hf).
    + apply (stage_release nc [sbDir] cgs st []); [done|done|]. intros s3 h3 Hst3. cbn [swp_bindQ]. apply swp_ret.
      apply (Hfail _ cgs st e _ _ Hst3 Hcg); [done|congruence].
Qed.

Lemma stage_start dirs : stage s0 [] dirs [] false [] s0 (MkHost false [] dirs [] []).
Proof.
  split; [|done]. split; [done|]. destruct (s_netnsPool s0); [|done]. repeat split; try done. by rewrite app_nil_r.
Qed.

Lemma stage_mkdir_failed cfg id sbDir boot keep e : brought_up_or_undone cfg id sbDir boot keep (Done (Err e)) s0 nothing.
Proof.
  cbn. rewrite andb_false_r. split; [done|]. split; [done|]. split; [destruct keep; by try left|]. split; [by left|].
  split; [apply (stage_start [])|done].
Qed.

Lemma restore_stages cfg id disk st mem label keep :
  hwp (restoreSandboxFromArtifacts cfg id disk st mem label keep)
    (brought_up_or_undone cfg id (Join [cfg_WorkDir cfg; "sandboxes"%string; id]) false keep) s0 nothing.
Proof.
  unfold restoreSandboxFromArtifacts. cbv zeta. do 2 hwp_step; [apply swp_ret, stage_mkdir_failed|].
  apply (stage_create id _ _ _ _ false keep); [apply stage_start|intros; by apply restore_into|done].
Qed.

End stages.

(** ** Theorems *)

(** C17. Every loop of every handler ends: with a clock that does not run backwards
    and advances by what is slept, and whatever else the kernel, Firecracker
    and the guest answer, a request never exhausts the rounds of its polling
    loops (it returns, panics, or waits for a mutex); and neither does the
    shutdown of the server, which moreover never panics. *)
Theorem serve_terminates {W} (eh : env W) clk cfg r s w :
  clocked eh clk ->
  fst (exec eh (serve cfg r) s w) <> OutOfFuel
  /\ (fst (exec eh shutdown s w) = Blocked \/ fst (exec eh shutdown s w) = Done tt).
Proof.
  intros Hc. split.
  - destruct (timed_exec eh clk (serve cfg r) ends s w Hc (timed_serve cfg r)) as [->|H]; [done|].
    by destruct (fst _).
  - destruct (timed_exec eh clk shutdown total s w Hc timed_shutdown) as [->|H]; [by left|].
    right. by destruct (fst _) as [[]| | |].
Qed.

(** C2. What a restore leaves.  Under a clock, and whatever the kernel,
    Firecracker and the guest answer, restoreSandboxFromArtifacts returns; when
    it fails, every process group it started was sent SIGKILL, its pool entry is back
    in the channel, no sandbox was made and the directory of the sandbox was
    asked to be removed, unless failed sandboxes are kept; but the cgroup of the
    sandbox, which only cgroups enabled make, may be left: no failure path
    removes it (the witness is such a run).  When it succeeds it has made one
    sandbox, idle and running, that owns the one process, the directory, the
    slot, and the cgroup if it has its path. *)
Theorem restore_outcome {W} (eh : env W) clk cfg id disk st mem label keep s w :
  clocked eh clk -> pool_ok s ->
  let '(o, (s', _, h)) :=
    exec_watched host_obs eh (restoreSandboxFromArtifacts cfg id disk st mem label keep) s w nothing in
  o <> OutOfFuel /\ brought_up_or_undone s cfg id (Join [cfg_WorkDir cfg; "sandboxes"%string; id]) false keep o s' h.
Proof.
  intros Hc Hok. pose proof (swp_watched host_obs eh _ _ s w nothing (restore_stages s Hok cfg id disk st mem label keep)) as H.
  pose proof (timed_exec eh clk _ _ s w Hc (timed_restore cfg id disk st mem label keep)) as Ht.
  rewrite (exec_watched_exec host_obs eh _ s w nothing) in Ht.
  destruct (exec_watched _ _ _ _ _ _) as [o [[s' w'] h]]. split; [|done]. cbn in Ht. destruct Ht as [->|Ht]; [done|by destruct o].
Qed.


(** ** Witnesses *)

Lemma sample_pool_ok : pool_ok sample_server.
Proof. split; [by cbn; lia|by repeat constructor]. Qed.

Lemma serve_terminates_witness :
  fst (exec happy (serve sample_cfg RCreate) sample_server 0) <> OutOfFuel
  /\ (fst (exec happy shutdown sample_server 0) = Blocked \/ fst (exec happy shutdown sample_server 0) = Done tt).
Proof. exact (serve_terminates happy (fun w => w) sample_cfg RCreate sample_server 0 happy_clocked). Defined.

(** A restore whose guest never answers fails, and leaves the cgroup. *)
Lemma restore_outcome_witness :
  let '(o, (s', _, h)) :=
    exec_watched host_obs deaf (restoreSandboxFromArtifacts cgroup_cfg "sb-1" "/d" "/s" "/m" [] false) sample_server 0 nothing in
  ((exists e, o = Done (Err e)) /\ h_cgroups h = ["/sys/fs/cgroup/manta/sb-1"%string])
  /\ brought_up_or_undone sample_server cgroup_cfg "sb-1" "/w/sandboxes/sb-1" false false o s' h.
Proof.
  pose proof (restore_outcome deaf (fun w => w) cgroup_cfg "sb-1" "/d" "/s" "/m" [] false sample_server 0
    deaf_clocked sample_pool_ok) as H.
  cbv zeta in H. assert (Join [cfg_WorkDir cgroup_cfg; "sandboxes"; "sb-1"]%string = "/w/sandboxes/sb-1"%string) as E by reflexivity.
  rewrite E in H.
  assert ((let '(o, (_, _, h)) := exec_watched host_obs deaf (restoreSandboxFromArtifacts cgroup_cfg "sb-1" "/d" "/s" "/m" [] false)
    sample_server 0 nothing in match o with Done (Err _) => h_cgroups h | _ => [] end) = ["/sys/fs/cgroup/manta/sb-1"%string])
    as Ho by (vm_compute; reflexivity).
  destruct (exec_watched _ _ _ _ _ _) as [o [[s' w'] h]]. split; [|exact (proj2 H)].
  destruct o as [[l|e]| | |]; try discriminate Ho. split; [exists e; reflexivity|exact Ho].
Defined.

