(* ===== verification/Teardown.v ===== *)
(** * The order in which a sandbox is torn down

    An observer logs the steps of a destroy that others depend on: the agent
    connection is closed and the process group killed and waited for before
    the slot (or the namespace) is given up, and the directory goes last,
    before the answer. *)

From S2P Require Import Prelude Sample Concurrency.

Inductive down :=
| TAgent (c : agentConn)            (* the agent connection is closed *)
| TKill (pid : Z)                   (* SIGKILL to the process group *)
| TWait (pid : Z)                   (* the wait for its exit has ended *)
| TSlot (nc : netnsConfig)          (* the entry goes back to the pool *)
| TNetns (name : string)            (* the namespace is deleted *)
| TDir (d : string)                 (* the directory is removed *)
| TReply (status : Z).

Definition down_obs (X : Type) (e : sysE X) : X -> list down -> list down :=
  match e in sysE X return X -> list down -> list down with
  | Sys e => fun _ t => t ++
      match e with
      | ConnClose c => [TAgent c]
      | KillGroup pid => [TKill pid]
      | WaitProcess pid _ => [TWait pid]
      | NetnsDeleteNamed n => [TNetns n]
      | OsRemoveAll d => [TDir d]
      | WriteJSON st _ => [TReply st]
      | _ => []
      end
  | Mem m => fun _ t => t ++ match m with PoolSend nc => [TSlot nc] | _ => [] end
  end.

(** What the log of a sandbox's teardown should be. *)
Definition agent_down (sb : sandbox) : list down := match sb_Agent sb with Some c => [TAgent c] | None => [] end.
Definition process_down (sb : sandbox) : list down :=
  match sb_Process sb with Some pid => [TKill pid; TWait pid] | None => [] end.
Definition netns_down (s : server) (sb : sandbox) : list down :=
  match sb_Netns sb with
  | Some nc => if bool_decide (is_Some (s_netnsPool s)) && nc_Pooled nc then [TSlot nc] else [TNetns (nc_NetnsName nc)]
  | None => []
  end.
Definition teardown (s : server) (sb : sandbox) : list down :=
  agent_down sb ++ process_down sb ++ netns_down s sb ++ [TDir (sb_Dir sb)].

(** Operations that the log does not show. *)
Definition unseen (X : Type) (e : envE X) : Prop :=
  match e with
  | ConnClose _ | KillGroup _ | WaitProcess _ _ | NetnsDeleteNamed _ | OsRemoveAll _ | WriteJSON _ _ => False
  | _ => True
  end.

Abbreviation dwp := (swp (fun _ _ _ _ => True) down_obs).

Lemma dwp_unseen {A B} (p : prog sysE A) (f : A -> prog sysE B) Q s t :
  only unseen p plain -> Q OutOfFuel s t -> (forall a, dwp (f a) Q s t) -> dwp (bind p f) Q s t.
Proof.
  intros Hp HF Hf. apply swp_bind. eapply (swp_only unseen _ _ _ plain); [exact Hp| |].
  - intros X e x t' He. cbn. by destruct e; rewrite ?app_nil_r.
  - by intros [] H; cbn.
Qed.

Lemma unseen_killCgroup p : only unseen (killCgroup p) plain.
Proof. unfold killCgroup. only_steps. Qed.

Lemma unseen_removeCgroupDir p t : only unseen (removeCgroupDir p t) plain.
Proof. unfold removeCgroupDir. only_steps. Qed.

#[local] Hint Resolve unseen_killCgroup unseen_removeCgroupDir : quiet.

(** The pool has room for the slot of [sb]. *)
Definition room_for (s : server) (sb : sandbox) : Prop :=
  match s_netnsPool s, sb_Netns sb with
  | Some p, Some nc => nc_Pooled nc = true -> (length (pool_ch p) < pool_size p)%nat
  | _, _ => True
  end.

(** The server once the slot of [sb] is given up. *)
Definition hand_back (sb : sandbox) (s : server) : server :=
  match s_netnsPool s with
  | Some p => upd_pool (MkPool (pool_size p) (pool_ch p ++ slot_of (sb_Netns sb)) (pool_all p) (pool_once p)) s
  | None => s
  end.

(** Steps of a program on the sandbox at a known place. *)
Ltac down_step :=
  lazymatch goal with
  | |- swp _ _ (bind (memory (LockAgentMu _)) _) _ _ _ => eapply swp_mem; [by apply lock_at|]
  | |- swp _ _ (bind (memory _) _) _ _ _ => eapply swp_mem; [by apply on_sandbox_at|]
  | |- swp _ _ (memory _) _ _ _ => eapply swp_mem_end; [by apply on_sandbox_at|]
  | |- swp _ _ (bind (sys _) _) _ _ _ => apply swp_sys; intros ? _
  | |- swp _ _ (bind (bind _ _) _) _ _ _ => apply swp_bind
  | |- _ => swp_step
  end; cbn [fst snd down_obs set_agentMu set_agent set_netns sb_Agent sb_Netns sb_Process sb_Dir]; rewrite ?app_nil_r.

Lemma dwp_dropAgent l sb s (Q : outcome unit -> server -> list down -> Prop) t :
  (l < length (s_heap s))%nat -> sb_agentMu sb = false ->
  Q (Done tt) (at_loc l (set_agent None sb) s) (t ++ agent_down sb) ->
  dwp (dropAgent l) Q (at_loc l sb s) t.
Proof.
  intros Hl Hmu HQ. unfold dropAgent, Close, agent_down in *.
  assert (forall a, set_agentMu false (set_agent a (set_agentMu true sb)) = set_agent a sb) as E.
  { intros a. destruct sb; cbn in *. by subst. }
  do 2 down_step. destruct (sb_Agent sb) as [c|] eqn:Ea.
  - repeat down_step. by rewrite E.
  - repeat down_step. rewrite app_nil_r in HQ. rewrite <- (E None) in HQ.
    by replace (set_agent None (set_agentMu true sb)) with (set_agentMu true sb) in HQ by (destruct sb; cbn in *; by subst).
Qed.

Lemma hand_back_nothing sb s : slot_of (sb_Netns sb) = [] -> hand_back sb s = s.
Proof.
  intros E. unfold hand_back. rewrite E. destruct s as [a b c d e [[]|]]; [|done]. cbn. unfold upd_pool. cbn. by rewrite app_nil_r.
Qed.

Lemma dwp_cleanup nc (Q : outcome (option error) -> server -> list down -> Prop) s t :
  (forall r, Q (Done r) s (t ++ [TNetns (nc_NetnsName nc)])) ->
  dwp (cleanupSandboxNetnsAndRouting (Some nc)) Q s t.
Proof. intros HQ. unfold cleanupSandboxNetnsAndRouting, deleteVeth. repeat down_step; apply HQ. Qed.

Lemma dwp_release l sb s (Q : outcome unit -> server -> list down -> Prop) t :
  room_for s sb ->
  Q (Done tt) (hand_back sb (at_loc l sb s)) (t ++ netns_down s sb) ->
  dwp (releaseNetns (sb_Netns sb)) Q (at_loc l sb s) t.
Proof.
  intros Hroom HQ. unfold releaseNetns, room_for, netns_down in *.
  destruct (sb_Netns sb) as [nc|] eqn:En.
  2:{ apply swp_ret. rewrite app_nil_r, hand_back_nothing in HQ by (by rewrite En). done. }
  eapply swp_mem; [reflexivity|]. cbn [down_obs]. rewrite app_nil_r.
  change (s_netnsPool (at_loc l sb s)) with (s_netnsPool s).
  destruct (bool_decide (is_Some (s_netnsPool s)) && nc_Pooled nc) eqn:E; cbn [Release].
  - apply andb_true_iff in E as [[p Hp]%bool_decide_eq_true Hpl]. rewrite Hp in Hroom.
    eapply swp_mem_end; [apply (PoolSend_step p); [done|by apply Hroom]|].
    unfold hand_back in HQ. change (s_netnsPool (at_loc l sb s)) with (s_netnsPool s) in HQ.
    rewrite Hp, En in HQ. cbn [slot_of] in HQ. by rewrite Hpl in HQ.
  - apply swp_bind, dwp_cleanup. intros r. cbn [swp_bindQ]. apply swp_ret.
    assert (hand_back sb (at_loc l sb s) = at_loc l sb s) as Eg; [|by rewrite Eg in HQ].
    unfold hand_back. change (s_netnsPool (at_loc l sb s)) with (s_netnsPool s).
    destruct (s_netnsPool s) as [p|] eqn:Hp; [|done]. rewrite bool_decide_eq_true_2 in E by eauto. cbn [andb] in E.
    rewrite <- (hand_back_nothing sb (at_loc l sb s)) at 2 by (rewrite En; cbn; by rewrite E).
    unfold hand_back. change (s_netnsPool (at_loc l sb s)) with (s_netnsPool s). by rewrite Hp.
Qed.

Lemma hand_back_at sb l sb' s : hand_back sb (at_loc l sb' s) = at_loc l sb' (hand_back sb s).
Proof. unfold hand_back. change (s_netnsPool (at_loc l sb' s)) with (s_netnsPool s). by destruct (s_netnsPool s). Qed.

Lemma hand_back_heap sb s : s_heap (hand_back sb s) = s_heap s.
Proof. unfold hand_back. by destruct (s_netnsPool s). Qed.

Lemma dwp_stopProcess sb (Q : outcome (list (list piece)) -> server -> list down -> Prop) s t :
  (forall r, Q (Done r) s (t ++ process_down sb)) ->
  dwp (stopProcess (sb_Process sb)) Q s t.
Proof.
  intros HQ. unfold stopProcess, process_down, killProcessGroup in *.
  destruct (sb_Process sb) as [pid|]; [|rewrite app_nil_r in HQ; by repeat down_step].
  assert (forall r, Q (Done r) s ((t ++ [TKill pid]) ++ [TWait pid])) as HQ' by (intros r; rewrite <- app_assoc; apply HQ).
  repeat down_step; apply HQ'.
Qed.

(** The sandbox and the server after cleanupSandbox. *)
Definition emptied (sb : sandbox) : sandbox := set_netns None (set_agent None sb).

Lemma dwp_cleanupSandbox l sb s (Q : outcome (option error) -> server -> list down -> Prop) t :
  (l < length (s_heap s))%nat -> sb_agentMu sb = false -> room_for s sb ->
  (forall s t, Q OutOfFuel s t) ->
  (forall r, Q (Done r) (at_loc l (emptied sb) (hand_back sb s)) (t ++ teardown s sb)) ->
  dwp (cleanupSandbox l) Q (at_loc l sb s) t.
Proof.
  intros Hl Hmu Hroom HF HQ. unfold cleanupSandbox.
  apply swp_bind, dwp_dropAgent; [done|done|]. cbn [swp_bindQ].
  eapply swp_mem; [by apply on_sandbox_at|]. cbn [fst snd down_obs]. rewrite app_nil_r.
  apply dwp_unseen; [destruct (sb_SSHClient _); by only_steps|apply HF|intros _].
  apply dwp_unseen; [destruct (is_empty _); by only_steps|apply HF|intros cgErr].
  apply swp_bind, (dwp_stopProcess (set_agent None sb)). intros procErrs. cbn [swp_bindQ].
  apply dwp_unseen; [destruct (is_empty _); by only_steps|apply HF|intros _].
  eapply swp_mem; [by apply on_sandbox_at|]. cbn [fst snd down_obs]. rewrite app_nil_r.
  apply swp_bind, (dwp_release l (set_agent None sb)); [exact Hroom|]. cbn [swp_bindQ]. rewrite hand_back_at.
  assert (l < length (s_heap (hand_back (set_agent None sb) s)))%nat by (by rewrite hand_back_heap).
  eapply swp_mem; [by apply on_sandbox_at|]. cbn [fst snd down_obs]. rewrite app_nil_r.
  apply swp_sys. intros dirErr _. cbn [down_obs]. apply swp_ret.
  specialize (HQ (joinErrs (errEntry "kill cgroup: " cgErr ++ procErrs ++ errEntry "remove sandbox dir: " dirErr))).
  rewrite <- !app_assoc. apply HQ.
Qed.

Lemma dwp_drained l timeout sb s (Q : outcome bool -> server -> list down -> Prop) t :
  (l < length (s_heap s))%nat -> sb_inFlightExec sb = 0 ->
  Q (Done true) (at_loc l sb s) t -> dwp (waitForExecDrain l timeout) Q (at_loc l sb s) t.
Proof.
  intros Hl Hin HQ. unfold waitForExecDrain, polls. apply swp_sys. intros start _. cbn [down_obs loop]. rewrite app_nil_r.
  apply swp_bind. eapply swp_mem; [by apply on_sandbox_at|]. unfold currentInFlightExec. cbn [fst snd down_obs]. rewrite app_nil_r, Hin.
  change (0 =? 0) with true. cbv iota. apply swp_ret. cbn [swp_bindQ]. by apply swp_ret.
Qed.

(** The server after a destroy of the sandbox [sb] published at [id]. *)
Definition destroyed (id : string) (l : loc) (sb : sandbox) (s : server) : server :=
  at_loc l (finishDestroy (emptied (fst (beginDestroy sb)))) (hand_back sb (upd_sandboxes (delete id) s)).

Lemma dwp_handleDestroy body id l sb s (Q : outcome unit -> server -> list down -> Prop) t :
  decodeJSON (fun strict => dec_one strict "sandbox_id") EmptyString body = Some id ->
  is_empty (TrimSpace id) = false ->
  s_sandboxes s !! id = Some l -> s_heap s !! l = Some sb ->
  sb_state sb = sandboxStateRunning -> sb_agentMu sb = false -> sb_inFlightExec sb = 0 -> room_for s sb ->
  (forall s t, Q OutOfFuel s t) ->
  (forall status, status ∈ [200; 500] -> Q (Done tt) (destroyed id l sb s) (t ++ teardown s sb ++ [TReply status])) ->
  dwp (handleDestroy body) Q s t.
Proof.
  intros Hb Hid Hm Hh Hst Hmu Hin Hroom HF HQ. unfold handleDestroy. rewrite Hb, Hid.
  eapply swp_mem; [reflexivity|]. rewrite Hm. cbn [down_obs]. rewrite app_nil_r.
  assert (l < length (s_heap (upd_sandboxes (delete id) s)))%nat as Hl by (by eapply lookup_lt_Some).
  rewrite <- (at_loc_id l sb (upd_sandboxes (delete id) s)) by exact Hh.
  eapply swp_mem; [by apply on_sandbox_at|]. cbn [down_obs]. rewrite app_nil_r.
  rewrite (proj2 (beginDestroy_running sb) Hst). cbn [negb]. set (sb1 := fst (beginDestroy sb)).
  assert (sb_inFlightExec sb1 = 0 /\ sb_agentMu sb1 = false) as [Hin1 Hmu1].
  { unfold sb1, beginDestroy. by case_bool_decide. }
  apply swp_defer, swp_bind, (dwp_drained l); [done..|]. cbn [swp_bindQ negb when].
  apply swp_bind, swp_ret. cbn [swp_bindQ].
  assert (forall status p, status ∈ [200; 500] ->
    dwp (writeJSON status p) (swp_deferQ (fun _ _ _ _ => True) down_obs (memory (FinishDestroy l)) Q)
      (at_loc l (emptied sb1) (hand_back sb1 (upd_sandboxes (delete id) s))) (t ++ teardown s sb1)) as Hreply.
  { intros status p Hs. apply swp_sys_end. intros [] _. cbn [swp_deferQ down_obs].
    eapply swp_mem; [apply on_sandbox_at; by rewrite hand_back_heap|]. cbn [down_obs]. rewrite app_nil_r.
    apply swp_ret. specialize (HQ _ Hs). rewrite app_assoc in HQ. unfold destroyed in HQ. subst sb1.
    unfold teardown, agent_down, process_down, netns_down, hand_back, beginDestroy in *. case_bool_decide; exact HQ. }
  apply swp_bind, dwp_cleanupSandbox; [done|done| |done|].
  - unfold room_for, sb1, beginDestroy in *. case_bool_decide; exact Hroom.
  - intros [e|]; apply Hreply; set_solver.
Qed.

(** C14. Destroying an idle sandbox that is published: whatever goes wrong, the
    steps are exactly these, in this order: close the agent connection, kill
    the process group and wait for it, give up the slot (to the pool, or by
    deleting the namespace), remove the directory, answer; the sandbox is out
    of the map, closed, without agent and namespace, and the pool has its slot
    back.  (What is done to the cgroup and an SSH client is not in this log.) *)
Theorem destroy_teardown {W} (eh : env W) clk body id l sb s w :
  clocked eh clk ->
  decodeJSON (fun strict => dec_one strict "sandbox_id") EmptyString body = Some id ->
  is_empty (TrimSpace id) = false ->
  s_sandboxes s !! id = Some l -> s_heap s !! l = Some sb ->
  sb_state sb = sandboxStateRunning -> sb_agentMu sb = false -> sb_inFlightExec sb = 0 -> room_for s sb ->
  let '(o, (s', _, t)) := exec_watched down_obs eh (handleDestroy body) s w [] in
  o = Done tt /\ s' = destroyed id l sb s
  /\ exists status, status ∈ [200; 500] /\ t = teardown s sb ++ [TReply status].
Proof.
  intros Hc Hb Hid Hm Hh Hst Hmu Hin Hroom.
  pose proof (swp_watched down_obs eh (handleDestroy body)
    (fun o s' t => o = OutOfFuel \/ o = Done tt /\ s' = destroyed id l sb s
       /\ exists status, status ∈ [200; 500] /\ t = teardown s sb ++ [TReply status]) s w []) as H.
  pose proof (timed_exec eh clk _ _ s w Hc (timed_handleDestroy body)) as Ht.
  rewrite (exec_watched_exec down_obs eh _ s w []) in Ht.
  destruct (exec_watched _ _ _ _ _ _) as [o [[s' w'] t]]. cbn in Ht.
  destruct H as [->|H]; [|by destruct Ht|done].
  eapply (dwp_handleDestroy body id l sb); try eassumption; [by left|]. intros status Hs. right. eauto.
Qed.

(** ** Witness *)

Definition sample_destroy : string := marshal (JObj [("sandbox_id"%string, JStr "sb-1")]).

(** The sandbox of the sample create, destroyed. *)
Lemma destroy_teardown_witness :
  let s := c_server (fst (arrive_and_run (answering okResponse) sample_cfg RCreate 200 (MkConf [] sample_server, 0))) in
  exists sb, s_heap s !! 0%nat = Some sb /\ (is_Some (sb_Agent sb) /\ is_Some (sb_Process sb)) /\
  let '(o, (s', _, t)) := exec_watched down_obs happy (handleDestroy sample_destroy) s 0 [] in
  o = Done tt /\ s' = destroyed "sb-1" 0 sb s
  /\ exists status, status ∈ [200; 500] /\ t = teardown s sb ++ [TReply status].
Proof.
  set (s := c_server _).
  assert (exists sb, s_heap s !! 0%nat = Some sb) as [sb Hsb].
  { destruct (s_heap s !! 0%nat) as [sb|] eqn:E; [exists sb; reflexivity|vm_compute in E; discriminate E]. }
  assert (match s_heap s !! 0%nat with
    | Some sb => bool_decide (sb_state sb = sandboxStateRunning) && negb (sb_agentMu sb) && (sb_inFlightExec sb =? 0)
        && bool_decide (is_Some (sb_Agent sb)) && bool_decide (is_Some (sb_Process sb))
        && match s_netnsPool s with Some p => (length (pool_ch p) <? pool_size p)%nat | None => true end
    | None => false end = true) as Hc by (vm_compute; reflexivity).
  rewrite Hsb in Hc. do 5 apply andb_true_iff in Hc as [Hc ?].
  exists sb. split; [exact Hsb|]. split; [split; by eapply bool_decide_eq_true_1|].
  refine (destroy_teardown happy (fun w => w) sample_destroy "sb-1" 0 sb s 0 happy_clocked _ _ _ Hsb _ _ _ _).
  - vm_compute. reflexivity.
  - vm_compute. reflexivity.
  - vm_compute. reflexivity.
  - exact (bool_decide_eq_true_1 _ Hc).
  - by apply negb_true_iff.
  - by apply Z.eqb_eq.
  - unfold room_for. destruct (s_netnsPool s) as [p|]; [|exact I]. destruct (sb_Netns sb) as [nc|]; [|exact I].
    intros _. by apply Nat.ltb_lt.
Defined.
