(* ===== verification/SnapshotFacts.v ===== *)
(** * Theorems about snapshots: metadata, identifiers, listing, and the VM
      that is paused while its snapshot is taken *)

From Stdlib Require Import Sorted.
From S2P Require Import Prelude Sample PathFacts.

(** The paths that a run removes. *)
Definition removed_obs (X : Type) (e : sysE X) : X -> list string -> list string :=
  match e in sysE X return X -> list string -> list string with
  | Sys (OsRemoveAll p) => fun _ t => t ++ [p]
  | _ => fun _ t => t
  end.

(** Deleting a snapshot removes nothing outside the snapshot directory:
    whatever the body of the request, a delete removes nothing, or one direct
    child of WorkDir/user-snapshots (its name has no slash and is not . or ..). *)
Theorem delete_confined {W} (eh : env W) cfg body s w :
  rooted (cfg_WorkDir cfg) = true ->
  let '(_, (_, removed)) := exec_watched removed_obs eh (handleSnapshotDelete cfg body) s w [] in
  removed = [] \/ exists id, plain_name id = true
    /\ removed = [userSnapshotsDir (cfg_WorkDir cfg) +:+ "/" +:+ id].
Proof.
  intros Hr.
  pose proof (swp_watched removed_obs eh (handleSnapshotDelete cfg body)
    (fun _ _ t => t = [] \/ exists id, plain_name id = true
      /\ t = [userSnapshotsDir (cfg_WorkDir cfg) +:+ "/" +:+ id]) s w []) as H.
  destruct (exec_watched _ _ _ _ _ _) as [o [[s' w'] t]]. apply H; clear H.
  unfold handleSnapshotDelete, errorReply, writeJSON.
  repeat (swp_step; cbn [removed_obs app]); try (by left); right.
  all: match goal with H : normalizeSnapshotID _ = Ok ?id |- _ => exists id; apply normalizeSnapshotID_plain in H end.
  all: split; [done|]; do 2 f_equal; by apply Join_under.
Qed.

(** ** Metadata files *)

(** A file system that keeps what it is given: the documented behaviour of
    write, rename and read on the files of [eh]. *)
Record file_system {W} (eh : env W) (files : W -> gmap string string) : Prop := {
  fs_write : forall p d w, fst (eh _ (OsWriteFile p d) w) = None ->
    files (snd (eh _ (OsWriteFile p d) w)) = <[p := d]> (files w);
  fs_rename : forall a b d w, fst (eh _ (OsRename a b) w) = None -> files w !! a = Some d ->
    files (snd (eh _ (OsRename a b) w)) = <[b := d]> (delete a (files w));
  fs_read : forall p d w, files w !! p = Some d -> fst (eh _ (OsReadFile p) w) = Ok d;
}.

Lemma exec_sys {W X A} (eh : env W) (e : envE X) (k : X -> prog sysE A) s w :
  exec eh (bind (sys e) k) s w = exec eh (k (fst (eh _ e w))) s (snd (eh _ e w)).
Proof. unfold exec. cbn. by destruct (eh X e w). Qed.

(** The file that a write through a temporary name leaves. *)
Lemma write_then_rename {W} (eh : env W) files path tmp raw (f g : error -> error) s w :
  file_system eh files ->
  let '(o, (s', w')) := exec eh
    (do! sys (OsWriteFile tmp raw) catch err => Ret (Some (f err)) in
     do! sys (OsRename tmp path) catch err => Ret (Some (g err)) in Ret None) s w in
  s' = s /\ (o = Done None -> files w' !! path = Some raw).
Proof.
  intros Hfs. rewrite exec_sys. destruct (fst (eh _ (OsWriteFile tmp raw) w)) as [e|] eqn:Ew; [by split|].
  pose proof (fs_write _ _ Hfs _ _ _ Ew) as Hw. rewrite exec_sys.
  destruct (fst (eh _ (OsRename tmp path) _)) as [e|] eqn:Er; [by split|]. split; [done|]. intros _.
  unfold exec. cbn. rewrite (fs_rename _ _ Hfs tmp path raw); [apply lookup_insert_eq|done|]. by rewrite Hw, lookup_insert_eq.
Qed.

Lemma normalize_trim id : normalizeSnapshotID id = Ok id -> is_empty (TrimSpace id) = false.
Proof. unfold normalizeSnapshotID. by repeat case_match. Qed.

(** The metadata of a user snapshot are read back as they were written. *)
Theorem user_meta_roundtrip {W} (eh : env W) files cfg meta s w :
  file_system eh files -> userSnapshotMeta_ok meta -> normalizeSnapshotID (um_SnapshotID meta) = Ok (um_SnapshotID meta) ->
  let '(o, (s', w')) := exec eh (writeUserSnapshotMeta cfg meta) s w in
  o = Done None -> fst (exec eh (loadUserSnapshotMeta cfg (um_SnapshotID meta)) s' w') = Done (Ok meta).
Proof.
  intros Hfs Hok Hid. unfold writeUserSnapshotMeta, loadUserSnapshotMeta. rewrite Hid. cbv zeta.
  pose proof (write_then_rename eh files (userSnapshotMetaPath (cfg_WorkDir cfg) (um_SnapshotID meta))
    (userSnapshotMetaPath (cfg_WorkDir cfg) (um_SnapshotID meta) +:+ ".tmp")
    (marshal_indent (enc_userSnapshotMeta meta) +:+ NL) (wrapf [Lit "write snapshot meta"])
    (wrapf [Lit "persist snapshot meta"]) s w Hfs) as H.
  destruct (exec _ _ _ _) as [o [s' w']]. destruct H as [-> H]. intros Ho. specialize (H Ho).
  rewrite exec_sys, (fs_read _ _ Hfs _ _ _ H).
  rewrite (unmarshal_marshal _ _ _ meta);
    [|apply enc_userSnapshotMeta_ints|by apply enc_userSnapshotMeta_utf8|by apply dec_enc_userSnapshotMeta].
  by rewrite (normalize_trim _ Hid).
Qed.

(** *** Times are ASCII *)

Lemma digits_w_ascii w n : str_forall is_ascii7 (digits_w w n) = true.
Proof.
  revert n. induction w as [|w IH]; intros n; [done|]. cbn [digits_w]. rewrite str_forall_app, IH. cbn.
  unfold is_ascii7. pose proof (Z.mod_pos_bound n 10 ltac:(lia)). rewrite byte_of_chr by lia. rewrite andb_true_r.
  apply Z.ltb_lt. lia.
Qed.

Lemma drop_zeros_ascii s : str_forall is_ascii7 s = true -> str_forall is_ascii7 (drop_zeros s) = true.
Proof.
  induction s as [|c s IH]; [done|]. cbn [str_forall drop_zeros]. rewrite andb_true_iff. intros [Hc Hs].
  specialize (IH Hs). destruct (drop_zeros s) as [|c' t].
  - destruct (Ascii.eqb c "0"); [done|]. cbn. by rewrite Hc.
  - cbn [str_forall] in *. by rewrite Hc.
Qed.

Lemma fraction_ascii w n : str_forall is_ascii7 (fraction w n) = true.
Proof.
  unfold fraction. pose proof (drop_zeros_ascii _ (digits_w_ascii w n)) as H. by destruct (drop_zeros _).
Qed.

Lemma FormatRFC3339Nano_valid t : ValidString (FormatRFC3339Nano t) = true.
Proof.
  apply ascii7_valid. unfold FormatRFC3339Nano. cbv zeta. destruct (civil _) as [[y m] d].
  rewrite !str_forall_app, !digits_w_ascii, fraction_ascii. done.
Qed.

(** *** The golden snapshot *)

(** C22. Metadata that writeSnapshotMeta has written under [cfg] are accepted by
    validateSnapshotMeta under [cfg'] exactly when [cfg'] has no lineage or the
    same (not blank) lineage; otherwise the snapshot is rebuilt. *)
Theorem golden_meta_validates {W} (eh : env W) files cfg cfg' sp s w :
  file_system eh files -> (forall w, files (snd (eh _ Now w)) = files w) ->
  ValidString (cfg_BaseRootfsLineageID cfg) = true -> ValidString (cfg_BaseRootfsPath cfg) = true ->
  let '(o, (s', w')) := exec eh (writeSnapshotMeta cfg sp) s w in
  o = Done None ->
  exists r, fst (exec eh (validateSnapshotMeta cfg' sp) s' w') = Done r /\
    (r = None <-> is_empty (TrimSpace (cfg_BaseRootfsLineageID cfg')) = true
      \/ cfg_BaseRootfsLineageID cfg = cfg_BaseRootfsLineageID cfg').
Proof.
  intros Hfs Hnow Hl Hb. unfold writeSnapshotMeta, validateSnapshotMeta. rewrite exec_sys. cbv zeta.
  set (now := fst (eh _ Now w)). set (w1 := snd (eh _ Now w)).
  set (meta := MkSnapshotMeta 1 (cfg_BaseRootfsLineageID cfg) (cfg_BaseRootfsPath cfg) (FormatRFC3339Nano now)).
  pose proof (write_then_rename eh files (sp_MetaFile sp) (sp_MetaFile sp +:+ ".tmp")
    (marshal_indent (enc_snapshotMeta meta) +:+ NL) (wrapf [Lit "write snapshot meta"])
    (wrapf [Lit "persist snapshot meta"]) s w1 Hfs) as H.
  destruct (exec _ _ _ _) as [o [s' w']]. destruct H as [-> H]. intros Ho. specialize (H Ho).
  rewrite exec_sys, (fs_read _ _ Hfs _ _ _ H).
  rewrite (unmarshal_marshal _ _ _ meta); [|apply enc_snapshotMeta_ints| |by apply dec_enc_snapshotMeta].
  2:{ apply enc_snapshotMeta_utf8. split; [done|done|done|apply FormatRFC3339Nano_valid]. }
  exists (checkSnapshotMeta cfg' meta). split; [done|]. unfold checkSnapshotMeta. cbn [meta sm_Version sm_LineageID].
  change (negb (1 =? 1)) with false. cbv iota.
  destruct (is_empty (TrimSpace (cfg_BaseRootfsLineageID cfg'))) eqn:E'; [by split; [left|]|].
  destruct (is_empty (TrimSpace (cfg_BaseRootfsLineageID cfg))) eqn:E.
  - split; [done|]. intros [?|Heq]; [done|]. by rewrite Heq, E' in E.
  - case_bool_decide; cbn [negb]; split; try done; [by right|]. by intros [?|?].
Qed.

(** ** Listing *)

Lemma insert_newest_perm m l : insert_newest m l ≡ₚ m :: l.
Proof. induction l as [|x l IH]; cbn; [done|]. destruct (newer x m); [rewrite IH; apply Permutation_swap|done]. Qed.

(** [a] may stand before [b] in the listing. *)
Definition listed_before (a b : userSnapshotMeta) : Prop := newer b a = false.

Lemma newer_asym a b : newer a b = true -> newer b a = false.
Proof.
  unfold newer, String.ltb. rewrite (String.compare_antisym (um_CreatedAt a)). by destruct (String.compare _ _).
Qed.

Lemma insert_newest_sorted m l : Sorted listed_before l -> Sorted listed_before (insert_newest m l).
Proof.
  induction l as [|x l IH]; cbn; [by repeat constructor|]. intros Hs. inversion Hs as [|? ? Hl Hx]. subst.
  destruct (newer x m) eqn:E.
  - constructor; [by apply IH|]. destruct l as [|y l]; cbn; [constructor; by apply newer_asym|].
    inversion Hx. subst. destruct (newer y m); constructor; [done|by apply newer_asym].
  - by repeat constructor.
Qed.

(** Sorting loses no snapshot and invents none, and orders by the text of the
    creation times, latest first. *)
Lemma sortNewest_spec l : sortNewest l ≡ₚ l /\ Sorted listed_before (sortNewest l).
Proof.
  induction l as [|m l [IHp IHs]]; [by repeat constructor|]. cbn. split.
  - by rewrite insert_newest_perm, IHp.
  - by apply insert_newest_sorted.
Qed.

Definition created_at (t : Z) : userSnapshotMeta :=
  MkUserSnapshotMeta "us-1" EmptyString (FormatRFC3339Nano t) EmptyString EmptyString EmptyString EmptyString EmptyString EmptyString.

(** The order of the texts is not the order of time: a snapshot taken half a
    second after a full second is listed as older than one of the full second,
    because RFC3339Nano drops the fraction of the latter. *)
Theorem listing_not_chronological :
  sortNewest [created_at 1709210096500000000; created_at 1709210096000000000]
  = [created_at 1709210096000000000; created_at 1709210096500000000].
Proof. vm_compute. reflexivity. Qed.

(** ** Witnesses *)

(** A disk that holds what is written to it; the rest is [happy]. *)
Definition disk (X : Type) (e : envE X) (w : gmap string string * Z) : X * (gmap string string * Z) :=
  match e in envE X return X * (gmap string string * Z) with
  | OsWriteFile p d => (None, (<[p := d]> (fst w), snd w))
  | OsRename a b =>
      match fst w !! a with
      | Some d => (None, (<[b := d]> (delete a (fst w)), snd w))
      | None => (Some (sysErr ENOENT), w)
      end
  | OsReadFile p => (match fst w !! p with Some d => Ok d | None => Err (sysErr ENOENT) end, w)
  | e => let '(x, n) := happy _ e (snd w) in (x, (fst w, n))
  end.

Lemma disk_file_system : file_system disk fst.
Proof.
  split; [done| |].
  - intros a b d w. cbn. intros H Hd. by rewrite Hd.
  - intros p d w. cbn. by intros ->.
Qed.

Lemma disk_now w : fst (snd (disk _ Now w)) = fst w.
Proof. done. Qed.

Lemma delete_confined_witness :
  rooted "/w" = true /\
  let '(_, (_, removed)) := exec_watched removed_obs happy
    (handleSnapshotDelete sample_cfg (marshal (JObj [("snapshot_id"%string, JStr "us-1")]))) fresh_server 0 [] in
  removed <> [] /\ (removed = [] \/ exists id, plain_name id = true
    /\ removed = [userSnapshotsDir (cfg_WorkDir sample_cfg) +:+ "/" +:+ id]).
Proof.
  split; [reflexivity|].
  pose proof (delete_confined happy sample_cfg (marshal (JObj [("snapshot_id"%string, JStr "us-1")])) fresh_server 0 eq_refl) as H.
  destruct (exec_watched _ _ _ _ _ _) as [o [[s' w'] t]] eqn:E. split; [|exact H].
  apply (f_equal (fun x => snd (snd x))) in E. cbn [snd] in E. subst t. vm_compute. discriminate.
Defined.

Definition sample_meta : userSnapshotMeta :=
  MkUserSnapshotMeta "us-1" "nightly" (FormatRFC3339Nano 1709210096000000000) "/w/user-snapshots/us-1/state.snap"
    "/w/user-snapshots/us-1/mem.snap" "/w/user-snapshots/us-1/disk.ext4" "base-1" "sb-1" "/w/sandboxes/sb-1/rootfs.ext4".

Lemma user_meta_roundtrip_witness :
  (userSnapshotMeta_ok sample_meta /\ normalizeSnapshotID "us-1" = Ok "us-1") /\
  let '(o, (s', w')) := exec disk (writeUserSnapshotMeta sample_cfg sample_meta) fresh_server (∅, 0) in
  o = Done None /\ fst (exec disk (loadUserSnapshotMeta sample_cfg "us-1") s' w') = Done (Ok sample_meta).
Proof.
  assert (Hok : userSnapshotMeta_ok sample_meta) by (repeat split; vm_compute; reflexivity).
  assert (Hid : normalizeSnapshotID (um_SnapshotID sample_meta) = Ok (um_SnapshotID sample_meta)) by (vm_compute; reflexivity).
  split; [split; [exact Hok|exact Hid]|].
  pose proof (user_meta_roundtrip disk fst sample_cfg sample_meta fresh_server (∅, 0) disk_file_system Hok Hid) as H.
  destruct (exec disk (writeUserSnapshotMeta _ _) _ _) as [o [s' w']] eqn:E.
  assert (o = Done None) as Ho by (apply (f_equal fst) in E; cbn [fst] in E; subst o; vm_compute; reflexivity).
  split; [exact Ho|exact (H Ho)].
Defined.

Lemma golden_meta_validates_witness :
  (ValidString (cfg_BaseRootfsLineageID sample_cfg) = true /\ ValidString (cfg_BaseRootfsPath sample_cfg) = true) /\
  let sp := snapshotLayout "/w" in
  let '(o, (s', w')) := exec disk (writeSnapshotMeta sample_cfg sp) fresh_server (∅, 0) in
  o = Done None /\ exists r, fst (exec disk (validateSnapshotMeta sample_cfg sp) s' w') = Done r /\
    (r = None <-> is_empty (TrimSpace (cfg_BaseRootfsLineageID sample_cfg)) = true
      \/ cfg_BaseRootfsLineageID sample_cfg = cfg_BaseRootfsLineageID sample_cfg).
Proof.
  split; [split; reflexivity|]. cbv zeta.
  pose proof (golden_meta_validates disk fst sample_cfg sample_cfg (snapshotLayout "/w") fresh_server (∅, 0)
    disk_file_system disk_now eq_refl eq_refl) as H.
  destruct (exec disk (writeSnapshotMeta _ _) _ _) as [o [s' w']] eqn:E.
  assert (o = Done None) as Ho by (apply (f_equal fst) in E; cbn [fst] in E; subst o; vm_compute; reflexivity).
  split; [exact Ho|exact (H Ho)].
Defined.
