(* ===== verification/PauseResume.v ===== *)
(** * The VM around its snapshot: paused, saved, resumed

    An observer logs the requests sent to the Firecracker API, each with
    whether it was granted (answered with a 2xx status). *)

From S2P Require Import Prelude Sample Concurrency.

(** Method, path and body. *)
Definition vmRequest : Type := string * string * string.

Definition granted (r : result (Z * string)) : bool :=
  match r with Ok (status, _) => negb ((status <? 200) || (status >=? 300)) | Err _ => false end.

Definition vm_obs (X : Type) (e : sysE X) : X -> list (vmRequest * bool) -> list (vmRequest * bool) :=
  match e in sysE X return X -> list (vmRequest * bool) -> list (vmRequest * bool) with
  | Sys e =>
      match e in envE X return X -> list (vmRequest * bool) -> list (vmRequest * bool) with
      | HttpDo _ _ m p b => fun r t => t ++ [((m, p, b), granted r)]
      | _ => fun _ t => t
      end
  | Mem _ => fun _ t => t
  end.

Definition pauseRequest : vmRequest := ("PATCH"%string, "/vm"%string, marshal (JObj [("state"%string, JStr "Paused")])).
Definition resumeRequest : vmRequest := ("PATCH"%string, "/vm"%string, marshal (JObj [("state"%string, JStr "Resumed")])).
Definition saveRequest (rootDir : string) : vmRequest :=
  ("PUT"%string, "/snapshot/create"%string,
   marshal (JObj [("mem_file_path"%string, JStr (Join [rootDir; "mem.snap"%string]));
                  ("snapshot_path"%string, JStr (Join [rootDir; "state.snap"%string]));
                  ("snapshot_type"%string, JStr "Full")])).

Definition no_http (X : Type) (e : envE X) : Prop := match e with HttpDo _ _ _ _ _ => False | _ => True end.

Abbreviation vwp := (swp (fun _ _ _ _ => True) vm_obs).

Lemma vwp_silent {A B} (p : prog sysE A) (f : A -> prog sysE B) Q s t :
  only no_http p total -> (forall a, vwp (f a) Q s t) -> vwp (bind p f) Q s t.
Proof.
  intros Hp Hf. apply swp_bind. eapply (swp_only no_http _ _ _ total); [exact Hp| |].
  - intros X e x t' He. cbn. by destruct e.
  - intros [] H; by cbn.
Qed.

Lemma vwp_doJSON c m p j (Q : outcome (option error) -> server -> list (vmRequest * bool) -> Prop) s t :
  (forall r, Q (Done r) s (t ++ [((m, p, marshal j), bool_decide (r = None))])) -> vwp (doJSON c m p j) Q s t.
Proof.
  intros HQ. unfold doJSON. apply swp_sys. intros [[status raw]|e] _; cbn [vm_obs granted].
  - destruct ((status <? 200) || (status >=? 300)) eqn:E; [destruct (is_empty _)|]; apply swp_ret.
    + pose proof (HQ (Some (errorf [Lit "firecracker "; Lit m; Lit " "; Lit p; Lit ": status "; Lit (itoa status)]))) as H.
      exact H.
    + eapply (HQ (Some _)).
    + exact (HQ None).
  - apply swp_ret. exact (HQ (Some e)).
Qed.

Lemma vwp_dropAgent l sb s (Q : outcome unit -> server -> list (vmRequest * bool) -> Prop) t :
  (l < length (s_heap s))%nat -> sb_agentMu sb = false ->
  (forall sb', sb_SocketPath sb' = sb_SocketPath sb -> sb_RootfsPath sb' = sb_RootfsPath sb -> sb_ID sb' = sb_ID sb ->
     Q (Done tt) (at_loc l sb' s) t) ->
  vwp (dropAgent l) Q (at_loc l sb s) t.
Proof.
  intros Hl Hmu HQ. unfold dropAgent, Close.
  eapply swp_mem; [by apply lock_at|]. eapply swp_mem; [by apply on_sandbox_at|]. cbn [fst snd set_agentMu sb_Agent vm_obs].
  apply swp_bind. destruct (sb_Agent sb) as [c|].
  - apply swp_sys. intros r _. cbn [vm_obs]. eapply swp_mem_end; [by apply on_sandbox_at|]. cbn [swp_bindQ fst snd vm_obs].
    eapply swp_mem_end; [by apply on_sandbox_at|]. by apply HQ.
  - apply swp_ret. cbn [swp_bindQ]. eapply swp_mem_end; [by apply on_sandbox_at|]. by apply HQ.
Qed.

Lemma silent_materialize cfg a b : only no_http (materializeSandboxRootfs cfg a b) total.
Proof. unfold materializeSandboxRootfs, runCmd. only_steps. Qed.

Lemma silent_writeUserSnapshotMeta cfg m : only no_http (writeUserSnapshotMeta cfg m) total.
Proof. unfold writeUserSnapshotMeta. only_steps. Qed.

(** The requests of a user snapshot, and its result. *)
Definition paused_saved_resumed (cfg : config) (sb : sandbox) (id name : string) (o : outcome (result userSnapshotMeta))
    (t : list (vmRequest * bool)) : Prop :=
  let rootDir := userSnapshotRootDir (cfg_WorkDir cfg) id in
  match o with
  | Done (Ok m) =>
      t = [(pauseRequest, true); (saveRequest rootDir, true); (resumeRequest, true)]
      /\ um_SnapshotID m = id /\ um_Name m = TrimSpace name /\ um_SourceSandboxID m = sb_ID sb
      /\ um_LineageID m = cfg_BaseRootfsLineageID cfg
  | Done (Err _) =>
      t = [] \/ t = [(pauseRequest, false)]
      \/ exists mid b, t = (pauseRequest, true) :: mid ++ [(resumeRequest, b)] /\ Forall (fun r => fst r <> pauseRequest) mid
  | _ => False
  end.

Ltac vm_step :=
  lazymatch goal with
  | |- swp _ _ (bind (createFullSnapshot _ _ _) _) _ _ _ => apply swp_bind, vwp_doJSON; intros ?; cbn [swp_bindQ]
  | |- swp _ _ (bind (pauseVM _) _) _ _ _ => apply swp_bind, vwp_doJSON; intros ?; cbn [swp_bindQ]
  | |- swp _ _ (bind (resumeVM _) _) _ _ _ => apply swp_bind, vwp_doJSON; intros ?; cbn [swp_bindQ]
  | |- swp _ _ (bind (materializeSandboxRootfs _ _ _) _) _ _ _ => apply vwp_silent; [apply silent_materialize|intros ?]
  | |- swp _ _ (bind (writeUserSnapshotMeta _ _) _) _ _ _ => apply vwp_silent; [apply silent_writeUserSnapshotMeta|intros ?]
  | |- _ => swp_step
  end; cbn [vm_obs app].

Lemma vwp_snapshot cfg l sb id name s :
  (l < length (s_heap s))%nat -> sb_agentMu sb = false ->
  vwp (createUserSnapshotFromSandbox cfg l id name) (fun o _ t => paused_saved_resumed cfg sb id name o t) (at_loc l sb s) [].
Proof.
  intros Hl Hmu. unfold createUserSnapshotFromSandbox, snapshotPausedVM.
  apply swp_bind, vwp_dropAgent; [done|done|]. intros sb' Hsock Hroot Hid. cbn [swp_bindQ].
  eapply swp_mem; [by apply on_sandbox_at|]. cbn [fst snd vm_obs]. cbv zeta.
  repeat (vm_step; try discriminate); subst; cbn [paused_saved_resumed];
    repeat match goal with |- context [bool_decide ?P] => rewrite (bool_decide_eq_true_2 P) by done
                         | |- context [bool_decide ?P] => rewrite (bool_decide_eq_false_2 P) by done end.
  all: try by auto.
  all: right; right;
    first [eexists [_], _; split; [reflexivity|] | eexists [_; _], _; split; [reflexivity|]]; repeat constructor; intros H'; discriminate H'.
Qed.

(** C5. A user snapshot leaves the VM as it was.  For every answer of the
    environment: the snapshot succeeds only after Firecracker has granted a
    pause, the snapshot of memory and device state, and a resume, in this
    order, and its metadata names the sandbox and the configured lineage; when
    it fails after a granted pause, the last request sent is a resume; when
    the pause was not granted nothing else is asked of the VM. *)
Theorem snapshot_resumes {W} (eh : env W) (cfg : config) (l : loc) (sb : sandbox) (id name : string) (s : server) (w : W) :
  s_heap s !! l = Some sb -> sb_agentMu sb = false ->
  let '(o, (_, _, t)) := exec_watched vm_obs eh (createUserSnapshotFromSandbox cfg l id name) s w [] in
  paused_saved_resumed cfg sb id name o t.
Proof.
  intros Hl Hmu. rewrite <- (at_loc_id l sb s Hl).
  apply (swp_watched vm_obs eh _ (fun o _ t => paused_saved_resumed cfg sb id name o t)), vwp_snapshot; [|done].
  by eapply lookup_lt_Some.
Qed.

(** A server with one idle sandbox. *)
Definition one_sandbox : server := MkServer 1 1 0 {["sb-1" := 0%nat]} [sample_sandbox] None.

Lemma snapshot_resumes_witness :
  s_heap one_sandbox !! 0%nat = Some sample_sandbox /\ sb_agentMu sample_sandbox = false /\
  let '(o, (_, _, t)) := exec_watched vm_obs happy (createUserSnapshotFromSandbox sample_cfg 0%nat "us-1" "nightly") one_sandbox 0 [] in
  (exists m, o = Done (Ok m)) /\ paused_saved_resumed sample_cfg sample_sandbox "us-1" "nightly" o t.
Proof.
  assert (H1 : s_heap one_sandbox !! 0%nat = Some sample_sandbox) by reflexivity.
  assert (H2 : sb_agentMu sample_sandbox = false) by reflexivity.
  split; [exact H1|]. split; [exact H2|].
  pose proof (snapshot_resumes happy sample_cfg 0%nat sample_sandbox "us-1" "nightly" one_sandbox 0 H1 H2) as H.
  destruct (exec_watched _ _ _ _ _ _) as [o [[s' w'] t]] eqn:E. split; [|exact H].
  apply (f_equal fst) in E. cbn [fst] in E. subst o. vm_compute. eexists. reflexivity.
Defined.
