(* ===== verification/GoldenFacts.v ===== *)
(** * The golden snapshot on every path

    An observer logs what ensureSnapshot looks at and does on the host: the
    files it probes and reads, the directory it resets, the processes it
    starts, kills and reaps, the requests to Firecracker, the files it renames
    into place and the namespaces it deletes. *)

From S2P Require Import Prelude Sample PauseResume.

Inductive gstep :=
| Probed (p : string) (there : bool)
| ReadBack (p : string) (r : result string)
| Reset (dir : string) (ok : bool)
| Started (pid : Z)
| Asked (q : vmRequest) (ok : bool)
| Killed (pid : Z)
| Reaped (pid : Z)
| Published (a b : string) (ok : bool)
| CleanedUp (ns : string).

Definition golden_step {X} (e : envE X) : X -> list gstep :=
  match e in envE X return X -> list gstep with
  | OsStat p => fun r => [Probed p (bool_decide (r = None))]
  | OsReadFile p => fun r => [ReadBack p r]
  | OsRemoveAll d => fun r => [Reset d (bool_decide (r = None))]
  | StartProcess _ _ _ => fun r => match r with Ok pid => [Started pid] | Err _ => [] end
  | HttpDo _ _ m p b => fun r => [Asked (m, p, b) (granted r)]
  | KillGroup pid => fun _ => [Killed pid]
  | ReapProcess pid => fun _ => [Reaped pid]
  | OsRename a b => fun r => [Published a b (bool_decide (r = None))]
  | NetnsDeleteNamed ns => fun _ => [CleanedUp ns]
  | _ => fun _ => []
  end.

Definition golden_obs (X : Type) (e : sysE X) : X -> list gstep -> list gstep :=
  match e in sysE X return X -> list gstep -> list gstep with
  | Sys e => fun x t => t ++ golden_step e x
  | Mem _ => fun _ t => t
  end.

(** ** What the log says *)

Definition goldenNetns : string := netnsNameForSandbox "snapshot".

Definition saveGolden (sp : snapshotPaths) : vmRequest :=
  ("PUT"%string, "/snapshot/create"%string,
   marshal (JObj [("mem_file_path"%string, JStr (sp_MemFile sp)); ("snapshot_path"%string, JStr (sp_StateFile sp));
                  ("snapshot_type"%string, JStr "Full")])).

Definition publishMeta (sp : snapshotPaths) (ok : bool) : gstep :=
  Published (sp_MetaFile sp +:+ ".tmp") (sp_MetaFile sp) ok.

(** From the start of the VM to the metadata, when everything is granted. *)
Definition built (sp : snapshotPaths) (pid : Z) : list gstep :=
  [Asked pauseRequest true; Asked (saveGolden sp) true; Killed pid; Reaped pid; publishMeta sp true].

(** Where a build can stop after the VM was started. *)
Definition stopped (sp : snapshotPaths) (pid : Z) (mid : list gstep) : Prop :=
  mid ∈ [[]; [Asked pauseRequest false]; [Asked pauseRequest true; Asked (saveGolden sp) false];
         [Asked pauseRequest true; Asked (saveGolden sp) true; Killed pid; Reaped pid];
         [Asked pauseRequest true; Asked (saveGolden sp) true; Killed pid; Reaped pid; publishMeta sp false]].

Definition undone (pid : Z) : list gstep := [Killed pid; Reaped pid; CleanedUp goldenNetns].

(** A build, after the log [t0]. *)
Definition build_log (sp : snapshotPaths) (t0 : list gstep) (o : outcome (result snapshotPaths)) (t : list gstep) : Prop :=
  match o with
  | Done (Ok sp') => sp' = sp /\ exists pid, t = t0 ++ Started pid :: built sp pid ++ undone pid
  | Done (Err _) =>
      t = t0 \/ t = t0 ++ [CleanedUp goldenNetns]
      \/ exists pid mid, t = t0 ++ Started pid :: mid ++ undone pid /\ stopped sp pid mid
  | OutOfFuel => True
  | _ => False
  end.

Abbreviation gwp := (swp (fun _ _ _ _ => True) golden_obs).

(** ** The parts that leave no trace *)

Definition traceless (X : Type) (e : envE X) : Prop :=
  match e with
  | OsStat _ | OsReadFile _ | OsRemoveAll _ | StartProcess _ _ _ | HttpDo _ _ _ _ _ | KillGroup _ | ReapProcess _
  | OsRename _ _ | NetnsDeleteNamed _ => False
  | _ => True
  end.

Lemma gwp_silent {A B} (p : prog sysE A) (f : A -> prog sysE B) P Q s t :
  only traceless p P -> (forall o, P o -> swp_bindQ (fun _ _ _ _ => True) golden_obs f Q o s t) -> gwp (bind p f) Q s t.
Proof.
  intros Hp Hf. apply swp_bind. eapply (swp_only traceless _ _ _ P); [exact Hp| |exact Hf].
  intros X e x t' He. cbn. destruct e; try done; apply app_nil_r.
Qed.

Lemma gwp_quiet {A B} (p : prog sysE A) (f : A -> prog sysE B) Q s t :
  only traceless p total -> (forall a, gwp (f a) Q s t) -> gwp (bind p f) Q s t.
Proof. intros Hp Hf. eapply gwp_silent; [exact Hp|]. intros [] H; by cbn. Qed.

Lemma gwp_end {A} (p : prog sysE A) (Q : outcome A -> server -> list gstep -> Prop) s t :
  only traceless p total -> (forall a, Q (Done a) s t) -> gwp p Q s t.
Proof.
  intros Hp HQ. eapply (swp_only traceless _ _ _ total); [exact Hp| |intros []; done].
  intros X e x t' He. cbn. destruct e; try done; apply app_nil_r.
Qed.

Lemma traceless_newNamedNetns ns : only traceless (newNamedNetns ns) total.
Proof. unfold newNamedNetns. only_steps. Qed.

Lemma traceless_deleteVeth h v : only traceless (deleteVeth h v) total.
Proof. unfold deleteVeth. only_steps. Qed.

Lemma traceless_withNetns h n : only traceless (withNetns h (configureInsideNetns n)) total.
Proof. unfold withNetns, configureInsideNetns, unlessExist. only_steps. Qed.

Lemma traceless_materialize cfg a b : only traceless (materializeSandboxRootfs cfg a b) total.
Proof. unfold materializeSandboxRootfs, runCmd. only_steps. Qed.

Lemma traceless_Close c : only traceless (Close c) total.
Proof. unfold Close. only_steps. Qed.

Lemma traceless_ready p n a b : only traceless (waitForAgentReady p n a b) plain.
Proof.
  unfold waitForAgentReady, dialAgent, Call, ReadLine, Close, WriteMessage, ReadMessage. only_steps.
Qed.

(** ** The network of the golden VM *)

Definition set_up (ns : string) (t0 : list gstep) (o : outcome (result netnsConfig)) (t : list gstep) : Prop :=
  match o with
  | Done (Ok nc) => nc_NetnsName nc = ns /\ t = t0
  | Done (Err _) => t = t0 \/ t = t0 ++ [CleanedUp ns]
  | _ => False
  end.

Ltac gwp_step :=
  lazymatch goal with
  | |- swp _ _ (bind (newNamedNetns _) _) _ _ _ => apply gwp_quiet; [apply traceless_newNamedNetns|intros ?]
  | |- swp _ _ (bind (deleteVeth _ _) _) _ _ _ => apply gwp_quiet; [apply traceless_deleteVeth|intros ?]
  | |- swp _ _ (deleteVeth _ _) _ _ _ => apply gwp_end; [apply traceless_deleteVeth|intros ?]
  | |- swp _ _ (bind (withNetns _ _) _) _ _ _ => apply gwp_quiet; [apply traceless_withNetns|intros ?]
  | |- swp _ _ (bind (materializeSandboxRootfs _ _ _) _) _ _ _ => apply gwp_quiet; [apply traceless_materialize|intros ?]
  | |- swp _ _ (bind (Close _) _) _ _ _ => apply gwp_quiet; [apply traceless_Close|intros ?]
  | |- _ => swp_step
  end; cbn [golden_obs golden_step]; rewrite ?app_nil_r.

Ltac gwp_steps := repeat gwp_step.

Lemma gwp_configureVeth ns n h r s t0 :
  gwp (configureVethAndRoute ns n h r) (fun o _ t => match o with Done (r, _) => set_up ns t0 (Done r) t | _ => False end) s t0.
Proof.
  unfold configureVethAndRoute, unlessExist. gwp_steps; cbn [set_up]; auto.
Qed.

Lemma gwp_setup id n s t0 : gwp (setupSandboxNetnsAndRouting id n) (fun o _ t => set_up (netnsNameForSandbox id) t0 o t) s t0.
Proof.
  unfold setupSandboxNetnsAndRouting. gwp_steps; cbn [set_up]; auto.
  eapply swp_mono; [|apply gwp_configureVeth]. intros [[[nc|e] b]| | |] s1 t1 Hs; try done; cbn [swp_deferWithQ].
  all: destruct b; cbn [when]; gwp_steps; exact Hs.
Qed.

Lemma gwp_cleanup nc s t0 :
  gwp (cleanupSandboxNetnsAndRouting (Some nc)) (fun o _ t => total o /\ t = t0 ++ [CleanedUp (nc_NetnsName nc)]) s t0.
Proof. unfold cleanupSandboxNetnsAndRouting. gwp_steps; done. Qed.

(** ** The golden VM *)

Lemma gwp_doJSON c m p j (Q : outcome (option error) -> server -> list gstep -> Prop) s t :
  (forall r, Q (Done r) s (t ++ [Asked (m, p, marshal j) (bool_decide (r = None))])) -> gwp (doJSON c m p j) Q s t.
Proof.
  intros HQ. unfold doJSON. apply swp_sys. intros [[status raw]|e] _; cbn [golden_obs golden_step granted].
  - destruct ((status <? 200) || (status >=? 300)) eqn:E; [destruct (is_empty _)|]; apply swp_ret.
    + exact (HQ (Some (errorf [Lit "firecracker "; Lit m; Lit " "; Lit p; Lit ": status "; Lit (itoa status)]))).
    + eapply (HQ (Some _)).
    + exact (HQ None).
  - apply swp_ret. exact (HQ (Some e)).
Qed.

Lemma gwp_killAndWait pid s t0 :
  gwp (killAndWait pid) (fun o _ t => total o /\ t = t0 ++ [Killed pid; Reaped pid]) s t0.
Proof. unfold killAndWait, killProcessGroup. gwp_steps; by rewrite <- app_assoc. Qed.


Definition taken (sp : snapshotPaths) (pid : Z) (t0 : list gstep) (o : outcome (result snapshotPaths)) (t : list gstep) : Prop :=
  match o with
  | Done (Ok sp') => sp' = sp /\ t = t0 ++ built sp pid
  | Done (Err _) => exists mid, t = t0 ++ mid /\ stopped sp pid mid
  | OutOfFuel => True
  | _ => False
  end.

Lemma gwp_kill_then {A} pid (k : unit -> prog sysE A) Q s t :
  (forall s, gwp (k tt) Q s (t ++ [Killed pid; Reaped pid])) -> gwp (bind (killAndWait pid) k) Q s t.
Proof.
  intros Hk. apply swp_bind. eapply swp_mono; [|apply gwp_killAndWait].
  intros [[]| | |] s' t' [Ho ->]; try done. apply Hk.
Qed.

Lemma gwp_writeMeta cfg sp s t0 :
  gwp (writeSnapshotMeta cfg sp) (fun o _ t => match o with
    | Done None => t = t0 ++ [publishMeta sp true]
    | Done (Some _) => t = t0 \/ t = t0 ++ [publishMeta sp false]
    | _ => False
    end) s t0.
Proof. unfold writeSnapshotMeta, publishMeta. gwp_steps; subst; auto. Qed.

Lemma gwp_take cfg sp pid s t0 : gwp (takeGoldenSnapshot cfg sp pid) (fun o _ t => taken sp pid t0 o t) s t0.
Proof.
  unfold takeGoldenSnapshot. eapply gwp_silent; [apply traceless_ready|].
  intros [[ac|e]| | |] Ho; try done; cbn [swp_bindQ].
  2: { apply swp_ret. exists []. rewrite app_nil_r. split; [done|]. unfold stopped. set_solver. }
  gwp_step. gwp_step. apply gwp_doJSON. intros [e|]; cbn [swp_bindQ].
  { apply swp_ret. eexists. split; [reflexivity|]. unfold stopped. set_solver. }
  gwp_step. gwp_step. gwp_step. apply gwp_doJSON. intros [e|]; cbn [swp_bindQ].
  { apply swp_ret. rewrite <- app_assoc. eexists. split; [reflexivity|]. unfold stopped. set_solver. }
  apply gwp_kill_then. intros s1. apply swp_bind. eapply swp_mono; [|apply gwp_writeMeta].
  rewrite <- !app_assoc. intros [[e|]| | |] s2 t2 Ht; try done. cbn [swp_bindQ]. apply swp_ret.
  destruct Ht as [->| ->]; (eexists; split; [reflexivity|]); unfold stopped; set_solver.
Qed.

(** A VM that was started, until its network is cleaned up. *)
Definition vm_log (sp : snapshotPaths) (t0 : list gstep) (o : outcome (result snapshotPaths)) (t : list gstep) : Prop :=
  match o with
  | Done (Ok sp') => sp' = sp /\ exists pid, t = t0 ++ Started pid :: built sp pid ++ [Killed pid; Reaped pid]
  | Done (Err _) => t = t0 \/ exists pid mid, t = t0 ++ Started pid :: mid ++ [Killed pid; Reaped pid] /\ stopped sp pid mid
  | OutOfFuel => True
  | _ => False
  end.

Lemma vm_log_killed sp t0 pid r t :
  taken sp pid (t0 ++ [Started pid]) (Done r) t -> vm_log sp t0 (Done r) (t ++ [Killed pid; Reaped pid]).
Proof.
  destruct r as [sp'|e]; cbn.
  - intros [-> ->]. split; [done|]. exists pid. by rewrite <- !app_assoc.
  - intros (mid & -> & Hmid). right. exists pid, mid. split; [|done]. by rewrite <- !app_assoc.
Qed.

Lemma build_log_cleaned sp t0 r t : vm_log sp t0 (Done r) t -> build_log sp t0 (Done r) (t ++ [CleanedUp goldenNetns]).
Proof.
  assert (forall pid mid, (t0 ++ Started pid :: mid ++ [Killed pid; Reaped pid]) ++ [CleanedUp goldenNetns]
    = t0 ++ Started pid :: mid ++ undone pid) as Happ by (intros pid mid; rewrite <- app_assoc; cbn; by rewrite <- app_assoc).
  destruct r as [sp'|e]; cbn [vm_log build_log].
  - intros [-> (pid & ->)]. split; [done|]. exists pid. by rewrite Happ.
  - intros [->|(pid & mid & -> & Hmid)]; [by right; left|right; right]. exists pid, mid. by rewrite Happ.
Qed.

(** A deferred function that returns with a log. *)
Lemma gwp_deferred {A} (d : prog sysE unit) (d0 : list gstep) (P : outcome A -> list gstep -> Prop) Q (o : outcome A) s t :
  (forall s t, gwp d (fun o _ t' => total o /\ t' = t ++ d0) s t) ->
  (forall a s t, P (Done a) t -> Q (Done a) s (t ++ d0)) -> (forall t, ~ P Panicked t) ->
  (forall s t, Q OutOfFuel s t) -> (forall t, ~ P Blocked t) ->
  P o t -> swp_deferQ (fun _ _ _ _ => True) golden_obs d Q o s t.
Proof.
  intros Hd HD HP HF HB Ho. destruct o as [a| | |]; cbn [swp_deferQ]; [|by apply HP in Ho|apply HF|by apply HB in Ho].
  eapply swp_mono; [|apply Hd]. intros [[]| | |] s' t' [Hd' ->]; try done. by apply HD.
Qed.

Lemma gwp_build cfg sp s t0 : gwp (buildSnapshot cfg sp) (fun o _ t => build_log sp t0 o t) s t0.
Proof.
  unfold buildSnapshot. gwp_step. gwp_step; [apply swp_ret; by left|]. gwp_step. gwp_step; [apply swp_ret; by left|].
  apply swp_bind. eapply swp_mono; [|apply gwp_setup]. intros [[nc|e]| | |] s1 t1 Ht; try done; cbn [swp_bindQ].
  2: { apply swp_ret. destruct Ht as [->| ->]; [by left|by right; left]. }
  destruct Ht as [Hns ->]. apply swp_defer. eapply swp_mono with (Q := fun o _ t => vm_log sp t0 o t).
  { intros o s2 t2. apply (gwp_deferred _ [CleanedUp goldenNetns] (vm_log sp t0)); try tauto.
    - intros s3 t3. apply swp_bind. eapply swp_mono; [|apply gwp_cleanup]. rewrite Hns. by intros [] s4 t4 [Ht ->].
    - intros r s3 t3. apply build_log_cleaned. }
  unfold writeVMConfig. repeat (gwp_step; try (apply swp_ret; by left)). rename a0 into pid.
  eapply swp_mono; [|apply gwp_take]. intros o s2 t2.
  apply (gwp_deferred _ [Killed pid; Reaped pid] (taken sp pid (t0 ++ [Started pid]))); try tauto;
    [intros; apply gwp_killAndWait|].
  intros r s3 t3 Hr. apply (gwp_deferred _ [] (vm_log sp t0)); try tauto; [|intros r1 s4 t4; by rewrite app_nil_r|by apply vm_log_killed].
  intros s4 t4. by gwp_steps.
Qed.

(** ** ensureSnapshot *)

Definition allThere (sp : snapshotPaths) : list gstep :=
  [Probed (sp_StateFile sp) true; Probed (sp_MemFile sp) true; Probed (sp_BaseDisk sp) true].

(** The metadata that were read are those of a snapshot of this lineage. *)
Definition metaAccepted (cfg : config) (r : result string) : Prop :=
  exists raw meta, r = Ok raw /\ Unmarshal dec_snapshotMeta zero_snapshotMeta raw = Some meta /\ checkSnapshotMeta cfg meta = None.

(** What makes ensureSnapshot build: a file is missing, or all are there but
    the metadata are not accepted and the directory could be removed. *)
Definition toBuild (cfg : config) (sp : snapshotPaths) (pre : list gstep) : Prop :=
  pre ∈ [[Probed (sp_StateFile sp) false];
         [Probed (sp_StateFile sp) true; Probed (sp_MemFile sp) false];
         [Probed (sp_StateFile sp) true; Probed (sp_MemFile sp) true; Probed (sp_BaseDisk sp) false]]
  \/ exists r, pre = allThere sp ++ [ReadBack (sp_MetaFile sp) r; Reset (sp_Dir sp) true] /\ ~ metaAccepted cfg r.

Definition ensured (cfg : config) (sp : snapshotPaths) (o : outcome (result snapshotPaths)) (t : list gstep) : Prop :=
  (o = Done (Ok sp) /\ exists r, t = allThere sp ++ [ReadBack (sp_MetaFile sp) r] /\ metaAccepted cfg r)
  \/ (exists pre, toBuild cfg sp pre /\ build_log sp pre o t)
  \/ (exists e r, o = Done (Err e) /\ t = allThere sp ++ [ReadBack (sp_MetaFile sp) r; Reset (sp_Dir sp) false] /\ ~ metaAccepted cfg r).

Lemma gwp_validate cfg sp s t0 :
  gwp (validateSnapshotMeta cfg sp) (fun o _ t => match o with
    | Done err => exists r, t = t0 ++ [ReadBack (sp_MetaFile sp) r] /\ (err = None <-> metaAccepted cfg r)
    | _ => False
    end) s t0.
Proof.
  unfold validateSnapshotMeta. apply swp_sys. intros [raw|e] _; cbn [golden_obs golden_step].
  - destruct (Unmarshal _ _ raw) as [meta|] eqn:E; apply swp_ret; eexists; (split; [reflexivity|]); split.
    + intros Hm. by exists raw, meta.
    + intros (raw' & meta' & [= <-] & E' & Hm). congruence.
    + done.
    + intros (raw' & meta' & [= <-] & E' & Hm). congruence.
  - apply swp_ret. eexists. split; [reflexivity|]. split; [done|]. by intros (? & ? & ? & _).
Qed.

Lemma gwp_probe {A} p (k : bool -> prog sysE A) Q s t :
  (forall b, gwp (k b) Q s (t ++ [Probed p b])) -> gwp (bind (fileExists p) k) Q s t.
Proof.
  intros Hk. unfold fileExists. apply swp_sys. intros [e|] _; cbn [golden_obs golden_step].
  - rewrite bool_decide_eq_false_2 by done. apply Hk.
  - rewrite bool_decide_eq_true_2 by done. apply Hk.
Qed.

Lemma gwp_rebuild cfg sp r s :
  ~ metaAccepted cfg r ->
  gwp (do! resetSnapshotDir sp catch err => Ret (Err err) in buildSnapshot cfg sp) (fun o _ t => ensured cfg sp o t)
    s (allThere sp ++ [ReadBack (sp_MetaFile sp) r]).
Proof.
  intros Hr. apply swp_bind. unfold resetSnapshotDir. apply swp_sys. intros [e|] _; cbn [golden_obs golden_step].
  - do 2 apply swp_ret. right. right. eexists _, r. rewrite bool_decide_eq_false_2 by done. done.
  - rewrite bool_decide_eq_true_2 by done.
    assert (toBuild cfg sp ((allThere sp ++ [ReadBack (sp_MetaFile sp) r]) ++ [Reset (sp_Dir sp) true])) as Hb by (right; by exists r).
    apply swp_sys. intros [e|] _; cbn [golden_obs golden_step]; rewrite app_nil_r; apply swp_ret; cbn [swp_bindQ].
    + apply swp_ret. right. left. eexists. split; [exact Hb|]. by left.
    + eapply swp_mono; [|apply gwp_build]. intros o s1 t1 Ht. right. left. by eexists.
Qed.

Lemma gwp_ensure cfg s :
  gwp (ensureSnapshot cfg) (fun o _ t => ensured cfg (snapshotLayout (cfg_WorkDir cfg)) o t) s [].
Proof.
  unfold ensureSnapshot. set (sp := snapshotLayout _).
  assert (forall pre s, toBuild cfg sp pre -> gwp (buildSnapshot cfg sp) (fun o _ t => ensured cfg sp o t) s pre) as Hb.
  { intros pre s' Hpre. eapply swp_mono; [|apply gwp_build]. intros o s1 t1 Ht. right. left. by exists pre. }
  apply gwp_probe. intros []; cbn [app bind]; [|apply Hb; left; set_solver].
  apply gwp_probe. intros []; cbn [app bind]; [|apply Hb; left; set_solver].
  apply gwp_probe. intros []; cbn [app]; [|apply Hb; left; set_solver].
  apply swp_bind. eapply swp_mono; [|apply gwp_validate].
  intros [[e|]| | |] s1 t1; cbn [swp_bindQ]; try done; intros (r & -> & Hr).
  - apply gwp_rebuild. intros H. by apply Hr in H.
  - apply swp_ret. left. split; [done|]. exists r. split; [done|by apply Hr].
Qed.

(** C9. The golden snapshot on every path, under a clock.  ensureSnapshot
    returns; it reuses the files only when all three are there and the
    metadata that it read are those of this version and lineage; otherwise it
    builds, after removing the directory if the metadata were refused.  A build
    succeeds only when Firecracker granted a pause and the snapshot into the
    two files, the VM was killed and reaped, and the metadata were then renamed
    into place, in this order; and when it fails, wherever that is, a VM that
    was started has been killed and reaped and its network namespace deleted,
    and no metadata were put in place. *)
Theorem golden_snapshot_paths {W} (eh : env W) clk (cfg : config) (s : server) (w : W) :
  clocked eh clk ->
  let '(o, (_, _, t)) := exec_watched golden_obs eh (ensureSnapshot cfg) s w [] in
  (exists r, o = Done r) /\ ensured cfg (snapshotLayout (cfg_WorkDir cfg)) o t.
Proof.
  intros Hc.
  pose proof (swp_watched golden_obs eh _ (fun o _ t => ensured cfg (snapshotLayout (cfg_WorkDir cfg)) o t) s w [] (gwp_ensure cfg s)) as H.
  pose proof (timed_exec eh clk (ensureSnapshot cfg) total s w Hc (timed_ensureSnapshot cfg)) as Ht.
  rewrite (exec_watched_exec golden_obs eh _ s w []) in Ht.
  destruct (exec_watched _ _ _ _ _ _) as [o [[s' w'] t]]. cbn [fst] in Ht. split; [|exact H].
  destruct Ht as [->|Ht]; [|destruct o; try done; by eexists]. exfalso.
  by destruct H as [[[=] _]|[(pre & _ & [])|(? & ? & [=] & _)]].
Qed.

(** No file is there yet. *)
Definition noFiles (X : Type) (e : envE X) (w : Z) : X * Z :=
  match e in envE X return X * Z with
  | OsStat _ => (Some (sysErr ENOENT), w + 1)
  | e => answering okResponse _ e w
  end.

Lemma noFiles_clocked : clocked noFiles (fun w => w).
Proof.
  destruct (answering_clocked okResponse) as [H1 H2 H3]. split; [|exact H2|exact H3].
  intros X e w. destruct e; try apply H1. cbn. lia.
Qed.

Lemma golden_snapshot_paths_witness :
  let '(o, (_, _, t)) := exec_watched golden_obs noFiles (ensureSnapshot sample_cfg) fresh_server 0 [] in
  o = Done (Ok (snapshotLayout (cfg_WorkDir sample_cfg)))
  /\ ensured sample_cfg (snapshotLayout (cfg_WorkDir sample_cfg)) o t.
Proof.
  pose proof (golden_snapshot_paths noFiles (fun w => w) sample_cfg fresh_server 0 noFiles_clocked) as H.
  destruct (exec_watched _ _ _ _ _ _) as [o [[s' w'] t]] eqn:E. destruct H as [_ H]. split; [|exact H].
  apply (f_equal fst) in E. cbn [fst] in E. subst o. vm_compute. reflexivity.
Defined.
