(* ===== verification/SnapshotRestore.v ===== *)
(** * A user snapshot and its restore, end to end

    What a snapshot has saved is what a later restore of its id gives to the
    new sandbox: the disk that is cloned, and the state and memory that
    Firecracker loads.  The two requests meet in the metadata file. *)

From S2P Require Import Prelude TrimFacts PathFacts Places Sample PauseResume SnapshotFacts.

(** ** What is known of two files

    The contents of the temporary file and of the metadata file, where the
    operations since tell; a request to Firecracker changes neither. *)

Definition knowledge : Type := option string * option string.

Definition file_obs (tmp path : string) (X : Type) (e : sysE X) : X -> knowledge -> knowledge :=
  match e in sysE X return X -> knowledge -> knowledge with
  | Sys e =>
      match e in envE X return X -> knowledge -> knowledge with
      | OsWriteFile p d => fun r _ => if bool_decide (r = None /\ p = tmp) then (Some d, None) else (None, None)
      | OsRename a b => fun r t => if bool_decide (r = None /\ a = tmp /\ b = path) then (None, fst t) else (None, None)
      | HttpDo _ _ _ _ _ => fun _ t => t
      | _ => fun _ _ => (None, None)
      end
  | Mem _ => fun _ t => t
  end.

Abbreviation fwp tmp path := (ewp (Watch.gpost (file_obs tmp path))).

Definition true_of {W} (files : W -> gmap string string) (tmp path : string) (w : W) (t : knowledge) : Prop :=
  (forall d, fst t = Some d -> files w !! tmp = Some d) /\ (forall d, snd t = Some d -> files w !! path = Some d).

(** What [ewp] proves of a run, through an observer that tells the truth. *)
Lemma ewp_exec {W T A} (obs : forall X, sysE X -> X -> T -> T) (Rel : W -> T -> Prop) (eh : env W) (p : prog sysE A) P s w t :
  (forall X (e : envE X) w t, Rel w t -> Rel (snd (eh _ e w)) (obs _ (Sys e) (fst (eh _ e w)) t)) ->
  (forall X (m : memE X) x w t, Rel w t -> Rel w (obs _ (Mem m) x t)) ->
  ewp (Watch.gpost obs) p P t -> Rel w t ->
  forall a s' w', exec eh p s w = (Done a, (s', w')) -> exists t', Rel w' t' /\ P a t'.
Proof.
  intros He Hm Hp HR a s' w' Hrun.
  destruct (wp_sound (fun _ _ _ => True) (Watch.gpost obs) (handler eh) (fun sw t => Rel (snd sw) t)) with
    (p := p) (Q := returned P) (w := (s, w)) (s := t) as [H|(t' & Ht & H)]; [|exact Hp|exact HR|..].
  - intros X [Y e|Y m] [s1 w1] t1 x [s2 w2] Hr _ Hh; cbn in *.
    + specialize (He Y e w1 t1 Hr). destruct (eh Y e w1) as [y w3]. simplify_eq/=. by eexists.
    + destruct (mem_step m s1) as [[y s3]|]; simplify_eq/=. eexists. split; [reflexivity|]. by apply Hm.
  - unfold exec in Hrun. by rewrite Hrun in H.
  - unfold exec in Hrun. rewrite Hrun in H, Ht. by exists t'.
Qed.

(** A file for metadata; Firecracker does not write such files. *)
Definition named_meta (q : string) : Prop :=
  exists cs n, q = path_of (cs ++ [n]) /\ n ∈ ["meta.json"; "meta.json.tmp"]%string.

Definition writes_no_meta {W} (eh : env W) (files : W -> gmap string string) : Prop :=
  forall sock t m p b w q, named_meta q -> files (snd (eh _ (HttpDo sock t m p b) w)) !! q = files w !! q.

Section files.
Context {W : Type} (eh : env W) (files : W -> gmap string string).
Context (Hfs : file_system eh files).
Context (Hhttp : writes_no_meta eh files).

Lemma file_obs_true tmp path X (e : envE X) w t :
  named_meta tmp -> named_meta path -> true_of files tmp path w t -> true_of files tmp path (snd (eh _ e w)) (file_obs tmp path _ (Sys e) (fst (eh _ e w)) t).
Proof.
  intros Htmp Hpath. assert (forall w, true_of files tmp path w (None, None)) as Hnone by (by split).
  intros Ht. destruct e; cbn [file_obs]; try apply Hnone.
  - case_bool_decide as Hd; [|apply Hnone]. destruct Hd as [Hr ->]. split; [|done]. intros d [= <-].
    rewrite (fs_write _ _ Hfs) by done. apply lookup_insert_eq.
  - case_bool_decide as Hd; [|apply Hnone]. destruct Hd as (Hr & -> & ->). split; [done|]. cbn [snd]. intros d Hd.
    apply Ht in Hd. rewrite (fs_rename _ _ Hfs _ _ d) by done. apply lookup_insert_eq.
  - unfold true_of. by rewrite !Hhttp.
Qed.
End files.

(** ** The snapshot *)

(** The metadata of a snapshot: where its files are, and the file it is in. *)
Definition saved_as (cfg : config) (id : string) (m : userSnapshotMeta) : Prop :=
  let rootDir := userSnapshotRootDir (cfg_WorkDir cfg) id in
  um_SnapshotID m = id /\ um_StateFile m = Join [rootDir; "state.snap"] /\ um_MemFile m = Join [rootDir; "mem.snap"]
  /\ um_DiskFile m = Join [rootDir; "disk.ext4"] /\ um_LineageID m = cfg_BaseRootfsLineageID cfg.

Definition metaText (m : userSnapshotMeta) : string := marshal_indent (enc_userSnapshotMeta m) +:+ NL.

Section snapshot.
Context (cfg : config) (id : string).
Let path := userSnapshotMetaPath (cfg_WorkDir cfg) id.
Let tmp := path +:+ ".tmp".

Lemma fwp_http {A} c m p j (k : option error -> prog sysE A) P t :
  (forall r, fwp tmp path (k r) P t) -> fwp tmp path (bind (doJSON c m p j) k) P t.
Proof.
  intros Hk. unfold doJSON. apply ewp_bind, ewp_ask. intros r t' ->. cbn [file_obs].
  repeat case_match; apply ewp_ret, Hk.
Qed.

(** Anything may have happened. *)
Lemma fwp_any {A B} (p : prog sysE A) (k : A -> prog sysE B) P t :
  (forall a t, fwp tmp path (k a) P t) -> fwp tmp path (bind p k) P t.
Proof. intros Hk. apply ewp_bind. eapply ewp_mono; [apply ewp_true|]. intros a t' _. apply Hk. Qed.

Lemma fwp_writeMeta {A} m (k : option error -> prog sysE A) P t :
  um_SnapshotID m = id ->
  (forall e t, fwp tmp path (k (Some e)) P t) -> fwp tmp path (k None) P (None, Some (metaText m)) ->
  fwp tmp path (bind (writeUserSnapshotMeta cfg m) k) P t.
Proof.
  intros Hid He Hk. unfold writeUserSnapshotMeta. rewrite Hid. apply ewp_bind, ewp_ask. intros [e|] t' ->; [apply ewp_ret, He|].
  apply ewp_ask. intros [e|] t' ->; [apply ewp_ret, He|]. apply ewp_ret. cbn [file_obs].
  rewrite !bool_decide_eq_true_2 by done. exact Hk.
Qed.

Lemma fwp_createUserSnapshot l name t :
  fwp tmp path (createUserSnapshotFromSandbox cfg l id name)
    (fun r t => match r with Ok m => saved_as cfg id m /\ snd t = Some (metaText m) | Err _ => True end) t.
Proof.
  unfold createUserSnapshotFromSandbox. apply fwp_any. intros _ t1. apply ewp_ask. intros sb t2 ->. cbv zeta.
  apply fwp_any. intros [e|] t3; [by apply ewp_ret|]. apply fwp_http. intros [e|]; [by apply ewp_ret|].
  apply ewp_deferWith. unfold snapshotPausedVM. cbv zeta.
  assert (forall e b t, fwp tmp path (Ret (Err e, b)) (fun (al : result userSnapshotMeta * bool) t =>
     fwp tmp path (when (snd al) (resumeVM (newFCClient (sb_SocketPath sb) (10 * second)) ;;; Ret tt))
       (fun _ t => match fst al with Ok m => saved_as cfg id m /\ snd t = Some (metaText m) | Err _ => True end) t) t) as Hfail.
  { intros e b t4. apply ewp_ret. apply ewp_true. }
  do 3 (apply fwp_any; intros _ ?). apply fwp_http. intros [e|]; [apply Hfail|].
  apply fwp_any. intros [e|] ?; [apply Hfail|]. apply fwp_any. intros now ?.
  apply fwp_writeMeta; [done|intros; apply Hfail|]. apply fwp_http. intros [e|]; [apply Hfail|].
  apply ewp_ret. cbn [snd when fst]. apply ewp_ret. by split.
Qed.
End snapshot.

(** ** The restore *)

Inductive rstep :=
| Ran (name : string) (args : list string) (ok : bool)
| Requested (q : vmRequest) (ok : bool)
| Answered (status : Z) (p : payload).

Definition restore_step {X} (e : envE X) : X -> list rstep :=
  match e in envE X return X -> list rstep with
  | RunCommand name args => fun r => [Ran name args (bool_decide (snd r = None))]
  | HttpDo _ _ m p b => fun r => [Requested (m, p, b) (granted r)]
  | WriteJSON status p => fun _ => [Answered status p]
  | _ => fun _ => []
  end.

Definition restore_obs (X : Type) (e : sysE X) : X -> list rstep -> list rstep :=
  match e in sysE X return X -> list rstep -> list rstep with
  | Sys e => fun x t => t ++ restore_step e x
  | Mem _ => fun _ t => t
  end.

(** The disk is cloned, the state and the memory are loaded. *)
Definition cloneDisk (cfg : config) (m : userSnapshotMeta) (new : string) (ok : bool) : rstep :=
  Ran "cp" [if reflinkRequired cfg then "--reflink=always" else "--reflink=auto"; um_DiskFile m;
            Join [Join [cfg_WorkDir cfg; "sandboxes"; new]; "rootfs.ext4"]]%string ok.

Definition loadState (m : userSnapshotMeta) (ok : bool) : rstep :=
  Requested ("PUT"%string, "/snapshot/load"%string,
    marshal (JObj [("mem_backend"%string, JObj [("backend_path"%string, JStr (um_MemFile m)); ("backend_type"%string, JStr "File")]);
                   ("resume_vm"%string, JBool true); ("snapshot_path"%string, JStr (um_StateFile m))])) ok.

(** After the clone of the disk and [n] loads that were refused. *)
Definition loading (cfg : config) (m : userSnapshotMeta) (new : string) (n : nat) (loaded : bool) : list rstep :=
  cloneDisk cfg m new true :: replicate n (loadState m false) ++ (if loaded then [loadState m true] else []).

Definition restored (cfg : config) (m : userSnapshotMeta) (new : string) (r : result loc) (t : list rstep) : Prop :=
  match r with
  | Ok _ => exists n, t = loading cfg m new n true
  | Err _ => t = [] \/ t = [cloneDisk cfg m new false] \/ exists n b, t = loading cfg m new n b
  end.

Abbreviation rwp := (ewp (Watch.gpost restore_obs)).

Definition unlogged (X : Type) (e : envE X) : Prop :=
  match e with RunCommand _ _ | HttpDo _ _ _ _ _ | WriteJSON _ _ => False | _ => True end.

Abbreviation unlogs := (spares unlogged (fun _ _ => True) anything).

Lemma plumbs_unlogs {A} (p : prog sysE A) : plumbs p -> unlogs p.
Proof. apply spares_weaken; [|done|done]. intros X e. by destruct e. Qed.

Lemma rwp_unlogged {A} (p : prog sysE A) P t : unlogs p -> (forall a, P a t) -> rwp p P t.
Proof.
  intros Hp. apply ewp_leaves. revert Hp. apply spares_leaves; [|done].
  intros X [Y e|Y m] s x s' Hpre ->; cbn in *; [|done]. destruct e; try done; apply app_nil_r.
Qed.

Lemma rwp_call {A B} (p : prog sysE A) (k : A -> prog sysE B) P t : unlogs p -> (forall a, rwp (k a) P t) -> rwp (bind p k) P t.
Proof. intros Hp Hk. by apply ewp_bind, rwp_unlogged. Qed.

Ltac unlogs_steps :=
  repeat spares_step_with ltac:(exact I) ltac:(apply plumbs_unlogs; solve [auto with nocore plumbing]).

(** The other functions of a restore that are not logged. *)
Lemma unlogs_runtimePaths d : unlogs (prepareSandboxRuntimePaths d).
Proof. unfold prepareSandboxRuntimePaths. unlogs_steps. Qed.

Lemma unlogs_openLog p : unlogs (openSandboxLog p).
Proof. unfold openSandboxLog. unlogs_steps. Qed.

Lemma unlogs_prepareCgroup cfg id : unlogs (prepareSandboxCgroup cfg id).
Proof. unfold prepareSandboxCgroup. unlogs_steps. Qed.

Lemma unlogs_attach p pid : unlogs (attachSandboxProcessToCgroup p pid).
Proof. unfold attachSandboxProcessToCgroup, movePidToCgroup. unlogs_steps. Qed.

Lemma unlogs_abandon pid p : unlogs (abandonVM pid p).
Proof. unfold abandonVM, killCgroup. unlogs_steps. Qed.

Create HintDb unlogged discriminated.
#[local] Hint Resolve unlogs_runtimePaths unlogs_openLog unlogs_prepareCgroup unlogs_attach unlogs_abandon plumbs_unlogs : unlogged.
#[local] Hint Extern 1 (plumbs _) => solve [auto with nocore plumbing] : unlogged.
#[local] Hint Constants Opaque : unlogged.

(** A call that is not logged. *)
Ltac rwp_skip :=
  cbv beta iota zeta;
  lazymatch goal with
  | |- ewp _ (Ret _) _ _ => apply ewp_ret
  | |- ewp _ (bind (sys _) _) _ _ => apply rwp_call; [apply spares_sys; exact I|intros ?]
  | |- ewp _ (bind (memory _) _) _ _ => apply rwp_call; [apply spares_mem; exact I|intros ?]
  | |- ewp _ (bind (loadSnapshotWithRetry _ _ _ _ _) _) _ _ => fail
  | |- ewp _ (bind _ _) _ _ => apply rwp_call; [solve [auto with nocore unlogged]|intros ?]
  | |- ewp _ (match ?x with _ => _ end) _ _ => destruct x eqn:?
  end.

Lemma rwp_doJSON c m p j (P : option error -> list rstep -> Prop) t :
  (forall r, P r (t ++ [Requested (m, p, marshal j) (bool_decide (r = None))])) -> rwp (doJSON c m p j) P t.
Proof.
  intros HP. unfold doJSON. apply ewp_ask. intros [[status raw]|e] t' ->; cbn [restore_obs restore_step granted].
  - destruct ((status <? 200) || (status >=? 300)) eqn:E; [destruct (is_empty _)|]; apply ewp_ret.
    + exact (HP (Some (errorf [Lit "firecracker "; Lit m; Lit " "; Lit p; Lit ": status "; Lit (itoa status)]))).
    + eapply (HP (Some _)).
    + exact (HP None).
  - apply ewp_ret. exact (HP (Some e)).
Qed.

Section restore.
Context (cfg : config) (m : userSnapshotMeta).

Lemma rwp_load c timeout t :
  rwp (loadSnapshotWithRetry c (um_StateFile m) (um_MemFile m) true timeout)
    (fun r t' => exists n, t' = t ++ replicate n (loadState m false) ++ (match r with Some _ => [] | None => [loadState m true] end)) t.
Proof.
  unfold loadSnapshotWithRetry. rwp_skip. apply (ewp_loop _ (fun _ t' => exists n, t' = t ++ replicate n (loadState m false))).
  2: { exists 0%nat. by rewrite app_nil_r. }
  intros _ t' [n ->]. apply ewp_bind. unfold loadSnapshot. apply rwp_doJSON. intros [e|].
  - rewrite bool_decide_eq_false_2 by done.
    assert (forall P : list rstep -> Prop, P (t ++ replicate (S n) (loadState m false)) ->
      P ((t ++ replicate n (loadState m false)) ++ [loadState m false])) as HS.
    { intros P. by rewrite replicate_S_end, app_assoc. }
    fold (loadState m false). apply HS. repeat rwp_skip; eexists; rewrite ?app_nil_r; reflexivity.
  - rewrite bool_decide_eq_true_2 by done. apply ewp_ret. exists n. by rewrite <- app_assoc.
Qed.

Lemma rwp_restoreInto id new d rootfs nc :
  rwp (restoreIntoNetns cfg id d rootfs (um_StateFile m) (um_MemFile m) nc)
    (fun al t => restored cfg m new (fst (fst al)) t) [cloneDisk cfg m new true].
Proof.
  assert (forall e (b c : bool) n l, rwp (Ret (Err e, b, c)) (fun al t => restored cfg m new (fst (fst al)) t) (loading cfg m new n l)) as Hfail.
  { intros e b c n l. apply ewp_ret. right. right. by exists n, l. }
  change [cloneDisk cfg m new true] with (loading cfg m new 0 false).
  unfold restoreIntoNetns. repeat (first [apply Hfail | rwp_skip]).
  apply ewp_bind. eapply ewp_mono; [apply rwp_load|]. intros [e|] t' (n & ->).
  - rewrite app_nil_r. change (_ ++ replicate n _) with (cloneDisk cfg m new true :: replicate n (loadState m false)).
    rewrite <- (app_nil_r (replicate n _)). change (_ :: _ ++ []) with (loading cfg m new n false).
    repeat (first [apply Hfail | rwp_skip]).
  - change (_ ++ _ ++ _) with (loading cfg m new n true). repeat (first [apply Hfail | rwp_skip]). by exists n.
Qed.

Lemma rwp_materialize src dst t :
  rwp (materializeSandboxRootfs cfg src dst)
    (fun r t' => t' = t ++ [Ran "cp" [if reflinkRequired cfg then "--reflink=always" else "--reflink=auto"; src; dst]%string
      (bool_decide (r = None))]) t.
Proof.
  unfold materializeSandboxRootfs, runCmd. apply ewp_bind, ewp_bind, ewp_ask. intros [[out err] r] t' ->.
  destruct r as [e|]; cbn [restore_obs restore_step snd]; [destruct (reflinkRequired cfg)|destruct (reflinkRequired cfg)]; by repeat apply ewp_ret.
Qed.

Lemma rwp_clone id new label :
  rwp (cloneAndAcquire cfg id (um_DiskFile m) (Join [Join [cfg_WorkDir cfg; "sandboxes"; new]; "rootfs.ext4"]%string) label)
    (fun r t => exists ok, t = [cloneDisk cfg m new ok] /\ (is_ok r = true -> ok = true)) [].
Proof.
  unfold cloneAndAcquire. apply ewp_bind. apply ewp_par.
  - split; [done|]. intros t x t' ->. apply app_nil_r.
  - assert (unlogs (acquireNetns id)) as H by (apply plumbs_unlogs; auto with plumbing). revert H.
    apply spares_leaves; [|done]. intros X [Y e|Y me] s x s' Hpre ->; cbn in *; [|done]. destruct e; try done; apply app_nil_r.
  - apply ewp_bind. eapply ewp_mono; [apply rwp_materialize|]. cbn [app]. intros [e|] t' ->; cbv beta iota; apply ewp_ret; intros [nc|e']; cbv beta iota.
    + rwp_skip. apply ewp_ret. by exists false.
    + apply ewp_ret. by exists false.
    + apply ewp_ret. by exists true.
    + apply ewp_ret. by exists true.
Qed.

Lemma rwp_restoreArtifacts new label keep :
  rwp (restoreSandboxFromArtifacts cfg new (um_DiskFile m) (um_StateFile m) (um_MemFile m) label keep)
    (fun r t => restored cfg m new r t) [].
Proof.
  unfold restoreSandboxFromArtifacts. rwp_skip. rwp_skip; [apply ewp_ret; by left|].
  apply ewp_deferWith. apply ewp_bind. eapply ewp_mono; [apply rwp_clone|]. intros [nc|e] t (ok & -> & Hok); cbv beta iota.
  - rewrite Hok by done. apply ewp_deferWith. eapply ewp_mono; [apply (rwp_restoreInto new new)|].
    intros [[r dir] net] t Ht. cbn [fst snd] in *. apply rwp_unlogged; [unlogs_steps|].
    intros _. apply rwp_unlogged; [unlogs_steps|]. done.
  - apply ewp_ret. cbn [fst snd]. apply rwp_unlogged; [unlogs_steps|]. intros _.
    destruct ok; [|by right; left]. right. right. by exists 0%nat, false.
Qed.

(** A restore whose metadata have been read: it gives the new sandbox what
    the snapshot saved, or fails on the way. *)
Definition restore_log (t : list rstep) : Prop :=
  (exists new n answered, t = loading cfg m new n true ++ [Answered 200 (PSnapshotRestore answered)])
  \/ (exists new e t0 status txt, restored cfg m new (Err e) t0 /\ 400 <= status /\ t = t0 ++ [Answered status (PError txt)]).

Lemma rwp_fromSnapshot new : rwp (createSandboxFromUserSnapshot cfg new m) (fun r t => restored cfg m new r t) [].
Proof.
  unfold createSandboxFromUserSnapshot. apply (ewp_forRange _ (fun t => t = [])); [| |done].
  - intros p t ->. rwp_skip. destruct a; apply ewp_ret; [done|by left].
  - intros t ->. apply rwp_restoreArtifacts.
Qed.

(** What follows the metadata in handleSnapshotRestore. *)
Definition restoreFrom : prog sysE unit :=
  match checkLineage cfg m with
  | Some msg => errorReply 409 msg
  | None =>
      let! n := memory AddSandboxID in
      let id := "sb-" +:+ itoa n in
      try! l := createSandboxFromUserSnapshot cfg id m catch err => errorReply 500 (err_text err) in
      let! sb := memory (LoadSandbox l) in
      memory (SandboxesPut (sb_ID sb) l) ;;;
      writeJSON 200 (PSnapshotRestore (sb_ID sb))
  end.

Definition restore_answer (t : list rstep) : Prop :=
  match checkLineage cfg m with Some msg => t = [Answered 409 (PError msg)] | None => restore_log t end.

Lemma rwp_restoreFrom : rwp restoreFrom (fun _ t => restore_answer t) [].
Proof.
  unfold restoreFrom, restore_answer, errorReply, writeJSON. destruct (checkLineage cfg m) as [msg|].
  - apply ewp_last. by intros x t ->.
  - rwp_skip. apply ewp_bind. eapply ewp_mono; [apply rwp_fromSnapshot|]. intros [l|e] t Ht; cbv beta iota.
    + destruct Ht as [k ->]. do 2 rwp_skip. apply ewp_last. intros x0 t ->. left. by do 3 eexists.
    + apply ewp_last. intros x0 t0 ->. right. do 5 eexists. split; [exact Ht|]. split; [|reflexivity]. lia.
Qed.
End restore.

Lemma ewp_watched {W T A} (obs : forall X, sysE X -> X -> T -> T) (eh : env W) (p : prog sysE A) P s w t :
  ewp (Watch.gpost obs) p P t ->
  let '(o, (_, _, t')) := exec_watched obs eh p s w t in match o with Done a => P a t' | _ => True end.
Proof.
  intros Hp. unfold exec_watched.
  destruct (wp_sound (fun _ _ _ => True) (Watch.gpost obs) (watch obs (handler eh)) (fun sw t => snd sw = t)) with
    (p := p) (Q := returned P) (w := (s, w, t)) (s := t) as [H|(t' & Ht & H)]; [|exact Hp|reflexivity|..].
  - intros X e [sw t1] t2 x [sw' t1'] Hr _ Hh. cbn in *. subst t2. unfold watch in Hh. cbn in Hh.
    destruct (handler eh X e sw) as [[y sw1]|]; simplify_eq. by eexists.
  - destruct (run _ _ _) as [o [[s1 w1] t1]]. cbn in H. by subst o.
  - destruct (run _ _ _) as [o [[s1 w1] t1]]. cbn in H, Ht. subst t'. by destruct o.
Qed.

(** ** End to end *)

Lemma exec_watched_sys {W T X A} (obs : forall X, sysE X -> X -> T -> T) (eh : env W) (e : envE X) (k : X -> prog sysE A) s w t :
  exec_watched obs eh (bind (sys e) k) s w t
  = exec_watched obs eh (k (fst (eh _ e w))) s (snd (eh _ e w)) (obs _ (Sys e) (fst (eh _ e w)) t).
Proof. unfold exec_watched. cbn. unfold watch at 1. cbn. by destruct (eh X e w). Qed.

Lemma bind_sys_bind {X A B} (e : envE X) (k : X -> prog sysE A) (k' : A -> prog sysE B) :
  bind (bind (sys e) k) k' = bind (sys e) (fun x => bind (k x) k').
Proof. reflexivity. Qed.

Lemma normalize_idem raw id : normalizeSnapshotID raw = Ok id -> normalizeSnapshotID id = Ok id.
Proof.
  unfold normalizeSnapshotID. destruct (is_empty (TrimSpace raw)) eqn:E1; [done|].
  destruct (negb (snapshotIDPattern (TrimSpace raw))) eqn:E2; [done|]. intros [= <-]. by rewrite TrimSpace_idem, E1, E2.
Qed.

Lemma named_meta_path wd id :
  rooted wd = true -> plain_name id = true -> named_meta (userSnapshotMetaPath wd id) /\ named_meta (userSnapshotMetaPath wd id +:+ ".tmp").
Proof.
  intros Hw Hid. rewrite userSnapshotMetaPath_names by done.
  change ["user-snapshots"; id; "meta.json"]%string with (["user-snapshots"; id]%string ++ ["meta.json"%string]).
  rewrite app_assoc, path_of_suffix. split; do 2 eexists; (split; [reflexivity|]); [by left|by right; left].
Qed.

Section endtoend.
Context {W : Type} (eh : env W) (files : W -> gmap string string).
Context (Hfs : file_system eh files).

(** A snapshot that was taken has left its metadata in their file. *)
Lemma snapshot_leaves_meta cfg l id name m s w s1 w1 :
  writes_no_meta eh files -> rooted (cfg_WorkDir cfg) = true -> plain_name id = true ->
  exec eh (createUserSnapshotFromSandbox cfg l id name) s w = (Done (Ok m), (s1, w1)) ->
  saved_as cfg id m /\ files w1 !! userSnapshotMetaPath (cfg_WorkDir cfg) id = Some (metaText m).
Proof.
  intros Hhttp Hw Hid Hrun. destruct (named_meta_path (cfg_WorkDir cfg) id Hw Hid) as [Hpath Htmp].
  destruct (ewp_exec _ (true_of files (userSnapshotMetaPath (cfg_WorkDir cfg) id +:+ ".tmp") (userSnapshotMetaPath (cfg_WorkDir cfg) id))
    eh _ _ s w (None, None) (fun X e w t => file_obs_true eh files Hfs Hhttp _ _ X e w t Htmp Hpath) (fun X e x w t H => H)
    (fwp_createUserSnapshot cfg id l name (None, None)) ltac:(by split) _ _ _ Hrun) as (t' & Ht & Hm & Hp).
  split; [done|]. by apply Ht.
Qed.

(** A restore that finds the metadata goes on with them. *)
Lemma restore_finds_meta cfg id m body raw s w t :
  userSnapshotMeta_ok m -> um_SnapshotID m = id -> normalizeSnapshotID raw = Ok id ->
  files w !! userSnapshotMetaPath (cfg_WorkDir cfg) id = Some (metaText m) ->
  decodeJSON (fun strict => dec_one strict "snapshot_id") EmptyString body = Some raw ->
  exists w', exec_watched restore_obs eh (handleSnapshotRestore cfg body) s w t = exec_watched restore_obs eh (restoreFrom cfg m) s w' t.
Proof.
  intros Hok Hid Hraw Hfile Hdec. exists (snd (eh _ (OsReadFile (userSnapshotMetaPath (cfg_WorkDir cfg) id)) w)).
  pose proof (normalize_idem _ _ Hraw) as Hn.
  unfold handleSnapshotRestore, loadUserSnapshotMeta. rewrite Hdec, Hraw, Hn.
  rewrite bind_sys_bind, exec_watched_sys, (fs_read _ _ Hfs _ _ _ Hfile). unfold metaText.
  rewrite (unmarshal_marshal _ _ _ m);
    [|apply enc_userSnapshotMeta_ints|by apply enc_userSnapshotMeta_utf8|by apply dec_enc_userSnapshotMeta].
  rewrite Hid, (normalize_trim _ Hn). cbn [restore_obs restore_step]. by rewrite app_nil_r.
Qed.
End endtoend.

(** C6. A snapshot and its restore, end to end, over a file system that keeps
    what it is given, and where Firecracker writes no metadata file.  When createUserSnapshotFromSandbox succeeded under id,
    and the metadata file is still what it was then, a request to restore id (in
    any spelling that normalises to it) reads the metadata back as they were
    saved, returns, and is answered 409 if the base image has another lineage;
    otherwise it clones the disk and loads the state and the memory of that
    very snapshot and answers 200, or answers an error, having done a first part
    of this. *)
Theorem snapshot_restored {W} (eh : env W) files clk cfg cfg' l id name m body raw s w s1 w1 s2 w2 :
  file_system eh files -> writes_no_meta eh files -> clocked eh clk -> rooted (cfg_WorkDir cfg) = true ->
  exec eh (createUserSnapshotFromSandbox cfg l id name) s w = (Done (Ok m), (s1, w1)) -> userSnapshotMeta_ok m ->
  let path := userSnapshotMetaPath (cfg_WorkDir cfg) id in
  files w2 !! path = files w1 !! path -> cfg_WorkDir cfg' = cfg_WorkDir cfg ->
  decodeJSON (fun strict => dec_one strict "snapshot_id") EmptyString body = Some raw -> normalizeSnapshotID raw = Ok id ->
  saved_as cfg id m
  /\ let '(o, (_, _, t)) := exec_watched restore_obs eh (handleSnapshotRestore cfg' body) s2 w2 [] in
     o = Blocked \/ o = Done tt /\ restore_answer cfg' m t.
Proof.
  intros Hfs Hhttp Hc Hrooted Hrun Hok path Hpath Hwd Hdec Hraw.
  destruct (snapshot_leaves_meta eh files Hfs cfg l id name m s w s1 w1 Hhttp Hrooted (normalizeSnapshotID_plain _ _ Hraw) Hrun) as [Hm Hfile]. split; [exact Hm|].
  fold path in Hfile. unfold path in Hpath, Hfile. rewrite <- Hwd in Hpath, Hfile. rewrite Hfile in Hpath.
  pose proof (timed_exec eh clk _ _ s2 w2 Hc (timed_handleSnapshotRestore cfg' body)) as Ht.
  rewrite (exec_watched_exec restore_obs eh _ s2 w2 []) in Ht.
  destruct (restore_finds_meta eh files Hfs cfg' id m body raw s2 w2 [] Hok (proj1 Hm) Hraw Hpath Hdec) as [w3 Hw3].
  rewrite Hw3 in *. pose proof (ewp_watched restore_obs eh _ _ s2 w3 [] (rwp_restoreFrom cfg' m)) as H.
  destruct (exec_watched _ _ _ _ _ _) as [o [[s' w'] t]]. cbn [fst] in Ht.
  destruct Ht as [->|Ht]; [by left|right]. by destruct o as [[]| | |].
Qed.

(** ** Witness *)

(** The disk of SnapshotFacts, with a guest that answers. *)
Definition guestDisk (X : Type) (e : envE X) (w : gmap string string * Z) : X * (gmap string string * Z) :=
  match e in envE X return X * (gmap string string * Z) with
  | OsWriteFile p d => disk _ (OsWriteFile p d) w
  | OsRename a b => disk _ (OsRename a b) w
  | OsReadFile p => disk _ (OsReadFile p) w
  | e => let '(x, n) := answering okResponse _ e (snd w) in (x, (fst w, n))
  end.

Lemma guestDisk_file_system : file_system guestDisk fst.
Proof. destruct disk_file_system. by split. Qed.

Lemma guestDisk_http : writes_no_meta guestDisk fst.
Proof. done. Qed.

Lemma guestDisk_clocked : clocked guestDisk snd.
Proof.
  split; [|cbn; lia|cbn; lia]. intros X e w. destruct e; cbn; try case_match; cbn; lia.
Qed.

Definition restore_body : string := marshal (JObj [("snapshot_id"%string, JStr " us-1 ")]).

Definition taken_meta : userSnapshotMeta :=
  MkUserSnapshotMeta "us-1" "nightly" (FormatRFC3339Nano 8) "/w/user-snapshots/us-1/state.snap"
    "/w/user-snapshots/us-1/mem.snap" "/w/user-snapshots/us-1/disk.ext4" "base-1" "sb-1" "/w/sandboxes/sb-1/rootfs.ext4".

(** A snapshot, then a restore in the state that it left: answered 200. *)
Lemma snapshot_restored_witness :
  let '(o1, (s1, w1)) := exec guestDisk (createUserSnapshotFromSandbox sample_cfg 0%nat "us-1" "nightly") one_sandbox (∅, 0) in
  o1 = Done (Ok taken_meta)
  /\ let '(o, (_, _, t)) := exec_watched restore_obs guestDisk (handleSnapshotRestore sample_cfg restore_body) s1 w1 [] in
     last t = Some (Answered 200 (PSnapshotRestore "sb-2")) /\ (o = Blocked \/ o = Done tt /\ restore_answer sample_cfg taken_meta t).
Proof.
  assert (Hok : userSnapshotMeta_ok taken_meta) by (repeat split; vm_compute; reflexivity).
  assert (Hdec : decodeJSON (fun strict => dec_one strict "snapshot_id") EmptyString restore_body = Some " us-1 "%string) by (vm_compute; reflexivity).
  assert (Hraw : normalizeSnapshotID " us-1 " = Ok "us-1"%string) by (vm_compute; reflexivity).
  assert (Hl : (let sw := snd (exec guestDisk (createUserSnapshotFromSandbox sample_cfg 0%nat "us-1" "nightly") one_sandbox (∅, 0)) in
    last (snd (snd (exec_watched restore_obs guestDisk (handleSnapshotRestore sample_cfg restore_body) (fst sw) (snd sw) []))))
    = Some (Answered 200 (PSnapshotRestore "sb-2"))) by (vm_compute; reflexivity).
  destruct (exec guestDisk (createUserSnapshotFromSandbox _ _ _ _) _ _) as [o1 [s1 w1]] eqn:E.
  assert (o1 = Done (Ok taken_meta)) as Ho by (apply (f_equal fst) in E; cbn [fst] in E; subst o1; vm_compute; reflexivity).
  split; [exact Ho|]. subst o1.
  pose proof (snapshot_restored guestDisk fst snd sample_cfg sample_cfg 0%nat "us-1" "nightly" taken_meta restore_body " us-1 "
    one_sandbox (∅, 0) s1 w1 s1 w1 guestDisk_file_system guestDisk_http guestDisk_clocked eq_refl E Hok eq_refl eq_refl Hdec Hraw) as [_ H].
  cbn [fst snd] in Hl.
  destruct (exec_watched _ _ _ _ _ _) as [o [[s2 w2] t]]. split; [exact Hl|exact H].
Defined.
