(* ===== verification/SnapshotStore.v ===== *)
(** * The snapshot directory as a store

    The abstract state is a map from the ids of user snapshots to their
    metadata; the files under WorkDir/user-snapshots implement it.  It outlives
    the server, and is shared by all its requests. *)

From Stdlib Require Import Sorted.
From S2P Require Import Prelude PathFacts Places Sample Web SnapshotFacts SnapshotRestore.

(** ** The file system *)

(** The files that an operation may change.  Firecracker, which runs behind
    HttpDo and StartProcess, writes no metadata file. *)
Definition touches (X : Type) (e : envE X) (q : string) : Prop :=
  match e with
  | OsWriteFile p _ | OsRemove p | OsOpenTrunc p => q = p
  | OsRename a b => q = a \/ q = b
  | OsRemoveAll p => under p q
  | RunCommand _ args => last args = Some q
  | HttpDo _ _ _ _ _ | StartProcess _ _ _ => ~ named_meta q
  | _ => False
  end.

(** The documented behaviour of the host on files. *)
Record durable {W} (eh : env W) (files : W -> gmap string string) : Prop := {
  du_fs : file_system eh files;
  du_frame : forall X (e : envE X) w q, ~ touches X e q -> files (snd (eh _ e w)) !! q = files w !! q;
  du_missing : forall p w, files w !! p = None -> exists err, fst (eh _ (OsReadFile p) w) = Err err;
  du_removeAll : forall p w q, fst (eh _ (OsRemoveAll p) w) = None -> under p q -> files (snd (eh _ (OsRemoveAll p) w)) !! q = None;
  du_entries : forall d w entries, fst (eh _ (OsReadDir d) w) = Ok entries ->
    NoDup (map fst entries)
    /\ forall n r, no_slash n = true -> is_Some (files w !! (d +:+ "/" +:+ n +:+ "/" +:+ r)) -> (n, true) ∈ entries;
  du_noDir : forall d w err, fst (eh _ (OsReadDir d) w) = Err err -> errorsIs err ENOENT = true ->
    forall q, under d q -> files w !! q = None;
}.

(** ** The store *)

Definition store := string -> option userSnapshotMeta.

Definition readMeta (id raw : string) : option userSnapshotMeta :=
  match Unmarshal dec_userSnapshotMeta zero_userSnapshotMeta raw with
  | Some m => Some (if is_empty (TrimSpace (um_SnapshotID m)) then with_SnapshotID id m else m)
  | None => None
  end.

Definition stored (cfg : config) (F : gmap string string) : store := fun id =>
  match F !! userSnapshotMetaPath (cfg_WorkDir cfg) id with Some raw => readMeta id raw | None => None end.

(** The snapshot that a name stands for. *)
Definition named (M : store) : store := fun raw =>
  match normalizeSnapshotID raw with Ok id => M id | Err _ => None end.

(** The snapshots that a request may write or delete. *)
Definition writes (r : route) (s : server) (id : string) : Prop :=
  match r with
  | RSnapshotCreate _ => id = "us-" +:+ itoa (uint64 (s_nextSnapshotID s + 1))
  | RSnapshotDelete body =>
      exists raw, decodeJSON (fun strict => dec_one strict "snapshot_id") EmptyString body = Some raw /\ normalizeSnapshotID raw = Ok id
  | _ => False
  end.

(** What the answers of a request say of the store before it, [M], and after
    it, [M']. *)
Definition answered (cfg : config) (r : route) (s : server) (M M' : store) (rs : list (Z * payload)) : Prop :=
  match r with
  | RSnapshotCreate _ =>
      forall id, rs = [(200, PSnapshotCreate id)] ->
        writes r s id /\ exists m, saved_as cfg id m /\ (userSnapshotMeta_ok m -> M' id = Some m)
  | RSnapshotDelete _ =>
      exists status p, rs = [(status, p)] /\ status ∈ [200; 400; 500]
        /\ (status = 400 <-> forall id, ~ writes r s id) /\ (status = 200 -> forall id, writes r s id -> M' id = None)
  | RSnapshotRestore body =>
      forall raw id, decodeJSON (fun strict => dec_one strict "snapshot_id") EmptyString body = Some raw -> normalizeSnapshotID raw = Ok id ->
        match M id with
        | None => exists t, rs = [(404, PError t)]
        | Some m => forall msg, checkLineage cfg m = Some msg -> rs = [(409, PError msg)]
        end
  | RSnapshotList =>
      (exists t, rs = [(500, PError t)])
      \/ exists l names, rs = [(200, PSnapshots l)] /\ Sorted listed_before l /\ NoDup names /\ l ≡ₚ omap (named M) names
           /\ forall id, normalizeSnapshotID id = Ok id -> is_Some (M id) -> id ∈ names
  | _ => True
  end.

(** ** What a request does not touch *)

Lemma not_prefix {A} (pre : list A) a b l1 l2 r : a <> b -> pre ++ a :: l1 <> (pre ++ b :: l2) ++ r.
Proof. rewrite <- app_assoc. intros Hab H. apply app_inv_head in H. by injection H as ->. Qed.

Lemma place_not_nil cfg ids cs : place cfg ids cs -> cs <> [].
Proof. by intros [] [_ E]%app_eq_nil. Qed.

Section frame.
Context (cfg : config) (ids : string -> Prop).
Context (Hwork : rooted (cfg_WorkDir cfg) = true).
(** Neither directory is inside the other. *)
Context (Happart : forall r1 r2, clean_comps (cfg_CgroupRoot cfg) ++ r1 <> clean_comps (cfg_WorkDir cfg) ++ r2).

Lemma ours_not_above p id :
  ours cfg ids p -> plain_name id = true -> ~ ids id -> ~ under p (userSnapshotMetaPath (cfg_WorkDir cfg) id).
Proof.
  intros (cs & -> & Hcs & Hp) Hid Hn Hu. rewrite userSnapshotMetaPath_names in Hu by done.
  apply under_names in Hu as [r Hr]; [|by eapply place_not_nil|by intros [_ E]%app_eq_nil|done|].
  - destruct Hp as [i rest Hi|i rest Hi|rest|i rest Hi].
    + by eapply not_prefix in Hr.
    + rewrite <- app_assoc in Hr. apply app_inv_head in Hr. injection Hr as <- _. done.
    + by eapply not_prefix in Hr.
    + rewrite <- app_assoc in Hr. symmetry in Hr. by apply Happart in Hr.
  - apply Forall_app. split; [by apply clean_comps_plain|by repeat constructor].
Qed.

Lemma confined_touches X (e : envE X) id :
  confined cfg ids X e -> plain_name id = true -> ~ ids id -> ~ touches X e (userSnapshotMetaPath (cfg_WorkDir cfg) id).
Proof.
  intros He Hid Hn. pose proof (fun p H => ours_not_above p id H Hid Hn) as Hu.
  assert (forall p, ours cfg ids p -> userSnapshotMetaPath (cfg_WorkDir cfg) id <> p) as Hne.
  { intros p Hp E. apply (Hu p Hp). by left. }
  pose proof (proj1 (named_meta_path (cfg_WorkDir cfg) id Hwork Hid)) as Hm.
  destruct e; cbn in *; try (by intros []); try (by apply Hne); try (by apply Hu).
  - destruct He as [He| ->]; [by apply Hne|]. intros E. rewrite userSnapshotMetaPath_names in E by done.
    apply (f_equal (fun p => last (clean_comps p))) in E. rewrite clean_comps_path_of in E.
    + rewrite last_app in E. vm_compute in E. done.
    + apply Forall_app. split; [by apply clean_comps_plain|by repeat constructor].
  - destruct He as [Ha Hb]. intros [E|E]; [exact (Hne _ Ha E)|exact (Hne _ Hb E)].
  - destruct He as (-> & mode & src & dst & -> & Hd). cbn. intros [= E]. by apply (Hne _ Hd).
Qed.
End frame.

Lemma recording_snd {W} (eh : env W) X (e : envE X) wr :
  recording eh _ e wr = (fst (eh _ e (fst wr)), (snd (eh _ e (fst wr)), snd wr ++ sent e)).
Proof. unfold recording. by destruct (eh X e (fst wr)). Qed.

(** A snapshot's metadata file is as in [F]. *)
Definition unchanged (cfg : config) (ids : string -> Prop) (F F' : gmap string string) : Prop :=
  forall id, plain_name id = true -> ~ ids id ->
    F' !! userSnapshotMetaPath (cfg_WorkDir cfg) id = F !! userSnapshotMetaPath (cfg_WorkDir cfg) id.

(** The names of the directories among the entries of a directory. *)
Definition directories (entries : list (string * bool)) : list string :=
  omap (fun e : string * bool => if snd e then Some (fst e) else None) entries.

Lemma directories_spec n entries : n ∈ directories entries <-> (n, true) ∈ entries.
Proof.
  unfold directories. rewrite list_elem_of_omap. split.
  - by intros ([x []] & H & [= ->]).
  - intros H. by exists (n, true).
Qed.

Lemma directories_NoDup entries : NoDup (map fst entries) -> NoDup (directories entries).
Proof.
  induction entries as [|[n b] entries IH]; cbn; [constructor|]. intros [Hn He]%NoDup_cons. specialize (IH He).
  destruct b; cbn; [|done]. apply NoDup_cons. split; [|done]. intros H%directories_spec. apply Hn.
  apply list_elem_of_fmap. by exists (n, true).
Qed.

Section store.
Context {W : Type} (eh : env W) (files : W -> gmap string string) (Hd : durable eh files) (cfg : config).
Context (Hwork : rooted (cfg_WorkDir cfg) = true) (Hcgroup : rooted (cfg_CgroupRoot cfg) = true).
Context (Happart : forall r1 r2, clean_comps (cfg_CgroupRoot cfg) ++ r1 <> clean_comps (cfg_WorkDir cfg) ++ r2).

Lemma keeps_unchanged ids {A} (p : prog sysE A) s wr F :
  keeps cfg ids p -> heap_located cfg s -> unchanged cfg ids F (files (fst wr)) ->
  let '(_, (s', wr')) := exec (recording eh) p s wr in heap_located cfg s' /\ unchanged cfg ids F (files (fst wr')).
Proof.
  intros Hp Hs HF.
  apply (spares_exec (confined cfg ids) (storing cfg) (holding cfg) (recording eh)
    (fun s wr => heap_located cfg s /\ unchanged cfg ids F (files (fst wr)))); [| |exact Hp|by split].
  - intros X m s1 w1 x s1' Hm Hstep [H1 H2]. destruct (mem_step_located cfg m s1 x s1' Hm Hstep H1). by split_and!.
  - intros X e s1 w1 He [H1 H2]. split; [done|]. intros id Hid Hn. rewrite recording_snd. cbn [fst snd].
    rewrite (du_frame _ _ Hd) by (by apply (confined_touches cfg ids)). by apply H2.
Qed.

Lemma unchanged_stored ids F F' id :
  unchanged cfg ids F F' -> normalizeSnapshotID id = Ok id -> ~ ids id -> stored cfg F' id = stored cfg F id.
Proof. intros HF Hid Hn. unfold stored. by rewrite HF by (by eapply normalizeSnapshotID_plain || done). Qed.

(** The metadata that a request reads. *)
Lemma exec_loadMeta {A} name (k : result userSnapshotMeta -> prog sysE A) s wr :
  exists w' r, files w' = files (fst wr)
    /\ exec (recording eh) (bind (loadUserSnapshotMeta cfg name) k) s wr = exec (recording eh) (k r) s (w', snd wr)
    /\ match named (stored cfg (files (fst wr))) name with Some m => r = Ok m | None => exists err, r = Err err end.
Proof.
  destruct wr as [w0 rs0]. unfold loadUserSnapshotMeta, named. destruct (normalizeSnapshotID name) as [id|err].
  2:{ exists w0, (Err err). split; [done|]. split; [reflexivity|by eexists]. }
  cbv zeta. rewrite bind_sys_bind, exec_sys, recording_snd. cbn [fst snd sent]. rewrite app_nil_r.
  set (p := userSnapshotMetaPath (cfg_WorkDir cfg) id).
  exists (snd (eh _ (OsReadFile p) w0)).
  assert (files (snd (eh _ (OsReadFile p) w0)) = files w0) as HF.
  { apply map_eq. intros q. apply (du_frame _ _ Hd). intros []. }
  unfold stored. fold p. destruct (files w0 !! p) as [raw|] eqn:Hp.
  - rewrite (fs_read _ _ (du_fs _ _ Hd) _ _ _ Hp). unfold readMeta. destruct (Unmarshal _ _ raw) as [m|]; eexists; split_and!; try done; by eexists.
  - destruct (du_missing _ _ Hd _ _ Hp) as [err ->]. eexists. split_and!; [done..|]. by eexists.
Qed.

Lemma exec_loadEntries entries s wr :
  exists w', files w' = files (fst wr)
    /\ exec (recording eh) (loadEntries cfg entries) s wr
       = (Done (omap (named (stored cfg (files (fst wr)))) (directories entries)), (s, (w', snd wr))).
Proof.
  revert wr. induction entries as [|[name []] entries IH]; intros wr; cbn [loadEntries omap list_omap fst snd].
  - exists (fst wr). by destruct wr.
  - destruct (exec_loadMeta name (fun r => let! out := loadEntries cfg entries in Ret (match r with Ok meta => meta :: out | Err _ => out end)) s wr)
      as (w1 & r & HF & -> & Hr). rewrite exec_bind.
    destruct (IH (w1, snd wr)) as (w2 & HF2 & ->). cbn [fst snd] in *. rewrite HF in *. exists w2. split; [done|].
    cbv beta iota. rewrite exec_ret. unfold directories. cbn. destruct (named _ name) as [m|]; [by subst r|]. by destruct Hr as [err ->].
  - apply IH.
Qed.
(** *** The answers *)

Lemma exec_reply status p s wr :
  exists w', files w' = files (fst wr) /\ exec (recording eh) (writeJSON status p) s wr = (Done tt, (s, (w', snd wr ++ [(status, p)]))).
Proof.
  exists (snd (eh _ (WriteJSON status p) (fst wr))). split.
  - apply map_eq. intros q. apply (du_frame _ _ Hd). intros [].
  - unfold writeJSON, exec. cbn. rewrite recording_snd. cbn. by destruct (fst (eh _ _ _)).
Qed.

Lemma recording_file_system : file_system (recording eh) (fun wr => files (fst wr)).
Proof.
  destruct (du_fs _ _ Hd) as [H1 H2 H3].
  split; intros *; rewrite recording_snd; cbn [fst snd]; [apply H1|apply H2|apply H3].
Qed.

Lemma recording_no_meta : writes_no_meta (recording eh) (fun wr => files (fst wr)).
Proof. intros sock t m p b wr q Hq. rewrite recording_snd. cbn [fst snd]. apply (du_frame _ _ Hd). by intros H. Qed.

Definition answers (r : route) : Prop := forall s w,
  let '(o, (s', wr')) := exec (recording eh) (serve cfg r) s (w, []) in
  o = Done tt -> answered cfg r s (stored cfg (files w)) (stored cfg (files (fst wr'))) (snd wr').

Lemma metaPath_below id :
  plain_name id = true -> userSnapshotMetaPath (cfg_WorkDir cfg) id = userSnapshotsDir (cfg_WorkDir cfg) +:+ "/" +:+ id +:+ "/" +:+ "meta.json".
Proof.
  intros Hid. rewrite userSnapshotMetaPath_names by done. unfold userSnapshotsDir.
  rewrite (Join_names _ ["user-snapshots"%string]) by (done || by repeat constructor).
  change ["user-snapshots"; id; "meta.json"]%string with (["user-snapshots"%string] ++ [id] ++ ["meta.json"%string]).
  rewrite !app_assoc, !path_of_snoc by (by intros [_ E]%app_eq_nil). by rewrite !string_app_assoc.
Qed.

Lemma list_answers : answers RSnapshotList.
Proof.
  intros s w. cbn [serve]. unfold handleSnapshotList, listUserSnapshots, errorReply. rewrite bind_sys_bind, exec_sys, recording_snd.
  cbn [fst snd sent app]. set (d := userSnapshotsDir (cfg_WorkDir cfg)). set (w1 := snd (eh _ (OsReadDir d) w)).
  assert (files w1 = files w) as HF by (apply map_eq; intros q; apply (du_frame _ _ Hd); intros []).
  destruct (fst (eh _ (OsReadDir d) w)) as [entries|err] eqn:Hr.
  - rewrite !exec_bind. destruct (exec_loadEntries entries s (w1, [])) as (w2 & HF2 & ->). cbn [fst snd].
    cbv beta iota. rewrite exec_ret. cbv beta iota.
    destruct (exec_reply 200 (PSnapshots (sortNewest (omap (named (stored cfg (files w1))) (directories entries)))) s (w2, [])) as (w3 & HF3 & Hx).
    rewrite Hx. intros _. right. eexists _, (directories entries). split; [reflexivity|].
    destruct (sortNewest_spec (omap (named (stored cfg (files w1))) (directories entries))) as [Hp Hs].
    destruct (du_entries _ _ Hd _ _ _ Hr) as [Hnd Hin]. split; [exact Hs|]. split; [by apply directories_NoDup|].
    rewrite HF in *. split; [exact Hp|]. intros id Hid [m Hm]. apply directories_spec.
    unfold stored in Hm. rewrite metaPath_below in Hm by (by eapply normalizeSnapshotID_plain).
    apply (Hin id "meta.json"%string); [by eapply plain_no_slash, normalizeSnapshotID_plain|].
    fold d in Hm. destruct (files w !! (d +:+ _)); [by eexists|done].
  - destruct (errorsIs err ENOENT) eqn:He; cbn [bind].
    + destruct (exec_reply 200 (PSnapshots []) s (w1, [])) as (w3 & HF3 & ->). intros _. right. exists [], [].
      split_and!; [done|constructor|constructor|done|]. intros id Hid [m Hm]. exfalso.
      unfold stored in Hm. rewrite (du_noDir _ _ Hd _ _ _ Hr He) in Hm; [done|]. right.
      rewrite metaPath_below by (by eapply normalizeSnapshotID_plain). by eexists.
    + destruct (exec_reply 500 (PError (err_text (wrapf [Lit "read snapshot directory"] err))) s (w1, [])) as (w3 & HF3 & Hx). rewrite Hx. intros _. left. by eexists.
Qed.

Lemma metaPath_under id :
  plain_name id = true -> under (userSnapshotRootDir (cfg_WorkDir cfg) id) (userSnapshotMetaPath (cfg_WorkDir cfg) id).
Proof.
  intros Hid. right. exists "meta.json"%string. rewrite metaPath_below by done.
  unfold userSnapshotRootDir, userSnapshotsDir. rewrite (Join_under _ "user-snapshots" id) by done. by rewrite !string_app_assoc.
Qed.

Lemma delete_answers body : answers (RSnapshotDelete body).
Proof.
  intros s w. cbn [serve answered writes]. unfold handleSnapshotDelete, errorReply.
  destruct (decodeJSON _ _ body) as [raw|].
  2:{ destruct (exec_reply 400 (PError [Lit "invalid request body"]) s (w, [])) as (w1 & HF & ->). intros _. eexists _, _.
      split_and!; [done|set_solver| |done]. split; [|done]. by intros _ id (raw & ? & _). }
  destruct (normalizeSnapshotID raw) as [id|err] eqn:Hn.
  2:{ destruct (exec_reply 400 (PError (err_text err)) s (w, [])) as (w1 & HF & ->). intros _. eexists _, _.
      split_and!; [done|set_solver| |done]. split; [|done]. intros _ id (raw' & [= <-] & ?). congruence. }
  rewrite exec_sys, recording_snd. cbn [fst snd sent app].
  set (p := userSnapshotRootDir (cfg_WorkDir cfg) id).
  assert (forall status, status <> 400 -> status = 400 <-> forall i, ~ exists raw', Some raw = Some raw' /\ normalizeSnapshotID raw' = Ok i) as H400.
  { intros status Hs. split; [done|]. intros H. destruct (H id). by exists raw. }
  destruct (fst (eh _ (OsRemoveAll p) w)) as [e|] eqn:He.
  - destruct (exec_reply 500 (PError (Lit "delete snapshot: " :: err_text e)) s (snd (eh _ (OsRemoveAll p) w), [])) as (w2 & HF & Hx).
    rewrite Hx. intros _. eexists _, _. split_and!; [done|set_solver|by apply H400|done].
  - destruct (exec_reply 200 (PStatus "ok") s (snd (eh _ (OsRemoveAll p) w), [])) as (w2 & HF & ->).
    intros _. eexists _, _. split_and!; [done|set_solver|by apply H400|]. intros _ i (raw' & [= <-] & Hi). rewrite Hn in Hi. injection Hi as <-.
    cbn [fst snd] in *. unfold stored. rewrite HF, (du_removeAll _ _ Hd) by (done || by eapply metaPath_under, normalizeSnapshotID_plain). done.
Qed.

Lemma restore_answers body : answers (RSnapshotRestore body).
Proof.
  intros s w. cbn [serve answered]. destruct (exec _ _ _ _) as [o [s' wr']] eqn:E. intros -> raw id Hdec Hn.
  unfold handleSnapshotRestore in E. rewrite Hdec, Hn in E.
  match type of E with exec _ (bind _ ?k) _ _ = _ => destruct (exec_loadMeta id k s (w, [])) as (w1 & r & HF & Hx & Hr) end.
  rewrite Hx in E. unfold named in Hr. rewrite (normalize_idem _ _ Hn) in Hr. cbn [fst] in Hr.
  destruct (stored cfg (files w) id) as [m|].
  - subst r. intros msg Hmsg. rewrite Hmsg in E. unfold errorReply in E.
    destruct (exec_reply 409 (PError msg) s (w1, [])) as (w2 & _ & Hx2). cbn [snd] in E. rewrite Hx2 in E. by injection E as <- <-.
  - destruct Hr as [err ->]. unfold errorReply in E.
    destruct (exec_reply 404 (PError (err_text err)) s (w1, [])) as (w2 & _ & Hx2). cbn [snd] in E. rewrite Hx2 in E. injection E as <- <-. by eexists.
Qed.

(** *** The creation *)

Definition counted (s : server) : server :=
  MkServer (s_nextSandboxID s) (uint64 (s_nextSnapshotID s + 1)) (s_nextSubnet s) (s_sandboxes s) (s_heap s) (s_netnsPool s).

Definition freshID (s : server) : string := "us-" +:+ itoa (uint64 (s_nextSnapshotID s + 1)).

Lemma freshID_plain s : plain_name (freshID s) = true.
Proof. apply user_snapshot_plain. by apply Z.mod_pos_bound. Qed.

Lemma freshID_trim s : is_empty (TrimSpace (freshID s)) = false.
Proof.
  unfold freshID. rewrite TrimSpace_visible; [done|]. rewrite str_forall_app, itoa_visible; [done|]. by apply Z.mod_pos_bound.
Qed.

(** The request is refused, or takes a snapshot under the fresh id. *)
Lemma create_cases body s w :
  (exists status t, exec (recording eh) (handleSnapshotCreate cfg body) s (w, []) = exec (recording eh) (errorReply status t) s (w, []))
  \/ exists l name, exec (recording eh) (handleSnapshotCreate cfg body) s (w, [])
       = exec (recording eh) (try! meta := createUserSnapshotFromSandbox cfg l (freshID s) name catch err => errorReply 500 (err_text err) in
                              writeJSON 200 (PSnapshotCreate (um_SnapshotID meta))) (counted s) (w, []).
Proof.
  unfold handleSnapshotCreate. destruct (decodeJSON _ _ body) as [req|]; [|left; by do 2 eexists].
  destruct (is_empty _); [left; by do 2 eexists|].
  assert (forall (k : option loc -> prog sysE unit), exec (recording eh) (bind (memory (SandboxesGet (scq_SandboxID req))) k) s (w, [])
    = exec (recording eh) (k (s_sandboxes s !! scq_SandboxID req)) s (w, [])) as -> by done.
  destruct (s_sandboxes s !! _) as [l|]; [|left; by do 2 eexists]. right. exists l, (scq_Name req). reflexivity.
Qed.

Lemma create_frame body s w :
  heap_located cfg s ->
  let '(_, (s', wr')) := exec (recording eh) (handleSnapshotCreate cfg body) s (w, []) in
  heap_located cfg s' /\ unchanged cfg (writes (RSnapshotCreate body) s) (files w) (files (fst wr')).
Proof.
  intros Hs. assert (forall ids, unchanged cfg ids (files w) (files (fst (w, @nil (Z * payload))))) as Hw by done.
  destruct (create_cases body s w) as [(status & t & ->)|(l & name & ->)]; unfold errorReply, writeJSON; apply keeps_unchanged; try done.
  apply spares_bind; [by apply keeps_createUserSnapshot; [..|apply freshID_plain|]|]. intros [m|err]; by apply spares_sys.
Qed.

Lemma create_answers body : answers (RSnapshotCreate body).
Proof.
  intros s w. cbn [serve answered]. destruct (exec _ _ _ _) as [o [s' wr']] eqn:E. intros -> id Hrs.
  destruct (create_cases body s w) as [(status & t & Hx)|(l & name & Hx)]; rewrite Hx in E.
  - unfold errorReply in E. destruct (exec_reply status (PError t) s (w, [])) as (w2 & _ & Hx2). rewrite Hx2 in E.
    injection E as <- <-. by cbn in Hrs.
  - rewrite exec_bind in E.
    pose proof (spares_exec not_reply (@mapless) anything (recording eh) (fun _ wr => snd wr = [])) as Hsil.
    specialize (Hsil ltac:(done)). specialize (Hsil ltac:(intros X e s1 w1 He H; rewrite recording_snd; cbn in *; rewrite H; by destruct e) _
      (createUserSnapshotFromSandbox cfg l (freshID s) name) (counted s) (w, []) (silently_createUserSnapshot _ _ _ _) eq_refl).
    destruct (exec _ (createUserSnapshotFromSandbox _ _ _ _) _ _) as [[[m|err]| | |] [s1 wr1]] eqn:E1; try done; cbv beta iota in E.
    + destruct (exec_reply 200 (PSnapshotCreate (um_SnapshotID m)) s1 wr1) as (w2 & HF & Hx2). rewrite Hx2 in E. injection E as <- <-.
      rewrite Hsil in Hrs. cbn in Hrs. injection Hrs as Hid.
      destruct (snapshot_leaves_meta _ _ recording_file_system cfg l (freshID s) name m _ _ _ _ recording_no_meta Hwork (freshID_plain s) E1) as [Hm Hfile].
      pose proof Hm as (Hm1 & _). assert (id = freshID s) as -> by congruence. split; [done|]. exists m. split; [done|]. intros Hok.
      cbn [fst]. unfold stored. rewrite HF, Hfile. unfold readMeta, metaText.
      rewrite (unmarshal_marshal _ _ _ m);
        [|apply enc_userSnapshotMeta_ints|by apply enc_userSnapshotMeta_utf8|by apply dec_enc_userSnapshotMeta].
      rewrite Hm1. by rewrite freshID_trim.
    + unfold errorReply in E. destruct (exec_reply 500 (PError (err_text err)) s1 wr1) as (w2 & _ & Hx2). rewrite Hx2 in E.
      injection E as <- <-. rewrite Hsil in Hrs. by cbn in Hrs.
Qed.
End store.

(** C7. The snapshot directory implements a store of metadata, on a host whose
    files behave as documented and where the cgroup and the work directory are
    apart.  Whatever a request is and whatever Firecracker, the guests and the
    host answer: it changes the store at most at the id that it writes (the
    fresh id of a creation, the id in the body of a deletion), also when it
    does not return.  A creation that is answered 200 has stored metadata that
    name its files; its id is the counter of this server, whatever the store
    already holds there.  A deletion that is answered 200 has removed the id.
    A restore is answered 404 when the store does not have the id, and 409 on
    another lineage.  A listing holds what the store has, once for each
    directory, ordered by the text of the creation times. *)
Theorem snapshot_store {W} (eh : env W) (files : W -> gmap string string) cfg r s w :
  durable eh files -> rooted (cfg_WorkDir cfg) = true -> rooted (cfg_CgroupRoot cfg) = true ->
  (forall r1 r2, clean_comps (cfg_CgroupRoot cfg) ++ r1 <> clean_comps (cfg_WorkDir cfg) ++ r2) -> heap_located cfg s ->
  let '(o, (s', (w', rs))) := exec (recording eh) (serve cfg r) s (w, []) in
  let M := stored cfg (files w) in let M' := stored cfg (files w') in
  heap_located cfg s'
  /\ (forall id, normalizeSnapshotID id = Ok id -> ~ writes r s id -> M' id = M id)
  /\ (o = Done tt -> answered cfg r s M M' rs).
Proof.
  intros Hd Hw Hc Ha Hs.
  assert (let '(_, (s', wr')) := exec (recording eh) (serve cfg r) s (w, []) in
    heap_located cfg s' /\ unchanged cfg (writes r s) (files w) (files (fst wr'))) as Hframe.
  { destruct r as [| | |body| | |body|].
    4: by apply create_frame.
    6: apply keeps_unchanged; try done; apply keeps_handleDelete; try done; intros raw id ??; by exists raw.
    all: apply keeps_unchanged; try done; by apply keeps_serve_other. }
  assert (answers eh files cfg r) as Hans.
  { destruct r as [| | |body|body| |body|];
      [..|by apply create_answers|by apply restore_answers|by apply list_answers|by apply delete_answers|].
    all: clear; intros s0 w0; destruct (exec _ _ _ _) as [? [? ?]]; intros _; exact I. }
  specialize (Hans s w). destruct (exec _ _ _ _) as [o [s' [w' rs]]]. cbn [fst snd] in *. destruct Hframe as [H1 H2].
  split; [done|]. split; [|done]. intros id Hid Hn. by apply (unchanged_stored _ (writes r s)).
Qed.

(** ** Witness: a host with a file system *)

Lemma strip_sound base url r : strip base url = Some r -> url = base +:+ r.
Proof.
  revert url. induction base as [|c base IH]; intros url; cbn; [by intros [= ->]|]. destruct url as [|c' url]; [done|].
  destruct (Ascii.eqb_spec c c') as [->|]; [|done]. intros H. by rewrite (IH _ H).
Qed.

Definition underb (p q : string) : bool := (q =? p)%string || match strip (p +:+ "/") q with Some _ => true | None => false end.

Lemma underb_spec p q : underb p q = true <-> under p q.
Proof.
  unfold underb, under. rewrite orb_true_iff, String.eqb_eq. split; (intros [H|H]; [by left|right]).
  - destruct (strip _ q) as [r|] eqn:E; [|done]. apply strip_sound in E. exists r. by rewrite E, string_app_assoc.
  - destruct H as [r ->]. change (p +:+ "/" +:+ r) with (p +:+ ("/" +:+ r)). by rewrite <- string_app_assoc, strip_app.
Qed.

(** The directory of [d] that a file is in. *)
Definition subdirectory (d q : string) : option string :=
  match strip (d +:+ "/") q with
  | Some rest => match split_slash rest with n :: _ :: _ => Some n | _ => None end
  | None => None
  end.

Definition host (X : Type) (e : envE X) (w : gmap string string * Z) : X * (gmap string string * Z) :=
  match e in envE X return X * (gmap string string * Z) with
  | OsRemoveAll p => (None, (filter (fun kv => underb p (fst kv) = false) (fst w), snd w))
  | OsReadDir d => (Ok (map (fun n => (n, true)) (remove_dups (omap (subdirectory d) (map fst (map_to_list (fst w)))))), w)
  | e => guestDisk _ e w
  end.

Lemma host_durable : durable host fst.
Proof.
  split.
  - destruct guestDisk_file_system. by split.
  - intros X e [F n] q Hq. destruct e; cbn in Hq |- *; try done.
    + apply option_eq. intros x. rewrite map_lookup_filter_Some. split; [by intros [? _]|]. intros Hx. split; [done|]. cbn.
      destruct (underb p q) eqn:E; [by apply underb_spec in E|done].
    + rewrite lookup_insert_ne; [done|congruence].
    + destruct (F !! a) eqn:E; cbn; [|done]. rewrite lookup_insert_ne, lookup_delete_ne; naive_solver.
  - intros p [F n] Hp. cbn in *. rewrite Hp. by eexists.
  - intros p [F n] q _ Hu. cbn. apply map_lookup_filter_None. right. intros x _. cbn. apply underb_spec in Hu. by rewrite Hu.
  - intros d [F n] entries. cbn. intros [= <-]. split.
    + rewrite map_map. cbn. rewrite map_id. apply NoDup_remove_dups.
    + intros m r Hm [x Hx]. apply list_elem_of_fmap. exists m. split; [done|]. apply elem_of_remove_dups, list_elem_of_omap.
      eexists. split; [apply list_elem_of_fmap; eexists; split; [reflexivity|]; by apply elem_of_map_to_list|]. cbn.
      unfold subdirectory. change (d +:+ "/" +:+ m +:+ "/" +:+ r) with (d +:+ ("/" +:+ (m +:+ String "/" r))).
      rewrite <- string_app_assoc, strip_app. unfold split_slash. rewrite split_on_app by done. by destruct (split_on _ r) eqn:E; [apply split_on_some in E|].
  - intros d [F n] err. by cbn.
Qed.

(** A server that has just started, with a sandbox. *)
Definition restarted : server := MkServer 1 0 0 {["sb-1" := 0%nat]} [sample_sandbox] None.

Lemma restarted_located : heap_located sample_cfg restarted.
Proof.
  constructor; [|constructor]. split; [|done]. exists ["w"; "sandboxes"; "sb-1"]%string. split; [reflexivity|]. split; [by repeat constructor|].
  apply (in_sandbox sample_cfg none "sb-1" []). by exists 1.
Qed.

(** A snapshot us-1 that an earlier server has left. *)
Definition left_files : gmap string string := {[ "/w/user-snapshots/us-1/meta.json"%string := metaText taken_meta ]}.

Definition create_body : string := marshal (JObj [("sandbox_id"%string, JStr "sb-1"); ("name"%string, JStr "weekly")]).

(** The snapshot is lost: the first creation takes its id. *)
Lemma snapshot_store_witness :
  stored sample_cfg left_files "us-1" = Some taken_meta /\
  let '(o, (s', (w', rs))) := exec (recording host) (serve sample_cfg (RSnapshotCreate create_body)) restarted ((left_files, 0), []) in
  o = Done tt /\ rs = [(200, PSnapshotCreate "us-1")]
  /\ exists m, saved_as sample_cfg "us-1" m /\ (userSnapshotMeta_ok m -> stored sample_cfg (fst w') "us-1" = Some m).
Proof.
  split; [vm_compute; reflexivity|].
  assert (forall r1 r2, clean_comps (cfg_CgroupRoot sample_cfg) ++ r1 <> clean_comps (cfg_WorkDir sample_cfg) ++ r2) as Ha
    by (intros r1 r2; vm_compute; discriminate).
  pose proof (snapshot_store host fst sample_cfg (RSnapshotCreate create_body) restarted (left_files, 0) host_durable eq_refl eq_refl Ha restarted_located) as H.
  destruct (exec _ _ _ _) as [o [s' [w' rs]]] eqn:E. cbv zeta in H. destruct H as (_ & _ & H).
  assert (o = Done tt) as Ho by (apply (f_equal fst) in E; cbn [fst] in E; subst o; vm_compute; reflexivity).
  assert (rs = [(200, PSnapshotCreate "us-1")]) as Hrs by (apply (f_equal (fun x => snd (snd (snd x)))) in E; cbn [fst snd] in E; subst rs; vm_compute; reflexivity).
  split; [exact Ho|]. split; [exact Hrs|]. exact (proj2 (H Ho "us-1"%string Hrs)).
Defined.
