(* ===== verification/Refusals.v ===== *)
(** * The requests that are refused

    Which requests the server refuses, with which status and text, as a
    function of the request and of the memory of the server, and for a restore
    also of the metadata that it reads.  A refused request does nothing else but
    answer; and a request that is not refused is answered with 200 or 500, once
    when its handler returns and not at all when it panics. *)

From S2P Require Import Prelude Interleave Sample Timed Web.

(** ** The refusals *)

Definition badBody : Z * list piece := (400, [Lit "invalid request body"]).
Definition noSandboxID : Z * list piece := (400, [Lit "sandbox_id is required"]).
Definition notFound : Z * list piece := (404, [Lit "sandbox not found"]).
Definition closing : Z * list piece := (409, [Lit "sandbox is closing"]).

(** An exec that was admitted, of a command that cannot be run. *)
Definition refusedCommand (cfg : config) (req : execRequest) : option (Z * list piece) :=
  match chooseShell req with
  | inl msg => Some (400, msg)
  | inr useShell =>
      if bool_decide (cfg_ExecTransport cfg = "ssh"%string) then
        if useShell then None else Some (400, [Lit "ssh transport only supports cmd (shell mode)"])
      else if bool_decide (cfg_ExecTransport cfg ∈ ["agent"%string; EmptyString]) then None
      else Some (400, [Lit "unknown exec transport "; Quoted (cfg_ExecTransport cfg)])
  end.

(** Of the sandbox with this id. *)
Definition refusedFor (s : server) (id : string) (k : sandbox -> option (Z * list piece)) : option (Z * list piece) :=
  if is_empty (TrimSpace id) then Some noSandboxID
  else match s_sandboxes s !! id with
       | None => Some notFound
       | Some l => match s_heap s !! l with Some sb => k sb | None => None end
       end.

Definition runningOnly (sb : sandbox) (k : option (Z * list piece)) : option (Z * list piece) :=
  if bool_decide (sb_state sb = sandboxStateRunning) then k else Some closing.

(** The refusal of a request; for a restore, what is refused before the
    metadata are read. *)
Definition refusal (cfg : config) (s : server) (r : route) : option (Z * list piece) :=
  match r with
  | RCreate | RSnapshotList | RHealthz => None
  | RExec body =>
      match decodeJSON dec_execRequest zero_execRequest body with
      | None => Some badBody
      | Some req => refusedFor s (eq_SandboxID req) (fun sb => runningOnly sb (refusedCommand cfg req))
      end
  | RDestroy body =>
      match decodeJSON (fun strict => dec_one strict "sandbox_id") EmptyString body with
      | None => Some badBody
      | Some id => refusedFor s id (fun sb => runningOnly sb None)
      end
  | RSnapshotCreate body =>
      match decodeJSON dec_snapshotCreateRequest (MkSnapCreateReq EmptyString EmptyString) body with
      | None => Some badBody
      | Some req => refusedFor s (scq_SandboxID req) (fun _ => None)
      end
  | RSnapshotRestore body | RSnapshotDelete body =>
      match decodeJSON (fun strict => dec_one strict "snapshot_id") EmptyString body with
      | None => Some badBody
      | Some raw => match normalizeSnapshotID raw with Ok _ => None | Err err => Some (400, err_text err) end
      end
  end.

(** The snapshot that a restore asks for. *)
Definition restoreID (body : string) : string :=
  match decodeJSON (fun strict => dec_one strict "snapshot_id") EmptyString body with
  | Some raw => match normalizeSnapshotID raw with Ok id => id | Err _ => EmptyString end
  | None => EmptyString
  end.

(** The refusal of a restore once the metadata were asked for. *)
Definition metaRefusal (cfg : config) (m : result userSnapshotMeta) : option (Z * list piece) :=
  match m with
  | Err err => Some (404, err_text err)
  | Ok meta => match checkLineage cfg meta with Some msg => Some (409, msg) | None => None end
  end.

(** What a refusal leaves of the memory: a destroy has taken the id of a closing
    sandbox out of the map. *)
Definition refused_server (s : server) (r : route) : server :=
  match r with
  | RDestroy body =>
      match decodeJSON (fun strict => dec_one strict "sandbox_id") EmptyString body with
      | Some id => if is_empty (TrimSpace id) then s
                   else MkServer (s_nextSandboxID s) (s_nextSnapshotID s) (s_nextSubnet s) (delete id (s_sandboxes s)) (s_heap s) (s_netnsPool s)
      | None => s
      end
  | _ => s
  end.

(** No count of execs is negative, and the map leads to sandboxes. *)
Definition sound_heap (s : server) : Prop :=
  Forall (fun sb => 0 <= sb_inFlightExec sb) (s_heap s)
  /\ forall id l, s_sandboxes s !! id = Some l -> is_Some (s_heap s !! l).

Lemma reachable_sound_heap cfg s0 c : initial s0 -> reachable cfg s0 c -> sound_heap (c_server c).
Proof.
  intros Hi Hr. destruct (invariant_reachable cfg s0 c Hi Hr) as (gs & _ & Hg). split.
  - apply Forall_lookup. intros l sb Hl. rewrite (gd_inFlight _ _ Hg l sb Hl). lia.
  - intros id l Hl. apply lookup_lt_is_Some_2, (live_valid _ gs l Hg). unfold live. rewrite (published_take _ _ _ Hl). by left.
Qed.

Definition served (status : Z) : Prop := status = 200 \/ status = 500.

(** ** Refusing *)

Section refuse.
Context {W : Type} (eh : env W) (cfg : config).

Definition refuses (w : W) (p : prog sysE unit) (s s' : server) (a : Z * list piece) : Prop :=
  exec (recording eh) p s (w, []) = (Done tt, (s', (snd (eh _ (WriteJSON (fst a) (PError (snd a))) w), [(fst a, PError (snd a))]))).

Lemma refuses_error w s status t : refuses w (errorReply status t) s s (status, t).
Proof. unfold refuses, errorReply, writeJSON, exec. cbn. unfold recording. cbn. by destruct (eh _ _ w) as [[] w']. Qed.

Lemma refuses_mem {X} w (m : memE X) k s x s1 s' a :
  mem_step m s = Some (x, s1) -> refuses w (k x) s1 s' a -> refuses w (bind (memory m) k) s s' a.
Proof. intros Hm H. unfold refuses, exec in *. cbn. rewrite Hm. exact H. Qed.

Lemma refuses_defer w d s s' a :
  mem_step d s = Some (tt, s') -> refuses w (defer (errorReply (fst a) (snd a)) (memory d)) s s' a.
Proof.
  intros Hd. unfold refuses, errorReply, writeJSON, exec. cbn. unfold recording at 1. cbn. destruct (eh _ _ w) as [[] w']. cbn.
  by rewrite Hd.
Qed.

Lemma admitted_refused l req a :
  refusedCommand cfg req = Some a -> execAdmitted cfg l req = errorReply (fst a) (snd a).
Proof.
  unfold refusedCommand, execAdmitted. destruct (chooseShell req) as [msg|useShell]; [by intros [= <-]|].
  case_bool_decide; [by destruct useShell; intros [= <-]|]. case_bool_decide as Ht; [done|]. intros [= <-].
  rewrite bool_decide_eq_false_2 by (intros E; apply Ht; rewrite E; by left).
  destruct (cfg_ExecTransport cfg) eqn:E; [|done]. destruct Ht. by right; left.
Qed.

Definition admitted (sb : sandbox) : sandbox := set_lifecycle (sb_state sb) (sb_inFlightExec sb + 1) sb.

Lemma lifecycle_back sb : 0 <= sb_inFlightExec sb -> finishExec (admitted sb) = sb.
Proof.
  intros H. unfold finishExec. cbn. rewrite (proj2 (Z.gtb_lt _ _)) by lia. destruct sb. unfold set_lifecycle. cbn. f_equal. cbn in *. lia.
Qed.

Lemma handleExec_refused s w body a :
  sound_heap s -> refusal cfg s (RExec body) = Some a -> refuses w (handleExec cfg body) s s a.
Proof.
  intros [Hh Hm]. unfold refusal, handleExec, refusedFor. destruct (decodeJSON _ _ body) as [req|]; [|intros [= <-]; apply refuses_error].
  destruct (is_empty _); [intros [= <-]; apply refuses_error|]. intros Ha. eapply refuses_mem; [reflexivity|].
  destruct (s_sandboxes s !! _) as [l|] eqn:Hl; [|injection Ha as <-; apply refuses_error].
  destruct (Hm _ _ Hl) as [sb Hsb]. rewrite Hsb in Ha. pose proof (proj1 (Forall_lookup _ _) Hh _ _ Hsb) as Hn. cbn in Hn.
  assert (l < length (s_heap s))%nat as Hlen by (by eapply lookup_lt_Some).
  rewrite <- (at_loc_id l sb s Hsb). eapply refuses_mem; [by apply on_sandbox_at|]. cbv beta.
  unfold tryStartExec, runningOnly in *. case_bool_decide; cbn [fst snd].
  - rewrite (admitted_refused l req a Ha). apply refuses_defer. cbn [mem_step]. rewrite on_sandbox_at by done. cbn [fst snd]. fold (admitted sb). by rewrite lifecycle_back.
  - injection Ha as <-. apply refuses_error.
Qed.

Lemma handleDestroy_refused s w body a :
  sound_heap s -> refusal cfg s (RDestroy body) = Some a -> refuses w (handleDestroy body) s (refused_server s (RDestroy body)) a.
Proof.
  intros [Hh Hm]. unfold refusal, refused_server, handleDestroy, refusedFor.
  destruct (decodeJSON _ _ body) as [id|]; [|intros [= <-]; apply refuses_error].
  destruct (is_empty _); [intros [= <-]; apply refuses_error|]. intros Ha. eapply refuses_mem; [reflexivity|].
  destruct (s_sandboxes s !! _) as [l|] eqn:Hl; [|injection Ha as <-; apply refuses_error].
  destruct (Hm _ _ Hl) as [sb Hsb]. rewrite Hsb in Ha.
  assert (l < length (s_heap s))%nat as Hlen by (by eapply lookup_lt_Some).
  set (s1 := upd_sandboxes _ s). assert (s_heap s1 !! l = Some sb) as Hsb1 by done.
  eapply refuses_mem.
  { cbn [mem_step]. rewrite <- (at_loc_id l sb s1 Hsb1). by apply on_sandbox_at. }
  unfold runningOnly, beginDestroy in *. case_bool_decide; [done|]. injection Ha as <-. cbn [fst snd negb].
  fold s1. rewrite (at_loc_id l sb s1 Hsb1). apply refuses_error.
Qed.

Lemma refusal_refuses s w r a :
  sound_heap s -> refusal cfg s r = Some a -> refuses w (serve cfg r) s (refused_server s r) a.
Proof.
  intros Hs Ha. destruct r as [|body|body|body|body| |body|]; try done; cbn [serve refused_server].
  - by apply handleExec_refused.
  - by apply handleDestroy_refused.
  - unfold refusal, handleSnapshotCreate, refusedFor in *. destruct (decodeJSON _ _ body) as [req|]; [|injection Ha as <-; apply refuses_error].
    destruct (is_empty _); [injection Ha as <-; apply refuses_error|]. eapply refuses_mem; [reflexivity|].
    destruct (s_sandboxes s !! _) as [l|] eqn:Hl; [|injection Ha as <-; apply refuses_error]. destruct (s_heap s !! l); done.
  - unfold refusal, handleSnapshotRestore in *. destruct (decodeJSON _ _ body) as [raw|]; [|injection Ha as <-; apply refuses_error].
    destruct (normalizeSnapshotID raw); [done|]. injection Ha as <-. apply refuses_error.
  - unfold refusal, handleSnapshotDelete in *. destruct (decodeJSON _ _ body) as [raw|]; [|injection Ha as <-; apply refuses_error].
    destruct (normalizeSnapshotID raw); [done|]. injection Ha as <-. apply refuses_error.
Qed.
End refuse.

(** ** Admission

    An exec that is not refused runs between the increment and the decrement of
    the count of its sandbox. *)

Lemma swp_handleExec {T} allowed (obs : forall X, envE X -> X -> T -> T) cfg body req l sb s t (R : outcome unit -> sandbox -> T -> Prop) :
  decodeJSON dec_execRequest zero_execRequest body = Some req -> s_sandboxes s !! eq_SandboxID req = Some l -> s_heap s !! l = Some sb ->
  refusal cfg s (RExec body) = None ->
  (refusedCommand cfg req = None ->
   swp allowed (envObs obs) (execAdmitted cfg l req)
     (fun o s1 t1 => o = OutOfFuel \/ ends o /\ exists sb1, s1 = at_loc l sb1 s /\ R o (finishExec sb1) t1) (at_loc l (admitted sb) s) t) ->
  swp allowed (envObs obs) (handleExec cfg body) (fun o s1 t1 => o = OutOfFuel \/ exists sb1, s1 = at_loc l sb1 s /\ R o sb1 t1) s t.
Proof.
  intros Hdec Hl Hsb Href Hwp. assert (l < length (s_heap s))%nat as Hlen by (by eapply lookup_lt_Some).
  unfold refusal, refusedFor in Href. unfold handleExec. rewrite Hdec in *. destruct (is_empty _); [done|].
  rewrite Hl, Hsb in Href. eapply swp_mem; [reflexivity|]. rewrite Hl. cbn [envObs]. unfold runningOnly in Href.
  case_bool_decide as Hrun; [|done]. rewrite <- (at_loc_id l sb s Hsb) at 1.
  eapply swp_mem; [by apply on_sandbox_at|]. cbv beta. unfold tryStartExec. rewrite bool_decide_eq_true_2 by done. cbn [fst snd envObs].
  apply swp_defer. eapply swp_mono; [|exact (Hwp Href)].
  intros o s1 t1 [->|(Ho & sb1 & -> & HR)]; [by left|]. destruct o; try done; cbn [swp_deferQ].
  - eapply swp_mem_end; [by apply on_sandbox_at|]. cbn [fst envObs swp_bindQ]. apply swp_ret. right. by eexists.
  - eapply swp_mem_end; [by apply on_sandbox_at|]. cbn [fst envObs swp_bindQ]. right. by eexists.
Qed.

(** ** Serving *)

Definition serving (X : Type) (e : envE X) : Prop := match e with WriteJSON status _ => served status | _ => True end.

Definition counting (X : Type) (m : memE X) : X -> Prop :=
  match m in memE X return X -> Prop with AddSandboxID => fun n => 0 <= n | _ => fun _ => True end.

Abbreviation serves_ := (spares serving (fun _ _ => True) counting).

Lemma silently_serves {A} (p : prog sysE A) : silently p -> serves_ p.
Proof. apply spares_weaken; [|done|done]. intros X e. by destruct e. Qed.

Ltac serves_side := first [exact I | by left | by right].
Ltac serves_call :=
  apply silently_serves; first [solve [auto using made_id with nocore spares] | apply silently_plain; solve [auto with nocore quiet]].
Ltac serves_steps := unfold errorReply, writeJSON; repeat spares_step_with serves_side serves_call.

Lemma serves_execOverSSH cfg l req : serves_ (execOverSSH cfg l req).
Proof. unfold execOverSSH, runSSHCommand. serves_steps. Qed.

Lemma serves_execOverAgent cfg l req b : serves_ (execOverAgent cfg l req b).
Proof. unfold execOverAgent, replyExec. serves_steps. Qed.

Lemma serves_admitted cfg l req : refusedCommand cfg req = None -> serves_ (execAdmitted cfg l req).
Proof.
  unfold refusedCommand, execAdmitted. destruct (chooseShell req) as [msg|useShell]; [done|].
  case_bool_decide; [destruct useShell; [intros _; apply serves_execOverSSH|done]|]. case_bool_decide as Ht; [intros _|done].
  assert (bool_decide (cfg_ExecTransport cfg = "agent"%string) || is_empty (cfg_ExecTransport cfg) = true) as ->.
  { apply orb_true_iff. rewrite bool_decide_eq_true. apply list_elem_of_In in Ht as [Ht|[Ht|[]]]; rewrite <- Ht; [by left|by right]. }
  apply serves_execOverAgent.
Qed.

Section served.
Context {W : Type} (eh : env W) (cfg : config).

Definition serves_run (p : prog sysE unit) (s : server) (w : W) : Prop :=
  let '(_, (_, (_, rs))) := exec (recording eh) p s (w, []) in Forall (fun a => served (fst a)) rs.

Lemma serves_serves_run p s w : serves_ p -> serves_run p s w.
Proof.
  intros Hp. unfold serves_run.
  pose proof (spares_exec serving (fun _ _ => True) counting (recording eh) (fun _ wr => Forall (fun a => served (fst a)) (snd wr))) as H.
  specialize (H ltac:(intros X m s1 w1 x s1' _ Hm HI; split; [|exact HI]; destruct m; try done; injection Hm as <- _; by apply Z.mod_pos_bound)).
  specialize (H ltac:(intros X e s1 [w1 rs1] He HI; unfold recording; destruct (eh X e _); cbn in *; apply Forall_app; split;
    [exact HI|destruct e; try constructor; [exact He|constructor]]) _ p s (w, []) Hp (Forall_nil_2 _)).
  by destruct (exec _ _ _ _) as [o [s' [w' rs]]].
Qed.

Lemma serves_run_mem {X} (m : memE X) k s w :
  (forall x s1, mem_step m s = Some (x, s1) -> serves_run (k x) s1 w) -> serves_run (bind (memory m) k) s w.
Proof.
  intros H. unfold serves_run, exec in *. cbn. destruct (mem_step m s) as [[x s1]|]; [by apply (H x s1)|constructor].
Qed.

Lemma refusedFor_none s id k l :
  refusedFor s id k = None -> s_sandboxes s !! id = Some l -> match s_heap s !! l with Some sb => k sb = None | None => True end.
Proof. unfold refusedFor. destruct (is_empty _); [done|]. intros H Hl. rewrite Hl in H. by destruct (s_heap s !! l). Qed.

Lemma not_refused_served s w r :
  match r with RSnapshotRestore _ => False | _ => True end -> refusal cfg s r = None -> serves_run (serve cfg r) s w.
Proof.
  destruct r as [|body|body|body|body| |body|]; try done; intros _ Hr; cbn [serve].
  - apply serves_serves_run. unfold handleCreate. serves_steps.
  - unfold refusal, handleExec in *. destruct (decodeJSON _ _ body) as [req|]; [|done].
    pose proof (refusedFor_none s (eq_SandboxID req)) as Hn. specialize (fun l => Hn _ l Hr). unfold refusedFor in Hr.
    destruct (is_empty _); [done|]. apply serves_run_mem. intros x s1 [= <- <-].
    destruct (s_sandboxes s !! _) as [l|] eqn:Hl; [|done]. specialize (Hn l eq_refl).
    apply serves_run_mem. cbn [mem_step]. unfold on_sandbox. destruct (s_heap s !! l) as [sb|]; [|done]. unfold runningOnly, tryStartExec in *.
    case_bool_decide; [|done]. intros x s1 [= <- <-]. apply serves_serves_run, spares_defer; [by apply serves_admitted|by apply spares_mem].
  - unfold refusal, handleDestroy in *. destruct (decodeJSON _ _ body) as [id|]; [|done].
    pose proof (refusedFor_none s id) as Hn. specialize (fun l => Hn _ l Hr). unfold refusedFor in Hr.
    destruct (is_empty _); [done|]. apply serves_run_mem. intros x s1 [= <- <-].
    destruct (s_sandboxes s !! _) as [l|] eqn:Hl; [|done]. specialize (Hn l eq_refl).
    apply serves_run_mem. cbn [mem_step]. unfold on_sandbox. cbn [upd_sandboxes s_heap]. destruct (s_heap s !! l) as [sb|]; [|done].
    unfold runningOnly, beginDestroy in *. case_bool_decide; [|done]. intros x s1 [= <- <-]. cbn [negb]. apply serves_serves_run. serves_steps.
  - unfold refusal, handleSnapshotCreate in *. destruct (decodeJSON _ _ body) as [req|]; [|done].
    unfold refusedFor in Hr. destruct (is_empty _); [done|]. apply serves_run_mem. intros x s1 [= <- <-].
    destruct (s_sandboxes s !! _) as [l|] eqn:Hl; [|done]. apply serves_serves_run. serves_steps.
  - apply serves_serves_run. unfold handleSnapshotList. serves_steps.
  - unfold refusal, handleSnapshotDelete in *. destruct (decodeJSON _ _ body) as [raw|]; [|done].
    destruct (normalizeSnapshotID raw); [|done]. apply serves_serves_run. serves_steps.
  - apply serves_serves_run. serves_steps.
Qed.
End served.

(** ** Answering once *)

Section once.
Definition once_post (X : Type) (e : sysE X) (t : list (Z * payload)) (x : X) (t' : list (Z * payload)) : Prop :=
  match e in sysE X return X -> Prop with
  | Sys e => fun _ => t' = t ++ sent e
  | Mem m => fun x => t' = t /\ counting _ m x
  end x.

Abbreviation owp := (wp (fun _ _ _ => True) once_post).

(** What may follow before the answer and what follows it. *)
Record awaiting {A} (Q : outcome A -> list (Z * payload) -> Prop) : Prop := {
  aw_panic : Q Panicked [];
  aw_fuel : Q OutOfFuel [];
  aw_blocked : Q Blocked [];
}.

Definition answering_ (Q : outcome unit -> list (Z * payload) -> Prop) : Prop :=
  awaiting Q /\ forall status p, Q (Done tt) [(status, p)].

Lemma owp_reply Q status p : answering_ Q -> owp (writeJSON status p) Q [].
Proof. intros [_ H]. split; [done|]. intros [] t' ->. apply H. Qed.

Lemma owp_error Q status t : answering_ Q -> owp (errorReply status t) Q [].
Proof. apply owp_reply. Qed.

Lemma owp_panic Q : answering_ Q -> owp (Panic : prog sysE unit) Q [].
Proof. by intros [[HP _ _] _]. Qed.

Lemma owp_mem {X A} (m : memE X) (k : X -> prog sysE A) Q t :
  (forall x, counting _ m x -> owp (k x) Q t) -> owp (bind (memory m) k) Q t.
Proof. intros H. split; [done|]. intros x t' [-> Hx]. by apply H. Qed.

Lemma owp_sys {X A} (e : envE X) (k : X -> prog sysE A) Q t :
  not_reply _ e -> (forall x, owp (k x) Q t) -> owp (bind (sys e) k) Q t.
Proof. intros He H. split; [done|]. intros x t' ->. destruct e; try done; rewrite app_nil_r; apply H. Qed.

(** A function that does not answer. *)
Lemma owp_call {A B} (p : prog sysE A) (f : A -> prog sysE B) Q :
  silently p -> awaiting Q -> (forall a, owp (f a) Q []) -> owp (bind p f) Q [].
Proof.
  intros Hp [HP HF HB] Hf. induction p as [a| | |X e k IH]; try done; [apply Hf|].
  apply spares_vis in Hp as [Hpre Hk]. destruct e as [X e|X m].
  - apply owp_sys; [exact Hpre|]. intros x. by apply IH, Hk.
  - apply (owp_mem m (fun x => bind (k x) f)). intros x _. by apply IH, Hk.
Qed.

Lemma awaiting_bind {A B} (f : A -> prog sysE B) Q :
  awaiting Q -> awaiting (bindQ (fun _ _ _ => True) once_post f Q).
Proof. by intros [HP HF HB]. Qed.

Lemma owp_defer_mem (p : prog sysE unit) (m : memE unit) Q :
  answering_ Q -> (forall Q', answering_ Q' -> owp p Q' []) -> owp (defer p (memory m)) Q [].
Proof.
  intros [[HP HF HB] HQ] Hp. apply wp_defer, Hp. split; [split|]; cbn [deferQ]; try done.
  - split; [done|]. by intros [] t' [-> _].
  - intros status p'. split; [done|]. intros [] t' [-> _]. apply HQ.
Qed.

Lemma owp_defer_sys (p : prog sysE unit) (e : envE unit) Q :
  not_reply _ e -> answering_ Q -> (forall Q', answering_ Q' -> owp p Q' []) -> owp (defer p (sys e)) Q [].
Proof.
  intros He [[HP HF HB] HQ] Hp. apply wp_defer, Hp.
  assert (sent e = []) as Es by by destruct e. split; [split|]; cbn [deferQ]; try done.
  - split; [done|]. intros x t' ->. by rewrite Es, app_nil_r.
  - intros status p'. split; [done|]. intros x t' ->. rewrite Es, app_nil_r. destruct x. apply HQ.
Qed.

Ltac owp_side := first [eassumption | eapply proj1; eassumption].

Ltac owp_step :=
  cbv beta iota zeta;
  lazymatch goal with
  | |- owp (writeJSON _ _) _ _ => apply owp_reply; owp_side
  | |- owp (errorReply _ _) _ _ => apply owp_error; owp_side
  | |- owp Panic _ _ => apply owp_panic; owp_side
  | |- owp (bind (Ret ?a) ?k) _ _ => change (bind (Ret a) k) with (k a)
  | |- owp (bind (memory _) _) _ _ => apply owp_mem; intros ? ?
  | |- owp (bind (sys _) _) _ _ => apply owp_sys; [exact I|intros ?]
  | |- owp (bind (when ?b _) _) _ _ => destruct b; cbn [when]
  | |- owp (bind (bind _ _) _) _ _ => apply owp_call; [spares_steps|owp_side|intros ?]
  | |- owp (bind (match ?x with _ => _ end) _) _ _ => destruct x eqn:?
  | |- owp (bind _ _) _ _ => apply owp_call; [first [solve [auto using made_id with nocore spares] | apply silently_plain; solve [auto with nocore quiet]]|owp_side|intros ?]
  | |- owp (defer _ (memory _)) _ _ => apply owp_defer_mem; [owp_side|intros ? ?]
  | |- owp (defer _ (sys _)) _ _ => apply owp_defer_sys; [exact I|owp_side|intros ? ?]
  | |- owp (match ?x with _ => _ end) _ _ => destruct x eqn:?
  end.

Lemma once_serve cfg r Q : answering_ Q -> owp (serve cfg r) Q [].
Proof.
  intros HQ. destruct r as [|body|body|body|body| |body|]; cbn [serve].
  - unfold handleCreate. repeat owp_step.
  - unfold handleExec, execAdmitted, execOverSSH, execOverAgent, replyExec. repeat owp_step.
  - unfold handleDestroy. repeat owp_step.
  - unfold handleSnapshotCreate. repeat owp_step.
  - unfold handleSnapshotRestore. repeat owp_step.
  - unfold handleSnapshotList. repeat owp_step.
  - unfold handleSnapshotDelete. repeat owp_step.
  - owp_step.
Qed.
End once.
(** ** The answers of a run *)

Section run.
Context {W : Type} (eh : env W) (cfg : config).

Lemma once_run p s w : (forall Q, answering_ Q -> wp (fun _ _ _ => True) once_post p Q []) ->
  let '(o, (_, (_, rs))) := exec (recording eh) p s (w, []) in
  match o with Done _ => length rs = 1%nat | Blocked => True | _ => rs = [] end.
Proof.
  intros Hp.
  set (Q := fun (o : outcome unit) (rs : list (Z * payload)) => match o with Done _ => length rs = 1%nat | Blocked => True | _ => rs = [] end).
  destruct (wp_sound (fun _ _ _ => True) once_post (handler (recording eh)) (fun (sw : server * (W * list (Z * payload))) t => snd (snd sw) = t))
    with (p := p) (Q := Q) (w := (s, (w, @nil (Z * payload)))) (s := @nil (Z * payload)) as [Hb|(rs & Hrs & HQ)]; [|apply Hp; split; [by split|done]|done|..].
  - intros X e [s1 [w1 rs1]] t x [s2 [w2 rs2]] <- _ Hh. destruct e as [X e|X m]; cbn in Hh.
    + unfold recording in Hh. cbn in Hh. destruct (eh X e w1) as [y w']. injection Hh as <- <- <- <-. by eexists.
    + destruct (mem_step m s1) as [[y s']|] eqn:Hm; [|done]. injection Hh as <- <- <- <-. eexists. split; [|done]. split; [done|].
      destruct m; try done. injection Hm as <- _. by apply Z.mod_pos_bound.
  - unfold exec. destruct (run _ _ _) as [o [s' [w' rs]]]. cbn in Hb. by subst o.
  - unfold exec. destruct (run _ _ _) as [o [s' [w' rs']]]. cbn in *. subst rs'. by destruct o.
Qed.

(** The answers are among 200 and 500, there is one when the handler returns,
    and none when it panics. *)
Definition answered (x : outcome unit * (server * (W * list (Z * payload)))) : Prop :=
  let '(o, (_, (_, rs))) := x in
  Forall (fun a => served (fst a)) rs
  /\ match o with Done _ => length rs = 1%nat | Blocked => True | _ => rs = [] end.

Lemma serve_answered r s w : serves_run eh (serve cfg r) s w -> answered (exec (recording eh) (serve cfg r) s (w, [])).
Proof.
  intros Hs. unfold serves_run in Hs. pose proof (once_run (serve cfg r) s w (once_serve cfg r)) as Ho. unfold answered.
  by destruct (exec _ _ _ _) as [o [s' [w' rs]]].
Qed.

(** The metadata are read at once. *)
Lemma loadMeta_run id s w :
  exists m w1, exec (recording eh) (loadUserSnapshotMeta cfg id) s (w, []) = (Done m, (s, (w1, []))).
Proof.
  unfold loadUserSnapshotMeta, exec. destruct (normalizeSnapshotID id) as [id'|e]; [|by do 2 eexists].
  cbn. unfold recording. cbn. destruct (eh _ _ w) as [[raw|e] w1]; cbn; [|by do 2 eexists].
  destruct (Unmarshal _ _ raw); by do 2 eexists.
Qed.

Lemma restore_run body s w m w1 :
  refusal cfg s (RSnapshotRestore body) = None ->
  exec (recording eh) (loadUserSnapshotMeta cfg (restoreID body)) s (w, []) = (Done m, (s, (w1, []))) ->
  exec (recording eh) (serve cfg (RSnapshotRestore body)) s (w, []) = exec (recording eh)
    (match m with
     | Err err => errorReply 404 (err_text err)
     | Ok meta =>
         match checkLineage cfg meta with
         | Some msg => errorReply 409 msg
         | None =>
             let! n := memory AddSandboxID in
             try! l := createSandboxFromUserSnapshot cfg ("sb-" +:+ itoa n) meta catch err => errorReply 500 (err_text err) in
             let! sb := memory (LoadSandbox l) in
             memory (SandboxesPut (sb_ID sb) l) ;;;
             writeJSON 200 (PSnapshotRestore (sb_ID sb))
         end
     end) s (w1, []).
Proof.
  unfold restoreID. cbn [refusal serve]. unfold handleSnapshotRestore.
  destruct (decodeJSON _ _ _) as [raw|]; [|done]. destruct (normalizeSnapshotID raw) as [id|e]; [|done]. intros _ Hm.
  rewrite exec_bind, Hm. by destruct m.
Qed.
End run.

(** C18. The requests that are refused, and how.  A request is refused exactly
    when [refusal] says so, of its body and of the map and states of the
    sandboxes: with that status (400, 404 or 409) and text.  Then it asks
    nothing else of the host, Firecracker or the guest, and the memory is as
    before (a destroy has taken a closing sandbox out of the map).  A restore
    that is not refused reads the metadata of its snapshot, and is refused, with
    404 when they cannot be read and with 409 when their lineage is not that of
    the server, again without doing anything else.  All others are answered
    with 200 or 500: once when the handler returns, and not at all when it
    panics. *)
Theorem refusals {W} (eh : env W) cfg r s w :
  sound_heap s ->
  match refusal cfg s r with
  | Some (status, t) =>
      exec (recording eh) (serve cfg r) s (w, [])
      = (Done tt, (refused_server s r, (snd (eh _ (WriteJSON status (PError t)) w), [(status, PError t)])))
  | None =>
      match r with
      | RSnapshotRestore body =>
          exists m w1, exec (recording eh) (loadUserSnapshotMeta cfg (restoreID body)) s (w, []) = (Done m, (s, (w1, [])))
          /\ match metaRefusal cfg m with
             | Some (status, t) =>
                 exec (recording eh) (serve cfg r) s (w, [])
                 = (Done tt, (s, (snd (eh _ (WriteJSON status (PError t)) w1), [(status, PError t)])))
             | None => answered (exec (recording eh) (serve cfg r) s (w, []))
             end
      | _ => answered (exec (recording eh) (serve cfg r) s (w, []))
      end
  end.
Proof.
  intros Hs. destruct (refusal cfg s r) as [[status t]|] eqn:Hr; [by apply (refusal_refuses eh cfg s w r (status, t))|].
  pose proof (not_refused_served eh cfg s w r) as H.
  destruct r as [|body|body|body|body| |body|]; try (apply serve_answered; by apply H).
  destruct (loadMeta_run eh cfg (restoreID body) s w) as (m & w1 & Hm). exists m, w1. split; [exact Hm|].
  pose proof (restore_run eh cfg body s w m w1 Hr Hm) as Hrun. unfold metaRefusal.
  destruct m as [meta|err]; [|rewrite Hrun; apply (refuses_error eh w1 s 404)].
  destruct (checkLineage cfg meta) as [msg|] eqn:Hl; [rewrite Hrun; apply (refuses_error eh w1 s 409)|].
  apply serve_answered. unfold serves_run. rewrite Hrun. apply serves_serves_run. serves_steps.
Qed.

(** ** Witness: an exec in a sandbox that is being destroyed *)

Definition closing_server : server :=
  MkServer 1 0 0 {["sb-1" := 0%nat]} [set_lifecycle sandboxStateClosing 1 sample_sandbox] None.

Definition exec_body : string := marshal (JObj [("sandbox_id"%string, JStr "sb-1"); ("cmd"%string, JStr "true")]).

Lemma refusals_witness :
  sound_heap closing_server
  /\ exec (recording happy) (serve sample_cfg (RExec exec_body)) closing_server (0, [])
     = (Done tt, (closing_server, (1, [(409, PError [Lit "sandbox is closing"])]))).
Proof.
  assert (sound_heap closing_server) as Hs.
  { split; [by repeat constructor|]. intros id l. cbn. intros [_ <-]%lookup_singleton_Some. by eexists. }
  split; [exact Hs|].
  pose proof (refusals happy sample_cfg (RExec exec_body) closing_server 0 Hs) as H.
  assert (refusal sample_cfg closing_server (RExec exec_body) = Some closing) as Hr by (vm_compute; reflexivity).
  rewrite Hr in H. exact H.
Defined.
