(* ===== verification/SshFacts.v ===== *)
(** * Commands over SSH

    What an exec does on the SSH transport, on every path: the dials, the
    session, the command and its end, what is closed, and the answer. *)

From S2P Require Import Prelude Sample Timed Refusals.

Inductive sshStep :=
| Dialed (addr : string) (client : option Z)
| Opened (client : Z) (session : option Z)
| Ran (session : Z) (cmd : string) (ok : bool)
| Awaited (session timeout : Z) (ended : option (option error))
| Killed (session : Z)
| Collected (session : Z) (output : string * string)
| ClosedSession (session : Z)
| ClosedClient (client : Z)
| Answered (status : Z) (p : payload).

Definition okOf (r : result Z) : option Z := match r with Ok x => Some x | Err _ => None end.

Definition ssh_obs (X : Type) (e : envE X) : X -> list sshStep -> list sshStep :=
  match e in envE X return X -> list sshStep -> list sshStep with
  | SshDial addr _ _ => fun r t => t ++ [Dialed addr (okOf r)]
  | SshNewSession c => fun r t => t ++ [Opened c (okOf r)]
  | SshStart s cmd => fun r t => t ++ [Ran s cmd (bool_decide (r = None))]
  | SshWait s d => fun r t => t ++ [Awaited s d r]
  | SshKill s => fun _ t => t ++ [Killed s]
  | SshOutput s => fun r t => t ++ [Collected s r]
  | SshCloseSession s => fun _ t => t ++ [ClosedSession s]
  | SshCloseClient c => fun _ t => t ++ [ClosedClient c]
  | WriteJSON status p => fun _ t => t ++ [Answered status p]
  | _ => fun _ t => t
  end.

(** What follows the end of the command, or of its time. *)
Definition command_end (session : Z) (ended : option (option error)) (t : list sshStep) : Prop :=
  let exited code := exists out err, t = [Collected session (out, err); Answered 200 (PExec (MkExecResp out err code))] in
  match ended with
  | None => exists txt, t = [Killed session; Answered 500 (PError txt)]
  | Some None => exited 0
  | Some (Some err) =>
      match asExitError err with
      | Some code => exited code
      | None => exists txt, t = [Answered 500 (PError txt)]
      end
  end.

(** An open session. *)
Definition session_log (cmd : string) (timeout session : Z) (t : list sshStep) : Prop :=
  (exists txt, t = [Ran session cmd false; Answered 500 (PError txt); ClosedSession session])
  \/ exists ended u, command_end session ended u /\ t = Ran session cmd true :: Awaited session timeout ended :: u ++ [ClosedSession session].

(** A connection. *)
Definition client_log (cmd : string) (timeout client : Z) (t : list sshStep) : Prop :=
  (exists txt, t = [Opened client None; Answered 500 (PError txt); ClosedClient client])
  \/ exists session u, session_log cmd timeout session u /\ t = Opened client (Some session) :: u ++ [ClosedClient client].

(** All of it: dials that failed, then an answer or a connection. *)
Definition ssh_log (addr cmd : string) (timeout : Z) (t : list sshStep) : Prop :=
  exists n, let fails := replicate n (Dialed addr None) in
    (exists txt, t = fails ++ [Answered 500 (PError txt)])
    \/ exists client u, client_log cmd timeout client u /\ t = fails ++ Dialed addr (Some client) :: u.

Section ssh.
Let hwp {A} := @swp (list sshStep) (fun _ _ _ _ => True) (envObs ssh_obs) A.

Ltac ssh_steps :=
  repeat first
    [ progress cbn [envObs ssh_obs okOf swp_bindQ swp_deferQ swp_deferWithQ when]
    | swp_step ].

Lemma hwp_wait ip key timeout dial Q s t :
  let dials n := t ++ replicate n (Dialed (JoinHostPort ip "22") None) in
  (forall n err, Q (Done (Err err)) s (dials n)) ->
  (forall n c, Q (Done (Ok c)) s (dials n ++ [Dialed (JoinHostPort ip "22") (Some c)])) ->
  (forall n, Q OutOfFuel s (dials n)) ->
  hwp (waitForExecSSH ip key timeout dial) Q s t.
Proof.
  intros dials He Hok Hf. unfold hwp, waitForExecSSH. swp_step. cbn [envObs ssh_obs].
  apply (swp_loop _ _ (fun _ s' t' => s' = s /\ exists n, t' = dials n)).
  3: { split; [done|]. exists 0%nat. unfold dials. by rewrite app_nil_r. }
  2: { intros _ s' t' [-> [n ->]]. apply Hf. }
  intros lastErr s' t' [-> [n ->]]. unfold dialSSH. ssh_steps; try apply He; try (by split; [|eexists]); try apply Hok.
  split; [done|]. exists (S n). unfold dials. by rewrite replicate_S_end, app_assoc.
Qed.

(** The leaves: the log as one list. *)
Ltac ssh_leaf :=
  ssh_steps; rewrite ?bool_decide_eq_true_2, ?bool_decide_eq_false_2 by done; rewrite <- ?app_assoc; cbn [app];
  repeat match goal with x : unit |- _ => destruct x end.

Lemma hwp_session timeout cmd session Q s t :
  (forall u, session_log cmd timeout session u -> Q (Done tt) s (t ++ u)) ->
  hwp (defer (
      let! (exitCode, err) := runSSHCommand session cmd timeout in
      match err with
      | Some err => errorReply 500 ([Lit "exec failed: "] ++ err_text err)
      | None =>
          let! (stdout, stderr) := sys (SshOutput session) in
          writeJSON 200 (PExec (MkExecResp stdout stderr exitCode))
      end)
    (sys (SshCloseSession session))) Q s t.
Proof.
  intros HQ. unfold hwp, runSSHCommand, errorReply, writeJSON. ssh_leaf; apply HQ.
  - left. by eexists.
  - right. eexists (Some (Some e)), [_; _]. split; [|reflexivity]. cbn. match goal with H : asExitError _ = _ |- _ => rewrite H end. by do 2 eexists.
  - right. eexists (Some (Some e)), [_]. split; [|reflexivity]. cbn. match goal with H : asExitError _ = _ |- _ => rewrite H end. by eexists.
  - right. eexists (Some None), [_; _]. split; [|reflexivity]. by do 2 eexists.
  - right. eexists None, [_; _]. split; [|reflexivity]. by eexists.
Qed.

Lemma hwp_execOverSSH cfg l req sb s :
  s_heap s !! l = Some sb ->
  hwp (execOverSSH cfg l req) (fun o s' t => o = OutOfFuel \/ o = Done tt /\ s' = s
    /\ ssh_log (JoinHostPort (sb_GuestIP sb) "22") (TrimSpace (eq_Cmd req)) (execTimeout cfg req) t) s [].
Proof.
  intros Hl. unfold hwp, execOverSSH. eapply swp_mem.
  { cbn [mem_step]. unfold on_sandbox. rewrite Hl. reflexivity. }
  change (upd_heap (<[l:=sb]>) s) with (at_loc l sb s). rewrite (at_loc_id l sb s Hl). cbn [envObs].
  apply swp_bind, hwp_wait; cbn [app]; [intros n err|intros n c|by left]; unfold errorReply, writeJSON; cbn [swp_bindQ].
  - ssh_leaf. right. split_and!; [done..|]. exists n. left. by eexists.
  - swp_step. swp_step; cbn [envObs ssh_obs okOf]. destruct x as [session|err]; cbv beta iota; cbn [okOf].
    + apply hwp_session. intros u Hu. ssh_leaf. right. split_and!; [done..|]. exists n. right. exists c.
      eexists. split; [right; exists session, u; by split|]. reflexivity.
    + ssh_leaf. right. split_and!; [done..|]. exists n. right. exists c. eexists. split; [left; by eexists|]. reflexivity.
Qed.
End ssh.

(** C20. An exec on the SSH transport, on every path, under a clock.  When it is
    not refused it returns, leaves the memory as it was, and does this: it
    dials the guest until a dial succeeds or the wait is over; it opens one
    session, starts the command once and waits for it at most the time of the
    request, and kills it exactly when that time is over; it answers once, 200
    with the collected output and the exit code when the command ended by
    itself, 500 otherwise (the output of a command that was killed is not
    sent); and it closes the session and the connection that it opened. *)
Theorem ssh_exec_paths {W} (eh : env W) clk cfg body req l sb s w :
  clocked eh clk -> cfg_ExecTransport cfg = "ssh"%string -> 0 <= sb_inFlightExec sb ->
  decodeJSON dec_execRequest zero_execRequest body = Some req ->
  s_sandboxes s !! eq_SandboxID req = Some l -> s_heap s !! l = Some sb -> refusal cfg s (RExec body) = None ->
  let '(o, (s', _, t)) := exec_watched (envObs ssh_obs) eh (handleExec cfg body) s w [] in
  o = Done tt /\ s' = s /\ ssh_log (JoinHostPort (sb_GuestIP sb) "22") (TrimSpace (eq_Cmd req)) (execTimeout cfg req) t.
Proof.
  intros Hc Htr Hn Hdec Hl Hsb Href.
  assert (@swp (list sshStep) (fun _ _ _ _ => True) (envObs ssh_obs) _ (handleExec cfg body) (fun o s' t => o = OutOfFuel \/
    exists sb', s' = at_loc l sb' s /\ (o = Done tt /\ sb' = sb
      /\ ssh_log (JoinHostPort (sb_GuestIP sb) "22") (TrimSpace (eq_Cmd req)) (execTimeout cfg req) t)) s []) as H.
  { apply (swp_handleExec _ _ cfg body req l sb); try done. unfold refusedCommand, execAdmitted. destruct (chooseShell req) as [|useShell]; [done|].
    rewrite Htr, !bool_decide_eq_true_2 by done. destruct useShell; [|done]. intros _. cbn [negb].
    eapply swp_mono; [|apply (hwp_execOverSSH cfg l req (admitted sb)); apply at_loc_lookup; by eapply lookup_lt_Some].
    intros o s1 t [->|(-> & -> & Ht)]; [by left|]. right. split; [done|]. exists (admitted sb). split; [done|]. by rewrite lifecycle_back. }
  pose proof (swp_watched (envObs ssh_obs) eh _ _ s w [] H) as H1. pose proof (timed_exec eh clk _ _ s w Hc (timed_handleExec cfg body)) as Ht.
  rewrite (exec_watched_exec (envObs ssh_obs) eh _ s w []) in Ht. destruct (exec_watched _ _ _ _ _ _) as [o [[s' w'] t]]. cbn [fst] in Ht.
  destruct H1 as [->|(sb' & -> & -> & -> & H1)]; [by destruct Ht|]. by rewrite (at_loc_id l sb s Hsb).
Qed.

(** ** Witness: a command that does not end in time *)

Definition endless (X : Type) (e : envE X) (w : Z) : X * Z :=
  match e in envE X return X * Z with
  | SshWait _ _ => (None, w + 1)
  | e => happy _ e w
  end.

Lemma endless_clocked : clocked endless (fun w => w).
Proof. split; [intros X [] w; cbn; lia|cbn; lia|cbn; lia]. Qed.

Definition ssh_cfg : config :=
  MkConfig ":8080" "/k/vmlinux" "/k/rootfs.ext4" "base-1" "auto" "/k/id" "firecracker" "eth0" "/w" "/sys/fs/cgroup/manta"
    false 2 false false false "ssh" 7777 (2 * second) (1 * second) (30 * second) 1048576
    (1 * second) (1 * second) (1 * second) (30 * second) "console=ttyS0" 256 1.

Definition idle_server : server := MkServer 1 0 0 {["sb-1" := 0%nat]} [sample_sandbox] None.

Lemma ssh_exec_paths_witness :
  let '(o, (s', _, t)) := exec_watched (envObs ssh_obs) endless (handleExec ssh_cfg exec_body) idle_server 0 [] in
  In (Killed 8) t /\ In (ClosedClient 7) t
  /\ (o = Done tt /\ s' = idle_server /\ ssh_log "172.16.1.2:22" "true" (30 * second) t).
Proof.
  assert (Hdec : decodeJSON dec_execRequest zero_execRequest exec_body = Some (MkExecReq "sb-1" "true" [] None 0)) by (vm_compute; reflexivity).
  assert (Href : refusal ssh_cfg idle_server (RExec exec_body) = None) by (vm_compute; reflexivity).
  pose proof (ssh_exec_paths endless (fun w => w) ssh_cfg exec_body _ 0%nat sample_sandbox idle_server 0 endless_clocked eq_refl
    ltac:(by cbn) Hdec eq_refl eq_refl Href) as H.
  destruct (exec_watched _ _ _ _ _ _) as [o [[s' w'] t]] eqn:E. apply (f_equal (fun x => snd (snd x))) in E. cbn [snd] in E.
  split; [|split; [|exact H]]; subst t; vm_compute; tauto.
Defined.
