(* ===== verification/AgentExec.v ===== *)
(** * Commands over the agent

    What an exec does on the agent transport, on every path: the connections
    that are dialled and closed, the requests and replies on them, the answer,
    and the connection that is kept for the next exec. *)

From S2P Require Import Prelude Sample Timed Refusals.

Inductive connStep :=
| Connected (conn : option Z)
| Wrote (conn : Z) (bytes : string) (ok : bool)
| Got (conn : Z) (n : nat) (bytes : option string)
| Closed (conn : Z)
| Answered (status : Z) (p : payload).

Definition valueOf {A} (r : result A) : option A := match r with Ok x => Some x | Err _ => None end.

Definition conn_obs (X : Type) (e : envE X) : X -> list connStep -> list connStep :=
  match e in envE X return X -> list connStep -> list connStep with
  | DialUnix _ _ => fun r t => t ++ [Connected (valueOf r)]
  | ConnWrite c b => fun r t => t ++ [Wrote c b (bool_decide (r = None))]
  | ConnReadFull c n => fun r t => t ++ [Got c n (valueOf r)]
  | ConnClose c => fun _ t => t ++ [Closed c]
  | WriteJSON status p => fun _ t => t ++ [Answered status p]
  | _ => fun _ t => t
  end.

(** ** A dial *)

Definition hello (cfg : config) : string := "CONNECT " +:+ itoa (cfg_AgentPort cfg) +:+ NL.

(** A connection that is kept, or none: one that fails after it was made is
    closed. *)
Definition dialed (cfg : config) (r : option Z) (t : list connStep) : Prop :=
  match r with
  | Some c => t = [Connected (Some c); Wrote c (hello cfg) true]
  | None => t = [] \/ t = [Connected None] \/ exists c ok, t = [Connected (Some c); Wrote c (hello cfg) ok; Closed c]
  end.

(** ** A call *)

Definition header (rq : Request) : string := PutUint32 (uint32 (len (raw_of rq))).

(** The request was not written in full; or it was, and a reply was read, or
    not. *)
Definition unsent (c : Z) (rq : Request) (t : list connStep) : Prop :=
  t = [] \/ t = [Wrote c (header rq) false] \/ t = [Wrote c (header rq) true; Wrote c (raw_of rq) false].

Definition reading (c : Z) (x : connStep) : Prop := match x with Got c' _ _ => c' = c | _ => False end.

(** The reply in what was read: the first frame, of a response that is ok. *)
Definition reply_read (c : Z) (reads : list connStep) (resp : Response) : Prop :=
  exists hdr raw, reads = [Got c 4 (Some hdr); Got c (Z.to_nat (Uint32 hdr)) (Some raw)]
    /\ decodeJSON dec_Response zero_Response raw = Some resp /\ rs_OK resp = true.

Definition called (c : Z) (rq : Request) (r : option Response) (t : list connStep) : Prop :=
  match r with
  | None => unsent c rq t \/ exists reads, t = Wrote c (header rq) true :: Wrote c (raw_of rq) true :: reads /\ Forall (reading c) reads
  | Some resp => exists reads, t = Wrote c (header rq) true :: Wrote c (raw_of rq) true :: reads /\ reply_read c reads resp
  end.

(** ** The exec *)

(** A response that is ok but holds no result makes the handler panic. *)
Definition replied (resp : Response) (o : outcome unit) (t : list connStep) : Prop :=
  match rs_Exec resp with
  | Some e => o = Done tt /\ t = [Answered 200 (PExec (MkExecResp (xs_Stdout e) (xs_Stderr e) (xs_ExitCode e)))]
  | None => o = Panicked /\ t = []
  end.

Definition failed (o : outcome unit) (t : list connStep) : Prop := o = Done tt /\ exists txt, t = [Answered 500 (PError txt)].

(** The second attempt, on a new connection; [kept] is the connection that the
    sandbox keeps. *)
Definition second_attempt (cfg : config) (rq : Request) (o : outcome unit) (kept : option Z) (t : list connStep) : Prop :=
  exists r d, dialed cfg r d /\
    match r with
    | None => kept = None /\ exists u, failed o u /\ t = d ++ u
    | Some c => kept = Some c /\ exists resp v u, called c rq resp v /\ t = d ++ v ++ u
                /\ match resp with Some resp => replied resp o u | None => failed o u end
    end.

(** The first attempt, on connection [c], then the second one if it failed. *)
Definition attempts (cfg : config) (rq : Request) (c : Z) (o : outcome unit) (kept : option Z) (t : list connStep) : Prop :=
  exists resp v u, called c rq resp v /\
    match resp with
    | Some resp => kept = Some c /\ t = v ++ u /\ replied resp o u
    | None => t = v ++ Closed c :: u /\ second_attempt cfg rq o kept u
    end.

Definition agent_log (cfg : config) (rq : Request) (agent : option Z) (o : outcome unit) (kept : option Z) (t : list connStep) : Prop :=
  match agent with
  | Some c => attempts cfg rq c o kept t
  | None => exists r d, dialed cfg r d /\
      match r with
      | None => kept = None /\ exists u, failed o u /\ t = d ++ u
      | Some c => exists u, attempts cfg rq c o kept u /\ t = d ++ u
      end
  end.

Lemma replied_ends resp o t : replied resp o t -> ends o.
Proof. unfold replied. destruct (rs_Exec resp); by intros [-> _]. Qed.

Lemma failed_ends o t : failed o t -> ends o.
Proof. by intros [-> _]. Qed.

Lemma attempts_ends cfg rq c o kept t : attempts cfg rq c o kept t -> ends o.
Proof.
  intros ([resp|] & v & u & _ & H); [destruct H as (_ & _ & H); by eapply replied_ends|]. destruct H as (_ & [c2|] & d & _ & H).
  - destruct H as (_ & [resp|] & v2 & u2 & _ & _ & H); [by eapply replied_ends|by eapply failed_ends].
  - destruct H as (_ & u2 & H & _). by eapply failed_ends.
Qed.

Lemma agent_log_ends cfg rq agent o kept t : agent_log cfg rq agent o kept t -> ends o.
Proof.
  destruct agent as [c|]; [apply attempts_ends|]. intros ([c|] & d & _ & H).
  - destruct H as (u & H & _). by eapply attempts_ends.
  - destruct H as (_ & u & H & _). by eapply failed_ends.
Qed.

Section agent.
Context (cfg : config).
Let cwp {A} := @swp (list connStep) (fun _ _ _ _ => True) (envObs conn_obs) A.

Ltac conn_steps :=
  repeat first
    [ progress cbn [envObs conn_obs valueOf swp_bindQ swp_deferQ swp_deferWithQ when]
    | swp_step ];
  rewrite ?bool_decide_eq_true_2, ?bool_decide_eq_false_2 by done; rewrite <- ?app_assoc; cbn [app].

Lemma cwp_dial path timeout Q s t :
  (forall r d, dialed cfg (valueOf r) d -> Q (Done r) s (t ++ d)) -> cwp (dialAgent path (cfg_AgentPort cfg) timeout) Q s t.
Proof.
  intros HQ. unfold cwp, dialAgent, ReadLine. conn_steps.
  1, 2: rewrite <- (app_nil_r t); apply HQ; by left.
  all: apply HQ; first [reflexivity | by right; left | right; right; by do 2 eexists].
Qed.

Lemma cwp_call c rq timeout Q s t :
  (forall r v, called c rq (valueOf r) v -> Q (Done r) s (t ++ v)) -> cwp (Call c rq timeout) Q s t.
Proof.
  intros HQ. unfold cwp, Call, WriteMessage, ReadMessage. conn_steps.
  { rewrite <- (app_nil_r t). apply HQ. left. by left. }
  1, 2: apply HQ; left; first [by right; left | by right; right].
  2: { apply HQ. eexists. split; [reflexivity|]. do 2 eexists. split; [reflexivity|]. by split. }
  all: apply HQ; right; eexists; (split; [reflexivity|]); by repeat constructor.
Qed.

(** The tail of the answer. *)
Lemma cwp_reply resp Q s t :
  (forall o u, replied resp o u -> Q o s (t ++ u)) -> cwp (replyExec resp) Q s t.
Proof.
  intros HQ. unfold cwp, replyExec, writeJSON. destruct (rs_Exec resp) as [e|] eqn:E.
  - swp_step. cbn [envObs conn_obs]. destruct x. apply HQ. unfold replied. by rewrite E.
  - change (Q Panicked s t). rewrite <- (app_nil_r t). apply HQ. unfold replied. by rewrite E.
Qed.

Lemma cwp_failed txt Q s t :
  (forall o u, failed o u -> Q o s (t ++ u)) -> cwp (errorReply 500 txt) Q s t.
Proof.
  intros HQ. unfold cwp, errorReply, writeJSON. swp_step. cbn [envObs conn_obs]. destruct x. apply HQ. split; [done|by eexists].
Qed.

(** ** The exec *)

Lemma set_agent_id a sb : sb_Agent sb = a -> set_agent a sb = sb.
Proof. intros <-. by destruct sb. Qed.

Definition dialing (sb : sandbox) : prog sysE (result agentConn) :=
  dialAgent (sb_VsockPath sb) (cfg_AgentPort cfg) (cfg_AgentDialTimeout cfg).

(** The second attempt, as in execOverAgent. *)
Lemma cwp_second l rq sb0 sb err Q s t :
  (l < length (s_heap s))%nat ->
  (forall o kept u, second_attempt cfg rq o kept u -> Q o (at_loc l (set_agent kept sb) s) (t ++ u)) ->
  cwp (memory (SetAgent l None) ;;;
       try! newAC := dialing sb0 catch derr =>
         errorReply 500 ([Lit "agent dial failed: "] ++ err_text derr ++ [Lit " (original error: "] ++ err_text err ++ [Lit ")"]) in
       memory (SetAgent l (Some newAC)) ;;;
       try! resp := Call newAC rq (cfg_AgentCallTimeout cfg) catch err =>
         errorReply 500 ([Lit "agent exec failed: "] ++ err_text err) in
       replyExec resp) Q (at_loc l sb s) t.
Proof.
  intros Hlen HQ. unfold cwp, dialing. eapply swp_mem; [by apply on_sandbox_at|]. cbn [fst snd envObs].
  apply swp_bind, cwp_dial. intros [ac|derr] d Hd; cbn [swp_bindQ valueOf] in *.
  - eapply swp_mem; [by apply on_sandbox_at|]. cbn [fst snd envObs]. apply swp_bind, cwp_call. intros [resp|err2] v Hv; cbn [swp_bindQ valueOf] in *.
    + apply cwp_reply. intros o u Hu. rewrite <- !app_assoc. apply (HQ o (Some ac)). exists (Some ac), d. split; [exact Hd|]. split; [done|].
      by exists (Some resp), v, u.
    + apply cwp_failed. intros o u Hu. rewrite <- !app_assoc. apply (HQ o (Some ac)). exists (Some ac), d. split; [exact Hd|]. split; [done|].
      by exists None, v, u.
  - apply cwp_failed. intros o u Hu. rewrite <- !app_assoc. apply (HQ o None). exists None, d. split; [exact Hd|]. split; [done|]. by exists u.
Qed.

(** Both, as in execOverAgent. *)
Lemma cwp_attempts l rq sb0 sb ac Q s t :
  (l < length (s_heap s))%nat -> sb_Agent sb = Some ac ->
  (forall o kept u, attempts cfg rq ac o kept u -> Q o (at_loc l (set_agent kept sb) s) (t ++ u)) ->
  cwp (try! resp := Call ac rq (cfg_AgentCallTimeout cfg) catch err =>
         Close ac ;;;
         memory (SetAgent l None) ;;;
         try! newAC := dialing sb0 catch derr =>
           errorReply 500 ([Lit "agent dial failed: "] ++ err_text derr ++ [Lit " (original error: "] ++ err_text err ++ [Lit ")"]) in
         memory (SetAgent l (Some newAC)) ;;;
         try! resp := Call newAC rq (cfg_AgentCallTimeout cfg) catch err =>
           errorReply 500 ([Lit "agent exec failed: "] ++ err_text err) in
         replyExec resp
       in
       replyExec resp) Q (at_loc l sb s) t.
Proof.
  intros Hlen Hac HQ. unfold cwp. apply swp_bind, cwp_call. intros [resp|err] v Hv; cbn [swp_bindQ valueOf] in *.
  - apply cwp_reply. intros o u Hu. rewrite <- app_assoc. specialize (HQ o (Some ac) (v ++ u)). rewrite set_agent_id in HQ by done.
    apply HQ. by exists (Some resp), v, u.
  - unfold Close. swp_step. cbn [envObs conn_obs]. apply cwp_second; [done|]. intros o kept u Hu. rewrite <- !app_assoc. apply HQ.
    by exists None, v, u.
Qed.

Lemma cwp_execOverAgent l req useShell sb s :
  s_heap s !! l = Some sb -> sb_agentMu sb = false ->
  cwp (execOverAgent cfg l req useShell)
    (fun o s' t => exists kept, s' = at_loc l (set_agent kept sb) s /\ agent_log cfg (execRPC cfg req useShell) (sb_Agent sb) o kept t) s [].
Proof.
  intros Hl Hmu. assert (l < length (s_heap s))%nat as Hlen by (by eapply lookup_lt_Some).
  set (rq := execRPC cfg req useShell).
  rewrite <- (at_loc_id l sb s Hl) at 1. unfold cwp, execOverAgent. eapply swp_mem; [by apply lock_at|]. cbn [envObs].
  set (sb1 := set_agentMu true sb). apply swp_defer.
  assert (forall (o : outcome unit) kept t, ends o -> agent_log cfg rq (sb_Agent sb) o kept t ->
    swp_deferQ (fun _ _ _ _ => True) (envObs conn_obs) (memory (UnlockAgentMu l))
      (fun o s' t => exists kept, s' = at_loc l (set_agent kept sb) s /\ agent_log cfg rq (sb_Agent sb) o kept t) o (at_loc l (set_agent kept sb1) s) t) as Hend.
  { intros o kept t Ho Ht. destruct o; try done; cbn [swp_deferQ]; (eapply swp_mem_end; [by apply on_sandbox_at|]); cbn [fst envObs swp_bindQ].
    - apply swp_ret. exists kept. split; [|done]. f_equal. by destruct sb; cbn in *; subst.
    - exists kept. split; [|done]. f_equal. by destruct sb; cbn in *; subst. }
  eapply swp_mem; [by apply on_sandbox_at|]. cbn [fst snd envObs]. fold (dialing sb1). change (sb_Agent sb1) with (sb_Agent sb).
  destruct (sb_Agent sb) as [ac|] eqn:Hag.
  - apply cwp_attempts; [done|exact Hag|]. intros o kept u Hu. apply Hend; [by eapply attempts_ends|exact Hu].
  - apply swp_bind, swp_bind. apply cwp_dial. intros [ac|err] d Hd; cbn [swp_bindQ valueOf app] in *.
    + eapply swp_mem; [by apply on_sandbox_at|]. cbn [fst snd envObs]. apply swp_ret. cbn [swp_bindQ].
      apply cwp_attempts; [done|done|]. intros o kept u Hu. apply Hend; [by eapply attempts_ends|]. exists (Some ac), d. split; [exact Hd|].
      exists u. by split.
    + apply swp_ret. cbn [swp_bindQ]. apply cwp_failed. intros o u Hu.
      rewrite <- (set_agent_id None sb1) by exact Hag. apply Hend; [by eapply failed_ends|]. exists None, d. split; [exact Hd|]. split; [done|]. by exists u.
Qed.
End agent.

(** C19. An exec on the agent transport, on every path, under a clock.  When it is
    not refused it returns, or panics on a reply that is ok and holds no
    result; it leaves the memory as it was, but for the connection that the
    sandbox keeps.  It uses the connection that the sandbox has, or dials one.
    The request is written at most once on a connection, and a first attempt
    that fails, for whatever reason, closes it, dials and tries once more: so
    the guest is sent the command at most twice, and twice also when the first
    one was received and only the reply is late.  It answers once: 200 with the
    result in the first frame that was read after the request, or 500.  A
    connection on which the second attempt failed is kept, with the reply still
    to come, and the next exec takes that reply for its own. *)
Theorem agent_exec_paths {W} (eh : env W) clk cfg body req useShell l sb s w :
  clocked eh clk -> cfg_ExecTransport cfg ∈ ["agent"%string; EmptyString] -> 0 <= sb_inFlightExec sb -> sb_agentMu sb = false ->
  decodeJSON dec_execRequest zero_execRequest body = Some req -> chooseShell req = inr useShell ->
  s_sandboxes s !! eq_SandboxID req = Some l -> s_heap s !! l = Some sb -> refusal cfg s (RExec body) = None ->
  let '(o, (s', _, t)) := exec_watched (envObs conn_obs) eh (handleExec cfg body) s w [] in
  exists kept, s' = at_loc l (set_agent kept sb) s /\ agent_log cfg (execRPC cfg req useShell) (sb_Agent sb) o kept t.
Proof.
  intros Hc Htr Hn Hmu Hdec Hsh Hl Hsb Href. assert (l < length (s_heap s))%nat as Hlen by (by eapply lookup_lt_Some).
  assert (@swp (list connStep) (fun _ _ _ _ => True) (envObs conn_obs) _ (handleExec cfg body) (fun o s' t => o = OutOfFuel \/
    exists sb', s' = at_loc l sb' s
      /\ exists kept, sb' = set_agent kept sb /\ agent_log cfg (execRPC cfg req useShell) (sb_Agent sb) o kept t) s []) as H.
  { apply (swp_handleExec _ _ cfg body req l sb); try done. intros _. unfold execAdmitted. rewrite Hsh.
    rewrite bool_decide_eq_false_2 by (apply list_elem_of_In in Htr as [<-|[<-|[]]]; done).
    assert (bool_decide (cfg_ExecTransport cfg = "agent"%string) || is_empty (cfg_ExecTransport cfg) = true) as ->.
    { apply list_elem_of_In in Htr as [<-|[<-|[]]]; done. }
    eapply swp_mono; [|apply (cwp_execOverAgent cfg l req useShell (admitted sb)); [by apply at_loc_lookup|exact Hmu]].
    intros o s1 t (kept & -> & Ht). right. split; [by eapply agent_log_ends|]. exists (set_agent kept (admitted sb)). split.
    - unfold at_loc, upd_heap. cbn. by rewrite list_insert_insert_eq.
    - exists kept. split; [|exact Ht]. change (finishExec (admitted (set_agent kept sb)) = set_agent kept sb). by apply lifecycle_back. }
  pose proof (swp_watched (envObs conn_obs) eh _ _ s w [] H) as H1. pose proof (timed_exec eh clk _ _ s w Hc (timed_handleExec cfg body)) as Ht.
  rewrite (exec_watched_exec (envObs conn_obs) eh _ s w []) in Ht. destruct (exec_watched _ _ _ _ _ _) as [o [[s' w'] t]]. cbn [fst] in Ht.
  destruct H1 as [->|(sb' & -> & kept & -> & H1)]; [by destruct Ht|]. by exists kept.
Qed.

(** ** Witness: the reply of a slow command

    A guest that runs the commands it is sent, in their order, and prints their
    text; one called slow takes a minute, the others no time.  Its state is the
    clock, the deadline of the connection, the last connection, the commands
    that were run, and the replies that are not read yet, with the time at
    which they are there. *)

Record lateGuest := MkLate {
  lg_clock : Z;
  lg_deadline : option Z;
  lg_conn : Z;
  lg_ran : list string;
  lg_pending : list (Z * Z * string);
}.

Definition commandOf (raw : string) : string :=
  match decodeJSON dec_Request zero_Request raw with
  | Some (MkRequest _ (Some x) _) => xq_Cmd x
  | _ => EmptyString
  end.

Definition late_write (c : Z) (b : string) (w : lateGuest) : lateGuest :=
  let cmd := commandOf b in
  if is_empty cmd then w
  else MkLate (lg_clock w) (lg_deadline w) (lg_conn w) (lg_ran w ++ [cmd])
         (lg_pending w ++ [(c, lg_clock w + (if (cmd =? "slow")%string then 60 * second else 0),
                            frame (raw_of (MkResponse true EmptyString None (Some (MkExecResponse 0 cmd EmptyString false)) None)))]).

(** The next [n] bytes on [c], if they are there before the deadline. *)
Fixpoint late_take (c : Z) (n : nat) (until : Z) (l : list (Z * Z * string)) : option (Z * string * list (Z * Z * string)) :=
  match l with
  | [] => None
  | (c', ready, b) :: l' =>
      if c' =? c then
        if ready <=? until
        then Some (ready, String.substring 0 n b, (c', ready, String.substring n (String.length b) b) :: l')
        else None
      else match late_take c n until l' with Some (r, x, l2) => Some (r, x, (c', ready, b) :: l2) | None => None end
  end.

Definition late_clock (z : Z) (w : lateGuest) : lateGuest :=
  MkLate (Z.max (lg_clock w) z) (lg_deadline w) (lg_conn w) (lg_ran w) (lg_pending w).

Definition late (X : Type) (e : envE X) (w : lateGuest) : X * lateGuest :=
  match e in envE X return X * lateGuest with
  | DialUnix _ _ => (Ok (lg_conn w + 1), MkLate (lg_clock w) (lg_deadline w) (lg_conn w + 1) (lg_ran w) (lg_pending w))
  | ConnSetDeadline _ d => (tt, MkLate (lg_clock w) d (lg_conn w) (lg_ran w) (lg_pending w))
  | ConnWrite c b => (None, late_write c b w)
  | ConnReadFull c n =>
      let until := match lg_deadline w with Some d => Z.max d (lg_clock w) | None => lg_clock w end in
      match late_take c n until (lg_pending w) with
      | Some (ready, b, l) => (Ok b, late_clock ready (MkLate (lg_clock w) (lg_deadline w) (lg_conn w) (lg_ran w) l))
      | None => (Err (errorf [Lit "i/o timeout"]), late_clock until w)
      end
  | e => let '(x, t) := happy _ e (lg_clock w) in (x, late_clock t w)
  end.

Lemma late_clocked : clocked late lg_clock.
Proof.
  split.
  - intros X e w. destruct e; cbn; try lia.
    + unfold late_write. destruct (is_empty _); cbn; lia.
    + destruct (late_take _ _ _ _) as [[[r b] l]|]; cbn; lia.
  - intros w. cbn. lia.
  - intros d w. cbn. lia.
Qed.

Definition execBodyOf (cmd : string) : string := marshal (JObj [("sandbox_id"%string, JStr "sb-1"); ("cmd"%string, JStr cmd); ("timeout_ms"%string, JNum "90000")]).

Definition late_server : server := MkServer 1 0 0 {["sb-1" := 0%nat]} [sample_sandbox] None.

(** A slow command, which is answered with an error, and a minute later a quick one. *)
Definition slow_run := exec late (handleExec sample_cfg (execBodyOf "slow")) late_server (MkLate 0 None 9 [] []).
Definition after_slow : server * lateGuest := (fst (snd slow_run), late_clock (600 * second) (snd (snd slow_run))).

Definition quick_request : execRequest := MkExecReq "sb-1" "quick" [] None 90000.
Definition kept_sandbox : sandbox := set_agent (Some 10) sample_sandbox.
Definition kept_server : server := MkServer 1 0 0 {["sb-1" := 0%nat]} [kept_sandbox] None.

(** The slow command was sent and run twice; its connection is kept, and the
    quick command is answered with its output. *)
Lemma agent_exec_paths_witness :
  fst after_slow = kept_server /\ lg_ran (snd after_slow) = ["slow"; "slow"]%string
  /\ let '(o, (s', _, t)) := exec_watched (envObs conn_obs) late (handleExec sample_cfg (execBodyOf "quick")) kept_server (snd after_slow) [] in
     last t = Some (Answered 200 (PExec (MkExecResp "slow" EmptyString 0)))
     /\ exists kept, s' = at_loc 0%nat (set_agent kept kept_sandbox) kept_server
        /\ agent_log sample_cfg (execRPC sample_cfg quick_request true) (Some 10) o kept t.
Proof.
  split; [vm_compute; reflexivity|]. split; [vm_compute; reflexivity|].
  assert (Hdec : decodeJSON dec_execRequest zero_execRequest (execBodyOf "quick") = Some quick_request) by (vm_compute; reflexivity).
  assert (Href : refusal sample_cfg kept_server (RExec (execBodyOf "quick")) = None) by (vm_compute; reflexivity).
  assert (Htr : cfg_ExecTransport sample_cfg ∈ ["agent"%string; EmptyString]) by (by left).
  pose proof (agent_exec_paths late lg_clock sample_cfg (execBodyOf "quick") quick_request true 0%nat kept_sandbox kept_server (snd after_slow)
    late_clocked Htr ltac:(by cbn) eq_refl Hdec eq_refl eq_refl eq_refl Href) as H.
  destruct (exec_watched _ _ _ _ _ _) as [o [[s' w'] t]] eqn:E. apply (f_equal (fun x => snd (snd x))) in E. cbn [snd] in E.
  split; [subst t; vm_compute; reflexivity|exact H].
Defined.
