(* ===== verification/HostGuest.v ===== *)
(** * The host and a guest agent joined by a connection

    The server's side of the protocol (AgentClient.v, Handlers.v) is run
    against the agent itself (Agent.v): what the host writes to the connection
    is what the agent reads, and the other way round. *)

From S2P Require Import Prelude TrimFacts Sample AgentFacts SnapshotFacts.

(** ** The command that the guest runs *)

Definition execPayload (cfg : config) (req : execRequest) (useShell : bool) : ExecRequest :=
  default zero_ExecRequest (rq_Exec (execRPC cfg req useShell)).

(** C24. Host and guest agree on what a valid command is: every request that
    handleExec accepts is accepted by the guest's normalizeArgv, which runs
    the trimmed command in a login shell or the given argv as it is; in
    particular the guest never answers exit code 2 to the host. *)
Theorem exec_requests_accepted cfg req useShell :
  chooseShell req = inr useShell ->
  normalizeArgv (execPayload cfg req useShell)
  = Ok (if useShell : bool then ["/bin/sh"%string; "-lc"%string; TrimSpace (eq_Cmd req)] else eq_Argv req)
  /\ (if useShell : bool then is_empty (TrimSpace (eq_Cmd req)) = false else eq_Argv req <> []).
Proof.
  unfold chooseShell, execPayload, execRPC, normalizeArgv. cbv zeta. cbn [rq_Exec default id xq_Cmd xq_UseShell xq_Argv].
  rewrite TrimSpace_idem.
  destruct (eq_Argv req) as [|a args].
  - destruct (is_empty (TrimSpace (eq_Cmd req))); [done|]. by destruct (eq_UseShell req) as [[]|]; intros [= <-].
  - destruct (is_empty (TrimSpace (eq_Cmd req))); [|done]. by destruct (eq_UseShell req) as [[]|]; intros [= <-].
Qed.

(** The largest timeout_ms whose duration fits in an int64. *)
Definition maxTimeoutMs : Z := 9223372036854.

(** The limit of the guest for a duration [d] of the host. *)
Lemma guest_limit cfg req useShell :
  is_int64 (execTimeout cfg req) ->
  runExecTimeout (execPayload cfg req useShell)
  = (if execTimeout cfg req <? millisecond then 20 * second else execTimeout cfg req / millisecond * millisecond).
Proof.
  intros Hd. unfold execPayload, execRPC, runExecTimeout, Milliseconds. cbn [rq_Exec default id xq_TimeoutMs].
  set (d := execTimeout cfg req) in *. unfold is_int64, millisecond in *.
  rewrite int64_id by div_lia.
  destruct (Z.ltb_spec d 1000000), (Z.leb_spec (Z.quot d 1000000 * 1000000) 0); div_lia || done.
Qed.

(** C25. The time limit that the guest puts on the command of an exec.  It is
    positive; a timeout_ms of up to 9223372036854 (292 years) is applied as it
    is; without one the configured timeout is applied, in whole milliseconds,
    or 20 seconds when it is below one; and a larger timeout_ms wraps around in
    the product of int64 durations, so that the command is stopped earlier than
    the client asked. *)
Theorem exec_timeout_applied cfg req useShell :
  is_int64 (eq_TimeoutMs req) -> is_int64 (cfg_ExecTimeout cfg) ->
  let ms := eq_TimeoutMs req in
  let limit := runExecTimeout (execPayload cfg req useShell) in
  0 < limit
  /\ (ms <= 0 -> limit = if cfg_ExecTimeout cfg <? millisecond then 20 * second
                         else cfg_ExecTimeout cfg / millisecond * millisecond)
  /\ (0 < ms <= maxTimeoutMs -> limit = ms * millisecond)
  /\ (maxTimeoutMs < ms -> limit < ms * millisecond).
Proof.
  intros Hms Hcfg. cbv zeta. pose proof (int64_range (eq_TimeoutMs req * millisecond)) as Hr.
  assert (is_int64 (execTimeout cfg req)) as Hd by (unfold execTimeout; by destruct (_ >? 0)).
  rewrite guest_limit by exact Hd. set (d := execTimeout cfg req) in *.
  assert (millisecond <= d -> 0 < d / millisecond * millisecond <= d) as Hdiv.
  { intros H. unfold millisecond in *. pose proof (Z.div_mod d 1000000 ltac:(lia)).
    pose proof (Z.mod_pos_bound d 1000000 ltac:(lia)). pose proof (Z.div_le_lower_bound d 1000000 1 ltac:(lia) ltac:(lia)). lia. }
  assert (d = if eq_TimeoutMs req >? 0 then int64 (eq_TimeoutMs req * millisecond) else cfg_ExecTimeout cfg) as Ed by done.
  rewrite Z.gtb_ltb in Ed. split_and!.
  - destruct (Z.ltb_spec d millisecond); [done|]. by apply Hdiv.
  - intros H. destruct (Z.ltb_spec 0 (eq_TimeoutMs req)); [lia|]. by rewrite Ed.
  - intros H. destruct (Z.ltb_spec 0 (eq_TimeoutMs req)); [|lia].
    rewrite int64_id in Ed by (unfold is_int64, millisecond, maxTimeoutMs in *; lia).
    rewrite Ed. destruct (Z.ltb_spec (eq_TimeoutMs req * millisecond) millisecond); [unfold millisecond in *; lia|].
    by rewrite Z.div_mul.
  - intros H. destruct (Z.ltb_spec d millisecond); [unfold second, millisecond, maxTimeoutMs in *; lia|].
    specialize (Hdiv ltac:(lia)). unfold is_int64, millisecond, maxTimeoutMs in *. lia.
Qed.

(** ** A host joined to a guest *)

(** The host's clock, its answers to HTTP requests, and whether Firecracker
    still waits for the CONNECT line of a connection just dialled. *)
Record hostSide := MkHost { hs_clock : Z; hs_replies : list (Z * payload); hs_dialled : bool }.

Definition tick (t : Z) (h : hostSide) : hostSide := MkHost t (hs_replies h) (hs_dialled h).

(** The host joined to a guest: [w] is the guest, [i] and [o] are the two
    directions of the connection.  A dial starts an empty connection, whose
    first line is for Firecracker.  A read for which too few bytes are there
    lets the agent serve one request.  The rest of what the host asks for
    succeeds. *)
Definition linked {W} (g : guest W) (X : Type) (e : envE X) (st : hostSide * (W * string * string))
    : X * (hostSide * (W * string * string)) :=
  let '(h, (w, i, o)) := st in
  match e in envE X return X * (hostSide * (W * string * string)) with
  | DialUnix _ _ => (Ok 9, (MkHost (hs_clock h + 1) (hs_replies h) true, (w, EmptyString, EmptyString)))
  | ConnWrite _ b =>
      if hs_dialled h then (None, (MkHost (hs_clock h + 1) (hs_replies h) false, (w, i, o)))
      else (None, (tick (hs_clock h + 1) h, (w, i +:+ b, o)))
  | ConnReadFull _ n =>
      let '(w, i, o) := if (String.length o <? n)%nat then snd (env_run (connected g) serveOne (w, i, o)) else (w, i, o) in
      match stream_step _ (SReadFull n) o with
      | Some (r, o') => (r, (tick (hs_clock h + 1) h, (w, i, o')))
      | None => (Err (errorf []), st)
      end
  | WriteJSON status p => (tt, (MkHost (hs_clock h + 1) (hs_replies h ++ [(status, p)]) (hs_dialled h), (w, i, o)))
  | e => let '(x, t) := happy _ e (hs_clock h) in (x, (tick t h, (w, i, o)))
  end.

Lemma exec_defer_done {W A} (eh : env W) (p : prog sysE A) d a s w s' w' :
  exec eh p s w = (Done a, (s', w')) ->
  exec eh (defer p d) s w = exec eh (d ;;; Ret a) s' w'.
Proof. unfold exec. intros H. by rewrite run_defer, H. Qed.

(** A host whose connection is established, with answers [rs] so far. *)
Definition host (rs : list (Z * payload)) (h : hostSide) : Prop := hs_replies h = rs /\ hs_dialled h = false.

Section linked.
Context {W : Type} (g : guest W).

Lemma linked_write c raw s h rs w i o :
  host rs h -> len raw <= MaxMessageBytes ->
  exists h', host rs h' /\
  exec (linked g) (WriteMessage (fun b => sys (ConnWrite c b)) raw) s (h, (w, i, o))
  = (Done None, (s, (h', (w, i +:+ frame raw, o)))).
Proof.
  intros [Hr Hd] Hl. exists (tick (hs_clock h + 1 + 1) h). split; [by split|].
  unfold WriteMessage, frame. rewrite Z.gtb_ltb. destruct (Z.ltb_spec MaxMessageBytes (len raw)); [lia|].
  rewrite exec_sys. cbn [linked fst snd]. rewrite Hd. cbn [fst snd].
  unfold exec. cbn. rewrite Hd. rewrite string_app_assoc, uint32_id; [done|]. unfold MaxMessageBytes, len in *. lia.
Qed.

(** The read that waits for the reply, and the read of its payload. *)
Lemma linked_read c rq rs s h replies w w1 :
  host replies h -> sendable rq -> env_run g (handle rq) w = (Done rs, w1) -> sendable rs ->
  exists h', host replies h' /\
  exec (linked g) (ReadMessage (fun n => sys (ConnReadFull c n)) dec_Response zero_Response) s (h, (w, frame (raw_of rq), EmptyString))
  = (Done (Ok rs), (s, (h', (w1, EmptyString, EmptyString)))).
Proof.
  intros [Hr Hd] Hrq Hh Hrs. exists (tick (hs_clock h + 1 + 1) h). split; [by split|].
  assert (0 < len (raw_of rs)) as Hpos by apply marshal_nonempty, msg_ints.
  assert (0 <= len (raw_of rs) < 2 ^ 32) as Hlen by (destruct Hrs; unfold MaxMessageBytes in *; lia).
  assert (env_run (connected g) serveOne (w, frame (raw_of rq), EmptyString)
    = (Done true, (w1, EmptyString, frame (raw_of rs)))) as Hserve.
  { pose proof (serveOne_run g rq rs w w1 EmptyString EmptyString Hrq Hh) as H. rewrite string_app_nil_r in H. rewrite H.
    rewrite Z.gtb_ltb. destruct (Z.ltb_spec MaxMessageBytes (len (raw_of rs))); [destruct Hrs; lia|done]. }
  assert (stream_step _ (SReadFull 4) (frame (raw_of rs)) = Some (Ok (PutUint32 (len (raw_of rs))), raw_of rs)) as H4.
  { unfold frame. by apply (stream_read_n 4). }
  assert (stream_step _ (SReadFull (Z.to_nat (len (raw_of rs)))) (raw_of rs) = Some (Ok (raw_of rs), EmptyString)) as Hn.
  { rewrite <- (string_app_nil_r (raw_of rs)) at 2. apply stream_read_n. unfold len. lia. }
  unfold ReadMessage. rewrite exec_sys. cbn [linked fst snd String.length]. cbn [Nat.ltb Nat.leb].
  rewrite Hserve. cbn [snd]. rewrite H4. cbn [fst snd].
  rewrite Uint32_PutUint32 by done. destruct (Z.eqb_spec (len (raw_of rs)) 0); [lia|]. rewrite Z.gtb_ltb.
  destruct (Z.ltb_spec MaxMessageBytes (len (raw_of rs))); [destruct Hrs; lia|]. cbn [orb].
  rewrite exec_sys. cbn [linked fst snd].
  destruct (Nat.ltb_spec (String.length (raw_of rs)) (Z.to_nat (len (raw_of rs)))); [unfold len in *; lia|].
  rewrite Hn. cbn [fst snd].
  change (decodeJSON dec_Response zero_Response (raw_of rs)) with (decodeJSON msg_dec msg_zero (raw_of rs)).
  by rewrite (decode_raw rs) by apply Hrs.
Qed.

(** What Call makes of a reply. *)
Definition callResult (rs : Response) : result Response :=
  if rs_OK rs then Ok rs
  else if negb (is_empty (TrimSpace (rs_Error rs))) then Err (errorf [Lit (rs_Error rs)])
  else Err (errorf [Lit "agent returned ok=false"]).

Lemma linked_call c rq rs timeout s h replies w w1 :
  host replies h -> sendable rq -> env_run g (handle rq) w = (Done rs, w1) -> sendable rs ->
  exists h', host replies h' /\
  exec (linked g) (Call c rq timeout) s (h, (w, EmptyString, EmptyString))
    = (Done (callResult rs), (s, (h', (w1, EmptyString, EmptyString)))).
Proof.
  intros Hh0 Hrq Hh Hrs. unfold Call. cbv zeta. rewrite exec_sys. cbn [linked happy fst snd].
  rewrite exec_sys. cbn [linked happy fst snd].
  set (h2 := tick _ (tick _ h)). assert (host replies h2) as Hh2 by exact Hh0.
  destruct (linked_write c (raw_of rq) s h2 replies w EmptyString EmptyString Hh2) as (h3 & Hh3 & Hw); [apply Hrq|].
  destruct (linked_read c rq rs s h3 replies w w1 Hh3 Hrq Hh Hrs) as (h4 & Hh4 & Hrd).
  rewrite (exec_defer_done _ _ _ (callResult rs) _ _ s (h4, (w1, EmptyString, EmptyString))).
  { rewrite exec_sys. cbn [linked happy fst snd]. eexists. by split; [|reflexivity]. }
  rewrite exec_bind. change (marshal (enc_Request rq)) with (raw_of rq). rewrite Hw.
  cbv beta iota. rewrite exec_bind, string_app_nil_l, Hrd. cbv beta iota.
  unfold callResult. destruct (rs_OK rs); [reflexivity|]. by destruct (negb _).
Qed.

Lemma linked_dial path port timeout s h replies w i o :
  host replies h -> is_empty (TrimSpace path) = false -> 0 < port <= 65535 ->
  exists h', host replies h' /\
  exec (linked g) (dialAgent path port timeout) s (h, (w, i, o)) = (Done (Ok 9), (s, (h', (w, EmptyString, EmptyString)))).
Proof.
  intros [Hr Hd] Hp Hport. unfold dialAgent. rewrite Hp.
  assert ((port <=? 0) || (port >? 65535) = false) as ->.
  { rewrite Z.gtb_ltb. apply orb_false_iff. split; [apply Z.leb_gt|apply Z.ltb_ge]; lia. }
  cbv zeta. rewrite exec_sys. cbn [linked fst snd]. rewrite exec_sys. cbn [linked happy fst snd].
  rewrite exec_sys. cbn [linked happy fst snd]. rewrite exec_sys. cbn [linked tick hs_dialled fst snd].
  unfold ReadLine. cbv zeta. rewrite exec_bind, exec_sys. cbn [linked happy fst snd].
  rewrite exec_ret. cbv beta iota.
  assert (negb (HasPrefix "OK 1" "OK ") && negb (bool_decide (TrimSpace "OK 1" = "OK"%string)) = false) as -> by done.
  rewrite exec_sys. cbn [linked happy fst snd]. eexists. split; [|reflexivity]. by split.
Qed.

Lemma linked_reply status p s h replies w i o :
  host replies h ->
  exists h', host (replies ++ [(status, p)]) h' /\
  exec (linked g) (writeJSON status p) s (h, (w, i, o)) = (Done tt, (s, (h', (w, i, o)))).
Proof. intros [Hr Hd]. eexists. split; [|reflexivity]. split; [by cbn; rewrite Hr|done]. Qed.

(** ** An exec, from the handler to the command *)

Section exec.
Context (cfg : config) (req : execRequest) (useShell : bool) (l : loc) (sb : sandbox) (s : server) (ac : agentConn).
Context (Hl : (l < length (s_heap s))%nat) (Hmu : sb_agentMu sb = false) (Hac : sb_Agent sb = Some ac).
Context (Hrq : sendable (execRPC cfg req useShell)).

(** The reply of the guest to the exec of the host. *)
Definition execReply (r : ExecResponse) (err : option error) : Response :=
  MkResponse (bool_decide (err = None)) (errString err) None (Some r) None.

Lemma handle_exec w r err w1 :
  env_run g (runExec (execPayload cfg req useShell)) w = (Done (r, err), w1) ->
  env_run g (handle (execRPC cfg req useShell)) w = (Done (execReply r err), w1).
Proof.
  intros H. unfold handle, execRPC. cbv zeta. cbn [rq_Type rq_Exec].
  rewrite bool_decide_eq_false_2, bool_decide_eq_true_2 by done. rewrite env_run_bind.
  unfold execPayload, execRPC in H. cbn [rq_Exec default from_option id] in H. by rewrite H.
Qed.

(** The answer for the payload of a reply. *)
Definition answered (r : ExecResponse) : payload := PExec (MkExecResp (xs_Stdout r) (xs_Stderr r) (xs_ExitCode r)).

(** *** The command was run: its result is the answer *)
Lemma linked_exec_once w w1 r h replies :
  host replies h ->
  env_run g (runExec (execPayload cfg req useShell)) w = (Done (r, None), w1) -> sendable (execReply r None) ->
  exists h', host (replies ++ [(200, answered r)]) h' /\
  exec (linked g) (execOverAgent cfg l req useShell) (at_loc l sb s) (h, (w, EmptyString, EmptyString))
  = (Done tt, (at_loc l (set_agentMu false (set_agentMu true sb)) s, (h', (w1, EmptyString, EmptyString)))).
Proof.
  intros Hh Hrun Hrs. apply handle_exec in Hrun. unfold execOverAgent.
  rewrite (exec_mem _ _ _ tt _ (at_loc l (set_agentMu true sb) s)) by (by apply lock_at).
  destruct (linked_call ac _ _ (cfg_AgentCallTimeout cfg) (at_loc l (set_agentMu true sb) s) h replies w w1 Hh Hrq Hrun Hrs) as (h1 & Hh1 & Hc).
  destruct (linked_reply 200 (answered r) (at_loc l (set_agentMu true sb) s) h1 replies w1 EmptyString EmptyString Hh1) as (h2 & Hh2 & Hw).
  exists h2. split; [done|].
  rewrite (exec_defer_done _ _ _ tt _ _ (at_loc l (set_agentMu true sb) s) (h2, (w1, EmptyString, EmptyString))).
  { rewrite (exec_mem _ _ _ tt _ (at_loc l (set_agentMu false (set_agentMu true sb)) s)); [done|]. by apply on_sandbox_at. }
  rewrite (exec_mem _ _ _ (set_agentMu true sb) _ (at_loc l (set_agentMu true sb) s)) by (by apply (on_sandbox_at l (fun sb => (sb, sb)))).
  cbv zeta. cbn [sb_Agent set_agentMu]. rewrite Hac. rewrite exec_bind, exec_ret. cbv beta iota.
  rewrite exec_bind, Hc. cbv beta iota. unfold callResult. cbn [rs_OK execReply]. rewrite bool_decide_eq_true_2 by done.
  unfold replyExec. cbn [rs_Exec execReply]. exact Hw.
Qed.

(** *** The agent reports an error of the command: it is run again *)

Definition execError (err : error) : payload := PError ([Lit "agent exec failed: "] ++ err_text err).

(** The answer to the reply of the second run. *)
Definition secondAnswer (r : ExecResponse) (err : option error) : Z * payload :=
  match callResult (execReply r err) with
  | Ok _ => (200, answered r)
  | Err e => (500, execError e)
  end.

Lemma linked_exec_twice w w1 w2 r1 e1 r2 err2 h replies :
  is_empty (TrimSpace (sb_VsockPath sb)) = false -> 0 < cfg_AgentPort cfg <= 65535 ->
  host replies h ->
  env_run g (runExec (execPayload cfg req useShell)) w = (Done (r1, Some e1), w1) -> sendable (execReply r1 (Some e1)) ->
  env_run g (runExec (execPayload cfg req useShell)) w1 = (Done (r2, err2), w2) -> sendable (execReply r2 err2) ->
  exists h' sb', host (replies ++ [secondAnswer r2 err2]) h' /\ sb_Agent sb' = Some 9 /\
  exec (linked g) (execOverAgent cfg l req useShell) (at_loc l sb s) (h, (w, EmptyString, EmptyString))
  = (Done tt, (at_loc l sb' s, (h', (w2, EmptyString, EmptyString)))).
Proof.
  intros Hpath Hport Hh Hrun1 Hrs1 Hrun2 Hrs2. apply handle_exec in Hrun1, Hrun2. unfold execOverAgent.
  set (sb1 := set_agentMu true sb). set (sb2 := set_agent None sb1). set (sb3 := set_agent (Some 9) sb2).
  rewrite (exec_mem _ _ _ tt _ (at_loc l sb1 s)) by (by apply lock_at).
  destruct (linked_call ac _ _ (cfg_AgentCallTimeout cfg) (at_loc l sb1 s) h replies w w1 Hh Hrq Hrun1 Hrs1) as (h1 & Hh1 & Hc1).
  destruct (linked_dial (sb_VsockPath sb1) (cfg_AgentPort cfg) (cfg_AgentDialTimeout cfg) (at_loc l sb2 s)
    (tick (hs_clock h1 + 1) h1) replies w1 EmptyString EmptyString Hh1 Hpath Hport) as (h2 & Hh2 & Hd).
  destruct (linked_call 9 _ _ (cfg_AgentCallTimeout cfg) (at_loc l sb3 s) h2 replies w1 w2 Hh2 Hrq Hrun2 Hrs2) as (h3 & Hh3 & Hc2).
  destruct (linked_reply (fst (secondAnswer r2 err2)) (snd (secondAnswer r2 err2)) (at_loc l sb3 s) h3 replies w2 EmptyString EmptyString Hh3)
    as (h4 & Hh4 & Hw).
  exists h4, (set_agentMu false sb3). split; [by rewrite <- (surjective_pairing (secondAnswer r2 err2)) in Hh4|]. split; [done|].
  rewrite (exec_defer_done _ _ _ tt _ _ (at_loc l sb3 s) (h4, (w2, EmptyString, EmptyString))).
  { rewrite (exec_mem _ _ _ tt _ (at_loc l (set_agentMu false sb3) s)); [done|]. by apply on_sandbox_at. }
  rewrite (exec_mem _ _ _ sb1 _ (at_loc l sb1 s)) by (by apply (on_sandbox_at l (fun sb => (sb, sb)))).
  cbv zeta. change (sb_Agent sb1) with (sb_Agent sb). rewrite Hac. rewrite exec_bind, exec_ret. cbv beta iota.
  rewrite exec_bind, Hc1. cbv beta iota.
  assert (exists e, callResult (execReply r1 (Some e1)) = Err e) as [e ->].
  { unfold callResult. cbn [rs_OK execReply]. rewrite bool_decide_eq_false_2 by done. destruct (negb _); eauto. }
  unfold Close. rewrite exec_sys. cbn [linked happy fst snd].
  rewrite (exec_mem _ _ _ tt _ (at_loc l sb2 s)) by (by apply on_sandbox_at).
  rewrite exec_bind, Hd. cbv beta iota.
  rewrite (exec_mem _ _ _ tt _ (at_loc l sb3 s)) by (by apply on_sandbox_at).
  rewrite exec_bind, Hc2. cbv beta iota. unfold secondAnswer in Hw. destruct (callResult (execReply r2 err2)) as [rs|e'] eqn:E.
  - unfold callResult in E. destruct (rs_OK (execReply r2 err2)); [|by destruct (negb _)]. injection E as <-.
    unfold replyExec. cbn [rs_Exec execReply]. exact Hw.
  - exact Hw.
Qed.
End exec.
End linked.

(** *** The handler around it *)

(** An exec request for a sandbox that is running, with a live connection. *)
Record execReady (cfg : config) (body : string) (req : execRequest) (useShell : bool) (l : loc) (sb : sandbox) (ac : agentConn) (s : server) : Prop := {
  er_body : decodeJSON dec_execRequest zero_execRequest body = Some req;
  er_id : is_empty (TrimSpace (eq_SandboxID req)) = false;
  er_found : s_sandboxes s !! eq_SandboxID req = Some l;
  er_heap : s_heap s !! l = Some sb;
  er_running : sb_state sb = sandboxStateRunning;
  er_inFlight : 0 <= sb_inFlightExec sb;
  er_mu : sb_agentMu sb = false;
  er_agent : sb_Agent sb = Some ac;
  er_shell : chooseShell req = inr useShell;
  er_transport : cfg_ExecTransport cfg = "agent"%string;
  er_sendable : sendable (execRPC cfg req useShell);
}.

(** The sandbox while the exec is counted. *)
Definition counted (sb : sandbox) : sandbox := set_lifecycle (sb_state sb) (sb_inFlightExec sb + 1) sb.

Lemma linked_handleExec {W} (g : guest W) cfg body req useShell l sb ac s sb' h0 w0 h1 w1 :
  execReady cfg body req useShell l sb ac s ->
  exec (linked g) (execOverAgent cfg l req useShell) (at_loc l (counted sb) s) (h0, w0) = (Done tt, (at_loc l sb' s, (h1, w1))) ->
  exec (linked g) (handleExec cfg body) s (h0, w0) = (Done tt, (at_loc l (finishExec sb') s, (h1, w1))).
Proof.
  intros [Hb Hid Hf Hhp Hst Hin Hmu Hag Hsh Htr Hs] Hexec. assert (l < length (s_heap s))%nat as Hl by (by eapply lookup_lt_Some).
  unfold handleExec. rewrite Hb, Hid. rewrite (exec_mem _ _ _ (Some l) _ s) by (cbn; by rewrite Hf).
  rewrite <- (at_loc_id l sb s Hhp) at 1.
  rewrite (exec_mem _ _ _ None _ (at_loc l (counted sb) s)).
  2: { unfold mem_step. rewrite on_sandbox_at by done. unfold tryStartExec. by rewrite bool_decide_eq_true_2. }
  rewrite (exec_defer_done _ _ _ tt _ _ (at_loc l sb' s) (h1, w1)).
  - rewrite (exec_mem _ _ _ tt _ (at_loc l (finishExec sb') s)); [done|]. by apply (on_sandbox_at l (fun sb => (finishExec sb, tt))).
  - unfold execAdmitted. rewrite Hsh, Htr. cbv zeta. exact Hexec.
Qed.

(** C10. An exec end to end: for a running sandbox whose connection works, the
    command that the host's request names is run by the guest exactly once,
    the HTTP answer is 200 with the exit code and the outputs of that run, and
    the server is left as it was (no exec counted, the mutex free, the same
    connection). *)
Theorem exec_end_to_end {W} (g : guest W) cfg body req useShell l sb ac s h w r w1 :
  execReady cfg body req useShell l sb ac s -> host [] h ->
  env_run g (runExec (execPayload cfg req useShell)) w = (Done (r, None), w1) -> sendable (execReply r None) ->
  exists h', host [(200, answered r)] h' /\
  exec (linked g) (handleExec cfg body) s (h, (w, EmptyString, EmptyString))
  = (Done tt, (s, (h', (w1, EmptyString, EmptyString)))).
Proof.
  intros Hr Hh Hrun Hrs. pose proof Hr as [Hb Hid Hf Hhp Hst Hin Hmu Hag Hsh Htr Hs].
  assert (l < length (s_heap s))%nat as Hl by (by eapply lookup_lt_Some).
  destruct (linked_exec_once g cfg req useShell l (counted sb) s ac Hl Hmu Hag Hs w w1 r h [] Hh Hrun Hrs) as (h' & Hh' & He).
  exists h'. split; [done|]. rewrite (linked_handleExec g _ _ _ _ _ _ _ _ _ _ _ _ _ Hr He).
  assert (finishExec (set_agentMu false (set_agentMu true (counted sb))) = sb) as ->; [|by rewrite at_loc_id].
  unfold finishExec. cbn. destruct (Z.gtb_spec (sb_inFlightExec sb + 1) 0); [|lia].
  destruct sb. unfold set_lifecycle. cbn in *. subst. f_equal. lia.
Qed.

(** C26. When the agent reports that running the command failed, the host takes
    it for a broken connection: it closes the connection, dials a new one and
    sends the same request again, so the guest runs the command a second time
    from the state that the first run left; the HTTP answer is that of the
    second run. *)
Theorem exec_failed_runs_again {W} (g : guest W) cfg body req useShell l sb ac s h w r1 e1 w1 r2 err2 w2 :
  execReady cfg body req useShell l sb ac s -> host [] h ->
  is_empty (TrimSpace (sb_VsockPath sb)) = false -> 0 < cfg_AgentPort cfg <= 65535 ->
  env_run g (runExec (execPayload cfg req useShell)) w = (Done (r1, Some e1), w1) -> sendable (execReply r1 (Some e1)) ->
  env_run g (runExec (execPayload cfg req useShell)) w1 = (Done (r2, err2), w2) -> sendable (execReply r2 err2) ->
  exists h' s', host [secondAnswer r2 err2] h' /\
  exec (linked g) (handleExec cfg body) s (h, (w, EmptyString, EmptyString))
  = (Done tt, (s', (h', (w2, EmptyString, EmptyString)))).
Proof.
  intros Hr Hh Hpath Hport Hrun1 Hrs1 Hrun2 Hrs2. pose proof Hr as [Hb Hid Hf Hhp Hst Hin Hmu Hag Hsh Htr Hs].
  assert (l < length (s_heap s))%nat as Hl by (by eapply lookup_lt_Some).
  destruct (linked_exec_twice g cfg req useShell l (counted sb) s ac Hl Hmu Hag Hs w w1 w2 r1 e1 r2 err2 h []
    Hpath Hport Hh Hrun1 Hrs1 Hrun2 Hrs2) as (h' & sb' & Hh' & _ & He).
  exists h', (at_loc l (finishExec sb') s). split; [done|].
  by rewrite (linked_handleExec g _ _ _ _ _ _ _ _ _ _ _ _ _ Hr He).
Qed.

(** ** Witnesses *)

Definition sample_exec : execRequest := MkExecReq "sb-1" " echo hi " [] None 5000.

Definition sample_exec_body : string :=
  marshal (JObj [("sandbox_id"%string, JStr "sb-1"); ("cmd"%string, JStr " echo hi "); ("timeout_ms"%string, JNum "5000")]).

Lemma exec_requests_accepted_witness :
  chooseShell sample_exec = inr true /\
  normalizeArgv (execPayload sample_cfg sample_exec true) = Ok ["/bin/sh"%string; "-lc"%string; "echo hi"%string]
  /\ is_empty (TrimSpace (eq_Cmd sample_exec)) = false.
Proof.
  split; [reflexivity|]. exact (exec_requests_accepted sample_cfg sample_exec true eq_refl).
Defined.

(** A timeout of 9223372036855 ms: the guest stops the command after 20 s. *)
Definition sample_patient : execRequest := MkExecReq "sb-1" "sleep 30" [] None 9223372036855.

Lemma exec_timeout_applied_witness :
  runExecTimeout (execPayload sample_cfg sample_patient true) = 20 * second
  /\ runExecTimeout (execPayload sample_cfg sample_patient true) < 9223372036855 * millisecond.
Proof.
  split; [vm_compute; reflexivity|].
  apply (exec_timeout_applied sample_cfg sample_patient true); [split; vm_compute; congruence|split; vm_compute; congruence|].
  vm_compute. reflexivity.
Defined.

Definition connected_sandbox : sandbox := set_agent (Some 5) sample_sandbox.
Definition connected_server : server := MkServer 1 0 0 {["sb-1" := 0%nat]} [connected_sandbox] None.
Definition quiet_host : hostSide := MkHost 0 [] false.

Lemma sample_exec_ready : execReady sample_cfg sample_exec_body sample_exec true 0 connected_sandbox 5 connected_server.
Proof.
  split; try (vm_compute; reflexivity); [cbn; lia|].
  repeat constructor; try (by vm_compute); try (unfold is_int64; simpl; lia).
Qed.

Lemma exec_end_to_end_witness :
  execReady sample_cfg sample_exec_body sample_exec true 0 connected_sandbox 5 connected_server /\
  exists h', host [(200, PExec (MkExecResp "hi" EmptyString 0))] h' /\
  exec (linked small_guest) (handleExec sample_cfg sample_exec_body) connected_server (quiet_host, ([], "hi"%string, EmptyString, EmptyString))
  = (Done tt, (connected_server, (h', ([], EmptyString, EmptyString, EmptyString)))).
Proof.
  split; [exact sample_exec_ready|].
  refine (exec_end_to_end small_guest sample_cfg sample_exec_body sample_exec true 0 connected_sandbox 5 connected_server quiet_host
    ([], "hi"%string) (MkExecResponse 0 "hi" EmptyString false) ([], EmptyString) sample_exec_ready (conj eq_refl eq_refl) _ _).
  - vm_compute. reflexivity.
  - split; [|by vm_compute]. repeat split; try (by vm_compute); unfold is_int64; vm_compute; congruence.
Defined.

(** A guest that counts the commands it starts, and cannot collect their
    output. *)
Definition sick_guest (X : Type) (e : agentE X) (w : nat) : X * nat :=
  match e in agentE X return X * nat with
  | GStart _ _ _ => (Ok 100, S w)
  | GWait _ => (Some (Some (errorf [Lit "read |0: file already closed"])), w)
  | e => let '(x, _) := small_guest _ e ([], EmptyString) in (x, w)
  end.

Lemma exec_failed_runs_again_witness :
  execReady sample_cfg sample_exec_body sample_exec true 0 connected_sandbox 5 connected_server /\
  exists h' s', host [(500, PError [Lit "agent exec failed: "; Lit "read |0: file already closed"])] h' /\
  exec (linked sick_guest) (handleExec sample_cfg sample_exec_body) connected_server (quiet_host, (0%nat, EmptyString, EmptyString))
  = (Done tt, (s', (h', (2%nat, EmptyString, EmptyString)))).
Proof.
  split; [exact sample_exec_ready|].
  refine (exec_failed_runs_again sick_guest sample_cfg sample_exec_body sample_exec true 0 connected_sandbox 5 connected_server quiet_host
    0%nat (MkExecResponse 1 EmptyString EmptyString false) (errorf [Lit "read |0: file already closed"]) 1%nat
    (MkExecResponse 1 EmptyString EmptyString false) (Some (errorf [Lit "read |0: file already closed"])) 2%nat
    sample_exec_ready (conj eq_refl eq_refl) eq_refl (conj eq_refl _) _ _ _ _).
  - vm_compute. congruence.
  - vm_compute. reflexivity.
  - split; [|by vm_compute]. repeat split; try (by vm_compute); unfold is_int64; vm_compute; congruence.
  - vm_compute. reflexivity.
  - split; [|by vm_compute]. repeat split; try (by vm_compute); unfold is_int64; vm_compute; congruence.
Defined.
