(* ===== verification/ReplySize.v ===== *)
(** * How large the reply to an exec can be

    The outputs of a command are bounded by max_output_bytes, the frame by
    8 MiB; between them stands JSON, which writes a byte as up to six. *)

From S2P Require Import Prelude AgentFacts HostGuest.

(** ** The length of a JSON string *)

Lemma len_cons c s : len (String c s) = 1 + len s.
Proof. unfold len. cbn. lia. Qed.

Lemma len_nonneg s : 0 <= len s.
Proof. unfold len. lia. Qed.

#[local] Hint Rewrite len_app len_cons : len.
#[local] Hint Resolve len_nonneg : core.

Lemma quote_ascii_length c : len (quote_ascii c) <= 6.
Proof. unfold quote_ascii, esc2, esc_u00, str1. by repeat case_match. Qed.

Lemma quote_go_length n s : len (quote_go n s) <= 6 * len s.
Proof.
  revert n. induction s as [s IH] using (induction_ltof1 _ String.length). unfold ltof in IH. intros n.
  destruct s as [|c s]; [done|].
  assert (forall m, len (quote_go m s) <= 6 * len s) as Hs by (intros m; apply IH; cbn; lia).
  cbn [quote_go]. rewrite len_cons. destruct n as [|n].
  2: { rewrite len_cons. specialize (Hs n). lia. }
  destruct (byte_of c <? 128).
  { rewrite len_app. pose proof (quote_ascii_length c). specialize (Hs O). lia. }
  destruct (rune_len (String c s)) as [|m].
  { rewrite len_app. change (len esc_fffd) with 6. specialize (Hs O). lia. }
  assert (len (String c (quote_go m s)) <= 6 * (1 + len s)) as Hc by (rewrite len_cons; specialize (Hs m); lia).
  destruct s as [|b [|d r]]; [exact Hc|exact Hc|].
  assert (len (quote_go 0 r) <= 6 * len r) as Hr by (apply IH; cbn; lia).
  destruct (_ && _ && _); [|destruct (_ && _ && _); [|exact Hc]]; rewrite len_app, !len_cons.
  - change (len esc_2028) with 6. lia.
  - change (len esc_2029) with 6. lia.
Qed.

Lemma quote_length s : len (quote s) <= 2 + 6 * len s.
Proof. unfold quote. rewrite len_cons, len_app. pose proof (quote_go_length 0 s). change (len (str1 QUOTE)) with 1. lia. Qed.

(** A text of zero bytes grows sixfold. *)
Definition is_nul (c : ascii) : bool := byte_of c =? 0.

Lemma quote_nul s : str_forall is_nul s = true -> len (quote s) = 2 + 6 * len s.
Proof.
  intros Hs. unfold quote. rewrite len_cons, len_app. change (len (str1 QUOTE)) with 1.
  assert (len (quote_go 0 s) = 6 * len s) as ->; [|lia].
  induction s as [|c s IH]; [done|]. cbn [str_forall] in Hs. apply andb_prop in Hs as [Hc Hs].
  unfold is_nul in Hc. apply Z.eqb_eq in Hc. cbn [quote_go]. rewrite Hc. cbn [Z.ltb Z.compare].
  unfold quote_ascii. rewrite Hc. cbv beta iota zeta delta [Z.eqb Z.ltb Z.compare Pos.eqb orb]. rewrite len_app, len_cons, IH by done.
  change (len (esc_u00 0)) with 6. lia.
Qed.

(** ** The length of a decimal number *)

Lemma digit_bounds c : is_digit c = true -> 48 <= byte_of c <= 57.
Proof. unfold is_digit. intros [H1%Z.leb_le H2%Z.leb_le]%andb_prop. lia. Qed.

Lemma digits_bound d acc v : str_forall is_digit d = true -> digits_value acc d = Some v -> acc * 10 ^ len d <= v.
Proof.
  revert acc. induction d as [|c d IH]; intros acc Hd Hv; cbn [str_forall digits_value] in *.
  - change (10 ^ len EmptyString) with 1. simplify_eq. lia.
  - apply andb_prop in Hd as [Hc Hd]. rewrite Hc in Hv. specialize (IH _ Hd Hv). apply digit_bounds in Hc.
    rewrite len_cons, Z.pow_add_r by (done || apply len_nonneg). change (10 ^ 1) with 10.
    pose proof (Z.pow_pos_nonneg 10 (len d) ltac:(lia) (len_nonneg d)). nia.
Qed.

Lemma itoa_length_nonneg z : 0 <= z < 10 ^ 19 -> len (itoa z) <= 19.
Proof.
  intros Hz. destruct (itoa_nonneg z ltac:(lia)) as [Hd [[-> ->]|(c & t & E & Hc)]]; [by vm_compute|].
  pose proof (digits_value_itoa z EmptyString ltac:(lia)) as Hv. rewrite string_app_nil_r, E in Hv.
  rewrite E in *. cbn [str_forall digits_value] in *. apply andb_prop in Hd as [Hc1 Hd]. rewrite Hc1 in Hv.
  apply digits_bound in Hv; [|done]. apply digit_bounds in Hc1.
  assert (byte_of c <> 48) as Hne.
  { intros H. apply Hc. change 48 with (byte_of "0") in H. unfold byte_of in H. apply N2Z.inj in H.
    apply (f_equal ascii_of_N) in H. by rewrite !ascii_N_embedding in H. }
  assert (10 ^ len t < 10 ^ 19) as Hlt by (pose proof (Z.pow_pos_nonneg 10 (len t) ltac:(lia) (len_nonneg t)); nia).
  apply Z.pow_lt_mono_r_iff in Hlt; [|lia|lia]. rewrite len_cons. lia.
Qed.

Lemma itoa_length z : - 2 ^ 63 <= z < 2 ^ 63 -> len (itoa z) <= 20.
Proof.
  intros Hz. destruct (Z.lt_ge_cases z 0) as [Hn|Hn].
  - rewrite itoa_neg, len_cons by done. pose proof (itoa_length_nonneg (- z) ltac:(lia)). lia.
  - pose proof (itoa_length_nonneg z ltac:(lia)). lia.
Qed.

(** ** Replies *)

Lemma reply_length r :
  len (raw_of (execReply r None))
  = 66 + len (itoa (xs_ExitCode r)) + len (quote (xs_Stdout r)) + len (quote (xs_Stderr r)) + (if xs_TimedOut r then 4 else 5).
Proof.
  unfold raw_of, execReply. cbn [msg_enc Response_message]. rewrite bool_decide_eq_true_2 by done. destruct r as [c o e t].
  unfold marshal. cbn -[quote itoa len Z.add]. rewrite !len_app.
  repeat match goal with |- context [len (quote (String ?a ?b))] =>
    let v := eval vm_compute in (len (quote (String a b))) in change (len (quote (String a b))) with v end.
  destruct t; cbn -[quote itoa Z.add]; unfold len; cbn -[quote itoa Z.add]; lia.
Qed.

(** C27. A reply always fits in a frame when the two outputs together have at
    most 1398076 bytes, so a limit of 699038 bytes per stream is safe whatever
    a command prints: the agent then answers and goes on serving. *)
Theorem small_reply_fits r :
  - 2 ^ 63 <= xs_ExitCode r < 2 ^ 63 -> len (xs_Stdout r) + len (xs_Stderr r) <= 1398076 ->
  len (raw_of (execReply r None)) <= MaxMessageBytes.
Proof.
  intros Hc Hl. rewrite reply_length. pose proof (itoa_length _ Hc).
  pose proof (quote_length (xs_Stdout r)). pose proof (quote_length (xs_Stderr r)). unfold MaxMessageBytes.
  destruct (xs_TimedOut r); lia.
Qed.

(** C28. With the default limit of 1 MiB per stream it need not fit: when a
    command prints 1 MiB of zero bytes on both streams, the agent has run it
    but writes no answer at all, and gives up the connection (the host then
    dials again and repeats the request). *)
Theorem large_reply_lost {W} (g : guest W) rq w w1 r i o :
  sendable rq -> env_run g (handle rq) w = (Done (execReply r None), w1) ->
  str_forall is_nul (xs_Stdout r) = true -> str_forall is_nul (xs_Stderr r) = true ->
  len (xs_Stdout r) = 2 ^ 20 -> len (xs_Stderr r) = 2 ^ 20 ->
  env_run (connected g) serveOne (w, frame (raw_of rq) +:+ i, o) = (Done false, (w1, i, o)).
Proof.
  intros Hrq Hh Ho He Hlo Hle. rewrite (serveOne_run g rq _ w w1 i o Hrq Hh), reply_length, !quote_nul, Hlo, Hle by done.
  rewrite Z.gtb_ltb. destruct (Z.ltb_spec MaxMessageBytes (66 + len (itoa (xs_ExitCode r)) + (2 + 6 * 2 ^ 20) + (2 + 6 * 2 ^ 20) + (if xs_TimedOut r then 4 else 5))) as [_|H]; [done|].
  exfalso. pose proof (len_nonneg (itoa (xs_ExitCode r))). unfold MaxMessageBytes in H. destruct (xs_TimedOut r); lia.
Qed.

(** ** Witnesses *)

Lemma small_reply_fits_witness :
  (- 2 ^ 63 <= 0 < 2 ^ 63 /\ len "hello" + len "world" <= 1398076) /\
  len (raw_of (execReply (MkExecResponse 0 "hello" "world" false) None)) <= MaxMessageBytes.
Proof.
  assert (H1 : - 2 ^ 63 <= 0 < 2 ^ 63) by lia. assert (H2 : len "hello" + len "world" <= 1398076) by (vm_compute; congruence).
  split; [split; [exact H1|exact H2]|].
  exact (small_reply_fits (MkExecResponse 0 "hello" "world" false) H1 H2).
Defined.

(** 2^n zero bytes. *)
Fixpoint nuls (n : nat) : string := match n with O => str1 (chr 0) | S m => nuls m +:+ nuls m end.

Lemma len_nuls n : len (nuls n) = 2 ^ Z.of_nat n.
Proof. induction n as [|n IH]; [done|]. cbn [nuls]. rewrite len_app, IH, Nat2Z.inj_succ, Z.pow_succ_r; lia. Qed.

Lemma nuls_nul n : str_forall is_nul (nuls n) = true.
Proof. induction n as [|n IH]; [done|]. cbn [nuls]. by rewrite str_forall_app, IH. Qed.

(** A guest whose commands print 1 MiB of zero bytes on both streams. *)
Definition nul_guest (X : Type) (e : agentE X) (w : nat) : X * nat :=
  match e in agentE X return X * nat with
  | GPipeRead _ => (Ok (nuls 20), w)
  | GStart _ _ _ => (Ok 100, S w)
  | e => let '(x, _) := small_guest _ e ([], EmptyString) in (x, w)
  end.

Definition one_exec : Request := MkRequest "exec" (Some (MkExecRequest true "cat /dev/zero" [] EmptyString [] 0 0)) None.

Lemma one_exec_sendable : sendable one_exec.
Proof.
  repeat constructor; try (by vm_compute); try (unfold is_int64; simpl; lia).
Qed.

(** A copy whose first read brings exactly the limit. *)
Lemma copy_one_chunk N st chunk :
  0 < N -> len chunk = N ->
  exists k, copyLimited (Z.to_nat N) st N EmptyString = Vis (GPipeRead st) k /\ k (Ok chunk) = Ret chunk.
Proof.
  intros HN Hl. destruct (Z.to_nat N) as [|f] eqn:Ef; [lia|]. cbn [copyLimited].
  destruct (Z.leb_spec N 0); [lia|]. eexists. split; [reflexivity|]. cbv beta iota.
  assert (take_bytes (Z.to_nat N) chunk = chunk) as ->.
  { unfold take_bytes. rewrite <- Hl. unfold len. rewrite Nat2Z.id. apply substring_all. }
  destruct chunk as [|c chunk]; [unfold len in Hl; cbn in Hl; lia|]. cbn [is_empty].
  rewrite Hl, Z.sub_diag, string_app_nil_l. by destruct f.
Qed.

Lemma nul_run : env_run nul_guest (handle one_exec) 0%nat = (Done (execReply (MkExecResponse 0 (nuls 20) (nuls 20) false) None), 1%nat).
Proof.
  destruct (copy_one_chunk (2 ^ 20) Stdout (nuls 20) ltac:(lia) (len_nuls 20)) as (ko & Eo & Ho).
  destruct (copy_one_chunk (2 ^ 20) Stderr (nuls 20) ltac:(lia) (len_nuls 20)) as (ke & Ee & He).
  unfold handle, one_exec. cbv zeta. cbn [rq_Type rq_Exec]. rewrite bool_decide_eq_false_2, bool_decide_eq_true_2 by done.
  unfold runExec. cbv zeta. unfold maxOut. cbn [xq_MaxOutputBytes Z.leb Z.compare]. rewrite Eo, Ee.
  change (normalizeArgv _) with (Ok (A := list string) ["/bin/sh"%string; "-lc"%string; "cat /dev/zero"%string]). cbv beta iota.
  unfold env_run, awaitCommand. cbn -[nuls]. rewrite Ho. cbn -[nuls]. rewrite He. cbn -[nuls]. reflexivity.
Qed.

Lemma large_reply_lost_witness :
  (sendable one_exec /\ env_run nul_guest (handle one_exec) 0%nat = (Done (execReply (MkExecResponse 0 (nuls 20) (nuls 20) false) None), 1%nat)) /\
  env_run (connected nul_guest) serveOne (0%nat, frame (raw_of one_exec) +:+ EmptyString, EmptyString) = (Done false, (1%nat, EmptyString, EmptyString)).
Proof.
  split; [split; [exact one_exec_sendable|exact nul_run]|].
  exact (large_reply_lost nul_guest one_exec 0%nat 1%nat (MkExecResponse 0 (nuls 20) (nuls 20) false) EmptyString EmptyString
    one_exec_sendable nul_run (nuls_nul 20) (nuls_nul 20) (len_nuls 20) (len_nuls 20)).
Defined.
