(* ===== verification/Preflight.v ===== *)
(** * What is in place before the server listens (preflight.go, main.go)

    An observer keeps a log of the checks and preparations of the start that
    succeeded.  [cleared cfg t] says that the log [t] has everything that
    preflight.go demands of the configuration [cfg], in its order; what the
    rest of the start does only extends the log. *)

From S2P Require Import Prelude Config Sample NetnsFacts SnapshotFacts.

(** ** The programs of the start touch no memory, and end under a clock *)

Lemma quiet_envOr n d : quiet (envOr n d) plain.
Proof. unfold envOr, Getenv. only_steps. Qed.
#[export] Hint Resolve quiet_envOr : quiet.

Lemma timed_envOr n d : timed (envOr n d) total.
Proof. unfold envOr, Getenv. timed_steps. Qed.
#[export] Hint Resolve timed_envOr : timed.

Lemma quiet_intOr n d : quiet (intOr n d) plain.
Proof. unfold intOr, Getenv. only_steps. Qed.
#[export] Hint Resolve quiet_intOr : quiet.

Lemma timed_intOr n d : timed (intOr n d) total.
Proof. unfold intOr, Getenv. timed_steps. Qed.
#[export] Hint Resolve timed_intOr : timed.

Lemma quiet_durationOr n d : quiet (durationOr n d) plain.
Proof. unfold durationOr, Getenv. only_steps. Qed.
#[export] Hint Resolve quiet_durationOr : quiet.

Lemma timed_durationOr n d : timed (durationOr n d) total.
Proof. unfold durationOr, Getenv. timed_steps. Qed.
#[export] Hint Resolve timed_durationOr : timed.

Lemma quiet_envConfig : quiet envConfig plain.
Proof. unfold envConfig. only_steps. Qed.
#[export] Hint Resolve quiet_envConfig : quiet.

Lemma timed_envConfig : timed envConfig total.
Proof. unfold envConfig. timed_steps. Qed.
#[export] Hint Resolve timed_envConfig : timed.

Lemma quiet_resolvePath p : quiet (resolvePath p) plain.
Proof. unfold resolvePath, Abs. only_steps. Qed.
#[export] Hint Resolve quiet_resolvePath : quiet.

Lemma timed_resolvePath p : timed (resolvePath p) total.
Proof. unfold resolvePath, Abs. timed_steps. Qed.
#[export] Hint Resolve timed_resolvePath : timed.

Lemma quiet_computeFileSHA256 p : quiet (computeFileSHA256 p) plain.
Proof. unfold computeFileSHA256. only_steps. Qed.
#[export] Hint Resolve quiet_computeFileSHA256 : quiet.

Lemma timed_computeFileSHA256 p : timed (computeFileSHA256 p) total.
Proof. unfold computeFileSHA256. timed_steps. Qed.
#[export] Hint Resolve timed_computeFileSHA256 : timed.

Lemma quiet_detectDefaultInterface : quiet detectDefaultInterface plain.
Proof. unfold detectDefaultInterface. only_steps. Qed.
#[export] Hint Resolve quiet_detectDefaultInterface : quiet.

Lemma timed_detectDefaultInterface : timed detectDefaultInterface total.
Proof. unfold detectDefaultInterface. timed_steps. Qed.
#[export] Hint Resolve timed_detectDefaultInterface : timed.

Lemma quiet_loadConfig : quiet loadConfig plain.
Proof. unfold loadConfig, Getenv. only_steps. Qed.
#[export] Hint Resolve quiet_loadConfig : quiet.

Lemma timed_loadConfig : timed loadConfig total.
Proof. unfold loadConfig, Getenv. timed_steps. Qed.
#[export] Hint Resolve timed_loadConfig : timed.

Lemma quiet_ensureGlobalMasquerade i : quiet (ensureGlobalMasquerade i) plain.
Proof. unfold ensureGlobalMasquerade. only_steps. Qed.
#[export] Hint Resolve quiet_ensureGlobalMasquerade : quiet.

Lemma timed_ensureGlobalMasquerade i : timed (ensureGlobalMasquerade i) total.
Proof. unfold ensureGlobalMasquerade. timed_steps. Qed.
#[export] Hint Resolve timed_ensureGlobalMasquerade : timed.

Lemma quiet_ensureCgroupRoot r : quiet (ensureCgroupRoot r) plain.
Proof. unfold ensureCgroupRoot. only_steps. Qed.
#[export] Hint Resolve quiet_ensureCgroupRoot : quiet.

Lemma timed_ensureCgroupRoot r : timed (ensureCgroupRoot r) total.
Proof. unfold ensureCgroupRoot. timed_steps. Qed.
#[export] Hint Resolve timed_ensureCgroupRoot : timed.

Lemma quiet_scavengeCgroups r : quiet (scavengeCgroups r) plain.
Proof. unfold scavengeCgroups. only_steps. Qed.
#[export] Hint Resolve quiet_scavengeCgroups : quiet.

Lemma timed_scavengeCgroups r : timed (scavengeCgroups r) total.
Proof. unfold scavengeCgroups. timed_steps. Qed.
#[export] Hint Resolve timed_scavengeCgroups : timed.

Lemma quiet_ensurePreflight cfg : quiet (ensurePreflight cfg) plain.
Proof. unfold ensurePreflight. only_steps. Qed.
#[export] Hint Resolve quiet_ensurePreflight : quiet.

Lemma timed_ensurePreflight cfg : timed (ensurePreflight cfg) total.
Proof. unfold ensurePreflight. timed_steps. Qed.
#[export] Hint Resolve timed_ensurePreflight : timed.

Lemma quiet_probe d : quiet (probeReflinkSupport d) plain.
Proof. unfold probeReflinkSupport. only_steps. Qed.
#[export] Hint Resolve quiet_probe : quiet.

Lemma timed_probe d : timed (probeReflinkSupport d) total.
Proof. unfold probeReflinkSupport. timed_steps. Qed.
#[export] Hint Resolve timed_probe : timed.

Lemma quiet_logStartupDiagnostics cfg : quiet (logStartupDiagnostics cfg) plain.
Proof. unfold logStartupDiagnostics. only_steps. Qed.
#[export] Hint Resolve quiet_logStartupDiagnostics : quiet.

Lemma timed_logStartupDiagnostics cfg : timed (logStartupDiagnostics cfg) total.
Proof. unfold logStartupDiagnostics. timed_steps. Qed.
#[export] Hint Resolve timed_logStartupDiagnostics : timed.

Lemma quiet_startup : quiet startup plain.
Proof. unfold startup. only_steps. Qed.
#[export] Hint Resolve quiet_startup : quiet.

Lemma timed_startup : timed startup total.
Proof. unfold startup. timed_steps. Qed.
#[export] Hint Resolve timed_startup : timed.

Lemma timed_prepare cfg : timed (prepare cfg) total.
Proof. unfold prepare. timed_steps. Qed.

(** ** The log *)

Inductive grant :=
  | Root                                                 (* the effective user is root *)
  | Executable (name : string)                           (* exec.LookPath found it *)
  | Present (path : string)                              (* os.Stat found it *)
  | Made (dir : string)                                  (* os.MkdirAll made it, or it was there *)
  | Succeeded (name : string) (args : list string).      (* the command ended with status 0 *)

(** What an answer of the environment grants. *)
Definition granted (X : Type) (e : envE X) : X -> list grant :=
  match e in envE X return X -> list grant with
  | OsGeteuid => fun id => if id =? 0 then [Root] else []
  | LookPath name => fun err => match err with None => [Executable name] | Some _ => [] end
  | OsStat p => fun err => match err with None => [Present p] | Some _ => [] end
  | OsMkdirAll p => fun err => match err with None => [Made p] | Some _ => [] end
  | RunCommand name args => fun r => match r with (_, _, None) => [Succeeded name args] | _ => [] end
  | _ => fun _ => []
  end.

Definition grant_obs (X : Type) (e : envE X) (x : X) (t : list grant) : list grant := t ++ granted X e x.

(** What preflight.go demands, in its order; the masquerade rule is either
    found ([-C]) or added ([-A]).  The golden snapshot, which it makes last
    when snapshots are enabled, is not among them. *)
Definition demands (cfg : config) (op : string) : list grant :=
  [Root; Executable (cfg_FirecrackerBin cfg); Present (cfg_KernelPath cfg); Present (cfg_BaseRootfsPath cfg);
   Present (cfg_SSHPrivateKey cfg); Present "/dev/kvm"; Made (Join [cfg_WorkDir cfg; "sandboxes"%string]);
   Succeeded "sysctl" ["-w"%string; "net.ipv4.ip_forward=1"%string]; Succeeded "iptables" (masqueradeArgs op (cfg_HostNATIface cfg))].

Definition cleared (cfg : config) (t : list grant) : Prop :=
  exists op, op ∈ ["-C"; "-A"]%string /\ demands cfg op `sublist_of` t.

(** ** The log only grows *)

Lemma cleared_grows cfg t t' : cleared cfg t -> t `prefix_of` t' -> cleared cfg t'.
Proof. intros (op & Hop & Ht) [u ->]. exists op. split; [done|]. by apply sublist_inserts_r. Qed.

Abbreviation pwp := (swp (fun _ _ _ _ => True) (envObs grant_obs)).

(** A program that touches no memory may extend the log. *)
Lemma quiet_pwp {A} (p : prog sysE A) P (Q : outcome A -> server -> list grant -> Prop) s t :
  quiet p P -> (forall o t', P o -> t `prefix_of` t' -> Q o s t') -> pwp p Q s t.
Proof.
  unfold only. generalize tt. intros u. revert u t. induction p as [a| | |X e k IH]; intros u t Hp HQ; try by apply HQ.
  destruct Hp as [Hok Hk]. destruct e as [X e|]; [|by destruct Hok].
  apply (swp_sys _ _ e k). intros x _. apply (IH x u); [by apply Hk|].
  intros o t' Ho Ht. apply HQ; [done|]. eapply prefix_app_l, Ht.
Qed.

Lemma quiet_pwp_bind {A B} (p : prog sysE A) (f : A -> prog sysE B) Q s t :
  quiet p plain -> (forall t', Q OutOfFuel s t') ->
  (forall a t', t `prefix_of` t' -> pwp (f a) Q s t') -> pwp (bind p f) Q s t.
Proof.
  intros Hp HF Hf. apply swp_bind. eapply quiet_pwp; [exact Hp|].
  intros [a| | |] t' Ho Ht; cbn [swp_bindQ]; [by apply Hf|destruct Ho|apply HF|destruct Ho].
Qed.

(** ** preflight.go *)

Lemma pwp_masquerade l i (Q : outcome (option error) -> server -> list grant -> Prop) s t :
  l `sublist_of` t ->
  (forall err t', (err = None -> exists op, op ∈ ["-C"; "-A"]%string /\ l ++ [Succeeded "iptables" (masqueradeArgs op i)] `sublist_of` t') ->
     Q (Done err) s t') ->
  pwp (ensureGlobalMasquerade i) Q s t.
Proof.
  intros Hl HQ. unfold ensureGlobalMasquerade, runCmd. destruct (is_empty _); [apply swp_ret, HQ; discriminate|].
  repeat swp_step; apply HQ; intros ?; simplify_eq.
  - exists "-A"%string. split; [by right; left|]. cbn [envObs]. unfold grant_obs. cbn [granted]. rewrite app_nil_r. by apply sublist_app.
  - exists "-C"%string. split; [by left|]. by apply sublist_app.
Qed.

(** A check that must succeed: its grant is added to what the log is known to
    have. *)
Lemma pwp_check {A} (e : envE (option error)) g (k : option error -> prog sysE A) l Q s t :
  granted _ e None = [g] -> l `sublist_of` t ->
  (forall err t', pwp (k (Some err)) Q s t') -> (forall t', l ++ [g] `sublist_of` t' -> pwp (k None) Q s t') ->
  pwp (bind (sys e) k) Q s t.
Proof.
  intros Hg Hl Hbad Hgood. apply swp_sys. intros [err|] _; [apply Hbad|]. apply Hgood.
  cbn [envObs]. unfold grant_obs. rewrite Hg. by apply sublist_app.
Qed.

Lemma pwp_command {A} n args (k : string * string * option error -> prog sysE A) l Q s t :
  l `sublist_of` t ->
  (forall o e err t', pwp (k (o, e, Some err)) Q s t') ->
  (forall o e t', l ++ [Succeeded n args] `sublist_of` t' -> pwp (k (o, e, None)) Q s t') ->
  pwp (bind (runCmd n args) k) Q s t.
Proof.
  intros Hl Hbad Hgood. apply swp_bind. unfold runCmd. apply swp_sys. intros [[o e] [err|]] _; apply swp_ret; cbn [swp_bindQ]; [apply Hbad|].
  apply Hgood. by apply sublist_app.
Qed.

Lemma pwp_ensurePreflight cfg s t :
  [Root] `sublist_of` t ->
  pwp (ensurePreflight cfg) (fun o s' t' => s' = s /\ (o = Done None -> cleared cfg t')) s t.
Proof.
  intros Ht. unfold ensurePreflight. cbn [forRange].
  assert (forall (err : error) t', pwp (Ret (Some err)) (fun o s' t' => s' = s /\ (o = Done None -> cleared cfg t')) s t') as Hbad.
  { intros err t'. by apply swp_ret. }
  eapply pwp_check; [done|exact Ht|intros; apply Hbad|clear t Ht; intros t Ht].
  do 3 (apply swp_bind; eapply pwp_check; [done|exact Ht|intros; apply swp_ret; apply Hbad|clear t Ht; intros t Ht; apply swp_ret; cbn [swp_bindQ]]).
  do 2 (eapply pwp_check; [done|exact Ht|intros; apply Hbad|clear t Ht; intros t Ht]).
  eapply pwp_command; [exact Ht|intros; apply Hbad|clear t Ht; intros _ _ t Ht].
  apply swp_bind. eapply pwp_masquerade; [exact Ht|]. clear t Ht. intros [err|] t H; cbn [swp_bindQ]; [apply Hbad|].
  assert (cleared cfg t) as Hc by (destruct (H eq_refl) as (op & Hop & Hs); by exists op). clear H.
  eapply (quiet_pwp _ plain); [only_steps|]. intros o t' _ Ht'. split; [done|]. intros _. by eapply cleared_grows.
Qed.

(** ** main.go *)

(** The log of the start up to the allocation of the server. *)
Definition granted_at_start {W} (eh : env W) (w : W) : list grant :=
  snd (snd (exec_watched (envObs grant_obs) eh startup (MkServer 0 0 0 ∅ [] None) w [])).

Lemma pwp_startup s : pwp startup (fun o _ t => match o with Done (Ok c) => cleared c t | _ => True end) s [].
Proof.
  unfold startup. apply swp_sys. intros euid _. destruct (Z.eqb_spec euid 0) as [->|]; [|by apply swp_ret]. cbn [negb].
  apply quiet_pwp_bind; [auto with quiet|done|]. intros [cfg|e] t Ht; [|by apply swp_ret].
  apply swp_bind. eapply swp_mono; [|apply pwp_ensurePreflight; destruct Ht as [u ->]; by apply sublist_inserts_r].
  intros [[e|]| | |] s' t' [-> H]; try done; cbn [swp_bindQ].
  apply quiet_pwp_bind; [auto with quiet|done|]. intros [] t2 Ht2. apply swp_ret. eapply cleared_grows, Ht2. by apply H.
Qed.

Lemma startup_cleared {W} (eh : env W) w :
  match fst (exec_watched (envObs grant_obs) eh startup (MkServer 0 0 0 ∅ [] None) w []) with
  | Done (Ok cfg) => cleared cfg (granted_at_start eh w)
  | _ => True
  end.
Proof.
  pose proof (swp_watched (envObs grant_obs) eh startup _ (MkServer 0 0 0 ∅ [] None) w [] (pwp_startup _)) as H.
  unfold granted_at_start. by destruct (exec_watched _ _ _ _ _ _) as [o [[s' w'] t]].
Qed.
