(* ===== verification/Start.v ===== *)
(** * Theorems about the start of the server (Config.v)

    A configuration that is accepted is well formed, and the state in which
    the server begins to listen is the one from which the theorems on
    concurrent requests start. *)

From S2P Require Import Prelude PathFacts TrimFacts Config Sample NetnsFacts SnapshotFacts Preflight.

(** ** The hash *)

Definition is_lower_hex (c : ascii) : bool := is_digit c || Json.between 97 102 c.

Lemma hexlow_hex d : 0 <= d < 16 -> is_lower_hex (hexlow d) = true.
Proof.
  intros H. assert (d ∈ map Z.of_nat (seq 0 16)) as Hd.
  { apply list_elem_of_fmap. exists (Z.to_nat d). rewrite Z2Nat.id by lia. split; [done|]. apply elem_of_seq. lia. }
  assert (forallb (fun d => is_lower_hex (hexlow d)) (map Z.of_nat (seq 0 16)) = true) as Hall by reflexivity.
  rewrite forallb_forall in Hall. by apply Hall, list_elem_of_In.
Qed.

Lemma length_be_bytes n x : length (be_bytes n x) = n.
Proof. revert x. induction n as [|n IH]; intros x; [done|]. cbn. rewrite length_app, IH. cbn. lia. Qed.

Lemma be_bytes_range n x : Forall (fun b => 0 <= b < 256) (be_bytes n x).
Proof.
  revert x. induction n as [|n IH]; intros x; [constructor|]. cbn. apply Forall_app. split; [apply IH|].
  repeat constructor; apply Z.mod_pos_bound; lia.
Qed.

Lemma length_sha_round v kw : length v = 8%nat -> length (sha_round v kw) = 8%nat.
Proof. intros H. unfold sha_round. by repeat case_match. Qed.

Lemma length_sha256 s : length (sha256 s) = 8%nat.
Proof.
  unfold sha256. cbv zeta. generalize (blocks (length (words (sha_pad (bytes_of s)))) (words (sha_pad (bytes_of s)))) as bs. intros bs.
  assert (forall st, length st = 8%nat -> length (fold_left sha_block bs st) = 8%nat) as H; [|by apply H].
  induction bs as [|b bs IH]; intros st Hst; [done|]. cbn. apply IH. unfold sha_block.
  rewrite length_zip_with, Hst.
  assert (forall kws v, length v = 8%nat -> length (fold_left sha_round kws v) = 8%nat) as ->; [|done|done].
  intros kws. induction kws as [|kw kws IHk]; intros v Hv; [done|]. cbn. by apply IHk, length_sha_round.
Qed.

(** The texts that computeFileSHA256 answers. *)
Definition lineage_text (s : string) : Prop := String.length s = 64%nat /\ str_forall is_lower_hex s = true.

Lemma hex_bytes bs :
  Forall (fun b => 0 <= b < 256) bs ->
  String.length (String.concat EmptyString (map hex_lower bs)) = (2 * length bs)%nat
  /\ str_forall is_lower_hex (String.concat EmptyString (map hex_lower bs)) = true.
Proof.
  assert (forall x xs, String.concat EmptyString (x :: xs) = x +:+ String.concat EmptyString xs) as Hc.
  { intros x [|y xs]; [|done]. cbn. by rewrite string_app_nil_r. }
  induction 1 as [|b bs Hb _ [IHl IHh]]; [done|]. rewrite map_cons, Hc, string_length_app, str_forall_app, IHl.
  cbn [length]. split; [change (String.length (hex_lower b)) with 2%nat; lia|]. rewrite IHh, andb_true_r.
  unfold hex_lower, str1. rewrite str_forall_app. cbn [str_forall]. rewrite !hexlow_hex; [done|..].
  - apply Z.mod_pos_bound. lia.
  - split; [apply Z.div_pos; lia|apply Z.div_lt_upper_bound; lia].
Qed.

Lemma hexSHA256_text s : lineage_text (hexSHA256 s).
Proof.
  unfold lineage_text, hexSHA256. pose proof (length_sha256 s) as Hl. destruct (hex_bytes (sha256 s ≫= be_bytes 4)) as [Hlen Hhex].
  - apply Forall_bind. rewrite Forall_forall. intros x _. apply be_bytes_range.
  - split; [|done]. rewrite Hlen. clear Hlen Hhex.
    assert (forall l : list Z, length (l ≫= be_bytes 4) = (4 * length l)%nat) as ->; [|by rewrite Hl].
    induction l as [|x l IH]; [done|]. rewrite bind_cons, length_app, length_be_bytes, IH. cbn. lia.
Qed.

(** A lineage has no blanks, so trimming it changes nothing. *)
Lemma lineage_trim s : lineage_text s -> TrimSpace s = s /\ is_empty s = false.
Proof.
  intros [Hl Hh]. split; [|by destruct s]. apply TrimSpace_visible. eapply str_forall_impl; [|exact Hh].
  intros c. unfold is_lower_hex, is_visible, is_digit, Json.between. intros Hc. apply andb_true_iff. split; apply Z.leb_le.
  all: apply orb_prop in Hc as [Hc|Hc]; apply andb_prop in Hc as [H1%Z.leb_le H2%Z.leb_le]; lia.
Qed.

(** ** Paths *)

Lemma rooted_Clean p : rooted p = true -> rooted (Clean p) = true.
Proof. intros H. unfold Clean. rewrite H. by apply rooted_app. Qed.

Lemma rooted_Join wd p : rooted wd = true -> rooted (Join [wd; p]) = true.
Proof.
  intros H. assert (is_empty wd = false) as He by (by destruct wd). unfold Join.
  rewrite filter_cons_True by done. destruct (filter _ [p]) as [|x xs]; apply rooted_Clean.
  - exact H.
  - exact (rooted_app wd _ H).
Qed.

(** ** loadConfig *)

(** A configuration that loadConfig accepts. *)
Record config_ok (c : config) : Prop := {
  ok_kernel : rooted (cfg_KernelPath c) = true;
  ok_rootfs : rooted (cfg_BaseRootfsPath c) = true;
  ok_key : rooted (cfg_SSHPrivateKey c) = true;
  ok_work : rooted (cfg_WorkDir c) = true;
  ok_clone : cfg_RootfsCloneMode c ∈ ["auto"; "reflink-required"]%string;
  ok_iface : is_empty (cfg_HostNATIface c) = false;
  ok_lineage : if cfg_EnableSnapshots c then lineage_text (cfg_BaseRootfsLineageID c) else cfg_BaseRootfsLineageID c = EmptyString;
}.

(** The working directory of a process is an absolute path. *)
Definition wd_rooted (X : Type) (e : envE X) (_ : unit) : X -> Prop :=
  match e in envE X return X -> Prop with
  | OsGetwd => fun r => match r with Ok wd => rooted wd = true | Err _ => True end
  | _ => fun _ => True
  end.

Abbreviation cwp := (swp wd_rooted (fun _ _ _ t => t)).

Section config.
Context (s : server).

Lemma cwp_envOr {A} name d (k : string -> prog sysE A) Q : (forall v, cwp (k v) Q s tt) -> cwp (bind (envOr name d) k) Q s tt.
Proof. intros H. unfold envOr, Getenv. apply swp_bind. by repeat swp_step. Qed.

Lemma cwp_intOr {A} name d (k : Z -> prog sysE A) Q : (forall v, cwp (k v) Q s tt) -> cwp (bind (intOr name d) k) Q s tt.
Proof. intros H. unfold intOr, Getenv. apply swp_bind. by repeat swp_step. Qed.

Lemma cwp_durationOr {A} name d (k : Z -> prog sysE A) Q : (forall v, cwp (k v) Q s tt) -> cwp (bind (durationOr name d) k) Q s tt.
Proof. intros H. unfold durationOr, Getenv. apply swp_bind. by repeat swp_step. Qed.

Lemma cwp_envConfig {A} (k : config -> prog sysE A) Q :
  (forall c, cfg_BaseRootfsLineageID c = EmptyString -> cwp (k c) Q s tt) -> cwp (bind envConfig k) Q s tt.
Proof.
  intros H. apply swp_bind. unfold envConfig.
  repeat first [apply cwp_envOr; intros ? | apply cwp_intOr; intros ? | apply cwp_durationOr; intros ?].
  apply swp_ret. cbn [swp_bindQ]. by apply H.
Qed.

Lemma cwp_resolvePath {A} p (k : result string -> prog sysE A) Q :
  (forall r, match r with Ok abs => rooted abs = true | Err _ => True end -> cwp (k r) Q s tt) -> cwp (bind (resolvePath p) k) Q s tt.
Proof.
  intros H. apply swp_bind. unfold resolvePath, Abs. destruct (rooted p) eqn:Hp.
  - apply swp_ret. cbn [swp_bindQ]. apply H. by apply rooted_Clean.
  - apply swp_bind, swp_sys. intros [wd|e] Hwd; cbn [wd_rooted] in Hwd; apply swp_ret; cbn [swp_bindQ]; apply swp_ret; cbn [swp_bindQ]; apply H; [|done].
    by apply rooted_Join.
Qed.

Lemma cwp_lineage {A} (b : bool) p (k : result string -> prog sysE A) Q :
  (forall r, match r with Ok l => if b then lineage_text l else l = EmptyString | Err _ => True end -> cwp (k r) Q s tt) ->
  cwp (bind (if b then
       try! lineage := computeFileSHA256 p catch err => Ret (Err (wrapf [Lit "compute base rootfs lineage"] err)) in Ret (Ok lineage)
     else Ret (Ok EmptyString)) k) Q s tt.
Proof.
  intros H. apply swp_bind. destruct b; [|apply swp_ret; cbn [swp_bindQ]; by apply H].
  unfold computeFileSHA256. apply swp_bind. apply swp_bind. apply swp_sys_end. intros [f|e] _; cbn [swp_bindQ]; [|repeat swp_step; by apply H].
  apply swp_defer, swp_sys. intros [data|e] _; repeat swp_step; apply H; [apply hexSHA256_text|done].
Qed.

Lemma cwp_loadConfig : cwp loadConfig (fun o s' _ => s' = s /\ match o with Done (Ok c) => config_ok c | Done (Err _) => True | _ => False end) s tt.
Proof.
  unfold loadConfig. apply cwp_envConfig. intros c Hc.
  apply cwp_resolvePath. intros [kernel|e] Hk; [|by apply swp_ret].
  apply cwp_resolvePath. intros [rootfs|e] Hr; [|by apply swp_ret].
  apply cwp_resolvePath. intros [key|e] Hy; [|by apply swp_ret].
  apply cwp_resolvePath. intros [work|e] Hw; [|by apply swp_ret]. cbv zeta.
  apply cwp_lineage. intros [l|e] Hl; [|by apply swp_ret].
  case_bool_decide as Hmode; cbn [negb]; [|by apply swp_ret].
  unfold Getenv. apply swp_sys. intros host _. cbv zeta.
  destruct (is_empty (TrimSpace host)) eqn:Hh; [|by apply swp_ret; repeat split].
  apply swp_bind. unfold detectDefaultInterface, runCmd. repeat swp_step; try done.
Qed.
End config.

(** C30. A configuration that loadConfig accepts is well formed, whatever the
    environment variables, files and commands: the paths that Firecracker and
    the snapshots use are absolute, the clone mode is one of the two known
    ones, the host interface is named, and the lineage is the 64 digits of a
    SHA-256 exactly when snapshots are enabled. *)
Theorem loadConfig_well_formed {W} (eh : env W) s w :
  (forall w wd, fst (eh _ OsGetwd w) = Ok wd -> rooted wd = true) ->
  match fst (exec eh loadConfig s w) with
  | Done (Ok c) => config_ok c
  | Done (Err _) => True
  | _ => False
  end.
Proof.
  intros Hwd.
  pose proof (swp_exec_only wd_rooted (fun _ _ _ t => t) eh loadConfig
    (fun o s' => s' = s /\ match o with Done (Ok c) => config_ok c | Done (Err _) => True | _ => False end) s w tt) as H.
  destruct (exec eh loadConfig s w) as [o [s' w']]. destruct H as [_ H]; [|apply cwp_loadConfig|exact H].
  intros X e w1 []. destruct e; try done. cbn. specialize (Hwd w1). destruct (fst _); [by apply Hwd|done].
Qed.

(** ** The start as a whole *)

(** A program that touches no memory leaves the server alone and never
    blocks. *)
Lemma quiet_exec {W A} (eh : env W) (p : prog sysE A) P s w :
  quiet p P -> P (fst (exec eh p s w)) /\ fst (snd (exec eh p s w)) = s.
Proof.
  intros Hp. pose proof (swp_exec_only (fun _ _ _ _ => True) (fun _ _ _ t => t) eh p (fun o s' => P o /\ s' = s) s w tt) as H.
  destruct (exec eh p s w) as [o [s' w']]. apply H; [done|].
  eapply (swp_only not_reply _ _ _ P); [exact Hp|done|]. intros o' Ho. by split.
Qed.

Lemma quiet_timed_exec {W A} (eh : env W) clk (p : prog sysE A) s w :
  clocked eh clk -> quiet p plain -> timed p total -> exists a, fst (exec eh p s w) = Done a.
Proof.
  intros Hc Hq Ht. destruct (quiet_exec eh p plain s w Hq) as [Ho _].
  destruct (timed_exec eh clk p total s w Hc Ht) as [Hb|H]; [by rewrite Hb in Ho|].
  destruct (fst (exec eh p s w)); try done. by eexists.
Qed.

(** What startup answers is a configuration that loadConfig accepted. *)
Lemma cwp_startup s : cwp startup (fun o _ _ => match o with Done (Ok c) => config_ok c | _ => True end) s tt.
Proof.
  assert (forall A B (p : prog sysE A) (k : A -> prog sysE B) Q, quiet p plain -> Q OutOfFuel s tt ->
    (forall a, cwp (k a) Q s tt) -> cwp (bind p k) Q s tt) as Hq.
  { intros A B p k Q Hp HF HQ. apply swp_bind. eapply (swp_only not_reply _ _ _ plain); [exact Hp|done|].
    intros [a| | |] Ho; cbn [swp_bindQ]; [apply HQ|destruct Ho|exact HF|destruct Ho]. }
  unfold startup. apply swp_sys. intros euid _. destruct (negb _); [by apply swp_ret|].
  apply swp_bind. eapply swp_mono; [|apply cwp_loadConfig].
  intros [[c|e]| | |] s' [] [-> H]; try done; cbn [swp_bindQ].
  apply Hq; [auto with quiet|done|]. intros [e|]; [by apply swp_ret|].
  apply Hq; [auto with quiet|done|]. intros []. by apply swp_ret.
Qed.

(** The pool after a successful Init is that of a server that has just started. *)
Lemma poolEntry_inj i j : poolEntry i = poolEntry j -> i = j.
Proof. intros H. exact (f_equal nc_Subnet H). Qed.

Lemma filled_initial size s0 :
  s_sandboxes s0 = ∅ -> s_heap s0 = [] -> initial (filled size size s0).
Proof.
  intros Hs Hh. split_and!; [done|done|]. cbn [filled upd_pool s_netnsPool pool_ch pool_all pool_size].
  split_and!; [done| | |].
  - apply NoDup_fmap_2; [intros i j; apply poolEntry_inj|].
    apply NoDup_fmap_2; [intros i j H; cbn in H; lia|]. apply NoDup_seq.
  - unfold poolIndices. by rewrite !length_map, length_seq.
  - by apply Forall_map, Forall_true.
Qed.

(** Programs that only run commands. *)
Definition commands (X : Type) (e : envE X) : Prop := match e with RunCommand _ _ => True | _ => False end.

Lemma commands_masquerade i : only commands (ensureGlobalMasquerade i) total.
Proof. unfold ensureGlobalMasquerade, runCmd. only_steps. Qed.

(** The server that begins to listen: [initial], with the pool that the
    configuration asks for, and with no on-demand subnet used. *)
Definition listening (cfg : config) (s : server) : Prop :=
  initial s /\ s_nextSubnet s = 0
  /\ match s_netnsPool s with
     | Some p => pool_all p = map poolEntry (poolIndices (Z.to_nat (cfg_NetnsPoolSize cfg)))
     | None => cfg_NetnsPoolSize cfg <= 0
     end.

Lemma prepare_result {W} (eh : env W) cfg w :
  let '(o, (s, _)) := exec eh (prepare cfg) (newServer cfg) w in
  o = Done None -> listening cfg s.
Proof.
  apply (swp_exec_only (fun _ _ _ _ => True) (envObs held_obs) eh (prepare cfg)
    (fun o s => o = Done None -> listening cfg s) (newServer cfg) w (MkHeld 0 0 0)); [done|].
  unfold prepare. apply swp_bind. eapply (swp_only commands _ _ _ total); [apply commands_masquerade|by intros X []|].
  intros [[e|]| | |]; try done; intros _; cbn [swp_bindQ].
  destruct (cfg_NetnsPoolSize cfg >? 0) eqn:Hp.
  - apply swp_bind. eapply swp_mono; [|apply Init_held; unfold with_pool, newServer; by rewrite Hp].
    intros [[e|]| | |] s' t' (k & -> & Hk); try done; cbn [swp_bindQ]. apply swp_ret. subst k. intros _.
    split; [by apply filled_initial|]. split; [done|]. done.
  - apply swp_ret. intros _. unfold listening, newServer, initial. rewrite Hp. cbn. split_and!; try done.
    rewrite Z.gtb_ltb in Hp. by apply Z.ltb_ge in Hp.
Qed.

Lemma prepare_done {W} (eh : env W) clk cfg w :
  clocked eh clk -> exists r, fst (exec eh (prepare cfg) (newServer cfg) w) = Done r.
Proof.
  intros Hc. destruct (timed_exec eh clk (prepare cfg) total (newServer cfg) w Hc (timed_prepare cfg)) as [Hb|H].
  - exfalso.
    pose proof (swp_exec_only (fun _ _ _ _ => True) (envObs held_obs) eh (prepare cfg)
      (fun o _ => plain o) (newServer cfg) w (MkHeld 0 0 0)) as H.
    destruct (exec eh (prepare cfg) (newServer cfg) w) as [o [s' w']]. cbn [fst] in Hb. subst o. apply H; [done|].
    unfold prepare. apply swp_bind. eapply (swp_only commands _ _ _ total); [apply commands_masquerade|by intros X []|].
    intros [[e|]| | |]; try done; intros _; cbn [swp_bindQ].
    destruct (cfg_NetnsPoolSize cfg >? 0) eqn:Hp; [|by apply swp_ret].
    apply swp_bind. eapply swp_mono; [|apply Init_held; unfold with_pool, newServer; by rewrite Hp].
    intros [[e|]| | |] s1 t1 (k & -> & Hk); try done; cbn [swp_bindQ]; by apply swp_ret.
  - destruct (fst _); try done. by eexists.
Qed.

(** C29. Under a clock the start of the server ends: either it exits with an
    error, or it begins to listen with a well-formed configuration, after
    everything that the preflight demands of that configuration (the golden
    snapshot aside) was granted in its order, and in an initial state, with the pool entries of subnets 1
    to MANTA_NETNS_POOL_SIZE (no pool when that is not positive).  This is the
    state that the theorems on concurrent requests start from. *)
Theorem start_listens {W} (eh : env W) clk w :
  clocked eh clk -> (forall w wd, fst (eh _ OsGetwd w) = Ok wd -> rooted wd = true) ->
  match fst (start eh w) with
  | Done (Ok (cfg, s)) => config_ok cfg /\ cleared cfg (granted_at_start eh w) /\ listening cfg s
  | Done (Err _) => True
  | _ => False
  end.
Proof.
  intros Hc Hwd. unfold start. set (s0 := MkServer 0 0 0 ∅ [] None).
  destruct (quiet_timed_exec eh clk startup s0 w Hc) as [r Hr]; [auto with quiet|auto with timed|].
  pose proof (swp_exec_only wd_rooted (fun _ _ _ t => t) eh startup
    (fun o _ => match o with Done (Ok c) => config_ok c | _ => True end) s0 w tt) as Hok.
  pose proof (startup_cleared eh w) as Hcl. rewrite (exec_watched_exec (envObs grant_obs) eh startup s0 w []) in Hr, Hok |- *.
  unfold granted_at_start in *. fold s0 in Hcl |- *.
  destruct (exec_watched _ _ _ _ _ _) as [o [[s1 w1] log]]. cbn [fst snd] in *. subst o.
  assert (match r with Ok c => config_ok c | Err _ => True end) as Hcfg.
  { apply Hok; [|apply cwp_startup].
    intros X e w2 []. destruct e; try done. cbn. specialize (Hwd w2). destruct (fst _); [by apply Hwd|done]. }
  destruct r as [cfg|e]; [|done]. destruct (prepare_done eh clk cfg w1 Hc) as [r Hr].
  pose proof (prepare_result eh cfg w1) as Hp. destruct (exec eh (prepare cfg) (newServer cfg) w1) as [o [s2 w2]].
  cbn [fst] in Hr. subst o. destruct r as [e|]; [done|]. split_and!; [done|exact Hcl|by apply Hp].
Qed.

(** ** Witnesses *)

Definition sample_host : env Z := fun X e w =>
  match e in envE X return X * Z with
  | OsGetenv n => (if bool_decide (n = "MANTA_HOST_IFACE"%string) then "eth0"%string
      else if bool_decide (n = "MANTA_NETNS_POOL_SIZE"%string) then " 2 "%string else EmptyString, w + 1)
  | e => answering okResponse _ e w
  end.

Lemma sample_host_clocked : clocked sample_host (fun w => w).
Proof. split; [intros X [] w; cbn; lia|cbn; lia|cbn; lia]. Qed.

Lemma sample_host_wd w wd : fst (sample_host _ OsGetwd w) = Ok wd -> rooted wd = true.
Proof. intros [= <-]. reflexivity. Qed.

Lemma loadConfig_well_formed_witness :
  exists c, fst (exec sample_host loadConfig fresh_server 0) = Done (Ok c) /\ config_ok c
    /\ cfg_WorkDir c = "/srv/manta/.manta-work"%string /\ cfg_NetnsPoolSize c = 2.
Proof.
  pose proof (loadConfig_well_formed sample_host fresh_server 0 sample_host_wd) as H.
  destruct (fst (exec sample_host loadConfig fresh_server 0)) as [[c|e]| | |] eqn:E;
    [|vm_compute in E; discriminate E|destruct H|destruct H|destruct H].
  exists c. split; [reflexivity|]. split; [exact H|].
  vm_compute in E. injection E as <-. split; reflexivity.
Defined.

Lemma start_listens_witness :
  exists cfg s, fst (start sample_host 0) = Done (Ok (cfg, s)) /\ config_ok cfg
    /\ cleared cfg (granted_at_start sample_host 0) /\ listening cfg s /\ s_netnsPool s <> None.
Proof.
  pose proof (start_listens sample_host (fun w => w) 0 sample_host_clocked sample_host_wd) as H.
  destruct (fst (start sample_host 0)) as [[[cfg s]|e]| | |] eqn:E;
    [|vm_compute in E; discriminate E|destruct H|destruct H|destruct H].
  exists cfg, s. split; [reflexivity|]. destruct H as [H1 [H2 H3]]. split; [exact H1|]. split; [exact H2|]. split; [exact H3|].
  vm_compute in E. injection E as <- <-. intros Hn. vm_compute in Hn. discriminate Hn.
Defined.
